(* ===== verification/_CoqProject ===== *)
-Q . S2P
Prelude.v
Text.v
Json.v
Errors.v
Regex.v
Validation.v
TimeUtil.v
Rbac.v
Models.v
Dto.v
Events.v
Config.v
Doubles.v
Tracing.v
Jobs.v
Logger.v
Pool.v
SqlSchema.v
Database.v
Samples.v
Users.v
Crypto.v
Conversations.v
RowMapping.v
ConversationInv.v
ConversationProps.v
Repositories.v
Attachments.v
Messages.v
MessageProps.v
Paging.v
Receipts.v
Notifications.v
Tokens.v
Sessions.v
SessionProps.v
UserProps.v
Protocol.v
Connections.v
ConnectionProps.v
Presence.v
Dispatcher.v
DispatcherProps.v
Gateway.v
System.v
Cache.v
Redis.v
Authorization.v
AuthorizationProps.v
Cluster.v
Search.v
AuditTrail.v
Overlap.v
Shared.v
Interleave.v
Metrics.v
Dashboards.v
Gauges.v
OpenApi.v
Http.v
Routes.v
Schema.v
Contract.v
Edge.v
Export.v
Operations.v
Lifecycle.v
