(* ===== verification/Prelude.v ===== *)
(** * realtime-chat: a verification library

    realtime-chat is a chat server in C++20: a REST interface and a WebSocket
    interface (Crow) over services, which keep their state in PostgreSQL (pqxx)
    and reach other instances through Redis.  This library translates the code of
    src/ and include/rtc/ into executable definitions and proves what makes each
    part correct, and what the parts guarantee together.

    ** How the code is represented

    A function that may throw returns a [result]; one that also changes its
    collaborators is a computation [M W E A] on an explicit state [W] (below).  An
    exception is an [exn]: one of the application's own, or any other.  Integers
    are [Z] with their width written out where the code depends on it (ids of 64
    bits, 32-bit masks, counters modulo [2 ^ 64]); texts are byte strings; a JSON
    object, a hash map and a table are finite maps.  A transaction undoes what a
    body that throws has done; the environment may refuse a connection, fail a
    commit, or leave a commit in doubt ([Fault] in Database).  What two threads
    can interleave is a transition system: the executor (Jobs), the pool (Pool),
    the export thread (Export), the sockets with the heartbeat (Gateway), the
    subscriber of the bus and the instances of a cluster (Cluster, Presence), the
    halves of a lookup through the cache (Authorization).  A service call is a
    sequence of transactions; the theorems of most files are about calls one after
    the other, and Overlap, Shared and Interleave cut the same calls at their
    transactions and interleave them.  The composition root is a list of steps over the members it
    builds, starts, stops and destroys (Lifecycle).

    Libraries are parameters, with their documented behaviour as laws where a
    theorem needs it, and with a concrete instance where it is evaluated:
    [JsonText] (Json), [JwtCpp] (Tokens), [PasswordHasher] (Users), [Sha256]
    (Attachments), [Bcrypt] and [OpenSsl] (Crypto), [Strtod]
    (Config), [DoubleAdd] and [DoubleDiv] (Metrics), the random engine (Tracing),
    [Spdlog] and [Pattern] (Logger), [Redis] (Redis), [Asio] (Export), and of
    PostgreSQL the text functions [TextSearch],
    [FullText], [PgText], [PgTime] and [ViolationText].  Interfaces of the program
    are classes that one component implements and others are proved against:
    [CacheStore] with [CacheStoreLaws] (Cache; implemented in memory there and over
    Redis in Redis), [TokenService] with [TokenServiceLaws] (Tokens),
    [PasswordHasher] and [Sha256] (implemented by Crypto).

    A comment before a definition names the file, the lines and the symbol it
    translates.

    ** The parts

    Foundations.  Prelude (this file: the monad, its rules, lists and options),
    Text (C and C++ string routines), Json (nlohmann::json), Regex (regular
    expressions by derivatives), TimeUtil (src/utils/time.cpp), Errors
    (include/rtc/errors, include/rtc/http/guard.hpp), Config (src/config),
    Samples (a small database to evaluate on).

    Data.  Validation (src/validation), Rbac (include/rtc/security/role.hpp),
    Models (include/rtc/models), Dto (src/dto), Events (src/events/domain_event.cpp
    and the typed events), Database (the tables, database/base_repository.hpp),
    SqlSchema (the statements of migrations/ and the catalog they build),
    RowMapping (the select lists, row mappers and inserts of src/repositories
    against that catalog).

    Services and repositories.  Users, Conversations, Repositories (messages,
    attachments, receipts, reactions), Attachments, Messages, Receipts,
    Notifications, Tokens, Sessions, Search, AuditTrail model src/services and
    src/repositories; ConversationInv, ConversationProps, MessageProps, Paging,
    SessionProps and UserProps hold their theorems; System composes all of them,
    call by call.  Overlap is a rely-guarantee logic for calls cut at their
    transactions, Shared proves it of every writing transaction of the
    repositories, and Interleave of all calls.

    Real time.  Protocol (frames and feature flags), Connections (sessions, rooms
    and fan-out), Presence, Dispatcher (the lifecycle of a socket), Cluster (the
    bus between instances, with its subscriber thread) model src/realtime and
    src/services/presence_service.cpp; Gateway the handlers of
    src/controllers/websocket_controller.cpp and the thread of
    src/realtime/heartbeat_monitor.cpp; ConnectionProps and DispatcherProps hold
    theorems.

    Infrastructure.  Jobs (src/jobs, the event bus of src/events, the log
    context), Logger (src/logging/logger.cpp), Pool (src/database), Cache (src/cache,
    src/ratelimit), Redis (src/cache/redis_cache_store.cpp), Crypto
    (src/security/bcrypt_password_hasher.cpp, src/utils/hash.cpp), Tracing
    (src/tracing and its middleware), Export (the span exporters and the export
    thread of src/tracing), Doubles (how the standard library prints one), Metrics
    (src/metrics and its middleware), Gauges (what src/application.cpp registers for
    a scrape), Operations (the health probes, the latency probe and the documentation pages).

    Edge.  Authorization (authorization_service.cpp, the guard of
    auth_middleware.cpp, the administration endpoints that change something), Http
    (the REST controllers and the table of routes), Dashboards (the figures the
    administration endpoints report), Edge (API versions and the middleware stack);
    AuthorizationProps holds theorems.

    Description.  OpenApi (src/docs/openapi_spec.cpp, the document as a value),
    Routes (the rules the controllers register, include/rtc/http/route_registrar.hpp),
    Schema (what it is for a value to conform to a schema of the document, and that
    the objects of Dto do), Contract (the handlers against the document).

    The program.  Lifecycle (src/application.cpp, include/rtc/application.hpp,
    src/main.cpp: construction, start, stop, destruction and exit status).

    ** What is shown

    - The tables.  Whatever the services are asked, in any order and under any
      faults, a group has one owner, direct conversations, memberships, accounts,
      receipts and reactions are unique ([tables_invariant]); who may administer,
      edit and delete, and what happens when the owner leaves
      ([administration_owner_only], [owner_leaves], [edit_author_only],
      [remove_guarded], [direct_conversation_unique], [delivery_state_monotone]).
      When calls overlap, in any interleaving of their transactions, the declared
      constraints and everything but the membership of owners still hold
      ([interleaved_tables]); [overlap_races] shows what does not.
    - The schema.  The files of migrations/ apply under any faults and leave one
      catalog ([schema_migrates], [migrations_exactly_once]); the queries, row
      mappers and inserts of the repositories fit it ([schema_supports]).
    - Messages.  A message is stored before it is announced, reaches exactly the
      live sessions of the members, each once and in its own protocol version,
      other instances once, and each recipient's notifications
      ([send_persist_then_announce], [ws_message_delivery], [publish_exact],
      [cluster_broadcast_once], [message_notifications], [frame_roundtrip]); a
      socket speaks for the account its handshake verified ([sockets_identified])
      and is closed by the heartbeat exactly when it is silent
      ([heartbeat_exact]); history and search pages enumerate what there is ([paging_complete],
      [search_pages_complete]).
    - Accounts and sessions.  [identifiers_name_one_account],
      [register_then_login], [token_verdict], [refresh_token_single_use],
      [revoke_all_final].
    - Authorization.  Cached decisions are those of the database, a suspension
      takes effect on the next request, every route but three refuses whom it
      should and then changes nothing ([decisions_follow_database],
      [ban_takes_effect], [routes_guarded]); each response passes the middleware
      stack ([edge_policy]).
    - The published interface.  The registered routes are the described ones
      ([documented_routes]), every answer has a described status and a body that
      conforms to its schema ([documented_replies], which also names the two routes
      where it does not), and every error is the described object
      ([error_replies]).
    - Concurrency and operation.  The executor runs each task once and drains
      ([executor_exactly_once], [executor_drains], [published_events_delivered]),
      the pool keeps its bound, the audit trail has
      each event once and every event is counted ([events_counted]), presence converges, closed connections stay silent, the
      limiter is a fixed-window counter over either store, histograms and traces
      are exact, no span is lost on its way to the exporter, the configuration is
      well formed ([pool_bounds], [audit_exactly_once], [presence_converges], [closed_connection_silent],
      [rate_limit_windows], [redis_refines], [histogram_exact],
      [sampled_request_one_trace], [spans_conserved], [config_well_formed]).
    - The program.  The objects are built in an order that works, and however the
      process ends nothing runs any more when they are destroyed ([wiring_order],
      [process_ends]).
    - Where the code does not do what it means to, the theorem says what it does:
      [overlap_races], [rotation_race], [suspension_race], [executor_stop_lost_wakeup],
      [pool_runs_dry], [lost_expiry_locks_out], the last case of [process_ends],
      and further ones next to the code they are about, such as
      [suspended_account_opens_socket], [removed_member_hears_typing],
      [simultaneous_sign_off_unannounced], [failed_open_false_offline],
      [fuzzy_past_the_end], [audit_cursor_skips], [sign_in_unlimited],
      [json_line_ambiguous], [spec_names_the_sender] and
      [unsampled_request_fragments].

    ** Bounds and fuel

    Recursion is structural, with two exceptions that take fuel.  The printing of
    doubles (Doubles): a double lies between [10 ^ -324] and [10 ^ 309], and the
    fuel covers these exponents.  The check of a value against a schema, which
    follows references ([conforms] in Schema): the fuel [depth] of 10 is more than
    the nesting of the document's schemas, and running out of it is a refusal, so
    a theorem that a body conforms cannot hold for want of fuel.  The termination
    of the executor and of the export thread are theorems with a number of
    steps, not a fuel.  Sequences of calls, clocks,
    faults and page sizes are arbitrary; a hypothesis that an id fits 64 bits or a
    number of observations [2 ^ 64] is stated where it is used.

    ** What is not modelled

    The libraries above and Redis; Crow's router, multipart parser and sockets.
    Of PostgreSQL, what a text-search expression matches (a parameter) and the
    locking inside a transaction: a transaction is one step, so interleavings of
    statements of two transactions are not considered.  The headers that only declare an
    interface are covered by the definitions of what they declare.  The benchmarks,
    the load tests and the tests, which only call the program, and the files that
    build, deploy and monitor it.
    [VARCHAR] limits are modelled only where a service relies on them, and log
    lines only as far as a null logger ends the process. *)

From stdpp Require Export base tactics numbers strings gmap list pretty sorting.
From Stdlib Require Export ZArith Ascii.

(** ** Results and the state-and-exception monad

    C++ code that may throw is modelled by [result]; code that also mutates
    its collaborators is modelled by [M W E A], a function from a world [W] to
    a result and the world it leaves behind.  A throw keeps the world reached
    so far: only [with_transaction] (see Database.v) rolls something back. *)

Inductive result (E A : Type) : Type :=
  | Ok (a : A)
  | Err (e : E).
Arguments Ok {E A} a.
Arguments Err {E A} e.

Global Instance result_ret {E} : MRet (result E) := λ A a, Ok a.
Global Instance result_bind {E} : MBind (result E) := λ A B f m,
  match m with Ok a => f a | Err e => Err e end.
Global Instance result_fmap {E} : FMap (result E) := λ A B f m,
  match m with Ok a => Ok (f a) | Err e => Err e end.
Global Instance result_throw {E} : MThrow E (result E) := λ A e, Err e.

Definition is_ok {E A} (r : result E A) : bool :=
  match r with Ok _ => true | Err _ => false end.

Definition M (W E A : Type) : Type := W → result E A * W.

Global Instance M_ret {W E} : MRet (M W E) := λ A a w, (Ok a, w).
Global Instance M_bind {W E} : MBind (M W E) := λ A B f m w,
  match m w with
  | (Ok a, w') => f a w'
  | (Err e, w') => (Err e, w')
  end.
Global Instance M_fmap {W E} : FMap (M W E) := λ A B f m w,
  match m w with
  | (Ok a, w') => (Ok (f a), w')
  | (Err e, w') => (Err e, w')
  end.
Global Instance M_throw {W E} : MThrow E (M W E) := λ A e w, (Err e, w).

Definition gets {W E A} (f : W → A) : M W E A := λ w, (Ok (f w), w).
Definition modify {W E} (f : W → W) : M W E unit := λ w, (Ok (), f w).
Definition lift {W E A} (r : result E A) : M W E A := λ w, (r, w).

(** A [for] loop over a vector whose body may throw. *)
Fixpoint for_each {W E A} (f : A → M W E unit) (l : list A) : M W E unit :=
  match l with
  | [] => mret ()
  | x :: l' => f x ≫= λ _, for_each f l'
  end.

Section Monad_lemmas.
Context {W E : Type}.

Lemma bind_ok_inv {A B} (m : M W E A) (f : A → M W E B) w b w' :
  (m ≫= f) w = (Ok b, w') → ∃ a w1, m w = (Ok a, w1) ∧ f a w1 = (Ok b, w').
Proof. unfold mbind, M_bind. destruct (m w) as [[a|e] w1]; naive_solver. Qed.

Lemma bind_err_inv {A B} (m : M W E A) (f : A → M W E B) w e w' :
  (m ≫= f) w = (Err e, w') →
  m w = (Err e, w') ∨ ∃ a w1, m w = (Ok a, w1) ∧ f a w1 = (Err e, w').
Proof. unfold mbind, M_bind. destruct (m w) as [[a|e'] w1]; naive_solver. Qed.

Lemma bind_ok {A B} (m : M W E A) (f : A → M W E B) w a w1 :
  m w = (Ok a, w1) → (m ≫= f) w = f a w1.
Proof. intros H. unfold mbind, M_bind. by rewrite H. Qed.

Lemma bind_err {A B} (m : M W E A) (f : A → M W E B) w e w1 :
  m w = (Err e, w1) → (m ≫= f) w = (Err e, w1).
Proof. intros H. unfold mbind, M_bind. by rewrite H. Qed.

(** A property of worlds that every step keeps is kept by a sequence. *)
Definition keeps {A} (P : W → Prop) (m : M W E A) : Prop :=
  ∀ w, P w → P (m w).2.

Lemma keeps_ret {A} P (a : A) : keeps P (mret a).
Proof. intros w; done. Qed.
Lemma keeps_throw {A} P (e : E) : keeps (A:=A) P (mthrow e).
Proof. intros w; done. Qed.
Lemma keeps_gets {A} P (f : W → A) : keeps P (gets f).
Proof. intros w; done. Qed.
Lemma keeps_bind {A B} P (m : M W E A) (f : A → M W E B) :
  keeps P m → (∀ a, keeps P (f a)) → keeps P (m ≫= f).
Proof.
  intros Hm Hf w Hw. unfold mbind, M_bind. specialize (Hm w Hw).
  destruct (m w) as [[a|e] w1]; simpl in *; [by apply Hf|done].
Qed.
Lemma keeps_for_each {A} P (f : A → M W E unit) l :
  (∀ a, keeps P (f a)) → keeps P (for_each f l).
Proof. intros Hf. induction l; simpl; [apply keeps_ret|by apply keeps_bind]. Qed.
End Monad_lemmas.

Create HintDb keeps discriminated.
#[export] Hint Resolve keeps_ret keeps_throw keeps_gets keeps_bind keeps_for_each : keeps.

(** [minv H] opens a hypothesis [H : m w = (Ok b, w')] about a monadic program
    into one hypothesis per step. *)
Ltac minv_step H :=
  lazymatch type of H with
  | mbind _ _ _ = (Ok _, _) =>
      let a := fresh "a" in let w := fresh "w" in let H1 := fresh "Hm" in
      apply bind_ok_inv in H as (a & w & H1 & H)
  end.
Ltac msimpl := unfold mbind, M_bind, mret, M_ret, mthrow, M_throw, gets, modify, lift in *; simpl in *.

(** ** Machine integers *)

Definition int64_min : Z := (- 2 ^ 63)%Z.
Definition int64_max : Z := (2 ^ 63 - 1)%Z.
Definition int32_min : Z := (- 2 ^ 31)%Z.
Definition int32_max : Z := (2 ^ 31 - 1)%Z.
Definition uint64_max : Z := (2 ^ 64 - 1)%Z.

Definition in_range (lo hi z : Z) : bool := (lo <=? z)%Z && (z <=? hi)%Z.
Definition in_int64 (z : Z) : bool := in_range int64_min int64_max z.

Lemma in_range_spec lo hi z : in_range lo hi z = true ↔ (lo <= z <= hi)%Z.
Proof. unfold in_range. rewrite andb_true_iff, !Z.leb_le. done. Qed.
