(* ===== verification/Text.v ===== *)
(** * Text: the C and C++ character and string routines the sources use

    Bytes are [ascii], [std::string] and [std::string_view] are [string].  The
    classification functions are those of the "C" locale; [to_string] is
    [std::to_string] on integers and [from_chars] is [std::from_chars] in base
    ten: it consumes the longest digit prefix and reports the unread rest. *)

From S2P Require Import Prelude.
Open Scope string_scope.
Open Scope Z_scope.

Definition code (c : ascii) : Z := Z.of_N (N_of_ascii c).

Definition isdigit (c : ascii) : bool := in_range 48 57 (code c).
Definition isupper (c : ascii) : bool := in_range 65 90 (code c).
Definition islower (c : ascii) : bool := in_range 97 122 (code c).
Definition isalpha (c : ascii) : bool := isupper c || islower c.
Definition isalnum (c : ascii) : bool := isalpha c || isdigit c.
Definition isspace (c : ascii) : bool := (code c =? 32) || in_range 9 13 (code c).
Definition tolower (c : ascii) : ascii :=
  if isupper c then ascii_of_N (N_of_ascii c + 32) else c.

(** [std::all_of], [std::transform] and [find] over the bytes of a string. *)
Fixpoint all_of (p : ascii → bool) (s : string) : bool :=
  match s with "" => true | String c r => p c && all_of p r end.
Fixpoint transform (f : ascii → ascii) (s : string) : string :=
  match s with "" => "" | String c r => String (f c) (transform f r) end.
Definition any_of (p : ascii → bool) (s : string) : bool := negb (all_of (λ c, negb (p c)) s).

(** Drops the longest prefix (suffix) of bytes that satisfy [p]. *)
Fixpoint drop_while (p : ascii → bool) (s : string) : string :=
  match s with
  | "" => ""
  | String c r => if p c then drop_while p r else s
  end.
Fixpoint drop_while_end (p : ascii → bool) (s : string) : string :=
  match s with
  | "" => ""
  | String c r =>
      match drop_while_end p r with
      | "" => if p c then "" else String c ""
      | r' => String c r'
      end
  end.

(** Splits a string after its longest prefix of bytes that satisfy [p]. *)
Fixpoint span (p : ascii → bool) (s : string) : string * string :=
  match s with
  | "" => ("", "")
  | String c r => if p c then let q := span p r in (String c q.1, q.2) else ("", s)
  end.

(** [s.size()]. *)
Definition ssize (s : string) : Z := Z.of_nat (String.length s).

Fixpoint starts_with (prefix s : string) : bool :=
  match prefix, s with
  | "", _ => true
  | String a p, String b r => (code a =? code b) && starts_with p r
  | String _ _, "" => false
  end.

(** ** Integers as text *)

Definition to_string (z : Z) : string := pretty z.

Definition digit_value (c : ascii) : Z := code c - 48.
Fixpoint digits_value (acc : Z) (s : string) : Z :=
  match s with "" => acc | String c r => digits_value (10 * acc + digit_value c) r end.

(** [from_chars signed lo hi s]: [Some (v, rest)] for [ec == errc{}] with [rest]
    the bytes from [ptr] on, [None] for [invalid_argument] and
    [result_out_of_range].  A minus sign is read for signed types only. *)
Definition from_chars (signed : bool) (lo hi : Z) (s : string) : option (Z * string) :=
  let '(negative, body) :=
    match s with
    | String c r => if signed && (code c =? 45) then (true, r) else (false, s)
    | "" => (false, s)
    end in
  let '(ds, rest) := span isdigit body in
  match ds with
  | "" => None
  | _ =>
      let v := if (negative : bool) then - digits_value 0 ds else digits_value 0 ds in
      if in_range lo hi v then Some (v, rest) else None
  end.

Definition from_chars_int64 : string → option (Z * string) := from_chars true int64_min int64_max.

(** The idiom [ec != errc{} || ptr != end]: the whole text is one integer. *)
Definition parse_whole (signed : bool) (lo hi : Z) (s : string) : option Z :=
  match from_chars signed lo hi s with
  | Some (v, "") => Some v
  | _ => None
  end.
Definition parse_int64 : string → option Z := parse_whole true int64_min int64_max.

(** ** Lemmas *)

Lemma code_inj a b : code a = code b → a = b.
Proof.
  unfold code. intros H. apply N2Z.inj in H.
  rewrite <- (ascii_N_embedding a), <- (ascii_N_embedding b). by f_equal.
Qed.

Lemma code_bound c : 0 <= code c < 256.
Proof. unfold code. pose proof (N_ascii_bounded c). lia. Qed.

Lemma all_of_app p s t : all_of p (s +:+ t) = all_of p s && all_of p t.
Proof. induction s as [|c s IH]; simpl; [done|]. by rewrite IH, andb_assoc. Qed.

Lemma length_append s t : String.length (s +:+ t) = (String.length s + String.length t)%nat.
Proof. induction s as [|c s IH]; [done|]. simpl. by rewrite IH. Qed.

Lemma ssize_nonneg s : 0 <= ssize s.
Proof. unfold ssize. lia. Qed.

Lemma ssize_pos s : s ≠ "" ↔ 0 < ssize s.
Proof. unfold ssize. destruct s; simpl; split; done || lia. Qed.

Lemma length_transform f s : String.length (transform f s) = String.length s.
Proof. induction s as [|c s IH]; simpl; [done|]. by rewrite IH. Qed.

Lemma ssize_transform f s : ssize (transform f s) = ssize s.
Proof. unfold ssize. by rewrite length_transform. Qed.

Lemma transform_idem f s : (∀ c, f (f c) = f c) → transform f (transform f s) = transform f s.
Proof. intros Hf. induction s as [|c s IH]; simpl; [done|]. by rewrite Hf, IH. Qed.

(** A fact about single bytes, checked on all 256 of them. *)
Definition forall_bytes (p : ascii → bool) : bool :=
  forallb (λ n, p (ascii_of_nat n)) (seq 0 256).

Lemma forall_bytes_spec p : forall_bytes p = true → ∀ c, p c = true.
Proof.
  unfold forall_bytes. rewrite forallb_forall. intros H c.
  rewrite <- (ascii_nat_embedding c). apply H. apply in_seq.
  pose proof (nat_ascii_bounded c). lia.
Qed.

Lemma tolower_idem c : tolower (tolower c) = tolower c.
Proof.
  apply code_inj, Z.eqb_eq.
  apply (forall_bytes_spec (λ c, code (tolower (tolower c)) =? code (tolower c))).
  vm_compute. reflexivity.
Qed.

Lemma isspace_tolower c : isspace (tolower c) = isspace c.
Proof.
  apply eqb_true_iff.
  apply (forall_bytes_spec (λ c, Bool.eqb (isspace (tolower c)) (isspace c))).
  vm_compute. reflexivity.
Qed.

Lemma append_nil_r s : s +:+ "" = s.
Proof. induction s as [|c s IH]; [done|]. by apply (f_equal (String c)). Qed.

Lemma append_assoc_str s t u : s +:+ (t +:+ u) = (s +:+ t) +:+ u.
Proof. induction s as [|c s IH]; [done|]. by apply (f_equal (String c)). Qed.

Lemma starts_with_spec p s : starts_with p s = true ↔ ∃ r, s = p +:+ r.
Proof.
  revert s. induction p as [|a p IH]; intros s; simpl.
  { split; [intros _; by exists s|done]. }
  destruct s as [|b s]; [split; [done|intros [r Hr]; done]|].
  rewrite andb_true_iff, Z.eqb_eq, IH. split.
  - intros [Hc [r ->]]. exists r. by rewrite (code_inj _ _ Hc).
  - intros [r [= -> ->]]. eauto.
Qed.

Lemma span_all p s t :
  all_of p s = true → (match t with "" => True | String c _ => p c = false end) →
  span p (s +:+ t) = (s, t).
Proof.
  intros Hs Ht. induction s as [|c s IH]; simpl in *.
  - destruct t as [|c t]; simpl; [done|]. by rewrite Ht.
  - apply andb_true_iff in Hs as [Hc Hs]. by rewrite Hc, (IH Hs).
Qed.

Lemma span_append p s : (span p s).1 +:+ (span p s).2 = s.
Proof.
  induction s as [|c s IH]; simpl; [done|].
  destruct (p c); [by apply (f_equal (String c))|done].
Qed.

Lemma span_fst_all p s : all_of p (span p s).1 = true.
Proof. induction s as [|c s IH]; simpl; [done|]. destruct (p c) eqn:?; simpl; [by rewrite IH, andb_true_r|done]. Qed.

Lemma all_of_impl (p q : ascii → bool) s :
  (∀ c, p c = true → q c = true) → all_of p s = true → all_of q s = true.
Proof.
  intros Hpq. induction s as [|c s IH]; simpl; [done|].
  rewrite !andb_true_iff. intros [??]. auto.
Qed.

(** *** Decimal printing *)

Lemma isdigit_pretty_N_char x : (x < 10)%N → isdigit (pretty_N_char x) = true.
Proof. intros Hx. destruct x as [|p]; [done|]. do 4 (destruct p as [p|p|]; try done; try lia). Qed.

Lemma digit_value_pretty_N_char x : (x < 10)%N → digit_value (pretty_N_char x) = Z.of_N x.
Proof. intros Hx. destruct x as [|p]; [done|]. do 4 (destruct p as [p|p|]; try done; try lia). Qed.

Lemma pretty_N_go_digits x s :
  all_of isdigit s = true → all_of isdigit (pretty_N_go x s) = true.
Proof.
  revert s. induction (N.lt_wf_0 x) as [x _ IH]; intros s Hs.
  destruct (decide (x = 0)%N) as [->|Hx]; [done|].
  rewrite pretty_N_go_step by lia. apply IH.
  - apply N.div_lt; lia.
  - simpl. rewrite isdigit_pretty_N_char, Hs; [done|]. apply N.mod_lt. lia.
Qed.

Lemma pretty_N_go_value x s : digits_value 0 (pretty_N_go x s) = digits_value (Z.of_N x) s.
Proof.
  revert s. induction (N.lt_wf_0 x) as [x _ IH]; intros s.
  destruct (decide (x = 0)%N) as [->|Hx]; [done|].
  rewrite pretty_N_go_step by lia. rewrite IH by (apply N.div_lt; lia). simpl. f_equal.
  rewrite digit_value_pretty_N_char by (apply N.mod_lt; lia).
  pose proof (N.div_mod x 10). lia.
Qed.

(** The digits of a natural number. *)
Definition dec_N (x : N) : string := pretty x.
Global Arguments dec_N : simpl never.

Lemma dec_N_digits (x : N) : all_of isdigit (dec_N x) = true.
Proof. unfold dec_N, pretty, pretty_N. case_decide; [done|]. by apply pretty_N_go_digits. Qed.

Lemma dec_N_value (x : N) : digits_value 0 (dec_N x) = Z.of_N x.
Proof. unfold dec_N, pretty, pretty_N. case_decide; [by subst|]. by rewrite pretty_N_go_value. Qed.

Lemma pretty_N_go_nonempty x s : s ≠ "" → pretty_N_go x s ≠ "".
Proof.
  revert s. induction (N.lt_wf_0 x) as [x _ IH]; intros s Hs.
  destruct (decide (x = 0)%N) as [->|Hx]; [done|].
  rewrite pretty_N_go_step by lia. apply IH; [apply N.div_lt; lia|done].
Qed.

Lemma dec_N_nonempty (x : N) : dec_N x ≠ "".
Proof.
  unfold dec_N, pretty, pretty_N. case_decide; [done|].
  rewrite pretty_N_go_step by lia. by apply pretty_N_go_nonempty.
Qed.

Lemma to_string_cases z :
  (0 <= z ∧ to_string z = dec_N (Z.to_N z)) ∨
  (z < 0 ∧ to_string z = String "-" (dec_N (Z.to_N (- z)))).
Proof. unfold to_string. destruct z; simpl; [left|left|right]; split; try lia; done. Qed.

(** [std::from_chars] reads back what [std::to_string] wrote. *)
Lemma from_chars_to_string lo hi z t :
  lo <= z <= hi → (match t with "" => True | String c _ => isdigit c = false end) →
  from_chars true lo hi (to_string z +:+ t) = Some (z, t).
Proof.
  intros Hz Ht. unfold from_chars.
  destruct (to_string_cases z) as [[Hs Heq]|[Hs Heq]]; rewrite Heq; simpl.
  - destruct (dec_N (Z.to_N z) +:+ t) as [|c r] eqn:E.
    { exfalso. destruct (dec_N (Z.to_N z)) eqn:E2; [|done]. by apply dec_N_nonempty in E2. }
    assert (isdigit c = true) as Hc.
    { pose proof (dec_N_digits (Z.to_N z)) as Hd.
      destruct (dec_N (Z.to_N z)) eqn:E2; [by apply dec_N_nonempty in E2|].
      simpl in E, Hd. injection E as -> _. by apply andb_true_iff in Hd as [? _]. }
    assert ((code c =? 45) = false) as ->.
    { unfold isdigit in Hc. apply in_range_spec in Hc. apply Z.eqb_neq. lia. }
    rewrite <- E, span_all by (done || apply dec_N_digits).
    destruct (dec_N (Z.to_N z)) eqn:E2; [by apply dec_N_nonempty in E2|].
    rewrite <- E2, dec_N_value, Z2N.id by lia.
    by rewrite (proj2 (in_range_spec lo hi z)).
  - rewrite span_all by (done || apply dec_N_digits).
    destruct (dec_N (Z.to_N (- z))) eqn:E2; [by apply dec_N_nonempty in E2|].
    rewrite <- E2, dec_N_value, Z2N.id by lia. rewrite Z.opp_involutive.
    by rewrite (proj2 (in_range_spec lo hi z)).
Qed.

Lemma parse_int64_to_string z : int64_min <= z <= int64_max → parse_int64 (to_string z) = Some z.
Proof.
  intros H. unfold parse_int64, parse_whole. rewrite <- (append_nil_r (to_string z)).
  by rewrite from_chars_to_string.
Qed.

Lemma to_string_inj z z' : to_string z = to_string z' → z = z'.
Proof. apply pretty_Z_inj. Qed.

(** Every byte of a printed integer is a digit or the minus sign. *)
Definition is_int_char (c : ascii) : bool := isdigit c || (code c =? 45).

Lemma to_string_chars z : all_of is_int_char (to_string z) = true.
Proof.
  destruct (to_string_cases z) as [[_ ->]|[_ ->]]; simpl;
    (eapply all_of_impl; [|apply dec_N_digits]); intros c Hc; unfold is_int_char; by rewrite Hc.
Qed.

(** Two strings agree on the text before the first separator. *)
Lemma append_sep_inj p c s s' t t' :
  all_of p s = true → all_of p s' = true → p c = false →
  s +:+ String c t = s' +:+ String c t' → s = s' ∧ t = t'.
Proof.
  intros Hs Hs' Hc Heq.
  assert (span p (s +:+ String c t) = (s, String c t)) as H1 by (by apply span_all).
  assert (span p (s' +:+ String c t') = (s', String c t')) as H2 by (by apply span_all).
  rewrite Heq in H1. rewrite H1 in H2. by injection H2.
Qed.

(** What the services use of [utils::sha256_hex], which Crypto models. *)
Class Sha256 := sha256_hex : string → string.
