(* ===== verification/Json.v ===== *)
(** * Json: values of nlohmann::json and the accessors the sources call on them

    A JSON object is nlohmann's [std::map], i.e. a finite map with one value per
    key.  [JInt] is both integer representations of the library, signed and
    unsigned; [JFloat] a number with a fraction or exponent, as mantissa and
    decimal exponent.  Text parsing and printing belong to the library and are
    parameters ([JsonText]) of the definitions that use them. *)

From S2P Require Import Prelude Text.
Open Scope string_scope.
Open Scope Z_scope.

Unset Elimination Schemes.
Inductive json : Type :=
  | JNull
  | JBool (b : bool)
  | JInt (z : Z)
  | JFloat (mantissa exponent : Z)
  | JStr (s : string)
  | JArr (l : list json)
  | JObj (m : gmap string json).
Set Elimination Schemes.

Global Instance json_inhabited : Inhabited json := populate JNull.

Definition is_null (j : json) : bool := match j with JNull => true | _ => false end.
Definition is_string (j : json) : bool := match j with JStr _ => true | _ => false end.
Definition is_object (j : json) : bool := match j with JObj _ => true | _ => false end.
Definition is_array (j : json) : bool := match j with JArr _ => true | _ => false end.
Definition is_number_integer (j : json) : bool := match j with JInt _ => true | _ => false end.

(** [j.find(k)]: [None] is [j.end()]; a value that is not an object has no
    members. *)
Definition find (j : json) (k : string) : option json :=
  match j with JObj m => m !! k | _ => None end.

(** [it->get<std::int64_t>()]: the library casts the stored 64-bit number. *)
Definition get_int64 (z : Z) : Z := if z <=? int64_max then z else z - 2 ^ 64.

(** [json{{k, v}, ...}]: the first of two equal keys wins, as for [std::map]
    construction from a range. *)
Definition jobj (l : list (string * json)) : json := JObj (list_to_map l).

(** [j[k] = v] on an object. *)
Definition jset (k : string) (v : json) (j : json) : json :=
  match j with JObj m => JObj (<[k := v]> m) | _ => j end.

Definition jopt {A} (f : A → json) (o : option A) : json :=
  match o with Some a => f a | None => JNull end.

(** The library's parser ([parse(text, nullptr, false)], [None] for a discarded
    value) and printer ([dump()]). *)
Class JsonText := {
  json_parse : string → option json;
  json_dump : json → string
}.

Lemma find_jobj l k : find (jobj l) k = list_to_map (M:=gmap string json) l !! k.
Proof. done. Qed.

Lemma find_jset k k' v j :
  is_object j = true → find (jset k v j) k' = if decide (k = k') then Some v else find j k'.
Proof. destruct j; try done. intros _. simpl. by rewrite lookup_insert. Qed.

Lemma get_int64_id z : int64_min <= z <= int64_max → get_int64 z = z.
Proof. unfold get_int64. intros H. by rewrite (proj2 (Z.leb_le z int64_max)) by lia. Qed.

Lemma get_int64_range z :
  int64_min <= z <= uint64_max → int64_min <= get_int64 z <= int64_max.
Proof. unfold get_int64, int64_min, int64_max, uint64_max. destruct (Z.leb_spec z (2 ^ 63 - 1)); lia. Qed.
