(* ===== verification/Errors.v ===== *)
(** * Errors: the exception taxonomy and its translation to HTTP

    Models include/rtc/errors and include/rtc/http/guard.hpp: the [ErrorType]
    enumeration with its status and code tables, [AppException] and its
    subclasses, the JSON error envelope, and [run_guarded], the one place where
    a thrown exception becomes a response. *)

From S2P Require Import Prelude Text Json.
Open Scope string_scope.
Open Scope Z_scope.

(* include/rtc/errors/error_type.hpp:11-23, ErrorType *)
Inductive ErrorType :=
  | kValidation | kAuthentication | kAuthorization | kNotFound | kConflict
  | kPayloadTooLarge | kUnsupportedMedia | kRateLimited | kDatabase
  | kConfiguration | kInternal.

Global Instance ErrorType_eq_dec : EqDecision ErrorType.
Proof. solve_decision. Defined.

(* include/rtc/errors/error_type.hpp:26-50, http_status_for *)
Definition http_status_for (type : ErrorType) : Z :=
  match type with
  | kValidation => 400
  | kAuthentication => 401
  | kAuthorization => 403
  | kNotFound => 404
  | kConflict => 409
  | kPayloadTooLarge => 413
  | kUnsupportedMedia => 415
  | kRateLimited => 429
  | kDatabase | kConfiguration | kInternal => 500
  end.

(* include/rtc/errors/error_type.hpp:53-79, code_for *)
Definition code_for (type : ErrorType) : string :=
  match type with
  | kValidation => "validation_error"
  | kAuthentication => "authentication_error"
  | kAuthorization => "authorization_error"
  | kNotFound => "not_found"
  | kConflict => "conflict"
  | kPayloadTooLarge => "payload_too_large"
  | kUnsupportedMedia => "unsupported_media_type"
  | kRateLimited => "rate_limited"
  | kDatabase => "database_error"
  | kConfiguration => "configuration_error"
  | kInternal => "internal_error"
  end.

(* include/rtc/errors/exceptions.hpp:18-37, AppException *)
Record AppException := {
  ex_type : ErrorType;
  ex_message : string;
  ex_details : string
}.

Definition ex_http_status (ex : AppException) : Z := http_status_for (ex_type ex).
Definition ex_code (ex : AppException) : string := code_for (ex_type ex).

(** A thrown object: one of ours, or some other [std::exception] with its
    [what()] text. *)
Inductive exn :=
  | App (ex : AppException)
  | Std (what : string).

(* include/rtc/errors/exceptions.hpp:40-44, ValidationException *)
Definition ValidationException (message details : string) : exn :=
  App {| ex_type := kValidation; ex_message := message; ex_details := details |}.
(* include/rtc/errors/exceptions.hpp:47-51, AuthenticationException *)
Definition AuthenticationException (message details : string) : exn :=
  App {| ex_type := kAuthentication; ex_message := message; ex_details := details |}.
(* include/rtc/errors/exceptions.hpp:54-58, AuthorizationException *)
Definition AuthorizationException (message details : string) : exn :=
  App {| ex_type := kAuthorization; ex_message := message; ex_details := details |}.
(* include/rtc/errors/exceptions.hpp:61-65, NotFoundException *)
Definition NotFoundException (message details : string) : exn :=
  App {| ex_type := kNotFound; ex_message := message; ex_details := details |}.
(* include/rtc/errors/exceptions.hpp:68-72, ConflictException *)
Definition ConflictException (message details : string) : exn :=
  App {| ex_type := kConflict; ex_message := message; ex_details := details |}.
(* include/rtc/errors/exceptions.hpp:75-79, PayloadTooLargeException *)
Definition PayloadTooLargeException (message details : string) : exn :=
  App {| ex_type := kPayloadTooLarge; ex_message := message; ex_details := details |}.
(* include/rtc/errors/exceptions.hpp:82-86, UnsupportedMediaTypeException *)
Definition UnsupportedMediaTypeException (message details : string) : exn :=
  App {| ex_type := kUnsupportedMedia; ex_message := message; ex_details := details |}.
(* include/rtc/errors/exceptions.hpp:89-93, RateLimitException *)
Definition RateLimitException (message details : string) : exn :=
  App {| ex_type := kRateLimited; ex_message := message; ex_details := details |}.
(* include/rtc/errors/exceptions.hpp:96-100, DatabaseException *)
Definition DatabaseException (message details : string) : exn :=
  App {| ex_type := kDatabase; ex_message := message; ex_details := details |}.
(* include/rtc/errors/exceptions.hpp:103-107, ConfigException *)
Definition ConfigException (message details : string) : exn :=
  App {| ex_type := kConfiguration; ex_message := message; ex_details := details |}.
(* include/rtc/errors/exceptions.hpp:110-114, InternalException *)
Definition InternalException (message details : string) : exn :=
  App {| ex_type := kInternal; ex_message := message; ex_details := details |}.

(* include/rtc/errors/error_response.hpp:24-34, make_error_body *)
Definition make_error_body (code message details : string) : json :=
  let error := jobj [("code", JStr code); ("message", JStr message)] in
  let error := if String.eqb details "" then error else jset "details" (JStr details) error in
  jobj [("error", error)].

(* include/rtc/errors/error_response.hpp:37-39, make_error_body *)
Definition make_error_body_of (ex : AppException) : json :=
  make_error_body (ex_code ex) (ex_message ex) (ex_details ex).

(** A response as the handlers build it, before the body is printed. *)
Record response := {
  status : Z;
  content_type : string;
  body : json
}.

(* src/errors/error_mapper.cpp:12-16, build *)
Definition build (st : Z) (b : json) : response :=
  {| status := st; content_type := "application/json"; body := b |}.

(* src/errors/error_mapper.cpp:29-33, ErrorMapper::internal_error_response *)
Definition internal_error_response : response :=
  build 500 (make_error_body (code_for kInternal) "An unexpected internal error occurred" "").

(* src/errors/error_mapper.cpp:20-27, ErrorMapper::to_response *)
Definition to_response (ex : exn) : response :=
  match ex with
  | App ex => build (ex_http_status ex) (make_error_body_of ex)
  | Std _ => internal_error_response
  end.

(* include/rtc/http/response.hpp:12-16, json_response *)
Definition json_response (st : Z) (b : json) : response :=
  {| status := st; content_type := "application/json"; body := b |}.

(* include/rtc/http/guard.hpp:18-32, run_guarded *)
Definition run_guarded {W} (fn : M W exn response) (w : W) : response * W :=
  match fn w with
  | (Ok r, w') => (r, w')
  | (Err ex, w') => (to_response ex, w')
  end.

(* include/rtc/http/json_body.hpp:14-21, parse_json_body *)
Definition parse_json_body `{JsonText} (text : string) : result exn json :=
  match json_parse text with
  | None => Err (ValidationException "Request body is not valid JSON" "")
  | Some parsed => Ok parsed
  end.

(** ** What a client can observe *)

(** The member [k] of the error object of a response. *)
Definition error_field (k : string) (r : response) : option json :=
  match find (body r) "error" with Some e => find e k | None => None end.

Lemma error_field_app k ex :
  error_field k (to_response (App ex)) =
    if decide (k = "details")
    then if String.eqb (ex_details ex) "" then None else Some (JStr (ex_details ex))
    else if decide (k = "code") then Some (JStr (ex_code ex))
    else if decide (k = "message") then Some (JStr (ex_message ex)) else None.
Proof.
  unfold error_field, to_response, build, make_error_body_of, make_error_body, jobj; simpl.
  rewrite lookup_insert_eq.
  destruct (String.eqb (ex_details ex) ""); simpl; rewrite !lookup_insert, lookup_empty;
    repeat case_decide; subst; congruence || done.
Qed.

Lemma to_response_std_const w w' : to_response (Std w) = to_response (Std w').
Proof. done. Qed.
