(* ===== verification/Regex.v ===== *)
(** * Regex: regular expressions over bytes

    The fragment of ECMAScript patterns the sources use, with [regex_match]
    (the whole text must match) decided by Brzozowski derivatives, and its
    equivalence with the usual language semantics [matches]. *)

From S2P Require Import Prelude Text.
Open Scope string_scope.

Inductive regex : Type :=
  | RNone
  | REps
  | RChar (p : ascii → bool)
  | RSeq (r1 r2 : regex)
  | RAlt (r1 r2 : regex)
  | RStar (r : regex).

Definition RPlus (r : regex) : regex := RSeq r (RStar r).
Definition RLit (c : ascii) : regex := RChar (λ d, (code c =? code d)%Z).

Inductive matches : regex → string → Prop :=
  | m_eps : matches REps ""
  | m_char p c : p c = true → matches (RChar p) (String c "")
  | m_seq r1 r2 s t : matches r1 s → matches r2 t → matches (RSeq r1 r2) (s +:+ t)
  | m_alt_l r1 r2 s : matches r1 s → matches (RAlt r1 r2) s
  | m_alt_r r1 r2 s : matches r2 s → matches (RAlt r1 r2) s
  | m_star_nil r : matches (RStar r) ""
  | m_star_cons r s t : matches r s → matches (RStar r) t → matches (RStar r) (s +:+ t).

Fixpoint nullable (r : regex) : bool :=
  match r with
  | RNone | RChar _ => false
  | REps | RStar _ => true
  | RSeq r1 r2 => nullable r1 && nullable r2
  | RAlt r1 r2 => nullable r1 || nullable r2
  end.

Fixpoint deriv (c : ascii) (r : regex) : regex :=
  match r with
  | RNone | REps => RNone
  | RChar p => if p c then REps else RNone
  | RSeq r1 r2 =>
      if nullable r1 then RAlt (RSeq (deriv c r1) r2) (deriv c r2) else RSeq (deriv c r1) r2
  | RAlt r1 r2 => RAlt (deriv c r1) (deriv c r2)
  | RStar r => RSeq (deriv c r) (RStar r)
  end.

Fixpoint regex_match (r : regex) (s : string) : bool :=
  match s with "" => nullable r | String c s' => regex_match (deriv c r) s' end.

Lemma append_eq_nil s t : s +:+ t = "" → s = "" ∧ t = "".
Proof. destruct s; done. Qed.

Lemma append_eq_cons s t c u :
  s +:+ t = String c u → (s = "" ∧ t = String c u) ∨ ∃ s', s = String c s' ∧ s' +:+ t = u.
Proof. destruct s as [|d s]; [by left|]. intros [= -> <-]. right. eauto. Qed.

Lemma nullable_spec r : nullable r = true ↔ matches r "".
Proof.
  split.
  - induction r; simpl; try done; try (by constructor).
    + intros [H1 H2]%andb_true_iff. apply (m_seq _ _ "" ""); auto.
    + intros [H|H]%orb_true_iff; [by apply m_alt_l; auto|by apply m_alt_r; auto].
  - remember "" as e eqn:He. induction 1; simplify_eq/=; try done.
    + apply append_eq_nil in He as [-> ->]. by rewrite IHmatches1, IHmatches2.
    + by rewrite IHmatches.
    + by rewrite IHmatches, orb_true_r.
Qed.

Lemma deriv_sound c r s : matches (deriv c r) s → matches r (String c s).
Proof.
  revert s. induction r; intros s; simpl; try (by inversion 1).
  - destruct (p c) eqn:?; inversion 1; subst. by constructor.
  - destruct (nullable r1) eqn:Hn; inversion 1; subst.
    + match goal with H : matches (RSeq _ _) _ |- _ => inversion H; subst end.
      apply (m_seq _ _ (String c _)); auto.
    + apply nullable_spec in Hn. apply (m_seq _ _ "" (String c s)); auto.
    + apply (m_seq _ _ (String c _)); auto.
  - inversion 1; subst; [apply m_alt_l|apply m_alt_r]; auto.
  - inversion 1; subst. apply (m_star_cons _ (String c _)); auto.
Qed.

Lemma deriv_complete c r s : matches r (String c s) → matches (deriv c r) s.
Proof.
  remember (String c s) as t eqn:Ht. intros Hm. revert s Ht.
  induction Hm as [|p d Hp|r1 r2 s1 s2 H1 IH1 H2 IH2|r1 r2 s1 H IH|r1 r2 s1 H IH|r|r s1 s2 H1 IH1 H2 IH2];
    intros s Ht; simpl; try done.
  - injection Ht as -> <-. rewrite Hp. constructor.
  - apply append_eq_cons in Ht as [[-> ->]|(s' & -> & <-)].
    + apply nullable_spec in H1. rewrite H1. apply m_alt_r. auto.
    + destruct (nullable r1); [apply m_alt_l|]; constructor; auto.
  - apply m_alt_l; auto.
  - apply m_alt_r; auto.
  - apply append_eq_cons in Ht as [[-> ->]|(s' & -> & <-)]; [by apply IH2|].
    constructor; auto.
Qed.

Lemma regex_match_spec r s : regex_match r s = true ↔ matches r s.
Proof.
  revert r. induction s as [|c s IH]; intros r; simpl; [apply nullable_spec|].
  rewrite IH. split; [apply deriv_sound|apply deriv_complete].
Qed.

(** [\[class\]+] matches exactly the non-empty texts over the class. *)
Lemma matches_star_class p s : matches (RStar (RChar p)) s ↔ all_of p s = true.
Proof.
  split.
  - remember (RStar (RChar p)) as r eqn:Hr. induction 1; simplify_eq/=; [done|].
    inversion H; subst. rewrite all_of_app, IHmatches2 by done. simpl.
    match goal with Hp : p _ = true |- _ => by rewrite Hp end.
  - induction s as [|c s IH]; simpl; [constructor|].
    intros [Hc Hs]%andb_true_iff. apply (m_star_cons _ (String c "") s); [by constructor|auto].
Qed.

Lemma matches_plus_class p s : matches (RPlus (RChar p)) s ↔ s ≠ "" ∧ all_of p s = true.
Proof.
  split.
  - inversion 1 as [| |? ? s1 s2 H1 H2| | | |]; subst. inversion H1; subst.
    apply matches_star_class in H2. split; [done|]. rewrite all_of_app, H2. simpl.
    match goal with Hp : p _ = true |- _ => by rewrite Hp end.
  - intros [Hne Hs]. destruct s as [|c s]; [done|]. simpl in Hs.
    apply andb_true_iff in Hs as [Hc Hs].
    apply (m_seq _ _ (String c "") s); [by constructor|by apply matches_star_class].
Qed.

Lemma matches_lit c s : matches (RLit c) s ↔ s = String c "".
Proof.
  split.
  - inversion 1 as [|p d Hp| | | | |]; subst. apply Z.eqb_eq, code_inj in Hp. by subst.
  - intros ->. constructor. apply Z.eqb_refl.
Qed.

Lemma matches_seq r1 r2 s :
  matches (RSeq r1 r2) s ↔ ∃ s1 s2, s = s1 +:+ s2 ∧ matches r1 s1 ∧ matches r2 s2.
Proof.
  split; [inversion 1; subst; eauto 6|]. intros (s1 & s2 & -> & ? & ?). by constructor.
Qed.
