(* ===== verification/Validation.v ===== *)
(** * Validation: input normalisation and checking

    Models src/validation/validators.cpp: trimming, the e-mail pattern, the
    field validators and the three request normalisers.  A request normaliser
    takes the request by reference in C++; here it returns the normalised
    request, or the [ValidationException] it throws. *)

From S2P Require Import Prelude Text Json Errors Regex.
Open Scope string_scope.
Open Scope Z_scope.

(* include/rtc/dto/auth_dto.hpp:12-22, RegisterRequest *)
Record RegisterRequest := { reg_username : string; reg_email : string; reg_password : string }.
(* include/rtc/dto/auth_dto.hpp:26-31, LoginRequest *)
Record LoginRequest := { login_identifier : string; login_password : string }.
(* include/rtc/dto/profile_dto.hpp:16-25, UpdateProfileRequest *)
Record UpdateProfileRequest := {
  display_name_set : bool;
  upd_display_name : option string;
  bio_set : bool;
  upd_bio : option string;
  avatar_url_set : bool;
  upd_avatar_url : option string
}.

(* include/rtc/validation/validators.hpp:13-15, kUsernameMinLen *)
Definition kUsernameMinLen : Z := 3.
Definition kUsernameMaxLen : Z := 32.
Definition kEmailMaxLen : Z := 254.
(* include/rtc/validation/validators.hpp:16-19, kPasswordMinLen *)
Definition kPasswordMinLen : Z := 8.
Definition kPasswordMaxLen : Z := 72.
(* include/rtc/validation/validators.hpp:21-24, kDisplayNameMaxLen *)
Definition kDisplayNameMaxLen : Z := 64.
Definition kBioMaxLen : Z := 500.
Definition kAvatarUrlMaxLen : Z := 2048.
(* include/rtc/validation/validators.hpp:26-29, kGroupNameMinLen *)
Definition kGroupNameMinLen : Z := 1.
Definition kGroupNameMaxLen : Z := 128.
Definition kMessageMaxLen : Z := 4000.

Definition not_space_not_at (c : ascii) : bool := negb (isspace c) && negb (code c =? 64).

(** [^[^\s@]+@[^\s@]+\.[^\s@]+$] *)
(* src/validation/validators.cpp:18-19, kEmailPattern *)
Definition kEmailPattern : regex :=
  RSeq (RPlus (RChar not_space_not_at))
    (RSeq (RLit "@")
      (RSeq (RPlus (RChar not_space_not_at))
        (RSeq (RLit ".") (RPlus (RChar not_space_not_at))))).

(* src/validation/validators.cpp:21-24, is_valid_username_char *)
Definition is_valid_username_char (c : ascii) : bool :=
  isalnum c || (code c =? 95) || (code c =? 46) || (code c =? 45).

(* src/validation/validators.cpp:26-31, to_lower *)
Definition to_lower (value : string) : string := transform tolower value.

(* src/validation/validators.cpp:35-43, trim *)
Definition trim (value : string) : string := drop_while_end isspace (drop_while isspace value).

(* src/validation/validators.cpp:45-57, validate_username *)
Definition validate_username (username : string) : result exn unit :=
  if (ssize username <? kUsernameMinLen) || (ssize username >? kUsernameMaxLen) then
    Err (ValidationException "Username must be between 3 and 32 characters" "field=username")
  else match username with
  | String c _ =>
      if negb (isalnum c) then
        Err (ValidationException "Username must start with a letter or digit" "field=username")
      else if negb (all_of is_valid_username_char username) then
        Err (ValidationException "Username may only contain letters, digits, '.', '_' and '-'"
               "field=username")
      else Ok ()
  | "" => Err (Std "front() of an empty view")
  end.

(* src/validation/validators.cpp:59-66, validate_email *)
Definition validate_email (email : string) : result exn unit :=
  if String.eqb email "" || (ssize email >? kEmailMaxLen) then
    Err (ValidationException "Email must be between 1 and 254 characters" "field=email")
  else if negb (regex_match kEmailPattern email) then
    Err (ValidationException "Email format is invalid" "field=email")
  else Ok ().

(* src/validation/validators.cpp:68-75, validate_password *)
Definition validate_password (password : string) : result exn unit :=
  if ssize password <? kPasswordMinLen then
    Err (ValidationException "Password must be at least 8 characters" "field=password")
  else if ssize password >? kPasswordMaxLen then
    Err (ValidationException "Password must be at most 72 bytes" "field=password")
  else Ok ().

(* src/validation/validators.cpp:77-85, validate_and_normalize *)
Definition validate_and_normalize_register (request : RegisterRequest) : result exn RegisterRequest :=
  let request :=
    {| reg_username := trim (reg_username request);
       reg_email := to_lower (trim (reg_email request));
       reg_password := reg_password request |} in
  _ ← validate_username (reg_username request);
  _ ← validate_email (reg_email request);
  _ ← validate_password (reg_password request);
  mret request.

(* src/validation/validators.cpp:87-95, validate_and_normalize *)
Definition validate_and_normalize_login (request : LoginRequest) : result exn LoginRequest :=
  let request :=
    {| login_identifier := trim (login_identifier request);
       login_password := login_password request |} in
  if String.eqb (login_identifier request) "" then
    Err (ValidationException "Login identifier is required" "field=identifier")
  else if String.eqb (login_password request) "" then
    Err (ValidationException "Password is required" "field=password")
  else Ok request.

(* src/validation/validators.cpp:101-110, normalize_optional *)
Definition normalize_optional (value : option string) : option string :=
  match value with
  | Some v => let trimmed := trim v in if String.eqb trimmed "" then None else Some trimmed
  | None => None
  end.

(* src/validation/validators.cpp:112-114, is_http_url *)
Definition is_http_url (url : string) : bool := starts_with "http://" url || starts_with "https://" url.

(* src/validation/validators.cpp:118-124, validate_group_name *)
Definition validate_group_name (name : string) : result exn string :=
  let trimmed := trim name in
  if (ssize trimmed <? kGroupNameMinLen) || (ssize trimmed >? kGroupNameMaxLen) then
    Err (ValidationException "Group name must be between 1 and 128 characters" "field=name")
  else Ok trimmed.

(* src/validation/validators.cpp:126-136, validate_message_content *)
Definition validate_message_content (content : string) : result exn string :=
  let trimmed := trim content in
  if String.eqb trimmed "" then
    Err (ValidationException "Message content must not be empty" "field=content")
  else if ssize trimmed >? kMessageMaxLen then
    Err (ValidationException "Message content is too long (max 4000 characters)" "field=content")
  else Ok trimmed.

Definition longer_than (n : Z) (value : option string) : bool :=
  match value with Some v => ssize v >? n | None => false end.

(* src/validation/validators.cpp:138-163, validate_and_normalize *)
Definition validate_and_normalize_profile (request : UpdateProfileRequest)
    : result exn UpdateProfileRequest :=
  display_name ←
    (if display_name_set request then
       let v := normalize_optional (upd_display_name request) in
       if longer_than kDisplayNameMaxLen v then
         Err (ValidationException "Display name must be at most 64 characters" "field=display_name")
       else Ok v
     else Ok (upd_display_name request));
  bio ←
    (if bio_set request then
       let v := normalize_optional (upd_bio request) in
       if longer_than kBioMaxLen v then
         Err (ValidationException "Bio must be at most 500 characters" "field=bio")
       else Ok v
     else Ok (upd_bio request));
  avatar_url ←
    (if avatar_url_set request then
       match normalize_optional (upd_avatar_url request) with
       | Some u =>
           if ssize u >? kAvatarUrlMaxLen then
             Err (ValidationException "Avatar URL is too long" "field=avatar_url")
           else if negb (is_http_url u) then
             Err (ValidationException "Avatar URL must be an http(s) URL" "field=avatar_url")
           else Ok (Some u)
       | None => Ok None
       end
     else Ok (upd_avatar_url request));
  mret {| display_name_set := display_name_set request; upd_display_name := display_name;
          bio_set := bio_set request; upd_bio := bio;
          avatar_url_set := avatar_url_set request; upd_avatar_url := avatar_url |}.

(** ** Trimming *)

(** No whitespace at either end: the shape [trim] produces. *)
Definition ends_trimmed (s : string) : Prop :=
  drop_while isspace s = s ∧ drop_while_end isspace s = s.

Lemma drop_while_split p s :
  ∃ pre, s = pre +:+ drop_while p s ∧ all_of p pre = true.
Proof.
  induction s as [|c s (pre & Hs & Hp)]; simpl; [by exists ""|].
  destruct (p c) eqn:Hc; [|by exists ""].
  exists (String c pre). split; [by apply (f_equal (String c))|]. simpl. by rewrite Hc, Hp.
Qed.

Lemma drop_while_end_split p s :
  ∃ post, s = drop_while_end p s +:+ post ∧ all_of p post = true.
Proof.
  induction s as [|c s (post & Hs & Hp)]; simpl; [by exists ""|].
  destruct (drop_while_end p s) as [|d r] eqn:E.
  - destruct (p c) eqn:Hc.
    + exists (String c s). split; [done|]. simpl. rewrite Hc. by rewrite Hs.
    + exists s. split; [done|]. by rewrite Hs.
  - exists post. split; [by apply (f_equal (String c))|done].
Qed.

Lemma drop_while_idem p s : drop_while p (drop_while p s) = drop_while p s.
Proof.
  induction s as [|c s IH]; simpl; [done|]. destruct (p c) eqn:Hc; [done|]. simpl. by rewrite Hc.
Qed.

Lemma drop_while_end_idem p s : drop_while_end p (drop_while_end p s) = drop_while_end p s.
Proof.
  induction s as [|c s IH]; simpl; [done|].
  destruct (drop_while_end p s) as [|d r] eqn:E.
  - destruct (p c) eqn:Hc; [done|]. simpl. by rewrite Hc.
  - simpl in *. rewrite IH. done.
Qed.

Lemma drop_while_end_head p c s :
  p c = false → ∃ r, drop_while_end p (String c s) = String c r.
Proof. intros Hc. simpl. rewrite Hc. destruct (drop_while_end p s); eauto. Qed.

Lemma trim_ends s : ends_trimmed (trim s).
Proof.
  unfold trim. split; [|apply drop_while_end_idem].
  pose proof (drop_while_idem isspace s) as Hi.
  destruct (drop_while isspace s) as [|c r] eqn:E; [done|].
  destruct (isspace c) eqn:Hc.
  { exfalso. simpl in Hi. rewrite Hc in Hi.
    destruct (drop_while_split isspace r) as (pre & Hr & _).
    apply (f_equal String.length) in Hr. rewrite Hi, length_append in Hr. simpl in Hr. lia. }
  destruct (drop_while_end_head isspace c r Hc) as [r' ->]. simpl. by rewrite Hc.
Qed.

Lemma ends_trimmed_trim s : ends_trimmed s → trim s = s.
Proof. intros [H1 H2]. unfold trim. by rewrite H1, H2. Qed.

Lemma trim_idem s : trim (trim s) = trim s.
Proof. apply ends_trimmed_trim, trim_ends. Qed.

Lemma drop_while_transform p f s :
  (∀ c, p (f c) = p c) → drop_while p (transform f s) = transform f (drop_while p s).
Proof.
  intros Hf. induction s as [|c s IH]; simpl; [done|]. rewrite Hf. by destruct (p c).
Qed.

Lemma drop_while_end_transform p f s :
  (∀ c, p (f c) = p c) → drop_while_end p (transform f s) = transform f (drop_while_end p s).
Proof.
  intros Hf. induction s as [|c s IH]; simpl; [done|]. rewrite IH, Hf.
  destruct (drop_while_end p s); simpl; [by destruct (p c)|done].
Qed.

Lemma ends_trimmed_to_lower s : ends_trimmed s → ends_trimmed (to_lower s).
Proof.
  intros [H1 H2]. unfold to_lower. split.
  - by rewrite (drop_while_transform _ _ _ isspace_tolower), H1.
  - by rewrite (drop_while_end_transform _ _ _ isspace_tolower), H2.
Qed.

(** [trim] removes exactly the surrounding whitespace: the input is the
    result between two runs of whitespace, and the result neither starts nor
    ends with whitespace. *)
Theorem trim_exact s :
  (∃ pre post, s = pre +:+ trim s +:+ post ∧ all_of isspace pre = true ∧ all_of isspace post = true)
  ∧ ends_trimmed (trim s).
Proof.
  split; [|apply trim_ends].
  destruct (drop_while_split isspace s) as (pre & Hs & Hpre).
  destruct (drop_while_end_split isspace (drop_while isspace s)) as (post & Hd & Hpost).
  exists pre, post. split; [|by split]. unfold trim. by rewrite <- Hd.
Qed.

(** ** Field validators *)

Lemma validate_username_ok u :
  validate_username u = Ok () →
  3 <= ssize u <= 32 ∧ all_of is_valid_username_char u = true
  ∧ ∃ c r, u = String c r ∧ isalnum c = true.
Proof.
  unfold validate_username, kUsernameMinLen, kUsernameMaxLen.
  destruct (_ || _) eqn:Hl; [done|]. apply orb_false_iff in Hl as [Hl1 Hl2].
  destruct u as [|c r]; [done|].
  destruct (isalnum c) eqn:Hc; cbn [negb]; [|done].
  destruct (all_of _ _) eqn:Ha; cbn [negb]; [|done]. intros _.
  split; [rewrite Z.gtb_ltb in Hl2; lia|]. eauto.
Qed.

(** An address is accepted exactly when it has between 1 and 254 bytes and
    reads [local@domain.tld] with three non-empty parts free of whitespace and
    of [@]. *)
Theorem validate_email_iff e :
  validate_email e = Ok () ↔
  ssize e <= 254 ∧
  ∃ l d t, e = l +:+ "@" +:+ d +:+ "." +:+ t ∧ l ≠ "" ∧ d ≠ "" ∧ t ≠ "" ∧
    all_of not_space_not_at l = true ∧ all_of not_space_not_at d = true ∧
    all_of not_space_not_at t = true.
Proof.
  unfold validate_email, kEmailMaxLen.
  assert (regex_match kEmailPattern e = true ↔
    ∃ l d t, e = l +:+ "@" +:+ d +:+ "." +:+ t ∧ l ≠ "" ∧ d ≠ "" ∧ t ≠ "" ∧
      all_of not_space_not_at l = true ∧ all_of not_space_not_at d = true ∧
      all_of not_space_not_at t = true) as Hre.
  { rewrite regex_match_spec. unfold kEmailPattern. split.
    - intros (l & s1 & -> & Hl & (a & s2 & -> & Ha & (d & s3 & -> & Hd & (b & t & -> & Hb & Ht)
        %matches_seq)%matches_seq)%matches_seq)%matches_seq.
      apply matches_plus_class in Hl as [??], Hd as [??], Ht as [??].
      apply matches_lit in Ha, Hb. subst. exists l, d, t. eauto 10.
    - intros (l & d & t & -> & ? & ? & ? & ? & ? & ?).
      apply m_seq; [by apply matches_plus_class|]. apply m_seq; [by apply matches_lit|].
      apply m_seq; [by apply matches_plus_class|]. apply m_seq; [by apply matches_lit|].
      by apply matches_plus_class. }
  split.
  - destruct (String.eqb_spec e ""); [done|]. simpl orb.
    destruct (Z.gtb_spec (ssize e) 254); [done|]. simpl.
    destruct (regex_match kEmailPattern e) eqn:E; [|done]. intros _. split; [lia|by apply Hre].
  - intros [Hs Hd]. destruct (String.eqb_spec e "") as [->|_].
    { destruct Hd as (l & d & t & He & Hl & _). by destruct l. }
    simpl orb. destruct (Z.gtb_spec (ssize e) 254); [lia|]. by rewrite (proj2 Hre Hd).
Qed.

Lemma validate_password_ok q : validate_password q = Ok () → 8 <= ssize q <= 72.
Proof.
  unfold validate_password, kPasswordMinLen, kPasswordMaxLen.
  destruct (Z.ltb_spec (ssize q) 8); [done|]. destruct (Z.gtb_spec (ssize q) 72); [done|lia].
Qed.

Lemma validate_message_content_ok c t :
  validate_message_content c = Ok t → t = trim c ∧ 0 < ssize t <= 4000.
Proof.
  unfold validate_message_content, kMessageMaxLen. simpl.
  destruct (String.eqb_spec (trim c) ""); [done|].
  destruct (Z.gtb_spec (ssize (trim c)) 4000); [done|]. intros [= <-].
  apply ssize_pos in n. split; [done|lia].
Qed.

Lemma validate_group_name_ok c t :
  validate_group_name c = Ok t → t = trim c ∧ 1 <= ssize t <= 128.
Proof.
  unfold validate_group_name, kGroupNameMinLen, kGroupNameMaxLen. simpl.
  destruct (_ || _) eqn:Hl; [done|]. apply orb_false_iff in Hl as [Hl1 Hl2].
  intros [= <-]. rewrite Z.gtb_ltb in Hl2. split; [done|lia].
Qed.

(** A registration that passes validation is in normal form: its username
    and e-mail are trimmed, the e-mail is lower case and well formed, the
    lengths are within the documented limits, the password is untouched, and
    validating it again changes nothing. *)
Theorem register_normal_form r r' :
  validate_and_normalize_register r = Ok r' →
  validate_and_normalize_register r' = Ok r' ∧
  ends_trimmed (reg_username r') ∧ 3 <= ssize (reg_username r') <= 32 ∧
  all_of is_valid_username_char (reg_username r') = true ∧
  ends_trimmed (reg_email r') ∧ to_lower (reg_email r') = reg_email r' ∧
  validate_email (reg_email r') = Ok () ∧
  reg_password r' = reg_password r ∧ 8 <= ssize (reg_password r') <= 72.
Proof.
  unfold validate_and_normalize_register at 1. simpl.
  destruct (validate_username _) as [[]|] eqn:Hu; [|done]. simpl.
  destruct (validate_email _) as [[]|] eqn:He; [|done]. simpl.
  destruct (validate_password _) as [[]|] eqn:Hp; [|done]. simpl.
  intros [= <-]. simpl.
  assert (ends_trimmed (to_lower (trim (reg_email r)))) as Het
    by apply ends_trimmed_to_lower, trim_ends.
  assert (to_lower (to_lower (trim (reg_email r))) = to_lower (trim (reg_email r))) as Hlow
    by apply transform_idem, tolower_idem.
  apply validate_username_ok in Hu as Hu'. apply validate_password_ok in Hp as Hp'.
  split; [|destruct Hu' as (?&?&_); repeat split; done || apply trim_ends || lia || apply Het].
  unfold validate_and_normalize_register. simpl.
  rewrite trim_idem, (ends_trimmed_trim _ Het), Hlow, Hu. simpl. rewrite He. simpl. by rewrite Hp.
Qed.

Lemma register_normal_form_witness :
  let r := {| reg_username := " ada "; reg_email := "Ada@Example.com ";
              reg_password := "correct-horse" |} in
  let r' := {| reg_username := "ada"; reg_email := "ada@example.com";
               reg_password := "correct-horse" |} in
  validate_and_normalize_register r = Ok r' ∧ validate_and_normalize_register r' = Ok r'.
Proof.
  split; [reflexivity|].
  exact (proj1 (register_normal_form
    {| reg_username := " ada "; reg_email := "Ada@Example.com "; reg_password := "correct-horse" |}
    {| reg_username := "ada"; reg_email := "ada@example.com"; reg_password := "correct-horse" |}
    eq_refl)).
Defined.
