(* ===== verification/TimeUtil.v ===== *)
(** * TimeUtil: calendar arithmetic and timestamp text

    Models src/utils/time.cpp.  A [TimePoint] is a count of nanoseconds since
    1970-01-01 (the clock's period); C++ integer division is [Z.quot], the
    [unsigned] intermediates are reduced modulo [2^32].  [snprintf] and
    [sscanf] are modelled for the two formats the code uses; an out-of-range
    [%d] is undefined behaviour in C and its model returns the number read. *)

From S2P Require Import Prelude Text.
Open Scope string_scope.
Open Scope Z_scope.

Definition TimePoint : Type := Z.

Definition u32 (z : Z) : Z := z mod 2 ^ 32.
Definition b2z (b : bool) : Z := if b then 1 else 0.

(* include/rtc/utils/time.hpp:26-29, to_unix_seconds *)
Definition to_unix_seconds (tp : TimePoint) : Z := Z.quot tp 1000000000.
Definition from_time_t (secs : Z) : TimePoint := secs * 1000000000.

(* src/utils/time.cpp:18-25, days_from_civil *)
Definition days_from_civil (y m d : Z) : Z :=
  let y := y - b2z (m <=? 2) in
  let era := Z.quot (if 0 <=? y then y else y - 399) 400 in
  let yoe := u32 (y - era * 400) in
  let doy := u32 (Z.quot (153 * (if 2 <? m then m - 3 else m + 9) + 2) 5 + d - 1) in
  let doe := u32 (yoe * 365 + Z.quot yoe 4 - Z.quot yoe 100 + doy) in
  era * 146097 + doe - 719468.

(* src/utils/time.cpp:28-39, civil_from_days *)
Definition civil_from_days (z : Z) : Z * Z * Z :=
  let z := z + 719468 in
  let era := Z.quot (if 0 <=? z then z else z - 146096) 146097 in
  let doe := u32 (z - era * 146097) in
  let yoe := u32 (Z.quot (doe - Z.quot doe 1460 + Z.quot doe 36524 - Z.quot doe 146096) 365) in
  let y := yoe + era * 400 in
  let doy := u32 (doe - (365 * yoe + Z.quot yoe 4 - Z.quot yoe 100)) in
  let mp := u32 (Z.quot (5 * doy + 2) 153) in
  let d := u32 (doy - Z.quot (153 * mp + 2) 5 + 1) in
  let m := u32 (if mp <? 10 then mp + 3 else mp - 9) in
  (y + b2z (m <=? 2), m, d).

(* src/utils/time.cpp:42-45, floor_div *)
Definition floor_div (a b : Z) : Z :=
  let q := Z.quot a b in
  if negb (Z.rem a b =? 0) && negb (Bool.eqb (Z.rem a b <? 0) (b <? 0)) then q - 1 else q.

(** [snprintf] conversions [%0<w>d]: the sign counts towards the width. *)
Fixpoint zeros (n : nat) : string :=
  match n with O => "" | S n => String "0" (zeros n) end.
Definition pad (w : nat) (z : Z) : string :=
  if z <? 0 then
    let ds := dec_N (Z.to_N (- z)) in String "-" (zeros (w - 1 - String.length ds) +:+ ds)
  else let ds := dec_N (Z.to_N z) in zeros (w - String.length ds) +:+ ds.

(* src/utils/time.cpp:49-70, to_iso8601 *)
Definition to_iso8601 (tp : TimePoint) : string :=
  let secs := to_unix_seconds tp in
  let days := floor_div secs 86400 in
  let sod := secs - days * 86400 in
  let '(year, month, day) := civil_from_days days in
  let hour := Z.quot sod 3600 in
  let minute := Z.quot (Z.rem sod 3600) 60 in
  let second := Z.rem sod 60 in
  pad 4 year +:+ "-" +:+ pad 2 month +:+ "-" +:+ pad 2 day +:+ "T" +:+
  pad 2 hour +:+ ":" +:+ pad 2 minute +:+ ":" +:+ pad 2 second +:+ "Z".

(** [sscanf] directives: [%d] skips blanks and reads an optional sign and at
    least one digit; a literal byte must be next; [%*c] drops any one byte. *)
Definition scan_d (s : string) : option (Z * string) :=
  let s := drop_while isspace s in
  let '(negative, body) :=
    match s with
    | String c r => if code c =? 45 then (true, r) else if code c =? 43 then (false, r) else (false, s)
    | "" => (false, "")
    end in
  let '(ds, rest) := span isdigit body in
  if String.eqb ds "" then None
  else Some (if (negative : bool) then - digits_value 0 ds else digits_value 0 ds, rest).
Definition scan_lit (c : ascii) (s : string) : option string :=
  match s with String d r => if code c =? code d then Some r else None | "" => None end.
Definition scan_any (s : string) : option string :=
  match s with String _ r => Some r | "" => None end.

(* src/utils/time.cpp:72-93, parse_pg_timestamp *)
Definition parse_pg_timestamp (value : string) : option TimePoint :=
  if String.eqb value "" then None else
  '(year, s) ← scan_d value; s ← scan_lit "-" s;
  '(month, s) ← scan_d s; s ← scan_lit "-" s;
  '(day, s) ← scan_d s; s ← scan_any s;
  '(hour, s) ← scan_d s; s ← scan_lit ":" s;
  '(minute, s) ← scan_d s; s ← scan_lit ":" s;
  '(second, s) ← scan_d s;
  if (month <? 1) || (12 <? month) || (day <? 1) || (31 <? day) then None
  else
    let days := days_from_civil year month day in
    let secs := days * 86400 + hour * 3600 + minute * 60 + second in
    Some (from_time_t secs).

(** ** Calendar arithmetic *)

Lemma u32_id z : 0 <= z < 2 ^ 32 → u32 z = z.
Proof. intros. unfold u32. by apply Z.mod_small. Qed.

(** Start of year [y] of a 400-year era (years start in March), as a day
    number within the era, and the quantity [civil_from_days] divides by 365. *)
Definition year_start (y : Z) : Z := 365 * y + y / 4 - y / 100.
Definition year_num (doe : Z) : Z := doe - doe / 1460 + doe / 36524 - doe / 146096.

Definition leap (y : Z) : bool :=
  (y mod 4 =? 0) && (negb (y mod 100 =? 0) || (y mod 400 =? 0)).

(** Last day of year [y] of an era: the 29th of February falls at its end. *)
Definition year_last (y : Z) : Z := if leap (y + 1) then 365 else 364.

Definition year_check (n : nat) : bool :=
  let y := Z.of_nat n in
  ((y =? 0) || (year_num (year_start y - 1) <? 365 * y)) && (365 * y <=? year_num (year_start y)) &&
  (year_num (year_start y + year_last y) <? 365 * (y + 1)) &&
  (365 * (y + 1) <=? year_num (year_start y + year_last y + 1)).

Lemma year_checks : forallb year_check (seq 0 399) = true.
Proof. vm_compute. reflexivity. Qed.

Lemma year_num_mono a b : 0 <= a → a <= b → b <= 146096 → year_num a <= year_num b.
Proof. unfold year_num. intros. Z.to_euclidean_division_equations. lia. Qed.

Lemma year_check_399 :
  365 * 399 <= year_num (year_start 399) ∧ year_num (year_start 399 - 1) < 365 * 399.
Proof. vm_compute. split; congruence. Qed.

Lemma year_num_bounds y :
  0 <= y < 399 →
  (y = 0 ∨ year_num (year_start y - 1) < 365 * y) ∧ 365 * y <= year_num (year_start y) ∧
  year_num (year_start y + year_last y) < 365 * (y + 1) ∧
  365 * (y + 1) <= year_num (year_start y + year_last y + 1).
Proof.
  intros Hy. pose proof year_checks as H. rewrite forallb_forall in H.
  specialize (H (Z.to_nat y)). unfold year_check in H. rewrite Z2Nat.id in H by lia.
  rewrite !andb_true_iff, orb_true_iff, Z.eqb_eq, !Z.ltb_lt, !Z.leb_le in H.
  destruct H as [[[? ?] ?] ?]; [apply in_seq|]; lia.
Qed.

Lemma year_start_bounds y : 0 <= y <= 399 → 0 <= year_start y <= 145731.
Proof. unfold year_start. intros. Z.to_euclidean_division_equations. lia. Qed.

Lemma year_last_cases y : year_last y = 364 ∨ year_last y = 365.
Proof. unfold year_last. destruct (leap _); auto. Qed.

(** The day-of-era to year-of-era step finds the year the day lies in. *)
Lemma year_of_day doe :
  0 <= doe <= 146096 →
  let y := year_num doe / 365 in
  0 <= y <= 399 ∧ year_start y <= doe <= year_start y + year_last y.
Proof.
  intros Hd y.
  assert (0 <= year_num doe) by (unfold year_num; Z.to_euclidean_division_equations; lia).
  assert (year_num doe < 365 * 400) by (unfold year_num; Z.to_euclidean_division_equations; lia).
  assert (0 <= y <= 399) as Hy by (unfold y; Z.to_euclidean_division_equations; lia).
  assert (365 * y <= year_num doe < 365 * (y + 1)) as Hn
    by (unfold y; Z.to_euclidean_division_equations; lia).
  clearbody y. split; [done|].
  pose proof (year_start_bounds y Hy) as Hs. pose proof (year_last_cases y) as Hl.
  destruct (decide (y = 399)) as [->|Hne].
  - pose proof year_check_399. assert (year_last 399 = 365) as -> by done.
    assert (year_start 399 = 145731) as E by done. split; [|lia].
    destruct (decide (year_start 399 <= doe)); [done|].
    assert (year_num doe <= year_num (year_start 399 - 1)) by (apply year_num_mono; lia). lia.
  - destruct (year_num_bounds y) as (H1 & H2 & H3 & H4); [lia|]. split.
    + destruct (decide (year_start y <= doe)); [done|]. destruct H1 as [->|H1]; [change (year_start 0) with 0 in *; lia|].
      assert (year_num doe <= year_num (year_start y - 1)) by (apply year_num_mono; lia). lia.
    + destruct (decide (doe <= year_start y + year_last y)); [done|].
      assert (year_num (year_start y + year_last y + 1) <= year_num doe)
        by (apply year_num_mono; lia). lia.
Qed.

(** Conversely every day of a year is mapped back to that year. *)
Lemma day_of_year y k :
  0 <= y <= 399 → 0 <= k <= year_last y →
  0 <= year_start y + k <= 146096 ∧ year_num (year_start y + k) / 365 = y.
Proof.
  intros Hy Hk. pose proof (year_start_bounds y Hy) as Hs. pose proof (year_last_cases y) as Hl.
  split; [lia|]. destruct (decide (y = 399)) as [->|Hne].
  - pose proof year_check_399.
    assert (year_num (year_start 399) <= year_num (year_start 399 + k)) by (apply year_num_mono; lia).
    assert (year_num (year_start 399 + k) < 365 * 400)
      by (unfold year_num; Z.to_euclidean_division_equations; lia).
    Z.to_euclidean_division_equations; lia.
  - destruct (year_num_bounds y) as (H1 & H2 & H3 & H4); [lia|].
    assert (year_start y + year_last y <= 146096) by lia.
    assert (year_num (year_start y) <= year_num (year_start y + k)) by (apply year_num_mono; lia).
    assert (year_num (year_start y + k) <= year_num (year_start y + year_last y))
      by (apply year_num_mono; lia).
    Z.to_euclidean_division_equations; lia.
Qed.

(** A calendar date: the month and the day of it, both from 1. *)
Definition days_in_month (y m : Z) : Z :=
  if m =? 2 then (if leap y then 29 else 28)
  else if (m =? 4) || (m =? 6) || (m =? 9) || (m =? 11) then 30 else 31.
Definition valid_date (y m d : Z) : Prop := 1 <= m <= 12 ∧ 1 <= d <= days_in_month y m.

(** The two calendar functions in terms of floor division: a date is year
    [era * 400 + yoe], counted from March, and day [doy] of that year. *)
Definition month_of (doy : Z) : Z := (5 * doy + 2) / 153.
Definition month_start (mp : Z) : Z := (153 * mp + 2) / 5.

Lemma civil_from_days_eq z :
  let era := (z + 719468) / 146097 in
  let doe := (z + 719468) mod 146097 in
  let yoe := year_num doe / 365 in
  let doy := doe - year_start yoe in
  let mp := month_of doy in
  0 <= yoe <= 399 ∧ 0 <= doy <= year_last yoe ∧ 0 <= mp <= 11 ∧
  civil_from_days z =
    (yoe + era * 400 + b2z (10 <=? mp), if mp <? 10 then mp + 3 else mp - 9,
     doy - month_start mp + 1).
Proof.
  intros era doe yoe doy mp.
  assert (0 <= doe <= 146096) as Hdoe by (unfold doe; Z.to_euclidean_division_equations; lia).
  destruct (year_of_day doe Hdoe) as [Hyoe Hdoy]. fold yoe in Hyoe, Hdoy.
  pose proof (year_last_cases yoe) as Hl.
  assert (0 <= mp <= 11) as Hmp
    by (unfold mp, month_of, doy; Z.to_euclidean_division_equations; lia).
  do 3 (split; [unfold doy in *; lia|]).
  unfold civil_from_days.
  assert (Z.quot (if 0 <=? z + 719468 then z + 719468 else z + 719468 - 146096) 146097 = era) as ->
    by (unfold era; destruct (Z.leb_spec 0 (z + 719468)); Z.to_euclidean_division_equations; lia).
  assert (u32 (z + 719468 - era * 146097) = doe) as ->
    by (rewrite u32_id; unfold doe, era in *; Z.to_euclidean_division_equations; lia).
  rewrite !(Z.quot_div_nonneg doe) by lia. fold (year_num doe).
  assert (0 <= year_num doe) by (unfold year_num; Z.to_euclidean_division_equations; lia).
  rewrite (Z.quot_div_nonneg (year_num doe)) by lia. fold yoe. rewrite (u32_id yoe) by lia.
  rewrite !(Z.quot_div_nonneg yoe) by lia. fold (year_start yoe). fold doy.
  rewrite (u32_id doy) by (unfold doy; lia).
  rewrite (Z.quot_div_nonneg (5 * doy + 2)) by (unfold doy; lia). fold (month_of doy). fold mp.
  rewrite (u32_id mp) by lia. rewrite Z.quot_div_nonneg by lia. fold (month_start mp).
  rewrite (u32_id (if mp <? 10 then mp + 3 else mp - 9)) by (destruct (Z.ltb_spec mp 10); lia).
  rewrite u32_id by (unfold month_start, mp, month_of, doy; Z.to_euclidean_division_equations; lia).
  f_equal. f_equal. f_equal.
  destruct (Z.ltb_spec mp 10), (Z.leb_spec 10 mp); try lia; f_equal; lia.
Qed.

Lemma days_from_civil_eq y m d :
  1 <= m <= 12 → 1 <= d <= 31 →
  let y' := y - b2z (m <=? 2) in
  let mp := if 2 <? m then m - 3 else m + 9 in
  days_from_civil y m d =
    (y' / 400) * 146097 + (year_start (y' mod 400) + (month_start mp + d - 1)) - 719468.
Proof.
  intros Hm Hd y' mp. unfold days_from_civil. fold y' mp.
  assert (Z.quot (if 0 <=? y' then y' else y' - 399) 400 = y' / 400) as ->
    by (destruct (Z.leb_spec 0 y'); Z.to_euclidean_division_equations; lia).
  assert (0 <= y' mod 400 <= 399) as Hy by (Z.to_euclidean_division_equations; lia).
  assert (u32 (y' - y' / 400 * 400) = y' mod 400) as ->
    by (rewrite u32_id; Z.to_euclidean_division_equations; lia).
  assert (0 <= mp <= 11) as Hmp by (unfold mp; destruct (Z.ltb_spec 2 m); lia).
  rewrite (Z.quot_div_nonneg (153 * mp + 2)) by lia. fold (month_start mp).
  assert (0 <= month_start mp <= 337)
    by (unfold month_start; Z.to_euclidean_division_equations; lia).
  rewrite (u32_id (month_start _ + _ - _)) by lia.
  rewrite !(Z.quot_div_nonneg (y' mod 400)) by lia.
  pose proof (year_start_bounds _ Hy). unfold year_start in *.
  rewrite u32_id by lia. lia.
Qed.

Lemma leap_period y era : leap (y + era * 400) = leap y.
Proof.
  unfold leap. replace (era * 400) with (era * 100 * 4) at 1 by lia. rewrite Z.mod_add by lia.
  replace (era * 400) with (era * 4 * 100) at 1 by lia. rewrite !Z.mod_add by lia. done.
Qed.

(** Day [doy] of a March-based year falls on a day its month has. *)
Lemma month_valid yoe era doy :
  0 <= doy <= year_last yoe → 0 <= month_of doy <= 11 →
  let mp := month_of doy in
  valid_date (yoe + era * 400 + b2z (10 <=? mp)) (if mp <? 10 then mp + 3 else mp - 9)
    (doy - month_start mp + 1).
Proof.
  intros Hd Hm mp. fold mp in Hm.
  assert (153 * mp <= 5 * doy + 2 < 153 * (mp + 1)) as Hb
    by (unfold mp, month_of; Z.to_euclidean_division_equations; lia).
  replace (yoe + era * 400 + b2z (10 <=? mp)) with (yoe + b2z (10 <=? mp) + era * 400) by lia.
  unfold valid_date, days_in_month. rewrite leap_period. clearbody mp.
  pose proof (year_last_cases yoe) as Hl. unfold year_last in *.
  assert (mp = 0 ∨ mp = 1 ∨ mp = 2 ∨ mp = 3 ∨ mp = 4 ∨ mp = 5 ∨ mp = 6 ∨ mp = 7 ∨ mp = 8 ∨
          mp = 9 ∨ mp = 10 ∨ mp = 11) as Hin by lia.
  destruct_or! Hin; subst mp; match goal with |- context [month_start ?k] =>
    let v := eval vm_compute in (month_start k) in change (month_start k) with v end;
  cbv [b2z Z.leb Z.ltb Z.compare Pos.compare Pos.compare_cont] in *;
  repeat case_match; lia.
Qed.

Lemma civil_from_days_inv (z : Z) :
  let '(y, m, d) := civil_from_days z in
  valid_date y m d ∧ days_from_civil y m d = z.
Proof.
  destruct (civil_from_days_eq z) as (Hy & Hd & Hm & ->).
  set (era := (z + 719468) / 146097) in *. set (doe := (z + 719468) mod 146097) in *.
  assert (z + 719468 = era * 146097 + doe) as Hz
    by (unfold era, doe; Z.to_euclidean_division_equations; lia). clearbody era doe.
  set (yoe := year_num doe / 365) in *. clearbody yoe.
  set (doy := doe - year_start yoe) in *.
  assert (doe = year_start yoe + doy) as Hdoe by (unfold doy; lia). clearbody doy. subst doe.
  assert (1 <= doy - month_start (month_of doy) + 1 <= 31) as Hd31.
  { pose proof (year_last_cases yoe). unfold month_start, month_of.
    Z.to_euclidean_division_equations; lia. }
  split.
  - by apply month_valid.
  - rewrite days_from_civil_eq by (destruct (Z.ltb_spec (month_of doy) 10); lia).
    assert (∀ k, yoe + era * 400 + k - k = yoe + era * 400) as Hk by (intros; lia).
    destruct (Z.ltb_spec (month_of doy) 10), (Z.leb_spec 10 (month_of doy)); try lia.
    + destruct (Z.leb_spec (month_of doy + 3) 2), (Z.ltb_spec 2 (month_of doy + 3)); try lia.
      rewrite Hk, Z.div_add, Z.mod_add, Z.div_small, Z.mod_small by lia.
      replace (month_of doy + 3 - 3) with (month_of doy) by lia. lia.
    + destruct (Z.leb_spec (month_of doy - 9) 2), (Z.ltb_spec 2 (month_of doy - 9)); try lia.
      rewrite Hk, Z.div_add, Z.mod_add, Z.div_small, Z.mod_small by lia.
      replace (month_of doy - 9 + 9) with (month_of doy) by lia. lia.
Qed.

(** Every day a month has lies within its March-based year. *)
Lemma month_valid_inv y m d :
  valid_date y m d →
  let y' := y - b2z (m <=? 2) in
  let mp := if 2 <? m then m - 3 else m + 9 in
  let doy := month_start mp + d - 1 in
  0 <= doy <= year_last (y' mod 400) ∧ month_of doy = mp.
Proof.
  intros [Hm Hd] y' mp doy. unfold doy, mp, y', days_in_month, year_last in *.
  replace ((y - b2z (m <=? 2)) mod 400 + 1)
    with (y - b2z (m <=? 2) + 1 + (- ((y - b2z (m <=? 2)) / 400)) * 400)
    by (Z.to_euclidean_division_equations; lia).
  rewrite leap_period. clear doy mp y'.
  assert (m = 1 ∨ m = 2 ∨ m = 3 ∨ m = 4 ∨ m = 5 ∨ m = 6 ∨ m = 7 ∨ m = 8 ∨ m = 9 ∨ m = 10 ∨
          m = 11 ∨ m = 12) as Hin by lia.
  unfold month_of. destruct_or! Hin; subst m;
    cbv [b2z Z.leb Z.ltb Z.eqb Z.compare Pos.compare Pos.compare_cont Pos.eqb orb] in *;
    replace (y - 1 + 1) with y by lia;
    match goal with |- context [month_start ?k] =>
      let v := eval vm_compute in (month_start k) in change (month_start k) with v end;
    (split; [repeat case_match; lia|repeat case_match; Z.to_euclidean_division_equations; lia]).
Qed.

Lemma days_from_civil_inv y m d :
  valid_date y m d → civil_from_days (days_from_civil y m d) = (y, m, d).
Proof.
  intros Hv. destruct (month_valid_inv y m d Hv) as [Hdoy Hmp]. destruct Hv as [Hm Hd].
  assert (d <= 31) by (unfold days_in_month in Hd; repeat case_match; lia).
  rewrite days_from_civil_eq by lia.
  set (y' := y - b2z (m <=? 2)) in *. set (mp := if 2 <? m then m - 3 else m + 9) in *.
  set (doy := month_start mp + d - 1) in *.
  assert (0 <= y' mod 400 <= 399) as Hy by (Z.to_euclidean_division_equations; lia).
  destruct (day_of_year (y' mod 400) doy Hy Hdoy) as [Hdoe Hyoe].
  match goal with |- civil_from_days ?t = _ => set (z := t) end.
  assert ((z + 719468) / 146097 = y' / 400 ∧
          (z + 719468) mod 146097 = year_start (y' mod 400) + doy) as [E1 E2].
  { assert (z + 719468 = year_start (y' mod 400) + doy + y' / 400 * 146097) as -> by (unfold z; lia).
    rewrite Z.div_add, Z.mod_add, Z.div_small, Z.mod_small by lia. done. }
  destruct (civil_from_days_eq z) as (_ & _ & _ & ->). rewrite E1, E2, Hyoe.
  replace (year_start (y' mod 400) + doy - year_start (y' mod 400)) with doy by lia.
  rewrite Hmp. replace (doy - month_start mp + 1) with d by (unfold doy; lia).
  assert (y' mod 400 + y' / 400 * 400 = y') as -> by (Z.to_euclidean_division_equations; lia).
  unfold y', mp. destruct (Z.ltb_spec 2 m), (Z.leb_spec m 2); try lia;
    match goal with |- context [?a <? 10] => destruct (Z.ltb_spec a 10) end; try lia;
    match goal with |- context [10 <=? ?a] => destruct (Z.leb_spec 10 a) end; try lia;
    cbn [b2z]; repeat f_equal; lia.
Qed.

(** The calendar arithmetic is a bijection between day numbers and
    Gregorian dates: for every day number [civil_from_days] yields a date that
    exists (the day is within its month, leap years included) and
    [days_from_civil] maps it back, and every date that exists is recovered
    from its day number. *)
Theorem civil_days_bijection (z y m d : Z) :
  (let '(y', m', d') := civil_from_days z in
   valid_date y' m' d' ∧ days_from_civil y' m' d' = z) ∧
  (1 <= m <= 12 ∧ 1 <= d <= days_in_month y m →
   civil_from_days (days_from_civil y m d) = (y, m, d)).
Proof. split; [apply civil_from_days_inv|by apply days_from_civil_inv]. Qed.

Lemma civil_days_bijection_witness :
  civil_from_days (days_from_civil 2024 2 29) = (2024, 2, 29).
Proof.
  apply (civil_days_bijection 0 2024 2 29). split; [lia|]. vm_compute. split; congruence.
Defined.

(** ** Timestamp text *)

Lemma zeros_digits n : all_of isdigit (zeros n) = true.
Proof. by induction n. Qed.

Lemma digits_value_zeros n s : digits_value 0 (zeros n +:+ s) = digits_value 0 s.
Proof. by induction n. Qed.

Definition stops (s : string) : Prop := match s with "" => True | String c _ => isdigit c = false end.

Lemma digit_not_sign c : isdigit c = true → isspace c = false ∧ code c ≠ 45 ∧ code c ≠ 43.
Proof.
  assert (implb (isdigit c) (negb (isspace c) && negb (code c =? 45) && negb (code c =? 43)) = true) as H.
  { revert c. apply forall_bytes_spec. by vm_compute. }
  intros Hd. rewrite Hd in H. simpl in H.
  rewrite !andb_true_iff, !negb_true_iff, !Z.eqb_neq in H. tauto.
Qed.

(** [%d] reads back what [%0<w>d] wrote. *)
Lemma scan_d_digits ds r :
  ds ≠ "" → all_of isdigit ds = true → stops r →
  scan_d (ds +:+ r) = Some (digits_value 0 ds, r).
Proof.
  intros Hne Hds Hr. destruct ds as [|c ds]; [done|].
  assert (isdigit c = true) as Hc by (simpl in Hds; by apply andb_true_iff in Hds as [? _]).
  destruct (digit_not_sign c Hc) as (H1 & H2 & H3).
  unfold scan_d. simpl drop_while. rewrite H1.
  rewrite (proj2 (Z.eqb_neq _ _) H2), (proj2 (Z.eqb_neq _ _) H3).
  change (String c (ds +:+ r)) with (String c ds +:+ r). rewrite span_all by done. done.
Qed.

Lemma scan_d_pad w z r : stops r → scan_d (pad w z +:+ r) = Some (z, r).
Proof.
  intros Hr. unfold pad. destruct (Z.ltb_spec z 0).
  - set (n := (w - 1 - _)%nat). unfold scan_d. simpl.
    rewrite span_all by (done || by rewrite all_of_app, zeros_digits, dec_N_digits).
    rewrite digits_value_zeros, dec_N_value, Z2N.id by lia.
    destruct (String.eqb_spec (zeros n +:+ dec_N (Z.to_N (- z))) "") as [E|_].
    + exfalso. apply (dec_N_nonempty (Z.to_N (- z))). destruct n; done.
    + do 2 f_equal. lia.
  - set (n := (w - _)%nat).
    rewrite scan_d_digits; [|destruct n; [apply dec_N_nonempty|done]
      |by rewrite all_of_app, zeros_digits, dec_N_digits|done].
    rewrite digits_value_zeros, dec_N_value, Z2N.id by lia. done.
Qed.

Lemma scan_lit_same c r : scan_lit c (String c "" +:+ r) = Some r.
Proof. simpl. by rewrite Z.eqb_refl. Qed.

Lemma scan_any_app c r : scan_any (String c "" +:+ r) = Some r.
Proof. done. Qed.

Lemma floor_div_floor a b : 0 < b → floor_div a b = a / b.
Proof.
  intros. unfold floor_div.
  destruct (Z.eqb_spec (Z.rem a b) 0), (Z.ltb_spec (Z.rem a b) 0), (Z.ltb_spec b 0); simpl;
    Z.to_euclidean_division_equations; nia.
Qed.

Lemma pad_nonempty w z r : pad w z +:+ r ≠ "".
Proof.
  intros E. unfold pad in E. destruct (z <? 0); [done|].
  destruct (w - _)%nat; [|done]. pose proof (dec_N_nonempty (Z.to_N z)).
  by destruct (dec_N (Z.to_N z)).
Qed.

(** Timestamp text round-trips: reading back the ISO-8601 text of any time
    point gives that time point to the second, for dates before 1970 and for
    years of any sign as well. *)
Theorem iso8601_roundtrip (tp : TimePoint) :
  parse_pg_timestamp (to_iso8601 tp) = Some (from_time_t (to_unix_seconds tp)).
Proof.
  unfold to_iso8601. rewrite floor_div_floor by lia.
  set (secs := to_unix_seconds tp). set (sod := secs - _).
  assert (0 <= sod < 86400) as Hsod by (unfold sod; Z.to_euclidean_division_equations; lia).
  pose proof (civil_from_days_inv (secs / 86400)) as Hc.
  destruct (civil_from_days (secs / 86400)) as [[y m] d]. destruct Hc as [[Hm Hd] Hdays].
  assert (d <= 31) by (unfold days_in_month in Hd; repeat case_match; lia).
  unfold parse_pg_timestamp.
  destruct (String.eqb_spec (pad 4 y +:+ "-" +:+ pad 2 m +:+ "-" +:+ pad 2 d +:+ "T" +:+
    pad 2 (sod ÷ 3600) +:+ ":" +:+ pad 2 (Z.rem sod 3600 ÷ 60) +:+ ":" +:+ pad 2 (Z.rem sod 60) +:+ "Z") "")
    as [E|_]; [by apply pad_nonempty in E|].
  do 2 (rewrite scan_d_pad by done; cbn [mbind option_bind]; rewrite scan_lit_same; cbn [mbind option_bind]).
  rewrite scan_d_pad by done; cbn [mbind option_bind];
    rewrite scan_any_app; cbn [mbind option_bind].
  do 2 (rewrite scan_d_pad by done; cbn [mbind option_bind]; rewrite scan_lit_same; cbn [mbind option_bind]).
  rewrite scan_d_pad by done; cbn [mbind option_bind].
  destruct (Z.ltb_spec m 1), (Z.ltb_spec 12 m), (Z.ltb_spec d 1), (Z.ltb_spec 31 d); try lia; simpl.
  do 2 f_equal. rewrite Hdays. unfold sod. Z.to_euclidean_division_equations; lia.
Qed.

(** Before 1970 the seconds are rounded towards zero, not towards the past. *)
Example iso8601_examples :
  to_iso8601 1709210096789000000 = "2024-02-29T12:34:56Z" ∧
  to_iso8601 (-1) = "1970-01-01T00:00:00Z" ∧
  parse_pg_timestamp "2024-02-29 12:34:56.789" = Some 1709210096000000000.
Proof. vm_compute. done. Qed.
