(* ===== verification/Rbac.v ===== *)
(** * Rbac: roles, permissions and the grant table

    Models include/rtc/security/role.hpp.  The grants are the 32-bit masks of
    the source, built by the same shifts and ors. *)

From S2P Require Import Prelude Text.
Open Scope string_scope.
Open Scope Z_scope.

Module Role.
(* include/rtc/security/role.hpp:19-24, Role *)
Inductive t := kUser | kModerator | kAdmin | kSuperAdmin.

Global Instance t_eq_dec : EqDecision t.
Proof. solve_decision. Defined.

(** The enumerator's value. *)
Definition ord (r : t) : Z :=
  match r with kUser => 0 | kModerator => 1 | kAdmin => 2 | kSuperAdmin => 3 end.

(* include/rtc/security/role.hpp:31-43, to_string *)
Definition to_string (role : t) : string :=
  match role with
  | kUser => "user" | kModerator => "moderator" | kAdmin => "admin"
  | kSuperAdmin => "super_admin"
  end.

(* include/rtc/security/role.hpp:48-58, parse_role *)
Definition parse_role (name : string) : option t :=
  if String.eqb name "user" then Some kUser
  else if String.eqb name "moderator" then Some kModerator
  else if String.eqb name "admin" then Some kAdmin
  else if String.eqb name "super_admin" then Some kSuperAdmin
  else None.
End Role.

Module Permission.
(* include/rtc/security/role.hpp:61-80, Permission *)
Inductive t :=
  | kDeleteAnyMessage | kEditAnyMessage | kViewAnyConversation | kManageGroups
  | kBanUsers | kManageUsers | kManageRoles | kViewSessions | kRevokeSessions
  | kViewAuditLogs | kViewSystemMetrics | kManageFeatureFlags | kCount.

Global Instance t_eq_dec : EqDecision t.
Proof. solve_decision. Defined.

(** [static_cast<Permission>(i)] for the enumerators before [kCount], in order. *)
Definition all : list t :=
  [kDeleteAnyMessage; kEditAnyMessage; kViewAnyConversation; kManageGroups;
   kBanUsers; kManageUsers; kManageRoles; kViewSessions; kRevokeSessions;
   kViewAuditLogs; kViewSystemMetrics; kManageFeatureFlags].

Definition ord (p : t) : Z :=
  match p with
  | kDeleteAnyMessage => 0 | kEditAnyMessage => 1 | kViewAnyConversation => 2
  | kManageGroups => 3 | kBanUsers => 4 | kManageUsers => 5 | kManageRoles => 6
  | kViewSessions => 7 | kRevokeSessions => 8 | kViewAuditLogs => 9
  | kViewSystemMetrics => 10 | kManageFeatureFlags => 11 | kCount => 12
  end.

(* include/rtc/security/role.hpp:88-118, to_string *)
Definition to_string (permission : t) : string :=
  match permission with
  | kDeleteAnyMessage => "message.delete_any"
  | kEditAnyMessage => "message.edit_any"
  | kViewAnyConversation => "conversation.view_any"
  | kManageGroups => "group.manage"
  | kBanUsers => "user.ban"
  | kManageUsers => "user.manage"
  | kManageRoles => "user.manage_roles"
  | kViewSessions => "session.view"
  | kRevokeSessions => "session.revoke"
  | kViewAuditLogs => "audit.view"
  | kViewSystemMetrics => "system.metrics"
  | kManageFeatureFlags => "system.feature_flags"
  | kCount => "unknown"
  end.

(* include/rtc/security/role.hpp:120-127, parse_permission *)
Definition parse_permission (name : string) : option t :=
  List.find (λ p, String.eqb (to_string p) name) all.
End Permission.

Import Role Permission.

(* include/rtc/security/role.hpp:131-133, detail::bit *)
Definition bit (permission : Permission.t) : Z :=
  Z.land (Z.shiftl 1 (Permission.ord permission)) (2 ^ 32 - 1).

(* include/rtc/security/role.hpp:140-140, detail::kUserGrants *)
Definition kUserGrants : Z := 0.
(* include/rtc/security/role.hpp:142-144, detail::kModeratorGrants *)
Definition kModeratorGrants : Z :=
  Z.lor (Z.lor (Z.lor kUserGrants (bit kDeleteAnyMessage)) (bit kEditAnyMessage)) (bit kManageGroups).
(* include/rtc/security/role.hpp:146-150, detail::kAdminGrants *)
Definition kAdminGrants : Z :=
  foldl Z.lor kModeratorGrants
    [bit kViewAnyConversation; bit kBanUsers; bit kManageUsers; bit kViewSessions;
     bit kRevokeSessions; bit kViewAuditLogs; bit kViewSystemMetrics].
(* include/rtc/security/role.hpp:155-156, detail::kSuperAdminGrants *)
Definition kSuperAdminGrants : Z :=
  Z.lor (Z.lor kAdminGrants (bit kManageRoles)) (bit kManageFeatureFlags).

(* include/rtc/security/role.hpp:158-163, detail::kRoleGrants *)
Definition kRoleGrants : list Z :=
  [kUserGrants; kModeratorGrants; kAdminGrants; kSuperAdminGrants].

(* include/rtc/security/role.hpp:169-175, has_permission *)
Definition has_permission (role : Role.t) (permission : Permission.t) : bool :=
  match kRoleGrants !! Z.to_nat (Role.ord role) with
  | None => false
  | Some grants =>
      if decide (permission = kCount) then false
      else negb (Z.land grants (bit permission) =? 0)
  end.

(* include/rtc/security/role.hpp:180-185, can_assign_role *)
Definition can_assign_role (actor target : Role.t) : bool :=
  if negb (has_permission actor kManageRoles) then false
  else Role.ord target <=? Role.ord actor.

(** ** Round trips *)

Lemma parse_role_to_string r : parse_role (Role.to_string r) = Some r.
Proof. by destruct r. Qed.

Lemma parse_role_inv s r : parse_role s = Some r → s = Role.to_string r.
Proof.
  unfold parse_role. intros H. repeat case_match; simplify_eq;
  repeat match goal with H : String.eqb _ _ = true |- _ => apply String.eqb_eq in H end; done.
Qed.

Lemma parse_permission_to_string p :
  p ≠ kCount → parse_permission (Permission.to_string p) = Some p.
Proof. by destruct p. Qed.

(** ** The hierarchy *)

(** The grant table is a strict hierarchy that fails closed: a higher role
    holds every permission of a lower one and at least one more, no role holds
    the [kCount] sentinel, ordinary users hold nothing, and roles and feature
    flags can be managed by super admins alone. *)
Theorem role_hierarchy (r r' : Role.t) :
  (Role.ord r < Role.ord r' ↔
     (∀ p, has_permission r p = true → has_permission r' p = true) ∧
     ∃ p, has_permission r' p = true ∧ has_permission r p = false) ∧
  has_permission r kCount = false ∧
  (∀ p, has_permission kUser p = false) ∧
  (has_permission r kManageRoles = true ↔ r = kSuperAdmin) ∧
  (has_permission r kManageFeatureFlags = true ↔ r = kSuperAdmin).
Proof.
  split; [|split; [by destruct r|split; [intros p; by destruct p|]]]; cycle 1.
  { split; split; by destruct r. }
  split.
  - intros Hlt. split.
    + intros p. by destruct r, r', p.
    + destruct r, r'; try (exfalso; simpl in Hlt; lia);
        solve [by exists kDeleteAnyMessage | by exists kBanUsers | by exists kManageRoles].
  - intros [Hall (p & Hp & Hn)].
    destruct r, r'; simpl; try lia; exfalso;
      first [ specialize (Hall p); rewrite Hp in Hn; by rewrite Hn in Hall
            | destruct p; by vm_compute in Hp, Hn ].
Qed.

(** Role assignment cannot escalate: whoever may assign a role is a super
    admin, every role name that is assigned parses back to itself, and an actor
    below super admin may assign nothing at all. *)
Theorem role_assignment_guard (actor target : Role.t) :
  (can_assign_role actor target = true ↔ actor = kSuperAdmin) ∧
  (∀ p, can_assign_role actor target = true →
     has_permission target p = true → has_permission actor p = true) ∧
  parse_role (Role.to_string target) = Some target.
Proof.
  split; [split; by destruct actor, target|]. split; [|apply parse_role_to_string].
  intros p. by destruct actor, target, p.
Qed.
