(* ===== verification/Models.v ===== *)
(** * Models: the entities the services work on

    Models include/rtc/models.  An enumeration with its text form is a Module
    holding the type [t], [to_string] and [from_string]; a struct is a Record.
    Enumeration columns are stored as text, so the two directions matter: the
    lemmas show that the text of every value reads back as that value. *)

From S2P Require Import Prelude Text Json TimeUtil.
Open Scope string_scope.
Open Scope Z_scope.

Module ConversationType.
(* include/rtc/models/conversation.hpp:14-17, ConversationType *)
Inductive t := kDirect | kGroup.
Global Instance t_eq_dec : EqDecision t.
Proof. solve_decision. Defined.

(* include/rtc/models/conversation.hpp:19-27, to_string *)
Definition to_string (type : t) : string :=
  match type with kDirect => "direct" | kGroup => "group" end.

(* include/rtc/models/conversation.hpp:29-36, conversation_type_from_string *)
Definition from_string (value : string) : option t :=
  if String.eqb value "direct" then Some kDirect
  else if String.eqb value "group" then Some kGroup
  else None.
End ConversationType.

Module ParticipantRole.
(* include/rtc/models/conversation_participant.hpp:13-16, ParticipantRole *)
Inductive t := kOwner | kMember.
Global Instance t_eq_dec : EqDecision t.
Proof. solve_decision. Defined.

(* include/rtc/models/conversation_participant.hpp:18-26, to_string *)
Definition to_string (role : t) : string :=
  match role with kOwner => "owner" | kMember => "member" end.

(* include/rtc/models/conversation_participant.hpp:28-35, participant_role_from_string *)
Definition from_string (value : string) : option t :=
  if String.eqb value "owner" then Some kOwner
  else if String.eqb value "member" then Some kMember
  else None.
End ParticipantRole.

Module MessageType.
(* include/rtc/models/message.hpp:14-17, MessageType *)
Inductive t := kText | kSystem.
Global Instance t_eq_dec : EqDecision t.
Proof. solve_decision. Defined.

(* include/rtc/models/message.hpp:19-27, to_string *)
Definition to_string (type : t) : string :=
  match type with kText => "text" | kSystem => "system" end.

(* include/rtc/models/message.hpp:29-36, message_type_from_string *)
Definition from_string (value : string) : option t :=
  if String.eqb value "text" then Some kText
  else if String.eqb value "system" then Some kSystem
  else None.
End MessageType.

Module ReceiptState.
(* include/rtc/models/read_receipt.hpp:13-17, ReceiptState *)
Inductive t := kSent | kDelivered | kRead.
Global Instance t_eq_dec : EqDecision t.
Proof. solve_decision. Defined.

(* include/rtc/models/read_receipt.hpp:19-29, to_string *)
Definition to_string (state : t) : string :=
  match state with kSent => "sent" | kDelivered => "delivered" | kRead => "read" end.

(* include/rtc/models/read_receipt.hpp:31-40, receipt_state_from_string *)
Definition from_string (value : string) : option t :=
  if String.eqb value "sent" then Some kSent
  else if String.eqb value "delivered" then Some kDelivered
  else if String.eqb value "read" then Some kRead
  else None.

(* include/rtc/models/read_receipt.hpp:43-53, rank *)
Definition rank (state : t) : Z :=
  match state with kSent => 0 | kDelivered => 1 | kRead => 2 end.
End ReceiptState.

Module NotificationType.
(* include/rtc/models/notification.hpp:15-22, NotificationType *)
Inductive t :=
  | kNewMessage | kMention | kAddedToGroup | kRemovedFromGroup | kReactionAdded
  | kProfileUpdated.
Global Instance t_eq_dec : EqDecision t.
Proof. solve_decision. Defined.

(* include/rtc/models/notification.hpp:24-40, to_string *)
Definition to_string (type : t) : string :=
  match type with
  | kNewMessage => "new_message"
  | kMention => "mention"
  | kAddedToGroup => "added_to_group"
  | kRemovedFromGroup => "removed_from_group"
  | kReactionAdded => "reaction_added"
  | kProfileUpdated => "profile_updated"
  end.
End NotificationType.

Module AttachmentKind.
(* include/rtc/models/attachment.hpp:14-21, AttachmentKind *)
Inductive t := kImage | kPdf | kDocument | kVideo | kAudio | kOther.
Global Instance t_eq_dec : EqDecision t.
Proof. solve_decision. Defined.

(* include/rtc/models/attachment.hpp:23-39, to_string *)
Definition to_string (kind : t) : string :=
  match kind with
  | kImage => "image" | kPdf => "pdf" | kDocument => "document"
  | kVideo => "video" | kAudio => "audio" | kOther => "other"
  end.

(* include/rtc/models/attachment.hpp:41-56, attachment_kind_from_string *)
Definition from_string (value : string) : option t :=
  if String.eqb value "image" then Some kImage
  else if String.eqb value "pdf" then Some kPdf
  else if String.eqb value "document" then Some kDocument
  else if String.eqb value "video" then Some kVideo
  else if String.eqb value "audio" then Some kAudio
  else if String.eqb value "other" then Some kOther
  else None.
End AttachmentKind.

Module User.
(* include/rtc/models/user.hpp:20-30, User *)
Record t := mk {
  id : Z; username : string; email : string; password_hash : string;
  display_name : option string; bio : option string; avatar_url : option string;
  created_at : TimePoint; updated_at : TimePoint }.
End User.

Module Conversation.
(* include/rtc/models/conversation.hpp:39-51, Conversation *)
Record t := mk {
  id : Z; type : ConversationType.t; name : option string; owner_id : option Z;
  direct_key : option string; created_at : TimePoint; updated_at : TimePoint;
  last_message_at : option TimePoint }.

(* include/rtc/models/conversation.hpp:49-49, Conversation::is_group *)
Definition is_group (c : t) : bool := bool_decide (type c = ConversationType.kGroup).
End Conversation.

Module ConversationParticipant.
(* include/rtc/models/conversation_participant.hpp:38-45, ConversationParticipant *)
Record t := mk {
  id : Z; conversation_id : Z; user_id : Z; role : ParticipantRole.t;
  joined_at : TimePoint; last_read_message_id : option Z }.
End ConversationParticipant.

Module Message.
(* include/rtc/models/message.hpp:40-53, Message *)
Record t := mk {
  id : Z; conversation_id : Z; sender_id : Z; type : MessageType.t; content : string;
  created_at : TimePoint; updated_at : TimePoint;
  edited_at : option TimePoint; deleted_at : option TimePoint }.

(* include/rtc/models/message.hpp:51-51, Message::is_deleted *)
Definition is_deleted (m : t) : bool := bool_decide (is_Some (deleted_at m)).
(* include/rtc/models/message.hpp:52-52, Message::is_edited *)
Definition is_edited (m : t) : bool := bool_decide (is_Some (edited_at m)).
End Message.

Module ReadReceipt.
(* include/rtc/models/read_receipt.hpp:56-62, ReadReceipt *)
Record t := mk {
  id : Z; message_id : Z; user_id : Z; state : ReceiptState.t; updated_at : TimePoint }.
End ReadReceipt.

Module Reaction.
(* include/rtc/models/reaction.hpp:35-42, Reaction *)
Record t := mk {
  id : Z; message_id : Z; user_id : Z; emoji : string;
  created_at : TimePoint; updated_at : TimePoint }.

(* include/rtc/models/reaction.hpp:14-22, kAllowedReactions *)
Definition kAllowedReactions : list string := ["👍"; "❤️"; "😂"; "😮"; "😢"; "👏"; "🔥"].

(* include/rtc/models/reaction.hpp:24-31, is_allowed_reaction *)
Definition is_allowed_reaction (emoji : string) : bool :=
  existsb (λ allowed, String.eqb allowed emoji) kAllowedReactions.
End Reaction.

Module Attachment.
(* include/rtc/models/attachment.hpp:60-75, Attachment *)
Record t := mk {
  id : Z; owner_id : Z; message_id : option Z; storage_backend : string;
  storage_key : string; thumbnail_key : option string; original_filename : string;
  content_type : string; kind : AttachmentKind.t; byte_size : Z;
  width : option Z; height : option Z; checksum : option string; created_at : TimePoint }.
End Attachment.

Module Notification.
(* include/rtc/models/notification.hpp:44-53, Notification *)
Record t := mk {
  id : Z; user_id : Z; type : NotificationType.t; payload : json;
  read_at : option TimePoint; created_at : TimePoint }.

(* include/rtc/models/notification.hpp:52-52, Notification::is_read *)
Definition is_read (n : t) : bool := bool_decide (is_Some (read_at n)).
End Notification.

Module Session.
(* include/rtc/models/session.hpp:15-29, Session *)
Record t := mk {
  id : string; user_id : Z; refresh_token_hash : string; user_agent : option string;
  ip : option string; created_at : TimePoint; last_used_at : TimePoint;
  expires_at : TimePoint; revoked_at : option TimePoint }.

(* include/rtc/models/session.hpp:26-26, Session::is_revoked *)
Definition is_revoked (s : t) : bool := bool_decide (is_Some (revoked_at s)).
(* include/rtc/models/session.hpp:27-27, Session::is_expired *)
Definition is_expired (now : TimePoint) (s : t) : bool := expires_at s <=? now.
(* include/rtc/models/session.hpp:28-28, Session::is_active *)
Definition is_active (now : TimePoint) (s : t) : bool :=
  negb (is_revoked s) && negb (is_expired now s).
End Session.

(** ** Enumeration columns read back as they were written *)

Lemma conversation_type_roundtrip t :
  ConversationType.from_string (ConversationType.to_string t) = Some t.
Proof. by destruct t. Qed.
Lemma participant_role_roundtrip t :
  ParticipantRole.from_string (ParticipantRole.to_string t) = Some t.
Proof. by destruct t. Qed.
Lemma message_type_roundtrip t : MessageType.from_string (MessageType.to_string t) = Some t.
Proof. by destruct t. Qed.
Lemma receipt_state_roundtrip t : ReceiptState.from_string (ReceiptState.to_string t) = Some t.
Proof. by destruct t. Qed.
Lemma attachment_kind_roundtrip t :
  AttachmentKind.from_string (AttachmentKind.to_string t) = Some t.
Proof. by destruct t. Qed.

Create Rewrite HintDb enums.
#[export] Hint Rewrite conversation_type_roundtrip participant_role_roundtrip
  message_type_roundtrip receipt_state_roundtrip attachment_kind_roundtrip : enums.
