(* ===== verification/Dto.v ===== *)
(** * Dto: request parsing and response building

    Models src/dto and include/rtc/dto.  A request's query string is a function
    from parameter names to optional text ([crow::request::url_params]). *)

From S2P Require Import Prelude Text Json Errors Validation TimeUtil Models.
Open Scope string_scope.
Open Scope Z_scope.

(** [req.url_params.get]. *)
Definition url_params : Type := string → option string.

(* src/dto/conversation_dto.cpp:14-25, require_string *)
Definition require_string (body : json) (field : string) : result exn string :=
  match find body field with
  | None | Some JNull =>
      Err (ValidationException ("Missing required field: " +:+ field) ("field=" +:+ field))
  | Some (JStr s) => Ok s
  | Some _ => Err (ValidationException ("Field must be a string: " +:+ field) ("field=" +:+ field))
  end.

(* src/dto/message_dto.cpp:29-36, require_int *)
Definition require_int (body : json) (field : string) : result exn Z :=
  match find body field with
  | Some (JInt z) => Ok (get_int64 z)
  | _ => Err (ValidationException ("Field must be an integer: " +:+ field) ("field=" +:+ field))
  end.

(** The [for] loop that collects an array of ids. *)
Fixpoint int_array (message field : string) (l : list json) : result exn (list Z) :=
  match l with
  | [] => Ok []
  | JInt z :: l => ids ← int_array message field l; Ok (get_int64 z :: ids)
  | _ :: _ => Err (ValidationException message field)
  end.

Definition require_object (body : json) : result exn unit :=
  if is_object body then Ok ()
  else Err (ValidationException "Request body must be a JSON object" "").

(* include/rtc/dto/user_dto.hpp:13-15, opt_to_json *)
Definition opt_to_json (value : option string) : json := jopt JStr value.

(* src/dto/conversation_dto.cpp:27-31, to_opt_iso *)
Definition to_opt_iso (tp : option TimePoint) : option string := to_iso8601 <$> tp.

Module Pagination.
(* include/rtc/dto/pagination.hpp:17-18, Pagination *)
Definition kDefaultLimit : Z := 50.
Definition kMaxLimit : Z := 100.

(* include/rtc/dto/pagination.hpp:16-23, Pagination *)
Record t := mk { limit : Z; offset : Z; before_id : option Z; after_id : option Z }.

(* src/dto/pagination.cpp:17-30, parse_int_param *)
Definition parse_int_param (req : url_params) (name : string) : result exn (option Z) :=
  match req name with
  | None => Ok None
  | Some raw =>
      match parse_int64 raw with
      | Some value => Ok (Some value)
      | None => Err (ValidationException "Invalid integer query parameter" ("param=" +:+ name))
      end
  end.

(* src/dto/pagination.cpp:34-52, Pagination::from_request *)
Definition from_request (req : url_params) : result exn t :=
  limit_param ← parse_int_param req "limit";
  limit ← match limit_param with
          | None => Ok kDefaultLimit
          | Some l =>
              if l <? 1 then Err (ValidationException "limit must be >= 1" "param=limit")
              else Ok (Z.min l kMaxLimit)
          end;
  offset_param ← parse_int_param req "offset";
  offset ← match offset_param with
           | None => Ok 0
           | Some o =>
               if o <? 0 then Err (ValidationException "offset must be >= 0" "param=offset")
               else Ok o
           end;
  before ← parse_int_param req "before";
  after ← parse_int_param req "after";
  Ok {| limit := limit; offset := offset; before_id := before; after_id := after |}.

(** What every list endpoint may rely on. *)
Definition wf (p : t) : Prop := 1 <= limit p <= kMaxLimit ∧ 0 <= offset p.
End Pagination.

(** ** Conversations *)

Module CreateConversationRequest.
(* include/rtc/dto/conversation_dto.hpp:19-25, CreateConversationRequest *)
Record t := mk {
  type : ConversationType.t; name : option string; participant_ids : list Z }.

(* src/dto/conversation_dto.cpp:35-68, CreateConversationRequest::from_json *)
Definition from_json (body : json) : result exn t :=
  _ ← require_object body;
  type_str ← require_string body "type";
  match ConversationType.from_string type_str with
  | None => Err (ValidationException "type must be 'direct' or 'group'" "field=type")
  | Some type =>
      name ← match find body "name" with
             | None | Some JNull => Ok None
             | Some (JStr s) => Ok (Some s)
             | Some _ => Err (ValidationException "name must be a string" "field=name")
             end;
      match find body "participant_ids" with
      | Some (JArr l) =>
          ids ← int_array "participant_ids must contain integers" "field=participant_ids" l;
          Ok {| type := type; name := name; participant_ids := ids |}
      | _ => Err (ValidationException "participant_ids must be an array of user ids"
                    "field=participant_ids")
      end
  end.
End CreateConversationRequest.

Module RenameGroupRequest.
(* include/rtc/dto/conversation_dto.hpp:28-31, RenameGroupRequest *)
Record t := mk { name : string }.

(* src/dto/conversation_dto.cpp:70-77, RenameGroupRequest::from_json *)
Definition from_json (body : json) : result exn t :=
  _ ← require_object body;
  name ← require_string body "name";
  Ok {| name := name |}.
End RenameGroupRequest.

Module AddMemberRequest.
(* include/rtc/dto/conversation_dto.hpp:34-37, AddMemberRequest *)
Record t := mk { user_id : Z }.

(* src/dto/conversation_dto.cpp:79-88, AddMemberRequest::from_json *)
Definition from_json (body : json) : result exn t :=
  _ ← require_object body;
  match find body "user_id" with
  | Some (JInt z) => Ok {| user_id := get_int64 z |}
  | _ => Err (ValidationException "user_id must be an integer" "field=user_id")
  end.
End AddMemberRequest.

Module ParticipantResponse.
(* include/rtc/dto/conversation_dto.hpp:40-47, ParticipantResponse *)
Record t := mk { user_id : Z; role : string; joined_at : string }.

(* src/dto/conversation_dto.cpp:90-96, ParticipantResponse::from *)
Definition from (p : ConversationParticipant.t) : t :=
  {| user_id := ConversationParticipant.user_id p;
     role := ParticipantRole.to_string (ConversationParticipant.role p);
     joined_at := to_iso8601 (ConversationParticipant.joined_at p) |}.

(* src/dto/conversation_dto.cpp:98-100, ParticipantResponse::to_json *)
Definition to_json (r : t) : json :=
  jobj [("user_id", JInt (user_id r)); ("role", JStr (role r)); ("joined_at", JStr (joined_at r))].
End ParticipantResponse.

Module ConversationResponse.
(* include/rtc/dto/conversation_dto.hpp:50-65, ConversationResponse *)
Record t := mk {
  id : Z; type : string; name : option string; owner_id : option Z;
  created_at : string; updated_at : string; last_message_at : option string;
  participants : list ParticipantResponse.t }.

(* src/dto/conversation_dto.cpp:102-118, ConversationResponse::from *)
Definition from (conversation : Conversation.t)
    (participants : list ConversationParticipant.t) : t :=
  {| id := Conversation.id conversation;
     type := ConversationType.to_string (Conversation.type conversation);
     name := Conversation.name conversation;
     owner_id := Conversation.owner_id conversation;
     created_at := to_iso8601 (Conversation.created_at conversation);
     updated_at := to_iso8601 (Conversation.updated_at conversation);
     last_message_at := to_opt_iso (Conversation.last_message_at conversation);
     participants := ParticipantResponse.from <$> participants |}.

(* src/dto/conversation_dto.cpp:120-135, ConversationResponse::to_json *)
Definition to_json (r : t) : json :=
  jobj [("id", JInt (id r)); ("type", JStr (type r)); ("name", opt_to_json (name r));
        ("owner_id", jopt JInt (owner_id r)); ("created_at", JStr (created_at r));
        ("updated_at", JStr (updated_at r));
        ("last_message_at", opt_to_json (last_message_at r));
        ("participants", JArr (ParticipantResponse.to_json <$> participants r))].
End ConversationResponse.

(** ** Messages *)

Module SendMessageRequest.
(* include/rtc/dto/message_dto.hpp:16-24, SendMessageRequest *)
Record t := mk {
  conversation_id : Z; content : string; type : MessageType.t; attachment_ids : list Z }.

(* src/dto/message_dto.cpp:54-85, SendMessageRequest::from_json *)
Definition from_json (body : json) : result exn t :=
  _ ← require_object body;
  conversation_id ← require_int body "conversation_id";
  content ← require_string body "content";
  type ← match find body "type" with
         | None | Some JNull => Ok MessageType.kText
         | Some (JStr s) =>
             match MessageType.from_string s with
             | Some type => Ok type
             | None => Err (ValidationException "type must be 'text' or 'system'" "field=type")
             end
         | Some _ => Err (ValidationException "type must be a string" "field=type")
         end;
  ids ← match find body "attachment_ids" with
        | None | Some JNull => Ok []
        | Some (JArr l) =>
            int_array "attachment_ids must contain integers" "field=attachment_ids" l
        | Some _ => Err (ValidationException "attachment_ids must be an array of ids"
                           "field=attachment_ids")
        end;
  Ok {| conversation_id := conversation_id; content := content; type := type;
        attachment_ids := ids |}.
End SendMessageRequest.

Module UpdateMessageRequest.
(* include/rtc/dto/message_dto.hpp:27-30, UpdateMessageRequest *)
Record t := mk { content : string }.

(* src/dto/message_dto.cpp:87-92, UpdateMessageRequest::from_json *)
Definition from_json (body : json) : result exn t :=
  _ ← require_object body;
  content ← require_string body "content";
  Ok {| content := content |}.
End UpdateMessageRequest.

Module MessageQuery.
(* include/rtc/dto/message_dto.hpp:34-40, MessageQuery *)
Record t := mk { conversation_id : Z; sender_id : option Z; keyword : option string }.

(* src/dto/message_dto.cpp:38-50, query_int *)
Definition query_int (req : url_params) (name : string) : result exn (option Z) :=
  match req name with
  | None => Ok None
  | Some raw =>
      match parse_int64 raw with
      | Some value => Ok (Some value)
      | None => Err (ValidationException "Invalid integer query parameter" ("param=" +:+ name))
      end
  end.

(* src/dto/message_dto.cpp:94-107, MessageQuery::from_request *)
Definition from_request (req : url_params) : result exn t :=
  conversation ← query_int req "conversation_id";
  match conversation with
  | None => Err (ValidationException "conversation_id query parameter is required"
                   "param=conversation_id")
  | Some conversation_id =>
      sender ← query_int req "sender_id";
      Ok {| conversation_id := conversation_id; sender_id := sender; keyword := req "q" |}
  end.
End MessageQuery.

Module MessageResponse.
(* include/rtc/dto/message_dto.hpp:44-60, MessageResponse *)
Record t := mk {
  id : Z; conversation_id : Z; sender_id : Z; type : string; content : string;
  deleted : bool; edited : bool; created_at : string; updated_at : string;
  edited_at : option string; attachment_ids : list Z }.

(* src/dto/message_dto.cpp:109-124, MessageResponse::from *)
Definition from (message : Message.t) : t :=
  {| id := Message.id message;
     conversation_id := Message.conversation_id message;
     sender_id := Message.sender_id message;
     type := MessageType.to_string (Message.type message);
     content := if Message.is_deleted message then "" else Message.content message;
     deleted := Message.is_deleted message;
     edited := Message.is_edited message;
     created_at := to_iso8601 (Message.created_at message);
     updated_at := to_iso8601 (Message.updated_at message);
     edited_at := to_iso8601 <$> Message.edited_at message;
     attachment_ids := [] |}.

(* src/dto/message_dto.cpp:126-140, MessageResponse::to_json *)
Definition to_json (r : t) : json :=
  jobj [("id", JInt (id r)); ("conversation_id", JInt (conversation_id r));
        ("sender_id", JInt (sender_id r)); ("type", JStr (type r));
        ("content", JStr (content r)); ("deleted", JBool (deleted r));
        ("edited", JBool (edited r)); ("created_at", JStr (created_at r));
        ("updated_at", JStr (updated_at r)); ("edited_at", opt_to_json (edited_at r));
        ("attachment_ids", JArr (JInt <$> attachment_ids r))].
End MessageResponse.

(** ** Reactions, receipts, notifications, attachments *)

Module ReactionRequest.
(* include/rtc/dto/reaction_dto.hpp:13-14, ReactionRequest *)
Record t := mk { emoji : string }.

(* include/rtc/dto/reaction_dto.hpp:16-25, ReactionRequest::from_json *)
Definition from_json (body : json) : result exn t :=
  _ ← require_object body;
  match find body "emoji" with
  | Some (JStr s) => Ok {| emoji := s |}
  | _ => Err (ValidationException "emoji must be a string" "field=emoji")
  end.
End ReactionRequest.

Module ReactionResponse.
(* include/rtc/dto/reaction_dto.hpp:29-32, ReactionResponse *)
Record t := mk { message_id : Z; user_id : Z; emoji : string }.

(* include/rtc/dto/reaction_dto.hpp:34-36, ReactionResponse::from *)
Definition from (r : Reaction.t) : t :=
  {| message_id := Reaction.message_id r; user_id := Reaction.user_id r;
     emoji := Reaction.emoji r |}.

(* include/rtc/dto/reaction_dto.hpp:38-40, ReactionResponse::to_json *)
Definition to_json (r : t) : json :=
  jobj [("message_id", JInt (message_id r)); ("user_id", JInt (user_id r));
        ("emoji", JStr (emoji r))].
End ReactionResponse.

Module ReceiptResponse.
(* include/rtc/dto/read_receipt_dto.hpp:12-20, ReceiptResponse *)
Record t := mk { message_id : Z; user_id : Z; state : string; updated_at : string }.

(* src/dto/read_receipt_dto.cpp:9-16, ReceiptResponse::from *)
Definition from (receipt : ReadReceipt.t) : t :=
  {| message_id := ReadReceipt.message_id receipt;
     user_id := ReadReceipt.user_id receipt;
     state := ReceiptState.to_string (ReadReceipt.state receipt);
     updated_at := to_iso8601 (ReadReceipt.updated_at receipt) |}.

(* src/dto/read_receipt_dto.cpp:18-25, ReceiptResponse::to_json *)
Definition to_json (r : t) : json :=
  jobj [("message_id", JInt (message_id r)); ("user_id", JInt (user_id r));
        ("state", JStr (state r)); ("updated_at", JStr (updated_at r))].
End ReceiptResponse.

Module NotificationResponse.
(* include/rtc/dto/notification_dto.hpp:13-18, NotificationResponse *)
Record t := mk {
  id : Z; type : string; payload : json; read : bool; created_at : string }.

(* include/rtc/dto/notification_dto.hpp:20-28, NotificationResponse::from *)
Definition from (n : Notification.t) : t :=
  {| id := Notification.id n;
     type := NotificationType.to_string (Notification.type n);
     payload := Notification.payload n;
     read := Notification.is_read n;
     created_at := to_iso8601 (Notification.created_at n) |}.

(* include/rtc/dto/notification_dto.hpp:30-38, NotificationResponse::to_json *)
Definition to_json (r : t) : json :=
  jobj [("id", JInt (id r)); ("type", JStr (type r)); ("payload", payload r);
        ("read", JBool (read r)); ("created_at", JStr (created_at r))].
End NotificationResponse.

Module AttachmentResponse.
(* include/rtc/dto/attachment_dto.hpp:17-28, AttachmentResponse *)
Record t := mk {
  id : Z; message_id : option Z; filename : string; content_type : string; kind : string;
  byte_size : Z; width : option Z; height : option Z; url : string;
  thumbnail_url : option string; created_at : string }.

(* include/rtc/dto/attachment_dto.hpp:30-47, AttachmentResponse::from *)
Definition from (a : Attachment.t) (base_url : string) : t :=
  {| id := Attachment.id a;
     message_id := Attachment.message_id a;
     filename := Attachment.original_filename a;
     content_type := Attachment.content_type a;
     kind := AttachmentKind.to_string (Attachment.kind a);
     byte_size := Attachment.byte_size a;
     width := Attachment.width a;
     height := Attachment.height a;
     url := base_url +:+ "/" +:+ to_string (Attachment.id a);
     thumbnail_url :=
       (λ _, base_url +:+ "/" +:+ to_string (Attachment.id a) +:+ "/thumbnail")
         <$> Attachment.thumbnail_key a;
     created_at := to_iso8601 (Attachment.created_at a) |}.

(* include/rtc/dto/attachment_dto.hpp:49-63, AttachmentResponse::to_json *)
Definition to_json (r : t) : json :=
  jobj [("id", JInt (id r)); ("message_id", jopt JInt (message_id r));
        ("filename", JStr (filename r)); ("content_type", JStr (content_type r));
        ("kind", JStr (kind r)); ("byte_size", JInt (byte_size r));
        ("width", jopt JInt (width r)); ("height", jopt JInt (height r));
        ("url", JStr (url r)); ("thumbnail_url", opt_to_json (thumbnail_url r));
        ("created_at", JStr (created_at r))].
End AttachmentResponse.

(** ** Accounts and sessions *)

(* src/dto/auth_dto.cpp:29-38, RegisterRequest::from_json *)
Definition RegisterRequest_from_json (body : json) : result exn RegisterRequest :=
  _ ← require_object body;
  username ← require_string body "username";
  email ← require_string body "email";
  password ← require_string body "password";
  Ok {| reg_username := username; reg_email := email; reg_password := password |}.

(* src/dto/auth_dto.cpp:40-58, LoginRequest::from_json *)
Definition LoginRequest_from_json (body : json) : result exn LoginRequest :=
  _ ← require_object body;
  identifier ←
    (if find body "identifier" is Some _ then require_string body "identifier"
     else if find body "username" is Some _ then require_string body "username"
     else if find body "email" is Some _ then require_string body "email"
     else Err (ValidationException "Missing login identifier"
                 "field=identifier|username|email"));
  password ← require_string body "password";
  Ok {| login_identifier := identifier; login_password := password |}.

(* src/dto/profile_dto.cpp:16-33, read_field *)
Definition read_field (body : json) (field : string) : result exn (bool * option string) :=
  match find body field with
  | None => Ok (false, None)
  | Some JNull => Ok (true, None)
  | Some (JStr s) => Ok (true, Some s)
  | Some _ => Err (ValidationException ("Field must be a string or null: " +:+ field)
                     ("field=" +:+ field))
  end.

(* src/dto/profile_dto.cpp:37-46, UpdateProfileRequest::from_json *)
Definition UpdateProfileRequest_from_json (body : json) : result exn UpdateProfileRequest :=
  _ ← require_object body;
  display_name ← read_field body "display_name";
  bio ← read_field body "bio";
  avatar_url ← read_field body "avatar_url";
  Ok {| display_name_set := display_name.1; upd_display_name := display_name.2;
        bio_set := bio.1; upd_bio := bio.2;
        avatar_url_set := avatar_url.1; upd_avatar_url := avatar_url.2 |}.

(* include/rtc/dto/profile_dto.hpp:31-33, UpdateProfileRequest::empty *)
Definition UpdateProfileRequest_empty (r : UpdateProfileRequest) : bool :=
  negb (display_name_set r) && negb (bio_set r) && negb (avatar_url_set r).

Module UserResponse.
(* include/rtc/dto/user_dto.hpp:23-31, UserResponse *)
Record t := mk {
  id : Z; username : string; email : string; display_name : option string;
  bio : option string; avatar_url : option string; created_at : string; updated_at : string }.

(* include/rtc/dto/user_dto.hpp:33-44, UserResponse::from *)
Definition from (user : User.t) : t :=
  {| id := User.id user; username := User.username user; email := User.email user;
     display_name := User.display_name user; bio := User.bio user;
     avatar_url := User.avatar_url user;
     created_at := to_iso8601 (User.created_at user);
     updated_at := to_iso8601 (User.updated_at user) |}.

(* include/rtc/dto/user_dto.hpp:52-62, UserResponse::to_public_json *)
Definition to_public_json (r : t) : json :=
  jobj [("id", JInt (id r)); ("username", JStr (username r));
        ("display_name", opt_to_json (display_name r)); ("bio", opt_to_json (bio r));
        ("avatar_url", opt_to_json (avatar_url r)); ("created_at", JStr (created_at r));
        ("updated_at", JStr (updated_at r))].

(* include/rtc/dto/user_dto.hpp:46-50, UserResponse::to_json *)
Definition to_json (r : t) : json := jset "email" (JStr (email r)) (to_public_json r).
End UserResponse.

Module TokenPair.
(* include/rtc/security/token.hpp:39-44, TokenPair *)
Record t := mk {
  access_token : string; refresh_token : string;
  access_expires_in_seconds : Z; refresh_expires_in_seconds : Z }.
End TokenPair.

Module AuthResponse.
(* include/rtc/dto/auth_dto.hpp:34-36, AuthResponse *)
Record t := mk { user : UserResponse.t; tokens : TokenPair.t }.

(* include/rtc/dto/auth_dto.hpp:38-50, AuthResponse::to_json *)
Definition to_json (r : t) : json :=
  jobj [("user", UserResponse.to_json (user r));
        ("tokens", jobj [
           ("access_token", JStr (TokenPair.access_token (tokens r)));
           ("refresh_token", JStr (TokenPair.refresh_token (tokens r)));
           ("token_type", JStr "Bearer");
           ("access_expires_in", JInt (TokenPair.access_expires_in_seconds (tokens r)));
           ("refresh_expires_in", JInt (TokenPair.refresh_expires_in_seconds (tokens r)))])].
End AuthResponse.

Module SessionResponse.
(* include/rtc/dto/session_dto.hpp:13-19, SessionResponse *)
Record t := mk {
  id : string; user_agent : option string; ip : option string;
  created_at : string; last_used_at : string; current : bool }.

(* include/rtc/dto/session_dto.hpp:21-31, SessionResponse::from *)
Definition from (s : Session.t) (current_id : string) : t :=
  {| id := Session.id s; user_agent := Session.user_agent s; ip := Session.ip s;
     created_at := to_iso8601 (Session.created_at s);
     last_used_at := to_iso8601 (Session.last_used_at s);
     current := String.eqb (Session.id s) current_id |}.

(* include/rtc/dto/session_dto.hpp:33-42, SessionResponse::to_json *)
Definition to_json (r : t) : json :=
  jobj [("id", JStr (id r)); ("user_agent", opt_to_json (user_agent r));
        ("ip", opt_to_json (ip r)); ("created_at", JStr (created_at r));
        ("last_used_at", JStr (last_used_at r)); ("current", JBool (current r))].
End SessionResponse.

(** ** Parsing *)

Lemma parse_int_param_ok req name o :
  Pagination.parse_int_param req name = Ok o →
  match o with Some z => int64_min <= z <= int64_max | None => req name = None end.
Proof.
  unfold Pagination.parse_int_param. destruct (req name) as [raw|] eqn:E; [|naive_solver].
  destruct (parse_int64 raw) as [z|] eqn:Hp; [|naive_solver]. intros [= <-].
  unfold parse_int64, parse_whole, from_chars_int64, from_chars in Hp.
  repeat case_match; simplify_eq; by apply in_range_spec.
Qed.

(** A page accepted from the query string is within the bounds the list
    endpoints rely on. *)
Lemma pagination_wf req p :
  Pagination.from_request req = Ok p → Pagination.wf p.
Proof.
  unfold Pagination.from_request. intros H.
  destruct (Pagination.parse_int_param req "limit") as [l|] eqn:Hl; [|done]; simpl in H.
  assert (∃ lim, 1 <= lim <= 100 ∧
    (match l with None => Ok Pagination.kDefaultLimit
     | Some l => if l <? 1 then Err (ValidationException "limit must be >= 1" "param=limit")
                 else Ok (Z.min l Pagination.kMaxLimit) end = @Ok exn Z lim)) as (lim & Hlim & E).
  { destruct l as [l|]; [|by exists 50]. destruct (Z.ltb_spec l 1); [done|].
    exists (Z.min l 100). split; [lia|done]. }
  rewrite E in H; simpl in H.
  destruct (Pagination.parse_int_param req "offset") as [o|] eqn:Ho; [|done]; simpl in H.
  destruct (match o with None => _ | Some _ => _ end) as [off|] eqn:Eo; [|done]; simpl in H.
  assert (0 <= off) by (destruct o as [o|]; [destruct (Z.ltb_spec o 0)|]; simplify_eq; lia).
  destruct (Pagination.parse_int_param req "before"); [|done]; simpl in H.
  destruct (Pagination.parse_int_param req "after"); [|done]; simpl in H. by simplify_eq.
Qed.
