(* ===== verification/Events.v ===== *)
(** * Events: domain events and their typed builders

    Models include/rtc/events/domain_event.hpp, event_types.hpp and
    src/events/domain_event.cpp.  A typed builder is a function from the
    struct's fields to the arguments it passes to [DomainEvent::make], an
    [EventDraft]; [make] adds what the environment supplies: a random event id,
    the clock and the ambient trace id. *)

From S2P Require Import Prelude Text Json TimeUtil.
Open Scope string_scope.
Open Scope Z_scope.

Module EventType.
(* include/rtc/events/domain_event.hpp:24-52, EventType *)
Inductive t :=
  | kUserRegistered | kUserLoggedIn | kUserLoggedOut | kPasswordChanged | kProfileUpdated
  | kUserRoleChanged | kUserOnline | kUserOffline | kConversationCreated | kConversationDeleted
  | kMemberAdded | kMemberRemoved | kMessageSent | kMessageEdited | kMessageDeleted
  | kReactionAdded | kReactionRemoved | kAttachmentUploaded | kNotificationCreated
  | kAdminAction | kCount.

Global Instance t_eq_dec : EqDecision t.
Proof. solve_decision. Defined.

(** The enumerators in order, without the sentinel. *)
Definition all : list t :=
  [kUserRegistered; kUserLoggedIn; kUserLoggedOut; kPasswordChanged; kProfileUpdated;
   kUserRoleChanged; kUserOnline; kUserOffline; kConversationCreated; kConversationDeleted;
   kMemberAdded; kMemberRemoved; kMessageSent; kMessageEdited; kMessageDeleted;
   kReactionAdded; kReactionRemoved; kAttachmentUploaded; kNotificationCreated; kAdminAction].

(** [static_cast<std::size_t>(type)]. *)
Definition index (type : t) : nat :=
  match list_find (λ x, x = type) all with Some (i, _) => i | None => length all end.

(* include/rtc/events/domain_event.hpp:58-79, kEventTypeNames *)
Definition kEventTypeNames : list string :=
  ["user.registered"; "user.logged_in"; "user.logged_out"; "user.password_changed";
   "user.profile_updated"; "user.role_changed"; "presence.user_online";
   "presence.user_offline"; "conversation.created"; "conversation.deleted";
   "conversation.member_added"; "conversation.member_removed"; "message.sent";
   "message.edited"; "message.deleted"; "reaction.added"; "reaction.removed";
   "attachment.uploaded"; "notification.created"; "admin.action"].

(* include/rtc/events/domain_event.hpp:81-84, to_string *)
Definition to_string (type : t) : string := default "unknown" (kEventTypeNames !! index type).

(* src/events/domain_event.cpp:10-17, parse_event_type *)
Definition parse_event_type (name : string) : option t :=
  match list_find (λ n, n = name) kEventTypeNames with
  | Some (i, _) => all !! i
  | None => None
  end.
End EventType.

(** The arguments of [DomainEvent::make]. *)
Record EventDraft := {
  draft_type : EventType.t;
  draft_payload : json;
  draft_actor : option Z
}.

Definition draft (type : EventType.t) (fields : list (string * json)) (actor : Z) : EventDraft :=
  {| draft_type := type; draft_payload := jobj fields; draft_actor := Some actor |}.

Definition jints (l : list Z) : json := JArr (JInt <$> l).
Definition jstrs (l : list string) : json := JArr (JStr <$> l).

(* include/rtc/events/event_types.hpp:35-45, UserRegistered *)
Definition UserRegistered (user_id : Z) (username : string) (email : string) : EventDraft :=
  draft EventType.kUserRegistered
    [("user_id", JInt user_id); ("username", JStr username); ("email", JStr email)]
    user_id.

(* include/rtc/events/event_types.hpp:47-59, UserLoggedIn *)
Definition UserLoggedIn (user_id : Z) (username : string) (ip : string) (user_agent : string) : EventDraft :=
  draft EventType.kUserLoggedIn
    [("user_id", JInt user_id); ("username", JStr username); ("ip", JStr ip); ("user_agent", JStr user_agent)]
    user_id.

(* include/rtc/events/event_types.hpp:61-72, UserLoggedOut *)
Definition UserLoggedOut (user_id : Z) (session_id : string) (all_sessions : bool) : EventDraft :=
  draft EventType.kUserLoggedOut
    [("user_id", JInt user_id); ("session_id", JStr session_id); ("all_sessions", JBool all_sessions)]
    user_id.

(* include/rtc/events/event_types.hpp:74-80, PasswordChanged *)
Definition PasswordChanged (user_id : Z) : EventDraft :=
  draft EventType.kPasswordChanged
    [("user_id", JInt user_id)]
    user_id.

(* include/rtc/events/event_types.hpp:82-91, ProfileUpdated *)
Definition ProfileUpdated (user_id : Z) (changed_fields : list string) : EventDraft :=
  draft EventType.kProfileUpdated
    [("user_id", JInt user_id); ("changed_fields", jstrs changed_fields)]
    user_id.

(* include/rtc/events/event_types.hpp:93-105, UserRoleChanged *)
Definition UserRoleChanged (user_id : Z) (actor_id : Z) (previous_role : string) (new_role : string) : EventDraft :=
  draft EventType.kUserRoleChanged
    [("user_id", JInt user_id); ("previous_role", JStr previous_role); ("new_role", JStr new_role)]
    actor_id.

(* include/rtc/events/event_types.hpp:111-122, UserOnline *)
Definition UserOnline (user_id : Z) (username : string) (session_count : Z) : EventDraft :=
  draft EventType.kUserOnline
    [("user_id", JInt user_id); ("username", JStr username); ("session_count", JInt session_count)]
    user_id.

(* include/rtc/events/event_types.hpp:124-132, UserOffline *)
Definition UserOffline (user_id : Z) (username : string) : EventDraft :=
  draft EventType.kUserOffline
    [("user_id", JInt user_id); ("username", JStr username)]
    user_id.

(* include/rtc/events/event_types.hpp:138-151, ConversationCreated *)
Definition ConversationCreated (conversation_id : Z) (actor_id : Z) (is_group : bool) (participant_ids : list Z) : EventDraft :=
  draft EventType.kConversationCreated
    [("conversation_id", JInt conversation_id); ("is_group", JBool is_group); ("participant_ids", jints participant_ids)]
    actor_id.

(* include/rtc/events/event_types.hpp:153-161, ConversationDeleted *)
Definition ConversationDeleted (conversation_id : Z) (actor_id : Z) : EventDraft :=
  draft EventType.kConversationDeleted
    [("conversation_id", JInt conversation_id)]
    actor_id.

(* include/rtc/events/event_types.hpp:163-173, MemberAdded *)
Definition MemberAdded (conversation_id : Z) (member_id : Z) (actor_id : Z) : EventDraft :=
  draft EventType.kMemberAdded
    [("conversation_id", JInt conversation_id); ("member_id", JInt member_id)]
    actor_id.

(* include/rtc/events/event_types.hpp:175-185, MemberRemoved *)
Definition MemberRemoved (conversation_id : Z) (member_id : Z) (actor_id : Z) : EventDraft :=
  draft EventType.kMemberRemoved
    [("conversation_id", JInt conversation_id); ("member_id", JInt member_id)]
    actor_id.

(* include/rtc/events/event_types.hpp:191-207, MessageSent *)
Definition MessageSent (message_id : Z) (conversation_id : Z) (sender_id : Z) (recipient_ids : list Z) (content_length : Z) : EventDraft :=
  draft EventType.kMessageSent
    [("message_id", JInt message_id); ("conversation_id", JInt conversation_id); ("sender_id", JInt sender_id); ("recipient_ids", jints recipient_ids); ("content_length", JInt content_length)]
    sender_id.

(* include/rtc/events/event_types.hpp:209-219, MessageEdited *)
Definition MessageEdited (message_id : Z) (conversation_id : Z) (actor_id : Z) : EventDraft :=
  draft EventType.kMessageEdited
    [("message_id", JInt message_id); ("conversation_id", JInt conversation_id)]
    actor_id.

(* include/rtc/events/event_types.hpp:221-236, MessageDeleted *)
Definition MessageDeleted (message_id : Z) (conversation_id : Z) (actor_id : Z) (by_moderator : bool) : EventDraft :=
  draft EventType.kMessageDeleted
    [("message_id", JInt message_id); ("conversation_id", JInt conversation_id); ("by_moderator", JBool by_moderator)]
    actor_id.

(* include/rtc/events/event_types.hpp:238-250, ReactionAdded *)
Definition ReactionAdded (message_id : Z) (conversation_id : Z) (user_id : Z) (emoji : string) : EventDraft :=
  draft EventType.kReactionAdded
    [("message_id", JInt message_id); ("conversation_id", JInt conversation_id); ("emoji", JStr emoji)]
    user_id.

(* include/rtc/events/event_types.hpp:252-264, ReactionRemoved *)
Definition ReactionRemoved (message_id : Z) (conversation_id : Z) (user_id : Z) (emoji : string) : EventDraft :=
  draft EventType.kReactionRemoved
    [("message_id", JInt message_id); ("conversation_id", JInt conversation_id); ("emoji", JStr emoji)]
    user_id.

(* include/rtc/events/event_types.hpp:270-284, AttachmentUploaded *)
Definition AttachmentUploaded (attachment_id : Z) (owner_id : Z) (content_type : string) (size_bytes : Z) : EventDraft :=
  draft EventType.kAttachmentUploaded
    [("attachment_id", JInt attachment_id); ("owner_id", JInt owner_id); ("content_type", JStr content_type); ("size_bytes", JInt size_bytes)]
    owner_id.

(* include/rtc/events/event_types.hpp:286-298, NotificationCreated *)
Definition NotificationCreated (notification_id : Z) (user_id : Z) (actor_id : Z) (kind : string) : EventDraft :=
  draft EventType.kNotificationCreated
    [("notification_id", JInt notification_id); ("user_id", JInt user_id); ("kind", JStr kind)]
    actor_id.

(* include/rtc/events/event_types.hpp:304-319, AdminAction *)
Definition AdminAction (actor_id : Z) (action : string) (target_type : string) (target_id : string) (details : json) : EventDraft :=
  draft EventType.kAdminAction
    [("action", JStr action); ("target_type", JStr target_type); ("target_id", JStr target_id); ("details", details)]
    actor_id.

Module DomainEvent.
(* include/rtc/events/domain_event.hpp:97-119, DomainEvent *)
Record t := mk {
  type : EventType.t; event_id : string; occurred_at : TimePoint; actor_id : option Z;
  correlation_id : string; trace_id : string; payload : json }.

(** What [make] takes from its environment: the token of
    [generate_hex_token(12)], the clock, and the trace id of the calling
    thread's span context, if it has one. *)
Record env := mk_env { fresh_id : string; clock : TimePoint; current_trace : option string }.

(* src/events/domain_event.cpp:19-36, DomainEvent::make *)
Definition make (e : env) (d : EventDraft) : t :=
  {| type := draft_type d;
     event_id := fresh_id e;
     occurred_at := clock e;
     actor_id := draft_actor d;
     correlation_id := default "" (current_trace e);
     trace_id := default "" (current_trace e);
     payload := draft_payload d |}.

(* src/events/domain_event.cpp:38-55, DomainEvent::to_json *)
Definition to_json (ev : t) : json :=
  let out := jobj [("event_id", JStr (event_id ev));
                   ("type", JStr (EventType.to_string (type ev)));
                   ("occurred_at", JStr (to_iso8601 (occurred_at ev)));
                   ("payload", payload ev)] in
  let out := match actor_id ev with Some a => jset "actor_id" (JInt a) out | None => out end in
  let out := if String.eqb (correlation_id ev) "" then out
             else jset "correlation_id" (JStr (correlation_id ev)) out in
  if String.eqb (trace_id ev) "" then out else jset "trace_id" (JStr (trace_id ev)) out.
End DomainEvent.

(** Wire names identify the event type. *)
Lemma parse_event_type_to_string type :
  type ≠ EventType.kCount → EventType.parse_event_type (EventType.to_string type) = Some type.
Proof. by destruct type. Qed.

Lemma parse_event_type_inv name type :
  EventType.parse_event_type name = Some type → EventType.to_string type = name.
Proof.
  unfold EventType.parse_event_type.
  destruct (list_find _ _) as [[i n]|] eqn:E; [|done]. intros H.
  apply list_find_Some in E as (Hn & -> & _).
  do 20 (destruct i as [|i]; [simpl in *; simplify_eq; done|]). done.
Qed.
