(* ===== verification/Config.v ===== *)
(** * Config: the configuration read from the environment

    Models src/config/config.cpp, include/rtc/config/config.hpp and
    include/rtc/utils/env.hpp.  The process environment is a function from names
    to values.  [strtod] is a parameter: what it reads of a text, as a double
    (a rational, an infinity or NaN) and the text it stopped at. *)

From Stdlib Require Import QArith.
From S2P Require Import Prelude Text Errors.
Open Scope string_scope.
Open Scope Z_scope.

(** ** The environment *)

Definition Env : Type := string → option string.

(* include/rtc/utils/env.hpp:16-35, get_env *)
Definition get_env (env : Env) (name : string) : option string := env name.

(* include/rtc/utils/env.hpp:38-44, get_env_or *)
Definition get_env_or (env : Env) (name fallback : string) : string :=
  match get_env env name with
  | None => fallback
  | Some value => if String.eqb value "" then fallback else value
  end.

Inductive double := Finite (q : Q) | Infinite (negative : bool) | NaN.

(** The comparisons of C++: false when either side is NaN. *)
Definition dlt (a b : double) : bool :=
  match a, b with
  | NaN, _ | _, NaN => false
  | Finite p, Finite q => negb (Qle_bool q p)
  | Infinite n, Infinite n' => n && negb n'
  | Infinite n, Finite _ => n
  | Finite _, Infinite n => negb n
  end.

Class Strtod := strtod : string → double * string.

Module Config.
Section Parsers.
Context (env : Env).

(** The value of a variable that is set and not empty. *)
Definition present (name : string) : option string :=
  match get_env env name with
  | Some raw => if String.eqb raw "" then None else Some raw
  | None => None
  end.

Definition shown (name raw : string) : string := name +:+ "='" +:+ raw +:+ "'".

(* src/config/config.cpp:22-43, parse_uint_env *)
Definition parse_uint_env (name : string) (fallback min_value max_value : Z) : result exn Z :=
  match present name with
  | None => Ok fallback
  | Some raw =>
      match parse_whole false 0 uint64_max raw with
      | None => Err (ConfigException "Invalid integer for environment variable" (shown name raw))
      | Some parsed =>
          if (parsed <? min_value) || (max_value <? parsed)
          then Err (ConfigException "Value out of range for environment variable" (shown name raw))
          else Ok parsed
      end
  end.

(* src/config/config.cpp:47-58, parse_bool_env *)
Definition parse_bool_env (name : string) (fallback : bool) : bool :=
  match present name with
  | None => fallback
  | Some raw =>
      let lowered := transform tolower raw in
      String.eqb lowered "1" || String.eqb lowered "true" || String.eqb lowered "yes"
        || String.eqb lowered "on"
  end.

(* src/config/config.cpp:61-82, parse_int64_env *)
Definition parse_int64_env (name : string) (fallback min_value : Z) : result exn Z :=
  match present name with
  | None => Ok fallback
  | Some raw =>
      match parse_int64 raw with
      | None => Err (ConfigException "Invalid integer for environment variable" (shown name raw))
      | Some parsed =>
          if parsed <? min_value
          then Err (ConfigException "Value out of range for environment variable" (shown name raw))
          else Ok parsed
      end
  end.

(* src/config/config.cpp:88-107, parse_double_env *)
Definition parse_double_env `{Strtod} (name : string) (fallback min_value max_value : double)
    : result exn double :=
  match present name with
  | None => Ok fallback
  | Some raw =>
      let '(parsed, stopped_at) := strtod raw in
      if negb (String.eqb stopped_at "")
      then Err (ConfigException "Invalid number for environment variable" (shown name raw))
      else if dlt parsed min_value || dlt max_value parsed
      then Err (ConfigException "Value out of range for environment variable" (shown name raw))
      else Ok parsed
  end.
End Parsers.

(* include/rtc/config/config.hpp:21-106, Config *)
Record t := mk {
  chat_port : Z;
  db_host : string; db_port : Z; db_name : string; db_user : string; db_password : string;
  db_pool_size : Z;
  jwt_secret : string; jwt_access_ttl_seconds : Z; jwt_refresh_ttl_seconds : Z; jwt_issuer : string;
  ws_heartbeat_interval_seconds : Z; ws_heartbeat_timeout_seconds : Z;
  redis_enabled : bool; redis_url : string;
  cache_user_ttl_seconds : Z; cache_conversation_ttl_seconds : Z;
  upload_dir : string; upload_public_base_url : string; max_upload_bytes : Z; max_request_bytes : Z;
  rate_limit_enabled : bool; rate_limit_window_seconds : Z; rate_limit_login_max : Z;
  rate_limit_register_max : Z; rate_limit_message_max : Z; rate_limit_upload_max : Z;
  rate_limit_default_max : Z;
  cors_allowed_origins : string; worker_threads : Z; maintenance_interval_seconds : Z;
  tracing_enabled : bool; tracing_exporter : string; tracing_endpoint : string;
  tracing_sample_ratio : double;
  cluster_enabled : bool; authz_cache_ttl_seconds : Z;
  log_level : string; log_format : string; app_env : string }.

(* include/rtc/config/config.hpp:21-106, Config (default member initialisers) *)
Definition defaults : t :=
  mk 8080
    "localhost" 5432 "realtime_chat" "chat" "chat_password" 8
    "dev-insecure-secret-change-me-in-production" 900 1209600 "realtime-chat"
    30 90
    false "tcp://127.0.0.1:6379"
    300 60
    "uploads" "/api/attachments" (25 * 1024 * 1024) (1 * 1024 * 1024)
    true 60 10 5 120 30 300
    "*" 2 60
    false "logging" "http://127.0.0.1:4318/v1/traces" (Finite (5 # 100))
    false 30
    "info" "text" "development".

(* include/rtc/config/config.hpp:119-119, Config::is_production *)
Definition is_production (c : t) : bool := String.eqb (app_env c) "production".

(* src/config/config.cpp:192-227, Config::validate *)
Definition validate (c : t) : result exn unit :=
  if String.eqb (jwt_secret c) "" then Err (ConfigException "JWT_SECRET must not be empty" "")
  else if is_production c && String.eqb (jwt_secret c) "dev-insecure-secret-change-me-in-production"
  then Err (ConfigException "JWT_SECRET must be overridden in production" "")
  else if is_production c && (ssize (jwt_secret c) <? 32)
  then Err (ConfigException "JWT_SECRET must be at least 32 bytes in production" "")
  else if jwt_refresh_ttl_seconds c <? jwt_access_ttl_seconds c
  then Err (ConfigException "JWT refresh TTL must be >= access TTL" "")
  else if String.eqb (db_name c) "" || String.eqb (db_user c) "" || String.eqb (db_host c) ""
  then Err (ConfigException "Database host, name and user must not be empty" "")
  else if ws_heartbeat_timeout_seconds c <? ws_heartbeat_interval_seconds c
  then Err (ConfigException "WS heartbeat timeout must be >= heartbeat interval" "")
  else if negb (String.eqb (tracing_exporter c) "logging") && negb (String.eqb (tracing_exporter c) "otlp")
          && negb (String.eqb (tracing_exporter c) "zipkin")
  then Err (ConfigException "TRACING_EXPORTER must be one of: logging, otlp, zipkin"
              ("TRACING_EXPORTER='" +:+ tracing_exporter c +:+ "'"))
  else if cluster_enabled c && negb (redis_enabled c)
  then Err (ConfigException "CLUSTER_ENABLED requires REDIS_ENABLED: Redis Pub/Sub is the transport for cross-instance WebSocket delivery" "")
  else Ok ().

(* src/config/config.cpp:111-190, Config::load_from_env *)
Definition load_from_env `{Strtod} (env : Env) : result exn t :=
  let d := defaults in
  chat_port ← parse_uint_env env "CHAT_PORT" (chat_port d) 1 65535;
  let db_host := get_env_or env "DB_HOST" (db_host d) in
  db_port ← parse_uint_env env "DB_PORT" (db_port d) 1 65535;
  let db_name := get_env_or env "DB_NAME" (db_name d) in
  let db_user := get_env_or env "DB_USER" (db_user d) in
  let db_password := get_env_or env "DB_PASSWORD" (db_password d) in
  db_pool_size ← parse_uint_env env "DB_POOL_SIZE" (db_pool_size d) 1 512;
  let jwt_secret := get_env_or env "JWT_SECRET" (jwt_secret d) in
  access_ttl ← parse_int64_env env "JWT_ACCESS_TTL_SECONDS" (jwt_access_ttl_seconds d) 1;
  refresh_ttl ← parse_int64_env env "JWT_REFRESH_TTL_SECONDS" (jwt_refresh_ttl_seconds d) 1;
  let jwt_issuer := get_env_or env "JWT_ISSUER" (jwt_issuer d) in
  interval ← parse_int64_env env "WS_HEARTBEAT_INTERVAL_SECONDS" (ws_heartbeat_interval_seconds d) 1;
  timeout ← parse_int64_env env "WS_HEARTBEAT_TIMEOUT_SECONDS" (ws_heartbeat_timeout_seconds d) 1;
  let redis_enabled := parse_bool_env env "REDIS_ENABLED" (redis_enabled d) in
  let redis_url := get_env_or env "REDIS_URL" (redis_url d) in
  user_ttl ← parse_int64_env env "CACHE_USER_TTL_SECONDS" (cache_user_ttl_seconds d) 1;
  conversation_ttl ← parse_int64_env env "CACHE_CONVERSATION_TTL_SECONDS" (cache_conversation_ttl_seconds d) 1;
  let upload_dir := get_env_or env "UPLOAD_DIR" (upload_dir d) in
  let upload_url := get_env_or env "UPLOAD_PUBLIC_BASE_URL" (upload_public_base_url d) in
  max_upload ← parse_int64_env env "MAX_UPLOAD_BYTES" (max_upload_bytes d) 1;
  max_request ← parse_int64_env env "MAX_REQUEST_BYTES" (max_request_bytes d) 1;
  let limits := parse_bool_env env "RATE_LIMIT_ENABLED" (rate_limit_enabled d) in
  window ← parse_int64_env env "RATE_LIMIT_WINDOW_SECONDS" (rate_limit_window_seconds d) 1;
  login_max ← parse_int64_env env "RATE_LIMIT_LOGIN_MAX" (rate_limit_login_max d) 1;
  register_max ← parse_int64_env env "RATE_LIMIT_REGISTER_MAX" (rate_limit_register_max d) 1;
  message_max ← parse_int64_env env "RATE_LIMIT_MESSAGE_MAX" (rate_limit_message_max d) 1;
  upload_max ← parse_int64_env env "RATE_LIMIT_UPLOAD_MAX" (rate_limit_upload_max d) 1;
  default_max ← parse_int64_env env "RATE_LIMIT_DEFAULT_MAX" (rate_limit_default_max d) 1;
  let cors := get_env_or env "CORS_ALLOWED_ORIGINS" (cors_allowed_origins d) in
  workers ← parse_int64_env env "WORKER_THREADS" (worker_threads d) 1;
  maintenance ← parse_int64_env env "MAINTENANCE_INTERVAL_SECONDS" (maintenance_interval_seconds d) 1;
  let tracing := parse_bool_env env "TRACING_ENABLED" (tracing_enabled d) in
  let exporter := get_env_or env "TRACING_EXPORTER" (tracing_exporter d) in
  let endpoint := get_env_or env "TRACING_ENDPOINT" (tracing_endpoint d) in
  ratio ← parse_double_env env "TRACING_SAMPLE_RATIO" (tracing_sample_ratio d) (Finite 0) (Finite 1);
  let cluster := parse_bool_env env "CLUSTER_ENABLED" redis_enabled in
  authz_ttl ← parse_int64_env env "AUTHZ_CACHE_TTL_SECONDS" (authz_cache_ttl_seconds d) 1;
  let cfg :=
    mk chat_port db_host db_port db_name db_user db_password db_pool_size jwt_secret access_ttl
      refresh_ttl jwt_issuer interval timeout redis_enabled redis_url user_ttl conversation_ttl
      upload_dir upload_url max_upload max_request limits window login_max register_max message_max
      upload_max default_max cors workers maintenance tracing exporter endpoint ratio cluster
      authz_ttl (get_env_or env "LOG_LEVEL" (log_level d)) (get_env_or env "LOG_FORMAT" (log_format d))
      (get_env_or env "APP_ENV" (app_env d)) in
  validate cfg;;
  mret cfg.

(* src/config/config.cpp:229-234, Config::database_connection_string *)
Definition database_connection_string (c : t) : string :=
  "host=" +:+ db_host c +:+ " port=" +:+ to_string (db_port c) +:+ " dbname=" +:+ db_name c
    +:+ " user=" +:+ db_user c +:+ " password=" +:+ db_password c
    +:+ " connect_timeout=5 application_name=realtime-chat".

(* src/config/config.cpp:236-239, Config::database_connection_string_redacted *)
Definition database_connection_string_redacted (c : t) : string :=
  "host=" +:+ db_host c +:+ " port=" +:+ to_string (db_port c) +:+ " dbname=" +:+ db_name c
    +:+ " user=" +:+ db_user c +:+ " password=*** application_name=realtime-chat".

(** *** What a loaded configuration satisfies *)

Lemma parse_uint_env_range env name fallback lo hi v :
  parse_uint_env env name fallback lo hi = Ok v → lo <= fallback <= hi → lo <= v <= hi.
Proof.
  unfold parse_uint_env. destruct (present env name); [|by intros [= <-]].
  destruct (parse_whole _ _ _ _) as [z|]; [|done].
  destruct (Z.ltb_spec z lo), (Z.ltb_spec hi z); try done. intros [= <-] _. lia.
Qed.

Lemma parse_int64_env_range env name fallback lo v :
  parse_int64_env env name fallback lo = Ok v → lo <= fallback → lo <= v.
Proof.
  unfold parse_int64_env. destruct (present env name); [|by intros [= <-]].
  destruct (parse_int64 _) as [z|]; [|done]. destruct (Z.ltb_spec z lo); [done|]. by intros [= <-] _.
Qed.

(** A zero in the environment is refused, not taken. *)
Lemma parse_int64_env_zero env name fallback :
  env name = Some "0" →
  parse_int64_env env name fallback 1
  = Err (ConfigException "Value out of range for environment variable" (shown name "0")).
Proof. intros H. unfold parse_int64_env, present, get_env. by rewrite H. Qed.

Record well_formed (c : t) : Prop := {
  wf_ports : 1 <= chat_port c <= 65535 ∧ 1 <= db_port c <= 65535;
  wf_pool : 1 <= db_pool_size c <= 512;
  wf_ttls : 1 <= jwt_access_ttl_seconds c <= jwt_refresh_ttl_seconds c;
  wf_heartbeat : 1 <= ws_heartbeat_interval_seconds c <= ws_heartbeat_timeout_seconds c;
  wf_limits : 1 <= rate_limit_window_seconds c ∧ 1 <= rate_limit_login_max c ∧
    1 <= rate_limit_register_max c ∧ 1 <= rate_limit_message_max c ∧ 1 <= rate_limit_upload_max c ∧
    1 <= rate_limit_default_max c;
  wf_sizes : 1 <= max_upload_bytes c ∧ 1 <= max_request_bytes c;
  wf_jobs : 1 <= worker_threads c ∧ 1 <= maintenance_interval_seconds c;
  wf_caches : 1 <= cache_user_ttl_seconds c ∧ 1 <= cache_conversation_ttl_seconds c ∧
    1 <= authz_cache_ttl_seconds c;
  wf_secret : jwt_secret c ≠ "" ∧
    (is_production c = true → 32 <= ssize (jwt_secret c) ∧
       jwt_secret c ≠ "dev-insecure-secret-change-me-in-production");
  wf_database : db_name c ≠ "" ∧ db_user c ≠ "" ∧ db_host c ≠ "";
  wf_exporter : tracing_exporter c ∈ ["logging"; "otlp"; "zipkin"];
  wf_ratio : dlt (tracing_sample_ratio c) (Finite 0) = false ∧ dlt (Finite 1) (tracing_sample_ratio c) = false;
  wf_cluster : cluster_enabled c = true → redis_enabled c = true }.

Record validated (c : t) : Prop := {
  va_secret : jwt_secret c ≠ "";
  va_production : is_production c = true →
    jwt_secret c ≠ "dev-insecure-secret-change-me-in-production" ∧ 32 <= ssize (jwt_secret c);
  va_ttls : jwt_access_ttl_seconds c <= jwt_refresh_ttl_seconds c;
  va_database : db_name c ≠ "" ∧ db_user c ≠ "" ∧ db_host c ≠ "";
  va_heartbeat : ws_heartbeat_interval_seconds c <= ws_heartbeat_timeout_seconds c;
  va_exporter : tracing_exporter c ∈ ["logging"; "otlp"; "zipkin"];
  va_cluster : cluster_enabled c = true → redis_enabled c = true }.

Lemma validate_ok c : validate c = Ok () → validated c.
Proof.
  unfold validate. destruct (String.eqb_spec (jwt_secret c) ""); [done|].
  destruct (is_production c && String.eqb (jwt_secret c) _) eqn:E1; [done|].
  destruct (is_production c && (ssize (jwt_secret c) <? 32)) eqn:E2; [done|].
  destruct (Z.ltb_spec (jwt_refresh_ttl_seconds c) (jwt_access_ttl_seconds c)); [done|].
  destruct (String.eqb_spec (db_name c) ""), (String.eqb_spec (db_user c) ""),
    (String.eqb_spec (db_host c) ""); try done. simpl.
  destruct (Z.ltb_spec (ws_heartbeat_timeout_seconds c) (ws_heartbeat_interval_seconds c)); [done|].
  destruct (negb (String.eqb (tracing_exporter c) "logging") && _ && _) eqn:E3; [done|].
  destruct (cluster_enabled c && negb (redis_enabled c)) eqn:E4; [done|]. intros _. split; try done.
  - intros Hp. rewrite Hp in E1, E2. simpl in E1, E2. split; [by apply String.eqb_neq|].
    by apply Z.ltb_ge in E2.
  - apply andb_false_iff in E3 as [E3|E3]; [apply andb_false_iff in E3 as [E3|E3]|];
      apply negb_false_iff, String.eqb_eq in E3; rewrite E3; set_solver.
  - intros Hc. rewrite Hc in E4. by apply negb_false_iff in E4.
Qed.

Lemma parse_double_env_range `{Strtod} env name fallback lo hi v :
  parse_double_env env name fallback lo hi = Ok v →
  dlt fallback lo = false → dlt hi fallback = false → dlt v lo = false ∧ dlt hi v = false.
Proof.
  unfold parse_double_env. destruct (present env name); [|by intros [= <-]].
  destruct (strtod _) as [z rest]. destruct (negb _); [done|].
  destruct (dlt z lo) eqn:E1, (dlt hi z) eqn:E2; try done. by intros [= <-].
Qed.

(** Opens a hypothesis [load_from_env env = Ok c] into one per variable. *)
Ltac open_load H :=
  unfold load_from_env, mbind, result_bind, mret, result_ret in H; cbv beta zeta in H;
  repeat match type of H with
  | match ?m with Ok _ => _ | Err _ => _ end = Ok _ =>
      let v := fresh "v" in let Hv := fresh "Hv" in destruct m as [v|] eqn:Hv; [|done]
  end.

End Config.

Module ConfigSample.
(** A reader of the two texts "0" and "1". *)
Definition reader : Strtod := λ s,
  if String.eqb s "0" then (Finite 0, "") else if String.eqb s "1" then (Finite 1, "") else (NaN, s).

Definition production : Env := λ name,
  if String.eqb name "APP_ENV" then Some "production"
  else if String.eqb name "JWT_SECRET" then Some "0123456789abcdef0123456789abcdef"
  else if String.eqb name "REDIS_ENABLED" then Some "Yes"
  else if String.eqb name "TRACING_SAMPLE_RATIO" then Some "1"
  else None.
End ConfigSample.

