(* ===== verification/Doubles.v ===== *)
(** * Doubles: how the standard library prints them

    A double that is finite is the rational it denotes; the sign of a zero is not
    kept.  [operator<<] of a stream prints six significant digits, as [%g] does,
    and [std::to_string] six digits after the point, as [%f] does; both round to
    nearest, ties to even. *)

From Stdlib Require Import QArith Qround Lqa.
From S2P Require Import Prelude Text.
Open Scope string_scope.
Open Scope Z_scope.

(** ** Streams *)

Module Stream.
(** [10 ^ e] for any integer [e]. *)
Definition ten_to (e : Z) : Q := if 0 <=? e then inject_Z (10 ^ e) else (1 # Z.to_pos (10 ^ (- e))).

(** The nearest integer, ties to even. *)
Definition nearest (q : Q) : Z :=
  let lo := Qfloor q in
  let rest := (q - inject_Z lo)%Q in
  if Qlt_le_dec rest (1 # 2) then lo
  else if Qlt_le_dec (1 # 2) rest then lo + 1
  else if Z.even lo then lo else lo + 1.

(** Raises [e] while [10 ^ (e + 1) <= q]; lowers it while [q < 10 ^ e]. *)
Fixpoint raise (fuel : nat) (q : Q) (e : Z) : Z :=
  match fuel with
  | O => e
  | S fuel => if Qle_bool (ten_to (e + 1)) q then raise fuel q (e + 1) else e
  end.
Fixpoint lower (fuel : nat) (q : Q) (e : Z) : Z :=
  match fuel with
  | O => e
  | S fuel => if Qle_bool (ten_to e) q then e else lower fuel q (e - 1)
  end.
(** The decimal exponent of a positive double; a double is below [10 ^ 309] and
    at least [10 ^ -324]. *)
Definition exponent (q : Q) : Z := lower 330 q (raise 310 q 0).

(** The six significant digits, rounded, and their exponent. *)
Definition significant (q : Q) : Z * Z :=
  let e := exponent q in
  let m := nearest (q * ten_to (5 - e))%Q in
  if m =? 1000000 then (100000, e + 1) else (m, e).

Fixpoint strip_zeros (fuel : nat) (m : Z) : Z :=
  match fuel with
  | O => m
  | S fuel => if (m mod 10 =? 0) && negb (m =? 0) then strip_zeros fuel (m / 10) else m
  end.

(** [n] as at least [width] digits. *)
Definition padded (width : nat) (n : Z) : string :=
  let s := to_string n in
  String.concat "" (replicate (width - String.length s) "0") +:+ s.

(** The digits after the point, without trailing zeros. *)
Definition fraction (width : nat) (n : Z) : string :=
  if n =? 0 then ""
  else
    let shown := strip_zeros width n in
    let dropped := (String.length (padded width n) - String.length (padded 0 n))%nat in
    "." +:+ String.concat "" (replicate dropped "0") +:+ to_string shown.

Definition show_positive (q : Q) : string :=
  let '(m, e) := significant q in
  if (e <? -4) || (6 <=? e)
  then to_string (m / 100000) +:+ fraction 5 (m mod 100000) +:+ "e"
       +:+ (if e <? 0 then "-" else "+") +:+ padded 2 (Z.abs e)
  else
    if 0 <=? e
    then let scale := 10 ^ (5 - e) in
         to_string (m / scale) +:+ fraction (Z.to_nat (5 - e)) (m mod scale)
    else "0" +:+ fraction (Z.to_nat (5 - e)) m.

Definition show (q : Q) : string :=
  if Qeq_bool q 0 then "0"
  else if Qle_bool 0 q then show_positive q else "-" +:+ show_positive (- q)%Q.
End Stream.

(** ** std::to_string *)

Module Fixed.
(** The value in millionths. *)
Definition millionths (q : Q) : Z := Stream.nearest (q * 1000000)%Q.

Definition show_nonnegative (q : Q) : string :=
  let m := millionths q in to_string (m / 1000000) +:+ "." +:+ Stream.padded 6 (m mod 1000000).

(** A negative value keeps its sign even when it is printed as zero. *)
Definition to_string (q : Q) : string :=
  if Qle_bool 0 q then show_nonnegative q else "-" +:+ show_nonnegative (- q)%Q.
End Fixed.

(** ** Lemmas *)

Lemma nearest_close (q : Q) :
  (inject_Z (Stream.nearest q) - (1 # 2) <= q <= inject_Z (Stream.nearest q) + (1 # 2))%Q.
Proof.
  unfold Stream.nearest.
  pose proof (Qfloor_le q) as Hlo. pose proof (Qlt_floor q) as Hhi. rewrite inject_Z_plus in Hhi.
  change (inject_Z 1) with 1%Q in Hhi.
  destruct (Qlt_le_dec _ _) as [Hr|Hr]; [lra|].
  destruct (Qlt_le_dec _ _) as [Hr'|Hr']; [|destruct (Z.even _)];
    rewrite ?inject_Z_plus; change (inject_Z 1) with 1%Q; lra.
Qed.

Lemma nearest_integer (z : Z) : Stream.nearest (inject_Z z) = z.
Proof.
  unfold Stream.nearest. rewrite Qfloor_Z.
  destruct (Qlt_le_dec _ _) as [Hr|Hr]; [done|]. lra.
Qed.

(** [std::to_string] of a double is within half a millionth of it. *)
Lemma millionths_close (q : Q) :
  (inject_Z (Fixed.millionths q) - (1 # 2) <= q * 1000000 <= inject_Z (Fixed.millionths q) + (1 # 2))%Q.
Proof. apply nearest_close. Qed.

Lemma fixed_samples :
  Fixed.to_string 0 = "0.000000" ∧ Fixed.to_string (-3 # 2) = "-1.500000" ∧
  Fixed.to_string (1 # 3) = "0.333333" ∧ Fixed.to_string (-1 # 10000000) = "-0.000000" ∧
  Fixed.to_string (19999999 # 10000000) = "2.000000" ∧ Fixed.to_string (1 # 128) = "0.007812".
Proof. by vm_compute. Qed.
