(* ===== verification/Tracing.v ===== *)
(** * Tracing: trace context, spans, the tracer and the tracing middleware

    Models src/tracing/trace_context.cpp, span.cpp, tracer.cpp, scoped_span.cpp,
    src/middlewares/tracing_middleware.cpp, include/rtc/utils/random.hpp and the
    headers they implement.  A thread's view of the tracing subsystem is a
    [TW]: the tracer, the thread's active context, its random engine and its
    two clocks; every operation is a function on it.  A pointer to a
    [SpanContext] is its value, because a context never changes once a span
    has it.  The random engine is a parameter, the stream of its draws.  A
    drain is told whether the export succeeded; the exporters, which serialise a
    batch and send it, are in Export. *)

From Stdlib Require Import QArith.
From S2P Require Import Prelude Text Json Doubles.
Open Scope string_scope.
Open Scope Z_scope.

(** ** Random hex tokens *)

Module Random.
(** The thread's engine: the values it will draw and how many it has drawn. *)
Record t := mk { draw : nat → Z; pos : nat }.

(* include/rtc/utils/random.hpp:17-18, kHex *)
Definition kHex : list ascii :=
  ["0"; "1"; "2"; "3"; "4"; "5"; "6"; "7"; "8"; "9"; "a"; "b"; "c"; "d"; "e"; "f"]%char.

Definition hex_digit (z : Z) : ascii := default "0"%char (kHex !! Z.to_nat z).

(* include/rtc/utils/random.hpp:14-27, generate_hex_token *)
Fixpoint generate_hex_token (bytes : nat) (r : t) : string * t :=
  match bytes with
  | O => ("", r)
  | S n =>
      let byte := Z.land (draw r (pos r)) 255 in
      let '(rest, r') := generate_hex_token n (mk (draw r) (S (pos r))) in
      (String (hex_digit (Z.shiftr byte 4)) (String (hex_digit (Z.land byte 15)) rest), r')
  end.
End Random.

(** ** Trace context *)

(* include/rtc/tracing/trace_context.hpp:14-14, kTraceIdHexLength *)
Definition kTraceIdHexLength : nat := 32.
(* include/rtc/tracing/trace_context.hpp:15-15, kSpanIdHexLength *)
Definition kSpanIdHexLength : nat := 16.
(* include/rtc/tracing/trace_context.hpp:18-18, kInvalidTraceId *)
Definition kInvalidTraceId : string := "00000000000000000000000000000000".
(* include/rtc/tracing/trace_context.hpp:19-19, kInvalidSpanId *)
Definition kInvalidSpanId : string := "0000000000000000".
(* include/rtc/tracing/trace_context.hpp:22-22, kTraceParentHeader *)
Definition kTraceParentHeader : string := "traceparent".
(* include/rtc/tracing/trace_context.hpp:23-23, kTraceStateHeader *)
Definition kTraceStateHeader : string := "tracestate".

Module SpanContext.
(* include/rtc/tracing/trace_context.hpp:28-32, SpanContext *)
Record t := mk { trace_id : string; span_id : string; sampled : bool; trace_state : string }.

(* include/rtc/tracing/trace_context.hpp:34-37, SpanContext::is_valid *)
Definition is_valid (c : t) : bool :=
  (String.length (trace_id c) =? kTraceIdHexLength)%nat
    && negb (String.eqb (trace_id c) kInvalidTraceId)
    && (String.length (span_id c) =? kSpanIdHexLength)%nat
    && negb (String.eqb (span_id c) kInvalidSpanId).
End SpanContext.

(* src/tracing/trace_context.cpp:12-16, is_lower_hex *)
Definition is_lower_hex (value : string) : bool :=
  all_of (λ c, in_range 48 57 (code c) || in_range 97 102 (code c)) value.

(* src/tracing/trace_context.cpp:24-26, digit *)
Definition hex_value (c : ascii) : Z := (if code c <=? 57 then code c - 48 else code c - 97 + 10) mod 256.

(* src/tracing/trace_context.cpp:20-28, parse_hex_byte *)
Definition parse_hex_byte (value : string) : option Z :=
  match value with
  | String a (String b "") =>
      if is_lower_hex value then Some (Z.lor (Z.shiftl (hex_value a) 4) (hex_value b) mod 256) else None
  | _ => None
  end.

Definition not_dash (c : ascii) : bool := negb (Ascii.eqb c "-"%char).

(** The fields found, at most [n]; their number is the [count] of the source. *)
(* src/tracing/trace_context.cpp:32-47, split_fields *)
Fixpoint split_fields (n : nat) (header : string) : list string :=
  match n with
  | O => []
  | S n' =>
      match span not_dash header with
      | (field, "") => [field]
      | (field, String _ rest) => field :: split_fields n' rest
      end
  end.

(* src/tracing/trace_context.cpp:50-50, kSampledFlag *)
Definition kSampledFlag : Z := 1.

(* src/tracing/trace_context.cpp:54-62, new_trace_id *)
Definition new_trace_id (r : Random.t) : string * Random.t :=
  let '(id, r) := Random.generate_hex_token (kTraceIdHexLength / 2) r in
  if String.eqb id kInvalidTraceId then Random.generate_hex_token (kTraceIdHexLength / 2) r
  else (id, r).

(* src/tracing/trace_context.cpp:64-70, new_span_id *)
Definition new_span_id (r : Random.t) : string * Random.t :=
  let '(id, r) := Random.generate_hex_token (kSpanIdHexLength / 2) r in
  if String.eqb id kInvalidSpanId then Random.generate_hex_token (kSpanIdHexLength / 2) r
  else (id, r).

(* src/tracing/trace_context.cpp:72-102, parse_traceparent *)
Definition parse_traceparent (header : string) : option SpanContext.t :=
  if String.eqb header "" then None
  else match split_fields 4 header with
       | [f0; f1; f2; f3] =>
           match parse_hex_byte f0 with
           | None => None
           | Some version =>
               if version =? 255 then None
               else
                 let c := SpanContext.mk f1 f2 false "" in
                 if negb (is_lower_hex f1) || negb (is_lower_hex f2) || negb (SpanContext.is_valid c)
                 then None
                 else match parse_hex_byte f3 with
                      | None => None
                      | Some flags =>
                          Some (SpanContext.mk f1 f2 (negb (Z.land flags kSampledFlag =? 0)) "")
                      end
           end
       | _ => None
       end.

(* src/tracing/trace_context.cpp:104-113, format_traceparent *)
Definition format_traceparent (c : SpanContext.t) : string :=
  "00-" +:+ SpanContext.trace_id c +:+ "-" +:+ SpanContext.span_id c
    +:+ (if SpanContext.sampled c then "-01" else "-00").

(** ** Spans *)

(* include/rtc/tracing/span.hpp:20-20, SpanKind *)
Inductive SpanKind := kInternal | kServer | kClient | kProducer | kConsumer.
(* include/rtc/tracing/span.hpp:38-38, SpanStatus *)
Inductive SpanStatus := kUnset | kOk | kError.

Module SpanData.
(* include/rtc/tracing/span.hpp:55-70, SpanData *)
Record t := mk {
  name : string; kind : SpanKind; trace_id : string; span_id : string; parent_span_id : string;
  trace_state : string; sampled : bool; start_time : Z; duration : Z; status : SpanStatus;
  status_message : string; attributes : list (string * string) }.

Definition set_attributes x d :=
  mk (name d) (kind d) (trace_id d) (span_id d) (parent_span_id d) (trace_state d) (sampled d)
    (start_time d) (duration d) (status d) (status_message d) x.
Definition set_status x m d :=
  mk (name d) (kind d) (trace_id d) (span_id d) (parent_span_id d) (trace_state d) (sampled d)
    (start_time d) (duration d) x m (attributes d).
Definition set_duration x d :=
  mk (name d) (kind d) (trace_id d) (span_id d) (parent_span_id d) (trace_state d) (sampled d)
    (start_time d) x (status d) (status_message d) (attributes d).
End SpanData.

Module Tracer.
(* include/rtc/tracing/tracer.hpp:22-35, TracerOptions *)
Record Options := mk_options {
  enabled : bool; sample_ratio : Q; max_batch_size : Z; max_queue_size : Z }.

(* include/rtc/tracing/tracer.hpp:85-98, Tracer *)
Record t := mk {
  options : Options; buffer : list SpanData.t; started : Z; exported : Z; dropped : Z }.

Definition clamp (lo hi q : Q) : Q :=
  if Qle_bool q lo then lo else if Qle_bool hi q then hi else q.

(* src/tracing/tracer.cpp:61-69, Tracer::Tracer *)
Definition make (o : Options) : t :=
  let batch := Z.max (max_batch_size o) 1 in
  mk (mk_options (enabled o) (clamp 0 1 (sample_ratio o)) batch (Z.max (max_queue_size o) batch))
    [] 0 0 0.

(** [static_cast<double>(low)] for [0 <= low < 2^64]: the nearest value with 53
    significant bits, ties to even. *)
Definition to_double (low : Z) : Z :=
  let e := Z.max 0 (Z.log2 low - 52) in
  let q := Z.shiftr low e in
  let r := low - Z.shiftl q e in
  let half := Z.shiftl 1 (e - 1) in
  let up := if e =? 0 then false else (half <? r) || ((half =? r) && Z.odd q) in
  Z.shiftl (if up then q + 1 else q) e.

(** [std::from_chars(begin, end, low, 16)] of the sixteen digits of a trace
    id's tail; [None] when the string is not all hexadecimal digits. *)
Definition hex_digit_value (c : ascii) : option Z :=
  if isdigit c then Some (code c - 48)
  else if in_range 97 102 (code c) then Some (code c - 87)
  else if in_range 65 70 (code c) then Some (code c - 55)
  else None.
Fixpoint hex_uint64 (acc : Z) (s : string) : option Z :=
  match s with
  | "" => if acc <=? uint64_max then Some acc else None
  | String c r => d ← hex_digit_value c; hex_uint64 (acc * 16 + d) r
  end.

(** [substr(n)]. *)
Fixpoint string_drop (n : nat) (s : string) : string :=
  match n, s with
  | S n', String _ r => string_drop n' r
  | _, _ => s
  end.

(* src/tracing/tracer.cpp:19-38, trace_id_ratio_sampled *)
Definition trace_id_ratio_sampled (trace_id : string) (ratio : Q) : bool :=
  if Qle_bool 1 ratio then true
  else if Qle_bool ratio 0 then false
  else if (String.length trace_id <? kTraceIdHexLength)%nat then false
  else let tail := string_drop (kTraceIdHexLength - 16) trace_id in
       match (if String.eqb tail "" then None else hex_uint64 0 tail) with
       | None => false
       | Some low => negb (Qle_bool (ratio * inject_Z (2 ^ 64)) (inject_Z (to_double low)))
       end.

(* src/tracing/tracer.cpp:105-107, Tracer::should_sample *)
Definition should_sample (tr : t) (trace_id : string) : bool :=
  trace_id_ratio_sampled trace_id (sample_ratio (options tr)).

(** Counters are 64 bits wide. *)
Definition u64 (z : Z) : Z := z mod 2 ^ 64.

Definition count_started (tr : t) : t :=
  mk (options tr) (buffer tr) (u64 (started tr + 1)) (exported tr) (dropped tr).

(* src/tracing/tracer.cpp:147-166, Tracer::submit *)
Definition submit (span : SpanData.t) (tr : t) : t :=
  if max_queue_size (options tr) <=? Z.of_nat (length (buffer tr))
  then mk (options tr) (buffer tr) (started tr) (exported tr) (u64 (dropped tr + 1))
  else mk (options tr) (buffer tr ++ [span])%list (started tr) (exported tr) (dropped tr).

(* src/tracing/tracer.cpp:168-188, Tracer::drain_once *)
Definition drain_once (export_ok : bool) (tr : t) : list SpanData.t * t :=
  match buffer tr with
  | [] => ([], tr)
  | batch =>
      let n := Z.of_nat (length batch) in
      if export_ok
      then (batch, mk (options tr) [] (started tr) (u64 (exported tr + n)) (dropped tr))
      else ([], mk (options tr) [] (started tr) (exported tr) (u64 (dropped tr + n)))
  end.
End Tracer.

(** A thread's view: the installed tracer, the active context, the engine, and
    the system and monotonic clocks (nanoseconds). *)
Record TW := mkTW {
  tracer : Tracer.t; t_current : option SpanContext.t; engine : Random.t; wall : Z; steady : Z }.

Definition set_tracer x w := mkTW x (t_current w) (engine w) (wall w) (steady w).
Definition set_current x w := mkTW (tracer w) x (engine w) (wall w) (steady w).
Definition set_engine x w := mkTW (tracer w) (t_current w) x (wall w) (steady w).

Module Span.
(* include/rtc/tracing/span.hpp:116-120, Span *)
Record t := mk {
  has_tracer : bool; data : SpanData.t; context : SpanContext.t; started : Z; ended : bool }.

Definition no_data : SpanData.t :=
  SpanData.mk "" kInternal "" "" "" "" true 0 0 kUnset "" [].
Definition no_context : SpanContext.t := SpanContext.mk "" "" false "".

(* include/rtc/tracing/span.hpp:84-84, Span::Span *)
Definition inert : t := mk false no_data no_context 0 true.

(* src/tracing/span.cpp:9-18, Span::Span *)
Definition make (d : SpanData.t) (w : TW) : t :=
  mk true d
    (SpanContext.mk (SpanData.trace_id d) (SpanData.span_id d) (SpanData.sampled d)
       (SpanData.trace_state d))
    (steady w) false.

(* include/rtc/tracing/span.hpp:113-113, Span::is_recording *)
Definition is_recording (s : t) : bool := has_tracer s && negb (ended s).

Definition set_data x s := mk (has_tracer s) x (context s) (started s) (ended s).

(* src/tracing/span.cpp:49-54, Span::set_attribute *)
Definition set_attribute (key value : string) (s : t) : t :=
  if is_recording s
  then set_data (SpanData.set_attributes
                   (SpanData.attributes (data s) ++ [(key, value)])%list (data s)) s
  else s.

(* src/tracing/span.cpp:56-58, Span::set_attribute (integer) *)
Definition set_attribute_int (key : string) (value : Z) (s : t) : t := set_attribute key (to_string value) s.
(* src/tracing/span.cpp:60-62, Span::set_attribute (double) *)
Definition set_attribute_double (key : string) (value : Q) (s : t) : t :=
  set_attribute key (Fixed.to_string value) s.
(* src/tracing/span.cpp:64-66, Span::set_attribute (boolean) *)
Definition set_attribute_bool (key : string) (value : bool) (s : t) : t :=
  set_attribute key (if value then "true" else "false") s.

(* src/tracing/span.cpp:68-74, Span::set_status *)
Definition set_status (status : SpanStatus) (message : string) (s : t) : t :=
  if is_recording s then set_data (SpanData.set_status status message (data s)) s else s.

(* src/tracing/span.cpp:76-83, Span::record_error *)
Definition record_error (message : string) (s : t) : t :=
  if is_recording s
  then set_attribute "exception.message" message
         (set_data (SpanData.set_status kError message (data s)) s)
  else s.

(* src/tracing/span.cpp:85-97, Span::end *)
Definition end_ (s : t) (w : TW) : t * TW :=
  if negb (has_tracer s) || ended s then (s, w)
  else
    let d := SpanData.set_duration (steady w - started s) (data s) in
    (mk false d (context s) (started s) true, set_tracer (Tracer.submit d (tracer w)) w).

(** The source of a move; its strings are moved from, and nothing reads them. *)
Definition neutralised (other : t) : t := mk false (data other) (context other) (started other) true.

(** The new object and the source. *)
(* src/tracing/span.cpp:20-29, Span::Span(Span&&) *)
Definition move (other : t) : t * t := (other, neutralised other).

(** [this = std::move(other)] for two objects. *)
(* src/tracing/span.cpp:31-43, Span::operator= *)
Definition move_assign (this other : t) (w : TW) : (t * t) * TW :=
  ((other, neutralised other), (end_ this w).2).

(** Whatever is moved where, a span is reported once: ending both ends of a move
    is ending the source before it. *)
Lemma move_reports_once other w :
  let '(s, source) := move other in
  (end_ source (end_ s w).2).2 = (end_ other w).2 ∧ (end_ s (end_ source w).2).2 = (end_ other w).2.
Proof. unfold move, end_ at 1 4. cbn. done. Qed.

Lemma end_once s w : let '(s', w') := end_ s w in end_ s' w' = (s', w').
Proof.
  unfold end_. destruct (negb (has_tracer s) || ended s) eqn:He; [by rewrite He|]. done.
Qed.
End Span.

(* src/tracing/tracer.cpp:109-141, Tracer::start_span *)
Definition start_span (name : string) (kind : SpanKind) (parent : option SpanContext.t) (w : TW)
    : Span.t * TW :=
  if negb (Tracer.enabled (Tracer.options (tracer w))) then (Span.inert, w)
  else
    let '(span_id, r) := new_span_id (engine w) in
    let w := set_engine r w in
    let '(d, w) :=
      match (p ← parent; if SpanContext.is_valid p then Some p else None) with
      | Some p =>
          (SpanData.mk name kind (SpanContext.trace_id p) span_id (SpanContext.span_id p)
             (SpanContext.trace_state p) (SpanContext.sampled p) (wall w) 0 kUnset "" [], w)
      | None =>
          let '(trace_id, r) := new_trace_id (engine w) in
          (SpanData.mk name kind trace_id span_id "" ""
             (Tracer.should_sample (tracer w) trace_id) (wall w) 0 kUnset "" [], set_engine r w)
      end in
    let w := set_tracer (Tracer.count_started (tracer w)) w in
    if negb (SpanData.sampled d) then (Span.inert, w) else (Span.make d w, w).

(* src/tracing/tracer.cpp:143-145, Tracer::start_child_span *)
Definition start_child_span (name : string) (kind : SpanKind) (w : TW) : Span.t * TW :=
  start_span name kind (t_current w) w.

(** ** Scopes *)

Module SpanScope.
(* include/rtc/tracing/scoped_span.hpp:41-42, SpanScope *)
Record t := mk { previous : option SpanContext.t; active : bool }.

(* src/tracing/scoped_span.cpp:21-27, SpanScope::SpanScope *)
Definition make (c : SpanContext.t) (w : TW) : t * TW :=
  if SpanContext.is_valid c then (mk (t_current w) true, set_current (Some c) w)
  else (mk None false, w).

(* src/tracing/scoped_span.cpp:29-33, SpanScope::~SpanScope *)
Definition destroy (s : t) (w : TW) : TW := if active s then set_current (previous s) w else w.
End SpanScope.

Module ScopedSpan.
(* include/rtc/tracing/scoped_span.hpp:86-88, ScopedSpan *)
Record t := mk { span : Span.t; previous : option SpanContext.t; active : bool }.

Definition empty : t := mk Span.inert None false.

(* src/tracing/scoped_span.cpp:35-41, ScopedSpan::ScopedSpan *)
Definition make (s : Span.t) (w : TW) : t * TW :=
  if Span.is_recording s
  then (mk s (t_current w) true, set_current (Some (Span.context s)) w)
  else (mk s None false, w).

(* src/tracing/scoped_span.cpp:43-48, ScopedSpan::deactivate *)
Definition deactivate (s : t) (w : TW) : t * TW :=
  if active s then (mk (span s) (previous s) false, set_current (previous s) w) else (s, w).

(* src/tracing/scoped_span.cpp:50-55, ScopedSpan::~ScopedSpan *)
Definition destroy (s : t) (w : TW) : TW :=
  let '(s, w) := deactivate s w in (Span.end_ (span s) w).2.

(** The span this object held is reported by [Span]'s own move assignment. *)
(* src/tracing/scoped_span.cpp:67-79, ScopedSpan::operator= *)
Definition assign (s other : t) (w : TW) : t * TW :=
  let '(s, w) := deactivate s w in
  let w := (Span.end_ (span s) w).2 in
  let w := if active other then set_current (Some (Span.context (span other))) w else w in
  (other, w).

(* include/rtc/tracing/scoped_span.hpp:70-73, ScopedSpan::set_attribute *)
Definition set_attribute key value (s : t) : t :=
  mk (Span.set_attribute key value (span s)) (previous s) (active s).
(* include/rtc/tracing/scoped_span.hpp:74-77, ScopedSpan::set_attribute (integer) *)
Definition set_attribute_int key value (s : t) : t :=
  mk (Span.set_attribute_int key value (span s)) (previous s) (active s).
(* include/rtc/tracing/scoped_span.hpp:78-81, ScopedSpan::record_error *)
Definition record_error message (s : t) : t :=
  mk (Span.record_error message (span s)) (previous s) (active s).
End ScopedSpan.

(** The ways a scope is opened. *)
Inductive ScopeKind :=
  | TraceScope (kind : SpanKind) | DbScope | CacheScope | WsScope | PublishScope | ConsumeScope.

(* src/tracing/scoped_span.cpp:81-83, trace_scope *)
Definition trace_scope (name : string) (kind : SpanKind) (w : TW) : ScopedSpan.t * TW :=
  let '(s, w) := start_child_span name kind w in ScopedSpan.make s w.

(* src/tracing/scoped_span.cpp:85-92, db_scope *)
Definition db_scope (operation : string) (w : TW) : ScopedSpan.t * TW :=
  let '(sc, w) := trace_scope ("db " +:+ operation) kClient w in
  (ScopedSpan.set_attribute "db.operation" operation
     (ScopedSpan.set_attribute "db.system" "postgresql" sc), w).

(* src/tracing/scoped_span.cpp:94-99, cache_scope *)
Definition cache_scope (operation : string) (w : TW) : ScopedSpan.t * TW :=
  let '(sc, w) := trace_scope ("cache " +:+ operation) kClient w in
  (ScopedSpan.set_attribute "db.operation" operation
     (ScopedSpan.set_attribute "db.system" "redis" sc), w).

(* src/tracing/scoped_span.cpp:101-106, ws_scope *)
Definition ws_scope (event : string) (w : TW) : ScopedSpan.t * TW :=
  let '(sc, w) := trace_scope ("ws " +:+ event) kServer w in
  (ScopedSpan.set_attribute "rtc.ws.event" event
     (ScopedSpan.set_attribute "network.protocol.name" "websocket" sc), w).

(* src/tracing/scoped_span.cpp:108-113, broker_publish_scope *)
Definition broker_publish_scope (subject : string) (w : TW) : ScopedSpan.t * TW :=
  let '(sc, w) := trace_scope ("publish " +:+ subject) kProducer w in
  (ScopedSpan.set_attribute "messaging.destination.name" subject
     (ScopedSpan.set_attribute "messaging.operation" "publish" sc), w).

(* src/tracing/scoped_span.cpp:115-120, broker_consume_scope *)
Definition broker_consume_scope (subject : string) (w : TW) : ScopedSpan.t * TW :=
  let '(sc, w) := trace_scope ("process " +:+ subject) kConsumer w in
  (ScopedSpan.set_attribute "messaging.destination.name" subject
     (ScopedSpan.set_attribute "messaging.operation" "process" sc), w).

Definition open_scope (k : ScopeKind) (name : string) : TW → ScopedSpan.t * TW :=
  match k with
  | TraceScope kind => trace_scope name kind
  | DbScope => db_scope name
  | CacheScope => cache_scope name
  | WsScope => ws_scope name
  | PublishScope => broker_publish_scope name
  | ConsumeScope => broker_consume_scope name
  end.

(** What instrumented code does to the tracing subsystem: it opens scopes that
    close on every exit path, and time passes; the wall clock may jump. *)
Inductive Code :=
  | Idle (wall_change elapsed : Z)
  | Seq (a b : Code)
  | Scope (k : ScopeKind) (name : string) (body : Code).

Fixpoint exec (p : Code) (w : TW) : TW :=
  match p with
  | Idle dw ds => mkTW (tracer w) (t_current w) (engine w) (wall w + dw) (steady w + ds)
  | Seq a b => exec b (exec a w)
  | Scope k name body =>
      let '(sc, w) := open_scope k name w in ScopedSpan.destroy sc (exec body w)
  end.

(** ** The tracing middleware *)

(** A request as the middleware reads it; [get_header_value] is Crow's. *)
Record Request := mkRequest {
  method_name : string; url : string; remote_ip_address : string;
  get_header_value : string → string }.

Module TracingMiddleware.
(* include/rtc/middlewares/tracing_middleware.hpp:36-40, context *)
Record context := mk { span : ScopedSpan.t; request_id : string; traceparent : string }.

Definition empty_context : context := mk ScopedSpan.empty "" "".

(* src/middlewares/tracing_middleware.cpp:16-16, kRequestIdHeader *)
Definition kRequestIdHeader : string := "X-Request-Id".

(** The result carries the header added to the request, if one was. *)
(* src/middlewares/tracing_middleware.cpp:20-68, TracingMiddleware::before_handle *)
Definition before_handle (req : Request) (ctx : context) (w : TW)
    : context * option (string * string) * TW :=
  let inbound_id := get_header_value req kRequestIdHeader in
  let '(id, added, w) :=
    if String.eqb inbound_id ""
    then let '(id, r) := Random.generate_hex_token 8 (engine w) in
         (id, Some (kRequestIdHeader, id), set_engine r w)
    else (inbound_id, None, w) in
  if negb (Tracer.enabled (Tracer.options (tracer w)))
  then (mk (span ctx) id (traceparent ctx), added, w)
  else
    let parent :=
      c ← parse_traceparent (get_header_value req kTraceParentHeader);
      Some (SpanContext.mk (SpanContext.trace_id c) (SpanContext.span_id c) (SpanContext.sampled c)
              (get_header_value req kTraceStateHeader)) in
    let '(s, w) := start_span (method_name req +:+ " " +:+ url req) kServer parent w in
    let s := Span.set_attribute "http.request.method" (method_name req) s in
    let s := Span.set_attribute "url.path" (url req) s in
    let s := Span.set_attribute "url.scheme" "http" s in
    let s := Span.set_attribute "network.protocol.name" "http" s in
    let s := Span.set_attribute "rtc.request_id" id s in
    let s := if String.eqb (remote_ip_address req) "" then s
             else Span.set_attribute "client.address" (remote_ip_address req) s in
    let agent := get_header_value req "User-Agent" in
    let s := if String.eqb agent "" then s else Span.set_attribute "user_agent.original" agent s in
    let tp := if Span.is_recording s then format_traceparent (Span.context s) else traceparent ctx in
    let '(sc, w) := ScopedSpan.make s w in
    let '(sc, w) := ScopedSpan.assign (span ctx) sc w in
    (mk sc id tp, added, w).

(** The headers it sets on the response. *)
(* src/middlewares/tracing_middleware.cpp:70-92, TracingMiddleware::after_handle *)
Definition after_handle (code : Z) (ctx : context) (w : TW) : list (string * string) * TW :=
  let headers := ((kRequestIdHeader, request_id ctx)
                    :: if String.eqb (traceparent ctx) "" then []
                       else [(kTraceParentHeader, traceparent ctx)]) in
  let sc := span ctx in
  let sc :=
    if Span.is_recording (ScopedSpan.span sc)
    then
      let s := Span.set_attribute "http.response.status_code" (to_string code) (ScopedSpan.span sc) in
      let s := if 500 <=? code then Span.set_status kError ("HTTP " +:+ to_string code) s
               else Span.set_status kOk "" s in
      ScopedSpan.mk s (ScopedSpan.previous sc) (ScopedSpan.active sc)
    else sc in
  (headers, (ScopedSpan.assign sc ScopedSpan.empty w).2).

(** A request as the server processes it: the middleware around the handler,
    which Crow runs on one thread. *)
Definition handle (req : Request) (code : Z) (handler : Code) (w : TW) : list (string * string) * TW :=
  let '(ctx, _, w) := before_handle req empty_context w in
  after_handle code ctx (exec handler w).
End TracingMiddleware.

(** ** The wire format *)

Definition wire_ok (c : SpanContext.t) : bool :=
  is_lower_hex (SpanContext.trace_id c) && is_lower_hex (SpanContext.span_id c)
    && SpanContext.is_valid c.

Lemma lower_hex_no_dash s : is_lower_hex s = true → all_of not_dash s = true.
Proof.
  apply all_of_impl. intros c Hc. unfold not_dash. destruct (Ascii.eqb_spec c "-"%char) as [->|]; done.
Qed.

Lemma split_fields_dash n f rest :
  all_of not_dash f = true → split_fields (S n) (f +:+ String "-" rest) = f :: split_fields n rest.
Proof. intros Hf. simpl. by rewrite (span_all not_dash f (String "-" rest) Hf). Qed.

Lemma split_fields_last n f : all_of not_dash f = true → split_fields (S n) f = [f].
Proof.
  intros Hf. simpl. pose proof (span_all not_dash f "" Hf I) as H.
  rewrite append_nil_r in H. by rewrite H.
Qed.

Lemma parse_format c :
  wire_ok c = true →
  parse_traceparent (format_traceparent c)
  = Some (SpanContext.mk (SpanContext.trace_id c) (SpanContext.span_id c) (SpanContext.sampled c) "").
Proof.
  destruct c as [t s b st]. unfold wire_ok. simpl. rewrite !andb_true_iff. intros [[Ht Hs] Hv].
  unfold parse_traceparent, format_traceparent. simpl SpanContext.trace_id. simpl SpanContext.span_id.
  simpl SpanContext.sampled.
  replace (if b then "-01" else "-00") with (String "-" (if b then "01" else "00")) by by destruct b.
  change ("00-" +:+ (t +:+ ("-" +:+ (s +:+ String "-" (if b then "01" else "00")))))
    with ("00" +:+ String "-" (t +:+ String "-" (s +:+ String "-" (if b then "01" else "00")))).
  rewrite (split_fields_dash 3) by done.
  rewrite (split_fields_dash 2) by by apply lower_hex_no_dash.
  rewrite (split_fields_dash 1) by by apply lower_hex_no_dash.
  rewrite (split_fields_last 0) by by destruct b.
  change (SpanContext.is_valid (SpanContext.mk t s false "") = true) in Hv.
  simpl String.eqb. cbv iota. rewrite Ht, Hs, Hv. by destruct b.
Qed.

Lemma parse_wire_ok h c :
  parse_traceparent h = Some c → wire_ok c = true ∧ SpanContext.trace_state c = "".
Proof.
  unfold parse_traceparent. destruct (String.eqb h ""); [done|].
  destruct (split_fields 4 h) as [|f0 [|f1 [|f2 [|f3 [|]]]]]; try done.
  destruct (parse_hex_byte f0) as [v|]; [|done]. destruct (v =? 255); [done|].
  destruct (is_lower_hex f1) eqn:H1, (is_lower_hex f2) eqn:H2; try done.
  destruct (SpanContext.is_valid _) eqn:Hv; [|done]. simpl.
  destruct (parse_hex_byte f3); [|done]. intros [= <-].
  unfold wire_ok. simpl. by rewrite H1, H2.
Qed.

(** ** Spans of one trace *)

Lemma length_generate n r : String.length (Random.generate_hex_token n r).1 = (2 * n)%nat.
Proof.
  revert r. induction n as [|n IH]; intros r; [done|]. simpl.
  specialize (IH (Random.mk (Random.draw r) (S (Random.pos r)))).
  destruct (Random.generate_hex_token n _) as [s r'] eqn:E. simpl in *. lia.
Qed.

Lemma draw_generate n r : Random.draw (Random.generate_hex_token n r).2 = Random.draw r.
Proof.
  revert r. induction n as [|n IH]; intros r; [done|]. simpl.
  specialize (IH (Random.mk (Random.draw r) (S (Random.pos r)))).
  destruct (Random.generate_hex_token n _) as [s r'] eqn:E. done.
Qed.

Lemma length_new_span_id r : String.length (new_span_id r).1 = 16%nat.
Proof.
  unfold new_span_id. pose proof (length_generate (kSpanIdHexLength / 2) r) as H.
  destruct (Random.generate_hex_token _ r) as [id r'] eqn:E. simpl in H.
  destruct (String.eqb id kInvalidSpanId); [|done]. apply length_generate.
Qed.

Lemma draw_new_span_id r : Random.draw (new_span_id r).2 = Random.draw r.
Proof.
  unfold new_span_id. pose proof (draw_generate (kSpanIdHexLength / 2) r) as H.
  destruct (Random.generate_hex_token _ r) as [id r'] eqn:E. simpl in H.
  destruct (String.eqb id kInvalidSpanId); [|done]. rewrite <- H. apply draw_generate.
Qed.

(** The engine never draws the all-zero span id twice in a row. *)
Definition never_zero (draw : nat → Z) : Prop :=
  ∀ pos, (new_span_id (Random.mk draw pos)).1 ≠ kInvalidSpanId.

(** A finished span of the trace of [c], below it. *)
Record in_trace (c : SpanContext.t) (d : SpanData.t) : Prop := {
  in_trace_id : SpanData.trace_id d = SpanContext.trace_id c;
  in_trace_state : SpanData.trace_state d = SpanContext.trace_state c;
  in_trace_sampled : SpanData.sampled d = true;
  in_trace_parent : SpanData.parent_span_id d ≠ "";
  in_trace_duration : 0 <= SpanData.duration d }.

(** A thread may run inside the trace of [c]. *)
Record inside (c : SpanContext.t) (w : TW) : Prop := {
  inside_enabled : Tracer.enabled (Tracer.options (tracer w)) = true;
  inside_engine : never_zero (Random.draw (engine w));
  inside_current : t_current w = Some c;
  inside_valid : SpanContext.is_valid c = true;
  inside_sampled : SpanContext.sampled c = true }.

(** What a stretch of execution may add to the tracer: spans of the trace. *)
Record adds (P : SpanData.t → Prop) (w w' : TW) : Prop := {
  adds_options : Tracer.options (tracer w') = Tracer.options (tracer w);
  adds_engine : Random.draw (engine w') = Random.draw (engine w);
  adds_steady : steady w <= steady w';
  adds_buffer : ∃ new, Tracer.buffer (tracer w') = (Tracer.buffer (tracer w) ++ new)%list ∧ Forall P new }.

Lemma adds_trans P w1 w2 w3 : adds P w1 w2 → adds P w2 w3 → adds P w1 w3.
Proof.
  intros [o1 e1 s1 (n1 & b1 & f1)] [o2 e2 s2 (n2 & b2 & f2)].
  split; [congruence|congruence|lia|]. exists (n1 ++ n2)%list.
  rewrite b2, b1, app_assoc. split; [done|]. by apply Forall_app.
Qed.

Lemma adds_impl (P Q : SpanData.t → Prop) w w' : (∀ d, P d → Q d) → adds P w w' → adds Q w w'.
Proof. intros H [o e s (n & b & f)]. split; [done..|]. exists n. split; [done|]. by eapply Forall_impl. Qed.

(** Time does not run backwards on the monotonic clock. *)
Fixpoint monotonic (p : Code) : Prop :=
  match p with
  | Idle _ ds => 0 <= ds
  | Seq a b => monotonic a ∧ monotonic b
  | Scope _ _ body => monotonic body
  end.

Lemma valid_child c span_id sampled :
  SpanContext.is_valid c = true → String.length span_id = 16%nat → span_id ≠ kInvalidSpanId →
  SpanContext.is_valid (SpanContext.mk (SpanContext.trace_id c) span_id sampled (SpanContext.trace_state c))
  = true.
Proof.
  unfold SpanContext.is_valid. simpl. rewrite !andb_true_iff. intros [[[H1 H2] _] _] Hl Hn.
  rewrite Hl. repeat split; [done..|]. apply negb_true_iff. by apply String.eqb_neq.
Qed.

Lemma new_span_id_ok r : never_zero (Random.draw r) → (new_span_id r).1 ≠ kInvalidSpanId.
Proof. intros H. destruct r as [f p]. apply (H p). Qed.

(** A span below the context [c]. *)
Record child (c : SpanContext.t) (s : Span.t) : Prop := {
  child_recording : Span.is_recording s = true;
  child_id : SpanData.trace_id (Span.data s) = SpanContext.trace_id c;
  child_state : SpanData.trace_state (Span.data s) = SpanContext.trace_state c;
  child_sampled : SpanData.sampled (Span.data s) = true;
  child_parent : SpanData.parent_span_id (Span.data s) = SpanContext.span_id c;
  child_trace : SpanContext.trace_id (Span.context s) = SpanContext.trace_id c;
  child_tstate : SpanContext.trace_state (Span.context s) = SpanContext.trace_state c;
  child_valid : SpanContext.is_valid (Span.context s) = true;
  child_csampled : SpanContext.sampled (Span.context s) = true }.

(** The scope [sc] is open on [w'], below the context [c] that was current on
    [w]. *)
Record opened (c : SpanContext.t) (w : TW) (sc : ScopedSpan.t) (w' : TW) : Prop := {
  op_child : child c (ScopedSpan.span sc);
  op_started : Span.started (ScopedSpan.span sc) = steady w;
  op_previous : ScopedSpan.previous sc = Some c;
  op_active : ScopedSpan.active sc = true;
  op_inside : inside (Span.context (ScopedSpan.span sc)) w';
  op_adds : adds (λ _, False) w w' }.

Lemma start_span_child c w name kind :
  Tracer.enabled (Tracer.options (tracer w)) = true → never_zero (Random.draw (engine w)) →
  SpanContext.is_valid c = true → SpanContext.sampled c = true →
  let '(s, w') := start_span name kind (Some c) w in
  child c s ∧ Span.started s = steady w ∧ t_current w' = t_current w ∧ adds (λ _, False) w w'.
Proof.
  intros He Hn Hv Hs. unfold start_span. rewrite He. simpl. rewrite Hv.
  pose proof (new_span_id_ok (engine w) Hn) as Hid. pose proof (length_new_span_id (engine w)) as Hl.
  pose proof (draw_new_span_id (engine w)) as Hd.
  destruct (new_span_id (engine w)) as [id r]. simpl in *. rewrite Hs. simpl.
  split_and!; [|done|done|].
  - split; simpl; try done. by apply valid_child.
  - split; simpl; [done|done|lia|]. exists []. by rewrite app_nil_r.
Qed.

Lemma trace_scope_opened c w name kind :
  inside c w → opened c w (trace_scope name kind w).1 (trace_scope name kind w).2.
Proof.
  intros [He Hn Hc Hv Hs]. unfold trace_scope, start_child_span. rewrite Hc.
  pose proof (start_span_child c w name kind He Hn Hv Hs) as H.
  destruct (start_span name kind (Some c) w) as [s w']. destruct H as (Hch & Hst & Hcur & Hadd).
  unfold ScopedSpan.make. rewrite (child_recording _ _ Hch). split; simpl; [done|done|congruence|done| |by destruct Hadd].
  destruct Hadd, Hch. split; simpl; congruence.
Qed.

(** Setting attributes and the status leaves the identity of a span alone. *)
Definition identity (s : Span.t) :=
  let d := Span.data s in
  (Span.has_tracer s, Span.ended s, Span.context s, Span.started s,
   (SpanData.trace_id d, SpanData.trace_state d, SpanData.sampled d, SpanData.parent_span_id d)).

Lemma identity_attribute key value s : identity (Span.set_attribute key value s) = identity s.
Proof. unfold Span.set_attribute. by destruct (Span.is_recording s). Qed.
Lemma identity_status st m s : identity (Span.set_status st m s) = identity s.
Proof. unfold Span.set_status. by destruct (Span.is_recording s). Qed.
Lemma identity_if (b : bool) s s' : identity s' = identity s → identity (if b then s else s') = identity s.
Proof. by destruct b. Qed.
Lemma identity_recording s s' : identity s = identity s' → Span.is_recording s = Span.is_recording s'.
Proof. unfold identity, Span.is_recording. by intros [= -> -> _ _ _ _ _ _]. Qed.
Lemma identity_context s s' : identity s = identity s' → Span.context s = Span.context s'.
Proof. by intros [= _ _ -> _ _ _ _ _]. Qed.

Lemma identity_started s s' : identity s = identity s' → Span.started s = Span.started s'.
Proof. by intros [= _ _ _ -> _ _ _ _]. Qed.

Lemma child_identity c s s' : identity s = identity s' → child c s → child c s'.
Proof.
  unfold identity. intros E []. injection E as ? ? Hc ? ? ? ? ?. unfold Span.is_recording in *.
  split; try rewrite <- Hc; try unfold Span.is_recording; congruence.
Qed.

Lemma opened_attribute c w sc w' key value :
  opened c w sc w' → opened c w (ScopedSpan.set_attribute key value sc) w'.
Proof.
  intros []. pose proof (identity_attribute key value (ScopedSpan.span sc)) as Hid.
  split; simpl; [|by rewrite (identity_started _ _ Hid)|done|done|by rewrite (identity_context _ _ Hid)|done].
  by apply (child_identity _ _ _ (eq_sym Hid)).
Qed.

Lemma open_scope_opened c w k name :
  inside c w → opened c w (open_scope k name w).1 (open_scope k name w).2.
Proof.
  intros Hin. destruct k as [kind| | | | |]; simpl;
    unfold db_scope, cache_scope, ws_scope, broker_publish_scope, broker_consume_scope;
    [by apply trace_scope_opened|..];
    match goal with |- context [trace_scope ?n ?kd w] =>
      pose proof (trace_scope_opened c w n kd Hin) as H; destruct (trace_scope n kd w) as [sc w'] end;
    simpl in *; by do 2 apply opened_attribute.
Qed.

Lemma submit_adds (P : SpanData.t → Prop) d tr :
  P d → ∃ new, Tracer.buffer (Tracer.submit d tr) = (Tracer.buffer tr ++ new)%list ∧ Forall P new.
Proof.
  intros Hd. unfold Tracer.submit. destruct (_ <=? _); simpl.
  - exists []. by rewrite app_nil_r.
  - exists [d]. by rewrite Forall_singleton.
Qed.

Lemma submit_options d tr : Tracer.options (Tracer.submit d tr) = Tracer.options tr.
Proof. unfold Tracer.submit. by destruct (_ <=? _). Qed.

(** The span id of a valid context is not empty. *)
Lemma valid_span_id c : SpanContext.is_valid c = true → SpanContext.span_id c ≠ "".
Proof.
  unfold SpanContext.is_valid. rewrite !andb_true_iff. intros [[_ H] _] E. by rewrite E in H.
Qed.

(** Closing a scope restores the context and reports the span. *)
Lemma end_child c s w :
  child c s → SpanContext.is_valid c = true → Span.started s <= steady w →
  t_current (Span.end_ s w).2 = t_current w ∧ adds (in_trace c) w (Span.end_ s w).2.
Proof.
  intros Hch Hv Hs. destruct Hch as [Hr Hid Hst Hsa Hpa _ _ _ _].
  unfold Span.is_recording in Hr. apply andb_true_iff in Hr as [Ht He].
  apply negb_true_iff in He. unfold Span.end_. rewrite Ht, He. simpl. split; [done|].
  split; simpl; [by rewrite submit_options|done|lia|]. apply submit_adds.
  split; simpl; [done..| |lia]. rewrite Hpa. by apply valid_span_id.
Qed.

(** Instrumented code that runs inside a sampled trace reports spans of that
    trace only, and leaves the context as it found it. *)
Lemma exec_inside p : ∀ c w,
  monotonic p → inside c w → inside c (exec p w) ∧ adds (in_trace c) w (exec p w).
Proof.
  induction p as [dw ds|a IHa b IHb|k name body IH]; intros c w Hm Hin; simpl in *.
  - destruct Hin. split; [by split|]. split; simpl; [done|done|lia|]. exists []. by rewrite app_nil_r.
  - destruct Hm as [Ha Hb]. destruct (IHa c w Ha Hin) as [H1 H2].
    destruct (IHb c _ Hb H1) as [H3 H4]. eauto using adds_trans.
  - pose proof (open_scope_opened c w k name Hin) as Ho.
    destruct (open_scope k name w) as [sc w1]. simpl in Ho.
    destruct Ho as [Hch Hst Hp Hact Hin' Hadd].
    destruct (IH _ w1 Hm Hin') as [Hin1 Hadd1].
    assert (Hfin : t_current (ScopedSpan.destroy sc (exec body w1)) = Some c ∧
                   adds (in_trace c) (exec body w1) (ScopedSpan.destroy sc (exec body w1))).
    { unfold ScopedSpan.destroy, ScopedSpan.deactivate. rewrite Hact, Hp. simpl.
      destruct (end_child c (ScopedSpan.span sc) (set_current (Some c) (exec body w1))) as [H1 H2];
        [done|by destruct Hin|destruct Hadd, Hadd1; simpl; lia|]. split; [done|]. by destruct H2. }
    split.
    + destruct Hfin as [Hc He].
      destruct Hin, Hin1, Hadd, Hadd1. split; [rewrite (adds_options _ _ _ He); congruence| |done..].
      rewrite (adds_engine _ _ _ He). congruence.
    + apply (adds_trans _ _ (exec body w1)).
      * apply (adds_trans _ _ w1); [by apply (adds_impl _ _ _ _ (λ d, False_ind _) Hadd)|].
        eapply adds_impl; [|exact Hadd1]. intros d []. destruct Hch. split; congruence.
      * apply Hfin.
Qed.

(** ** The tracer's books *)

Inductive TracerOp := Submit (d : SpanData.t) | Drain (export_ok : bool).

(** Runs the operations, collecting the spans the exporter accepted. *)
Fixpoint tracer_run (ops : list TracerOp) (tr : Tracer.t) : list SpanData.t * Tracer.t :=
  match ops with
  | [] => ([], tr)
  | Submit d :: rest => tracer_run rest (Tracer.submit d tr)
  | Drain ok :: rest =>
      let '(out, tr) := Tracer.drain_once ok tr in
      let '(more, tr) := tracer_run rest tr in ((out ++ more)%list, tr)
  end.

Definition submitted (ops : list TracerOp) : list SpanData.t :=
  omap (λ op, match op with Submit d => Some d | Drain _ => None end) ops.

Definition books (tr : Tracer.t) (n : Z) : Prop :=
  Tracer.u64 (Tracer.exported tr + Tracer.dropped tr + Z.of_nat (length (Tracer.buffer tr)))
  = Tracer.u64 n.

Lemma u64_add a b : Tracer.u64 (Tracer.u64 a + b) = Tracer.u64 (a + b).
Proof. unfold Tracer.u64. by rewrite Z.add_mod_idemp_l. Qed.
Lemma u64_add_r a b : Tracer.u64 (a + Tracer.u64 b) = Tracer.u64 (a + b).
Proof. rewrite Z.add_comm, u64_add. f_equal. lia. Qed.

(** One operation keeps the books and the bound. *)
Lemma submit_books d tr n :
  Z.of_nat (length (Tracer.buffer tr)) <= Tracer.max_queue_size (Tracer.options tr) → books tr n →
  books (Tracer.submit d tr) (n + 1) ∧
  Z.of_nat (length (Tracer.buffer (Tracer.submit d tr))) <= Tracer.max_queue_size (Tracer.options tr).
Proof.
  unfold books, Tracer.submit. intros Hb H.
  rewrite <- (u64_add n 1), <- H, u64_add.
  destruct (Z.leb_spec (Tracer.max_queue_size (Tracer.options tr)) (Z.of_nat (length (Tracer.buffer tr))));
    simpl; [|rewrite length_app; simpl; split; [f_equal; lia|lia]].
  split; [|lia]. rewrite (Z.add_comm (Tracer.exported tr)), <- Z.add_assoc, u64_add. f_equal. lia.
Qed.

Lemma drain_books ok tr n :
  books tr n → books (Tracer.drain_once ok tr).2 n ∧ Tracer.buffer (Tracer.drain_once ok tr).2 = [].
Proof.
  unfold books, Tracer.drain_once. destruct tr as [o [|d ds] s e dr]; [done|].
  set (m := length (d :: ds)). intros <-. unfold Tracer.buffer at 2. fold m.
  destruct ok; cbn [snd Tracer.exported Tracer.dropped Tracer.buffer length]; (split; [|done]);
    rewrite Z.add_0_r; [rewrite u64_add|rewrite u64_add_r]; f_equal; subst m; simpl; lia.
Qed.

(** With [past] already exported, and [seen] submitted. *)
Lemma tracer_run_books ops : ∀ tr seen past,
  Z.of_nat (length (Tracer.buffer tr)) <= Tracer.max_queue_size (Tracer.options tr) →
  books tr (Z.of_nat (length seen)) → (past ++ Tracer.buffer tr)%list `sublist_of` seen →
  let '(out, tr') := tracer_run ops tr in
  let all := (seen ++ submitted ops)%list in
  Z.of_nat (length (Tracer.buffer tr')) <= Tracer.max_queue_size (Tracer.options tr) ∧
  books tr' (Z.of_nat (length all)) ∧ (past ++ out ++ Tracer.buffer tr')%list `sublist_of` all.
Proof.
  induction ops as [|op ops IH]; intros tr seen past Hb Hn Hs; [by simpl; rewrite app_nil_r|].
  destruct op as [d|ok]; simpl.
  - destruct (submit_books d tr _ Hb Hn) as [Hn' Hb'].
    specialize (IH (Tracer.submit d tr) (seen ++ [d])%list past). rewrite submit_options in IH.
    replace (Z.of_nat (length (seen ++ [d]))) with (Z.of_nat (length seen) + 1) in IH
      by (rewrite length_app; simpl; lia).
    specialize (IH Hb' Hn'). destruct (tracer_run ops _) as [out tr'].
    rewrite <- app_assoc in IH. apply IH.
    unfold Tracer.submit. destruct (_ <=? _); simpl; [by apply sublist_inserts_r|].
    rewrite app_assoc. by apply sublist_app.
  - destruct (drain_books ok tr _ Hn) as [Hn' He].
    assert (Ho : Tracer.options (Tracer.drain_once ok tr).2 = Tracer.options tr).
    { unfold Tracer.drain_once. destruct (Tracer.buffer tr), ok; done. }
    assert (Hs' : (past ++ (Tracer.drain_once ok tr).1)%list `sublist_of` seen).
    { etrans; [|exact Hs]. apply sublist_app; [done|].
      unfold Tracer.drain_once. destruct (Tracer.buffer tr), ok; simpl; [done..|apply sublist_nil_l]. }
    destruct (Tracer.drain_once ok tr) as [o tr1]. simpl in *.
    specialize (IH tr1 seen (past ++ o)%list). rewrite He, Ho, app_nil_r in IH. simpl in IH.
    destruct (tracer_run ops tr1) as [out tr']. rewrite <- !app_assoc in IH. rewrite <- app_assoc.
    apply IH; [|done..]. pose proof (Zle_0_nat (length (Tracer.buffer tr))). simpl in *. lia.
Qed.

(** ** Requests *)

(** The attributes the middleware sets on the server span. *)
Definition server_attributes (req : Request) (id : string) (s : Span.t) : Span.t :=
  let s := Span.set_attribute "http.request.method" (method_name req) s in
  let s := Span.set_attribute "url.path" (url req) s in
  let s := Span.set_attribute "url.scheme" "http" s in
  let s := Span.set_attribute "network.protocol.name" "http" s in
  let s := Span.set_attribute "rtc.request_id" id s in
  let s := if String.eqb (remote_ip_address req) "" then s
           else Span.set_attribute "client.address" (remote_ip_address req) s in
  let agent := get_header_value req "User-Agent" in
  if String.eqb agent "" then s else Span.set_attribute "user_agent.original" agent s.

Lemma identity_server req id s : identity (server_attributes req id s) = identity s.
Proof.
  unfold server_attributes. rewrite identity_if by apply identity_attribute.
  rewrite identity_if by apply identity_attribute. by rewrite !identity_attribute.
Qed.

(** The request id, and the world after drawing it. *)
Definition request_id_of (req : Request) (w : TW) : string * option (string * string) * TW :=
  let inbound_id := get_header_value req TracingMiddleware.kRequestIdHeader in
  if String.eqb inbound_id ""
  then let '(id, r) := Random.generate_hex_token 8 (engine w) in
       (id, Some (TracingMiddleware.kRequestIdHeader, id), set_engine r w)
  else (inbound_id, None, w).

Lemma request_id_of_world req w :
  let w' := (request_id_of req w).2 in
  tracer w' = tracer w ∧ t_current w' = t_current w ∧ steady w' = steady w ∧
  Random.draw (engine w') = Random.draw (engine w).
Proof.
  unfold request_id_of. destruct (String.eqb _ ""); [|done].
  pose proof (draw_generate 8 (engine w)) as H.
  by destruct (Random.generate_hex_token 8 (engine w)) as [id r].
Qed.

(** The context the caller sent, with the vendor state of its header. *)
Definition caller_context (req : Request) : option SpanContext.t :=
  c ← parse_traceparent (get_header_value req kTraceParentHeader);
  Some (SpanContext.mk (SpanContext.trace_id c) (SpanContext.span_id c) (SpanContext.sampled c)
          (get_header_value req kTraceStateHeader)).

Lemma before_handle_eq req w :
  Tracer.enabled (Tracer.options (tracer w)) = true →
  let '(id, added, w1) := request_id_of req w in
  let '(s, w2) := start_span (method_name req +:+ " " +:+ url req) kServer (caller_context req) w1 in
  let s := server_attributes req id s in
  TracingMiddleware.before_handle req TracingMiddleware.empty_context w
  = (if Span.is_recording s
     then (TracingMiddleware.mk (ScopedSpan.mk s (t_current w2) true) id
             (format_traceparent (Span.context s)), added, set_current (Some (Span.context s)) w2)
     else (TracingMiddleware.mk (ScopedSpan.mk s None false) id "", added, w2)).
Proof.
  intros He. pose proof (request_id_of_world req w) as Hw.
  unfold TracingMiddleware.before_handle. fold (request_id_of req w).
  destruct (request_id_of req w) as [[id added] w1]. simpl in Hw. destruct Hw as (Ht & _).
  rewrite Ht, He. fold (caller_context req).
  destruct (start_span _ kServer (caller_context req) w1) as [s w2].
  cbv zeta. fold (server_attributes req id s).
  unfold ScopedSpan.make. by destruct (Span.is_recording (server_attributes req id s)).
Qed.

(** What [after_handle] does to the server span before ending it. *)
Lemma after_handle_recording code ctx w :
  Span.is_recording (ScopedSpan.span (TracingMiddleware.span ctx)) = true →
  ScopedSpan.active (TracingMiddleware.span ctx) = true →
  ∃ s, identity s = identity (ScopedSpan.span (TracingMiddleware.span ctx)) ∧
    (TracingMiddleware.after_handle code ctx w).2
    = (Span.end_ s (set_current (ScopedSpan.previous (TracingMiddleware.span ctx)) w)).2.
Proof.
  intros Hr Ha. unfold TracingMiddleware.after_handle. rewrite Hr.
  unfold ScopedSpan.assign, ScopedSpan.deactivate. simpl. rewrite Ha. simpl.
  eexists. split; [|reflexivity].
  destruct (500 <=? code); by rewrite identity_status, identity_attribute.
Qed.

Lemma caller_context_valid req c : caller_context req = Some c → SpanContext.is_valid c = true.
Proof.
  unfold caller_context. destruct (parse_traceparent _) as [c0|] eqn:E; [|done].
  apply parse_wire_ok in E as [E _]. intros [= <-]. by apply andb_true_iff in E as [_ E].
Qed.

Lemma before_handle_sampled req w c :
  Tracer.enabled (Tracer.options (tracer w)) = true → never_zero (Random.draw (engine w)) →
  caller_context req = Some c → SpanContext.sampled c = true →
  ∃ s id added w2,
    TracingMiddleware.before_handle req TracingMiddleware.empty_context w
    = (TracingMiddleware.mk (ScopedSpan.mk s (t_current w2) true) id (format_traceparent (Span.context s)),
       added, set_current (Some (Span.context s)) w2) ∧
    child c s ∧ Span.started s = steady w ∧ t_current w2 = t_current w ∧ adds (in_trace c) w w2.
Proof.
  intros He Hn Hc Hs. pose proof (caller_context_valid req c Hc) as Hv.
  pose proof (before_handle_eq req w He) as Hb. pose proof (request_id_of_world req w) as Hw.
  destruct (request_id_of req w) as [[id added] w1]. simpl in Hw. destruct Hw as (Htr & Hcur & Hst & Hdr).
  pose proof (start_span_child c w1 (method_name req +:+ " " +:+ url req) kServer) as Hch.
  rewrite Hc in Hb. rewrite Htr, Hdr in Hch. specialize (Hch He Hn Hv Hs).
  destruct (start_span _ kServer (Some c) w1) as [s0 w2]. destruct Hch as (Hch & Hst0 & Hcur2 & Hadd).
  pose proof (identity_server req id s0) as Hid. cbv zeta in Hb.
  apply (child_identity _ _ _ (eq_sym Hid)) in Hch. rewrite <- (identity_started _ _ Hid) in Hst0.
  rewrite (child_recording _ _ Hch) in Hb.
  exists (server_attributes req id s0), id, added, w2. split_and!; [done|done|congruence|congruence|].
  eapply (adds_impl (λ _, False)); [by intros|]. destruct Hadd as [o e t b].
  rewrite Htr, Hdr, Hst in *. by split.
Qed.

(** A [traceparent] header and a span context are two forms of the same
    thing: what [format_traceparent] writes for a well-formed context parses
    back to it, [parse_traceparent] accepts no header for anything else, and
    the vendor state, which travels in a header of its own, is the only thing
    not carried. *)
Theorem traceparent_round_trip (h : string) (c : SpanContext.t) :
  parse_traceparent h = Some c →
  wire_ok c = true ∧ parse_traceparent (format_traceparent c) = Some c ∧
  ∀ c' : SpanContext.t, wire_ok c' = true →
    parse_traceparent (format_traceparent c')
    = Some (SpanContext.mk (SpanContext.trace_id c') (SpanContext.span_id c')
              (SpanContext.sampled c') "").
Proof.
  intros H. apply parse_wire_ok in H as [Hw Hs]. split_and!; [done| |apply parse_format].
  rewrite (parse_format c Hw). by destruct c; simpl in *; subst.
Qed.

(** The tracer never holds more spans than its queue allows, whatever is
    submitted and whatever the exporter does; every span submitted is exported,
    counted as dropped, or still buffered; and what is exported or buffered is
    in the order of submission, each span at most once. *)
Theorem tracer_accounts (o : Tracer.Options) (ops : list TracerOp) :
  let '(out, tr) := tracer_run ops (Tracer.make o) in
  Z.of_nat (length (Tracer.buffer tr)) <= Tracer.max_queue_size (Tracer.options (Tracer.make o)) ∧
  books tr (Z.of_nat (length (submitted ops))) ∧
  (out ++ Tracer.buffer tr)%list `sublist_of` submitted ops.
Proof.
  pose proof (tracer_run_books ops (Tracer.make o) [] []) as H.
  destruct (tracer_run ops (Tracer.make o)) as [out tr]. apply H; [simpl; lia|done..].
Qed.


Lemma start_span_unsampled c w name kind :
  SpanContext.is_valid c = true → SpanContext.sampled c = false →
  ∃ w', start_span name kind (Some c) w = (Span.inert, w') ∧ t_current w' = t_current w ∧
    Tracer.options (tracer w') = Tracer.options (tracer w) ∧
    Tracer.buffer (tracer w') = Tracer.buffer (tracer w) ∧
    Random.draw (engine w') = Random.draw (engine w).
Proof.
  intros Hv Hs. unfold start_span. destruct (Tracer.enabled _); simpl; [|eauto 10].
  rewrite Hv. pose proof (draw_new_span_id (engine w)) as Hd.
  destruct (new_span_id (engine w)) as [id r]. simpl. rewrite Hs. simpl in *. eauto 10.
Qed.

(** The database span of a thread without a context is the root of a trace of
    its own. *)
Lemma db_scope_root op w :
  Tracer.enabled (Tracer.options (tracer w)) = true → t_current w = None →
  Qle_bool 1 (Tracer.sample_ratio (Tracer.options (tracer w))) = true →
  Z.of_nat (length (Tracer.buffer (tracer w))) < Tracer.max_queue_size (Tracer.options (tracer w)) →
  ∃ d r, Tracer.buffer (tracer (exec (Scope DbScope op (Idle 0 0)) w))
         = (Tracer.buffer (tracer w) ++ [d])%list ∧
    SpanData.parent_span_id d = "" ∧ SpanData.name d = "db " +:+ op ∧
    SpanData.trace_id d = (new_trace_id r).1 ∧ Random.draw r = Random.draw (engine w).
Proof.
  intros He Hc Hq Hb. simpl exec. unfold db_scope, trace_scope, start_child_span, start_span.
  rewrite He, Hc. simpl. pose proof (draw_new_span_id (engine w)) as Hd.
  destruct (new_span_id (engine w)) as [id r]. simpl in *.
  destruct (new_trace_id r) as [tid r'] eqn:Et. unfold Tracer.should_sample, Tracer.trace_id_ratio_sampled.
  simpl. rewrite Hq. simpl. unfold Tracer.submit. simpl.
  destruct (Z.leb_spec (Tracer.max_queue_size (Tracer.options (tracer w)))
              (Z.of_nat (length (Tracer.buffer (tracer w))))); [lia|].
  eexists _, r. split; [reflexivity|]. simpl. rewrite Et. done.
Qed.

(** The sampling decision of the caller is not honoured below the server
    span.  A request whose [traceparent] says "not sampled" leaves the thread
    without a context, because an unsampled span is inert and an inert span is
    not activated: the database span its handler opens is exported as the root
    of a new trace, with a trace id drawn afresh, and the response carries no
    [traceparent] at all. *)
Theorem unsampled_request_fragments (req : Request) (code : Z) (op : string) (w : TW)
    (c : SpanContext.t) :
  Tracer.enabled (Tracer.options (tracer w)) = true → t_current w = None →
  Qle_bool 1 (Tracer.sample_ratio (Tracer.options (tracer w))) = true →
  Z.of_nat (length (Tracer.buffer (tracer w))) < Tracer.max_queue_size (Tracer.options (tracer w)) →
  caller_context req = Some c → SpanContext.sampled c = false →
  let '(headers, w') := TracingMiddleware.handle req code (Scope DbScope op (Idle 0 0)) w in
  (kTraceParentHeader ∉ headers.*1) ∧
  ∃ d r, Tracer.buffer (tracer w') = (Tracer.buffer (tracer w) ++ [d])%list ∧
    SpanData.parent_span_id d = "" ∧ SpanData.name d = "db " +:+ op ∧
    SpanData.trace_id d = (new_trace_id r).1 ∧ Random.draw r = Random.draw (engine w).
Proof.
  intros He Hcur Hq Hb Hc Hs. pose proof (caller_context_valid req c Hc) as Hv.
  unfold TracingMiddleware.handle. pose proof (before_handle_eq req w He) as Hbh.
  pose proof (request_id_of_world req w) as Hw. destruct (request_id_of req w) as [[id added] w1].
  simpl in Hw. destruct Hw as (Htr & Hcur1 & _ & Hdr). rewrite Hc in Hbh.
  destruct (start_span_unsampled c w1 (method_name req +:+ " " +:+ url req) kServer Hv Hs)
    as (w2 & Hst & Hcur2 & Ho2 & Hb2 & Hd2). rewrite Hst in Hbh. cbv zeta in Hbh.
  pose proof (identity_server req id Span.inert) as Hid.
  destruct (server_attributes req id Span.inert) as [t0 d0 c0 s0 e0].
  injection Hid as -> -> _ _ _ _ _ _. simpl in Hbh. rewrite Hbh.
  destruct (db_scope_root op w2) as (d & r & Hbuf & Hd); [congruence..| |].
  { by rewrite Ho2, Hb2, Htr. }
  unfold TracingMiddleware.after_handle. cbn -[exec]. split.
  - rewrite list_elem_of_singleton. done.
  - exists d, r. by rewrite Hbuf, Hb2, Htr, <- Hdr, <- Hd2.
Qed.

(** ** Instances *)

Module TracingSample.
(** An engine that always draws one. *)
Definition draws (n : nat) : Z := 1.

Lemma draws_never_zero : never_zero draws.
Proof. by intros pos H. Qed.

Definition w0 : TW :=
  mkTW (Tracer.make (Tracer.mk_options true 1 128 2048)) None (Random.mk draws 0) 1000 50.

Definition request (flags : string) : Request :=
  mkRequest "GET" "/api/users/me" "10.0.0.1"
    (λ h, if String.eqb h kTraceParentHeader
          then "00-0af7651916cd43dd8448eb211c80319c-b7ad6b7169203331-" +:+ flags else "").

Definition caller (sampled : bool) : SpanContext.t :=
  SpanContext.mk "0af7651916cd43dd8448eb211c80319c" "b7ad6b7169203331" sampled "".

(** A handler that queries the database twice, the wall clock jumping back. *)
Definition handler : Code :=
  Seq (Scope DbScope "users.find_by_id" (Idle (-500) 20))
      (Scope (TraceScope kInternal) "UserService.profile" (Scope CacheScope "get" (Idle 3 3))).
End TracingSample.

Lemma traceparent_round_trip_witness :
  parse_traceparent "00-0af7651916cd43dd8448eb211c80319c-b7ad6b7169203331-01"
  = Some (TracingSample.caller true) ∧
  parse_traceparent (format_traceparent (TracingSample.caller true)) = Some (TracingSample.caller true).
Proof.
  split; [reflexivity|].
  exact (proj1 (proj2 (traceparent_round_trip
    "00-0af7651916cd43dd8448eb211c80319c-b7ad6b7169203331-01" (TracingSample.caller true) eq_refl))).
Defined.


Lemma unsampled_request_fragments_witness :
  let '(headers, w') :=
    TracingMiddleware.handle (TracingSample.request "00") 200
      (Scope DbScope "users.find_by_id" (Idle 0 0)) TracingSample.w0 in
  ∃ d r, Tracer.buffer (tracer w') = (Tracer.buffer (tracer TracingSample.w0) ++ [d])%list ∧
    SpanData.parent_span_id d = "" ∧ SpanData.name d = "db users.find_by_id" ∧
    SpanData.trace_id d = (new_trace_id r).1 ∧ Random.draw r = TracingSample.draws.
Proof.
  pose proof (unsampled_request_fragments (TracingSample.request "00") 200 "users.find_by_id"
    TracingSample.w0 (TracingSample.caller false) eq_refl eq_refl eq_refl eq_refl eq_refl eq_refl) as H.
  destruct (TracingMiddleware.handle _ _ _ _) as [headers w']. exact (proj2 H).
Defined.
