(* ===== verification/Jobs.v ===== *)
(** * Jobs: the background executor, the scheduler and the domain event bus

    Models src/jobs/background_executor.cpp, src/jobs/periodic_scheduler.cpp,
    src/events/event_dispatcher.cpp, src/events/in_process_event_bus.cpp and
    src/logging/log_context.cpp.

    The executor is a transition system whose steps are the points at which
    threads can interleave: a worker locks the mutex, evaluates the predicate
    of its wait, starts to block, is woken, takes a task, finishes it; [stop]
    clears the flag, notifies, joins.  [step] is executable and partial: an
    action that cannot happen in a state has no result.  [start] and [stop]
    are called from one thread, as the application does, so [start] is not
    possible while [stop] runs. *)

From S2P Require Import Prelude Text Json Errors TimeUtil Events Tracing.
Open Scope string_scope.
Open Scope Z_scope.

(** ** Correlation: what a thread carries *)

(** The thread-local span context and request id. *)
Record ThreadCtx := mkCtx { ctx_span : option SpanContext.t; request_id_slot : string }.

Definition no_ctx : ThreadCtx := mkCtx None "".

Module LogContext.
(* src/logging/log_context.cpp:16-18, current_request_id *)
Definition current_request_id (t : ThreadCtx) : string := request_id_slot t.
(* src/logging/log_context.cpp:20-22, set_request_id *)
Definition set_request_id (id : string) (t : ThreadCtx) : ThreadCtx := mkCtx (ctx_span t) id.
(* src/logging/log_context.cpp:24-26, clear_request_id *)
Definition clear_request_id (t : ThreadCtx) : ThreadCtx := mkCtx (ctx_span t) "".

(** The guard holds the previous value. *)
(* src/logging/log_context.cpp:28-31, RequestIdScope::RequestIdScope *)
Definition enter (id : string) (t : ThreadCtx) : string * ThreadCtx :=
  (request_id_slot t, mkCtx (ctx_span t) id).
(* src/logging/log_context.cpp:33-35, RequestIdScope::~RequestIdScope *)
Definition leave (previous : string) (t : ThreadCtx) : ThreadCtx := mkCtx (ctx_span t) previous.
End LogContext.

(** ** The executor *)

Module BackgroundExecutor.
Section Executor.
(** What a task is, and whether running it throws. *)
Context {T : Type} (throws : T → bool).

(** A submitted task with the correlation captured at submission. *)
Record Carried := mkCarried { inner : T; parent : option SpanContext.t; request_id : string }.

(* src/jobs/background_executor.cpp:61-70, BackgroundExecutor::submit *)
Definition capture (t : ThreadCtx) (task : T) : Carried :=
  mkCarried task (c ← ctx_span t; if SpanContext.is_valid c then Some c else None)
    (LogContext.current_request_id t).

(** The context in which the inner task runs on a worker whose own context is
    [t], and the context the scopes leave behind. *)
(* src/jobs/background_executor.cpp:70-81, carried *)
Definition run_carried (c : Carried) (t : ThreadCtx) : ThreadCtx * ThreadCtx :=
  let '(span_previous, t1) :=
    match parent c with
    | Some p => if SpanContext.is_valid p then (Some (ctx_span t), mkCtx (Some p) (request_id_slot t))
                else (None, t)
    | None => (None, t)
    end in
  let '(id_previous, t2) := LogContext.enter (request_id c) t1 in
  let t3 := LogContext.leave id_previous t2 in
  (t2, match span_previous with Some previous => mkCtx previous (request_id_slot t3) | None => t3 end).

(** Where a worker is in [worker_loop]. *)
Inductive Pc :=
  | Top                      (* about to lock the mutex *)
  | Testing                  (* holds it, about to evaluate the wait's predicate *)
  | Parking                  (* holds it, the predicate was false, about to block *)
  | Blocked                  (* blocked on the condition variable *)
  | Woken                    (* notified, about to lock the mutex again *)
  | Holding                  (* holds it, the predicate was true *)
  | Running (c : Carried)
  | Exited.

Record Worker := mkWorker { pc : Pc; ctx : ThreadCtx }.

(** Where [stop] is: not called, after the exchange of the flag, joining. *)
Inductive Stopping := NotStopping | Flagged | Joining.

(** [accepted], [started] and [finished] are the history: the tasks queued, the
    tasks taken, and the tasks run, each with the context it ran in. *)
(* include/rtc/jobs/background_executor.hpp:49-56, BackgroundExecutor *)
Record State := mkState {
  worker_count : nat;
  workers : list Worker;
  tasks : list Carried;
  mutex : option nat;
  running : bool;
  completed : Z;
  failed : Z;
  stopping : Stopping;
  notifies : nat;
  accepted : list Carried;
  started : list Carried;
  finished : list (Carried * ThreadCtx)
}.

(* src/jobs/background_executor.cpp:14-15, BackgroundExecutor::BackgroundExecutor *)
Definition make (n : nat) : State :=
  mkState (if (n =? 0)%nat then 1 else n) [] [] None false 0 0 NotStopping 0 [] [] [].

Inductive Action :=
  | Start
  | Submit (submitter : ThreadCtx) (task : T)
  | NotifyOne (woken : option nat)
  | StopFlag | StopNotify | StopJoined
  | Lock (i : nat) | Test (i : nat) | Park (i : nat) | SpuriousWake (i : nat)
  | Take (i : nat) | Finish (i : nat).

Definition set_workers ws s :=
  mkState (worker_count s) ws (tasks s) (mutex s) (running s) (completed s) (failed s) (stopping s)
    (notifies s) (accepted s) (started s) (finished s).
Definition set_mutex m s :=
  mkState (worker_count s) (workers s) (tasks s) m (running s) (completed s) (failed s) (stopping s)
    (notifies s) (accepted s) (started s) (finished s).
Definition set_stop r x s :=
  mkState (worker_count s) (workers s) (tasks s) (mutex s) r (completed s) (failed s) x
    (notifies s) (accepted s) (started s) (finished s).

Definition set_pc (p : Pc) (w : Worker) : Worker := mkWorker p (ctx w).
Definition at_pc (i : nat) (p : Pc) (s : State) : State :=
  set_workers (alter (set_pc p) i (workers s)) s.

Definition is_blocked (w : Worker) : bool := match pc w with Blocked => true | _ => false end.
Definition is_exited (w : Worker) : bool := match pc w with Exited => true | _ => false end.

(** A blocked thread that a notification reaches. *)
Definition wake (w : Worker) : Worker := if is_blocked w then set_pc Woken w else w.

Definition counter (z : Z) : Z := z mod 2 ^ 64.

(* src/jobs/background_executor.cpp:21-31, BackgroundExecutor::start *)
Definition start (s : State) : option State :=
  match stopping s with
  | NotStopping =>
      if running s then Some s
      else Some (set_stop true NotStopping
                   (set_workers (replicate (worker_count s) (mkWorker Top no_ctx)) s))
  | _ => None
  end.

(* src/jobs/background_executor.cpp:48-91, BackgroundExecutor::submit *)
Definition submit (t : ThreadCtx) (task : T) (s : State) : option State :=
  let carried := capture t task in
  match mutex s with
  | Some _ => None
  | None =>
      if negb (running s) then Some s
      else Some (mkState (worker_count s) (workers s) (tasks s ++ [carried])%list None (running s)
                   (completed s) (failed s) (stopping s) (S (notifies s))
                   (accepted s ++ [carried])%list (started s) (finished s))
  end.

(** The [notify_one] of a submission, some time after it released the mutex:
    it wakes a blocked worker when there is one. *)
(* src/jobs/background_executor.cpp:90-90, BackgroundExecutor::submit *)
Definition notify_one (woken : option nat) (s : State) : option State :=
  match notifies s with
  | O => None
  | S n =>
      let s' := mkState (worker_count s) (workers s) (tasks s) (mutex s) (running s) (completed s)
                  (failed s) (stopping s) n (accepted s) (started s) (finished s) in
      match woken with
      | Some i => w ← workers s !! i; if is_blocked w then Some (at_pc i Woken s') else None
      | None => if existsb is_blocked (workers s) then None else Some s'
      end
  end.

(* src/jobs/background_executor.cpp:33-36, BackgroundExecutor::stop *)
Definition stop_flag (s : State) : option State :=
  if running s then Some (set_stop false Flagged s) else Some s.

(* src/jobs/background_executor.cpp:37-37, BackgroundExecutor::stop *)
Definition stop_notify (s : State) : option State :=
  match stopping s with
  | Flagged => Some (set_stop (running s) Joining (set_workers (wake <$> workers s) s))
  | _ => None
  end.

(* src/jobs/background_executor.cpp:38-46, BackgroundExecutor::stop *)
Definition stop_joined (s : State) : option State :=
  match stopping s with
  | Joining => if forallb is_exited (workers s)
               then Some (set_stop (running s) NotStopping (set_workers [] s)) else None
  | _ => None
  end.

(** The steps of [worker_loop]. *)
(* src/jobs/background_executor.cpp:102-102, BackgroundExecutor::worker_loop *)
Definition lock (i : nat) (s : State) : option State :=
  w ← workers s !! i;
  match pc w, mutex s with
  | (Top | Woken), None => Some (set_mutex (Some i) (at_pc i Testing s))
  | _, _ => None
  end.

Definition is_nil {A} (l : list A) : bool := match l with [] => true | _ => false end.

(* src/jobs/background_executor.cpp:103-103, BackgroundExecutor::worker_loop *)
Definition test (i : nat) (s : State) : option State :=
  w ← workers s !! i;
  match pc w with
  | Testing => Some (at_pc i (if negb (running s) || negb (is_nil (tasks s)) then Holding else Parking) s)
  | _ => None
  end.

(** Blocking releases the mutex atomically. *)
(* src/jobs/background_executor.cpp:103-103, BackgroundExecutor::worker_loop *)
Definition park (i : nat) (s : State) : option State :=
  w ← workers s !! i;
  match pc w with Parking => Some (set_mutex None (at_pc i Blocked s)) | _ => None end.

(** A wait may return although nobody notified. *)
Definition spurious_wake (i : nat) (s : State) : option State :=
  w ← workers s !! i;
  match pc w with Blocked => Some (at_pc i Woken s) | _ => None end.

(* src/jobs/background_executor.cpp:104-109, BackgroundExecutor::worker_loop *)
Definition take_ (i : nat) (s : State) : option State :=
  w ← workers s !! i;
  match pc w with
  | Holding =>
      if negb (running s) && is_nil (tasks s) then Some (set_mutex None (at_pc i Exited s))
      else match tasks s with
           | [] => None
           | t :: rest =>
               Some (mkState (worker_count s) (alter (set_pc (Running t)) i (workers s)) rest None
                       (running s) (completed s) (failed s) (stopping s) (notifies s) (accepted s)
                       (started s ++ [t])%list (finished s))
           end
  | _ => None
  end.

(* src/jobs/background_executor.cpp:110-119, BackgroundExecutor::worker_loop *)
Definition finish (i : nat) (s : State) : option State :=
  w ← workers s !! i;
  match pc w with
  | Running t =>
      let '(seen, after) := run_carried t (ctx w) in
      let bad := throws (inner t) in
      Some (mkState (worker_count s) (<[i := mkWorker Top after]> (workers s)) (tasks s) (mutex s)
              (running s) (if bad then completed s else counter (completed s + 1))
              (if bad then counter (failed s + 1) else failed s) (stopping s) (notifies s)
              (accepted s) (started s) (finished s ++ [(t, seen)])%list)
  | _ => None
  end.

Definition step (a : Action) : State → option State :=
  match a with
  | Start => start
  | Submit t task => submit t task
  | NotifyOne woken => notify_one woken
  | StopFlag => stop_flag
  | StopNotify => stop_notify
  | StopJoined => stop_joined
  | Lock i => lock i
  | Test i => test i
  | Park i => park i
  | SpuriousWake i => spurious_wake i
  | Take i => take_ i
  | Finish i => finish i
  end.

Fixpoint run (acts : list Action) (s : State) : option State :=
  match acts with [] => Some s | a :: rest => s' ← step a s; run rest s' end.

(* src/jobs/background_executor.cpp:93-96, BackgroundExecutor::pending *)
Definition pending (s : State) : nat := length (tasks s).
End Executor.
Arguments Carried T : clear implicits.
Arguments Worker T : clear implicits.
Arguments State T : clear implicits.
Arguments Action T : clear implicits.
Arguments Pc T : clear implicits.
End BackgroundExecutor.

(** ** What the executor guarantees *)

Module ExecutorFacts.
Import BackgroundExecutor.
Section Facts.
Context {T : Type} (throws : T → bool).
Implicit Types (s : State T) (w : Worker T).

Definition holds_mutex w : bool :=
  match pc w with Testing | Parking | Holding => true | _ => false end.
Definition running_task w : option (Carried T) :=
  match pc w with Running c => Some c | _ => None end.

Lemma lookup_alter_cases {A} (f : A → A) i (l : list A) j x :
  alter f i l !! j = Some x → (i = j ∧ ∃ y, l !! i = Some y ∧ x = f y) ∨ (i ≠ j ∧ l !! j = Some x).
Proof.
  rewrite list_lookup_alter. case_decide as Hn; [|by eauto].
  subst. intros H. apply fmap_Some in H as (y & Hy & ->). eauto.
Qed.

Lemma alter_middle {A} (f : A → A) i (l : list A) x :
  l !! i = Some x → ∃ l1 l2, l = (l1 ++ x :: l2)%list ∧ alter f i l = (l1 ++ f x :: l2)%list.
Proof.
  revert i. induction l as [|y l IH]; intros [|i] H; simpl in *; [done..| |].
  - injection H as ->. by exists [], l.
  - destruct (IH i H) as (l1 & l2 & -> & E). exists (y :: l1), l2. split; [done|].
    unfold alter in *. simpl. by rewrite E.
Qed.

Lemma alter_insert_eq {A} i (l : list A) x y :
  l !! i = Some x → alter (λ _, y) i l = <[i := y]> l.
Proof.
  intros Hi. apply list_eq. intros j. rewrite list_lookup_alter. case_decide as Hj.
  - subst. rewrite Hi, list_lookup_insert_eq; [done|]. by eapply lookup_lt_Some.
  - by rewrite list_lookup_insert_ne.
Qed.

(** Changing a worker's position between positions that run nothing keeps the
    tasks that run. *)
Lemma running_alter i p (l : list (Worker T)) w :
  l !! i = Some w → running_task w = None →
  omap running_task (alter (set_pc p) i l)
  ≡ₚ (option_list (running_task (mkWorker p (ctx w))) ++ omap running_task l)%list.
Proof.
  intros H Hr. destruct (alter_middle (set_pc p) i l w H) as (l1 & l2 & -> & ->).
  rewrite !omap_app. simpl. rewrite Hr.
  replace (running_task (set_pc p w)) with (running_task (mkWorker p (ctx w))) by done.
  destruct (running_task (mkWorker p (ctx w))) as [c|]; simpl; [|done].
  symmetry. apply Permutation_middle.
Qed.

(** *** The mutex and the life cycle *)

(** The mutex is held by the worker that is inside its critical section, and
    only by it; a worker that found the predicate true keeps it true. *)
Record mutex_ok (ws : list (Worker T)) (m : option nat) (r : bool) (ts : list (Carried T)) : Prop := {
  mo_owner : ∀ i w, ws !! i = Some w → holds_mutex w = true → m = Some i;
  mo_holder : ∀ i, m = Some i → ∃ w, ws !! i = Some w ∧ holds_mutex w = true;
  mo_true : ∀ i w, ws !! i = Some w → pc w = Holding → r = false ∨ ts ≠ [] }.

(** Workers exit only when the executor is stopping and the queue is empty;
    a stopped executor has neither workers nor tasks. *)
Record life_ok (ws : list (Worker T)) (r : bool) (ts : list (Carried T)) (st : Stopping) : Prop := {
  lo_exit : ∀ i w, ws !! i = Some w → pc w = Exited → r = false ∧ ts = [];
  lo_idle : r = false → st = NotStopping → ws = [] ∧ ts = [];
  lo_stop : st ≠ NotStopping → r = false;
  lo_some : r = true ∨ st ≠ NotStopping → ws ≠ [] }.

(** Worker [i], which was [w0], becomes [f w0]. *)
Lemma mutex_ok_alter ws m r ts i f w0 :
  mutex_ok ws m r ts → ws !! i = Some w0 → (holds_mutex w0 = true ∨ m = None) →
  (pc (f w0) = Holding → r = false ∨ ts ≠ []) →
  mutex_ok (alter f i ws) (if holds_mutex (f w0) then Some i else None) r ts.
Proof.
  intros [Ho Hh Ht] Hi Hown Hp. split; simpl.
  - intros j w Hj Hw. apply lookup_alter_cases in Hj as [(<- & y & Hy & ->)|[Hn Hj]].
    + assert (y = w0) as -> by congruence. by rewrite Hw.
    + pose proof (Ho j w Hj Hw). destruct Hown as [H0|H0]; [pose proof (Ho i w0 Hi H0)|]; congruence.
  - intros j Hj. destruct (holds_mutex (f w0)) eqn:E; [|done]. injection Hj as <-.
    exists (f w0). split; [|done]. rewrite list_lookup_alter, decide_True by done. by rewrite Hi.
  - intros j w Hj Hw. apply lookup_alter_cases in Hj as [(<- & y & Hy & ->)|[Hn Hj]].
    + assert (y = w0) as -> by congruence. auto.
    + by apply (Ht j w).
Qed.

(** A worker outside the critical section stays outside it. *)
Lemma mutex_ok_outside ws m r ts i f w0 :
  mutex_ok ws m r ts → ws !! i = Some w0 → holds_mutex w0 = false → holds_mutex (f w0) = false →
  mutex_ok (alter f i ws) m r ts.
Proof.
  intros [Ho Hh Ht] Hi H0 Hf. split.
  - intros j w Hj Hw. apply lookup_alter_cases in Hj as [(<- & y & Hy & ->)|[Hn Hj]]; [|by eapply Ho].
    assert (y = w0) as -> by congruence. congruence.
  - intros j Hj. destruct (Hh j Hj) as (w & Hw & Hhw). exists w. split; [|done].
    rewrite list_lookup_alter. case_decide; [|done]. subst. congruence.
  - intros j w Hj Hw. apply lookup_alter_cases in Hj as [(<- & y & Hy & ->)|[Hn Hj]]; [|by eapply Ht].
    assert (y = w0) as -> by congruence. unfold holds_mutex in Hf. by rewrite Hw in Hf.
Qed.

Lemma life_ok_alter ws r ts st i f w0 :
  life_ok ws r ts st → ws !! i = Some w0 → (pc (f w0) = Exited → r = false ∧ ts = []) →
  life_ok (alter f i ws) r ts st.
Proof.
  intros [He Hid Hs Hso] Hi Hp. split; [| |done|].
  - intros j w Hj Hw. apply lookup_alter_cases in Hj as [(<- & y & Hy & ->)|[Hn Hj]]; [|by eapply He].
    assert (y = w0) as -> by congruence. auto.
  - intros Hr Hst. destruct (Hid Hr Hst) as [-> _]. done.
  - intros H E. apply (Hso H). apply length_zero_iff_nil. by rewrite <- (length_alter f ws i), E.
Qed.

(** Waking the blocked workers. *)
Lemma holds_wake w : holds_mutex (wake w) = holds_mutex w.
Proof. unfold wake, is_blocked, holds_mutex. by destruct w as [[]]. Qed.
Lemma wake_pc w : pc (wake w) = pc w ∨ pc (wake w) = Woken.
Proof. unfold wake. destruct (is_blocked w); auto. Qed.

Lemma mutex_ok_wake ws m r ts : mutex_ok ws m r ts → mutex_ok (wake <$> ws) m r ts.
Proof.
  intros [Ho Hh Ht]. split.
  - intros i w Hi Hw. apply list_lookup_fmap_Some in Hi as (w0 & -> & Hi). rewrite holds_wake in Hw. eauto.
  - intros i Hi. destruct (Hh i Hi) as (w & Hw & Hhw). exists (wake w).
    rewrite holds_wake. split; [|done]. apply list_lookup_fmap_Some. eauto.
  - intros i w Hi Hw. apply list_lookup_fmap_Some in Hi as (w0 & -> & Hi).
    destruct (wake_pc w0) as [E|E]; rewrite E in Hw; [eauto|done].
Qed.

Lemma life_ok_wake ws r ts st : life_ok ws r ts st → life_ok (wake <$> ws) r ts st.
Proof.
  intros [He Hid Hs Hso]. split; [| |done|].
  - intros i w Hi Hw. apply list_lookup_fmap_Some in Hi as (w0 & -> & Hi).
    destruct (wake_pc w0) as [E|E]; rewrite E in Hw; [eauto|done].
  - intros Hr Hst. by destruct (Hid Hr Hst) as [-> ->].
  - intros H E. apply (Hso H). by destruct ws.
Qed.

Definition sound s : Prop :=
  mutex_ok (workers s) (mutex s) (running s) (tasks s) ∧
  life_ok (workers s) (running s) (tasks s) (stopping s) ∧ worker_count s ≠ 0%nat.

Lemma sound_make n : sound (make n).
Proof.
  split_and!; [split; done|split; try done|simpl; by destruct n].
  by intros [|H].
Qed.

Lemma lock_sound i s s' : lock i s = Some s' → sound s → sound s'.
Proof.
  unfold lock. destruct (workers s !! i) as [w|] eqn:Hi; [|done]. simpl.
  intros H (Hm & Hl & Hc).
  assert (Hs : mutex s = None ∧ s' = set_mutex (Some i) (at_pc i Testing s)).
  { destruct (pc w), (mutex s); simplify_eq; done. }
  destruct Hs as [Hn ->]. split_and!; simpl; [|by eapply life_ok_alter|done].
  apply (mutex_ok_alter _ _ _ _ i (set_pc Testing) w Hm Hi); auto.
Qed.

Lemma test_sound i s s' : test i s = Some s' → sound s → sound s'.
Proof.
  unfold test. destruct (workers s !! i) as [w|] eqn:Hi; [|done]. simpl.
  destruct (pc w) eqn:Hp; try done. intros [= <-] (Hm & Hl & Hc).
  assert (Hh : holds_mutex w = true) by (unfold holds_mutex; by rewrite Hp).
  split_and!; simpl; [|eapply life_ok_alter; [done..|simpl; by case_match]|done].
  rewrite (mo_owner _ _ _ _ Hm i w Hi Hh).
  match goal with |- context [set_pc ?q] => set (p := q) end.
  replace (Some i) with (if holds_mutex (set_pc p w) then Some i else None)
    by (subst p; by destruct (_ || _)).
  apply (mutex_ok_alter _ _ _ _ i (set_pc p) w Hm Hi); [by left|].
  subst p. simpl. destruct (running s); [|by left]. by destruct (tasks s); [|right].
Qed.

Lemma park_sound i s s' : park i s = Some s' → sound s → sound s'.
Proof.
  unfold park. destruct (workers s !! i) as [w|] eqn:Hi; [|done]. simpl.
  destruct (pc w) eqn:Hp; try done. intros [= <-] (Hm & Hl & Hc).
  split_and!; simpl; [|by eapply life_ok_alter|done].
  apply (mutex_ok_alter _ _ _ _ i (set_pc Blocked) w Hm Hi); [|done].
  left. unfold holds_mutex. by rewrite Hp.
Qed.

Lemma blocked_pc w : is_blocked w = true → pc w = Blocked.
Proof. unfold is_blocked. by destruct (pc w). Qed.

Lemma woken_sound i w s :
  workers s !! i = Some w → pc w = Blocked → sound s → sound (at_pc i Woken s).
Proof.
  intros Hi Hp (Hm & Hl & Hc). split_and!; simpl; [|by eapply life_ok_alter|done].
  apply (mutex_ok_outside _ _ _ _ i (set_pc Woken) w Hm Hi); [|done].
  unfold holds_mutex. by rewrite Hp.
Qed.

Lemma take_sound i s s' : take_ i s = Some s' → sound s → sound s'.
Proof.
  unfold take_. destruct (workers s !! i) as [w|] eqn:Hi; [|done]. simpl.
  destruct (pc w) eqn:Hp; try done. intros H (Hm & Hl & Hc).
  assert (Hh : holds_mutex w = true) by (unfold holds_mutex; by rewrite Hp).
  destruct (negb (running s) && is_nil (tasks s)) eqn:E.
  - injection H as <-. apply andb_true_iff in E as [Er Et]. apply negb_true_iff in Er.
    assert (tasks s = []) by by destruct (tasks s).
    split_and!; simpl; [|by eapply life_ok_alter|done].
    by apply (mutex_ok_alter _ _ _ _ i (set_pc Exited) w Hm Hi); [left|].
  - destruct (tasks s) as [|t rest] eqn:Et; [done|]. injection H as <-.
    pose proof (mutex_ok_alter _ _ _ _ i (set_pc (Running t)) w Hm Hi (or_introl Hh)) as Hm'.
    destruct Hm' as [Ho Hho Htr]; [done|]. simpl in *.
    pose proof (life_ok_alter _ _ _ _ i (set_pc (Running t)) w Hl Hi) as [He Hid Hs Hso]; [done|].
    split_and!; simpl; [| |done].
    + split; [done..|]. intros j w' Hj Hw'.
      assert (None = Some j); [|done]. apply (Ho j w' Hj). unfold holds_mutex. by rewrite Hw'.
    + split; [|intros Hr Hst; by destruct (Hid Hr Hst)|done..].
      intros j w' Hj Hw'. by destruct (He j w' Hj Hw').
Qed.

Lemma finish_sound i s s' : finish throws i s = Some s' → sound s → sound s'.
Proof.
  unfold finish. destruct (workers s !! i) as [w|] eqn:Hi; [|done]. simpl.
  destruct (pc w) eqn:Hp; try done. destruct (run_carried c (ctx w)) as [seen after].
  intros [= <-] (Hm & Hl & Hc).
  rewrite <- (alter_insert_eq _ _ w) by done.
  split_and!; simpl; [|by eapply life_ok_alter|done].
  apply (mutex_ok_outside _ _ _ _ i (λ _, mkWorker Top after) w Hm Hi); [|done].
  unfold holds_mutex. by rewrite Hp.
Qed.

Lemma start_sound s s' : start s = Some s' → sound s → sound s'.
Proof.
  unfold start. destruct (stopping s) eqn:Hst; try done.
  destruct (running s) eqn:Hr; [by intros [= <-]|]. intros [= <-] (Hm & Hl & Hc).
  destruct (lo_idle _ _ _ _ Hl Hr Hst) as [Hw Ht]. split_and!; simpl; [| |done].
  - split.
    + intros i w Hi. by apply lookup_replicate in Hi as [-> _].
    + intros i Hi. destruct (mo_holder _ _ _ _ Hm i Hi) as (w & Hi' & _). by rewrite Hw in Hi'.
    + intros i w Hi. by apply lookup_replicate in Hi as [-> _].
  - split; [|done..|].
    + intros i w Hi. by apply lookup_replicate in Hi as [-> _].
    + intros _. by destruct (worker_count s).
Qed.

Lemma submit_sound t task s s' : submit t task s = Some s' → sound s → sound s'.
Proof.
  unfold submit. destruct (mutex s) eqn:Hmu; [done|].
  destruct (running s) eqn:Hr; [|by intros [= <-]]. intros [= <-] (Hm & Hl & Hc).
  rewrite Hr, Hmu in *. destruct Hm as [Ho Hho Ht], Hl as [He Hid Hs Hso].
  split_and!; simpl; [| |done]; split; try done.
  - intros i w Hi Hp. right. by destruct (tasks s).
  - intros i w Hi Hp. by destruct (He i w Hi Hp).
Qed.

Lemma notify_one_sound woken s s' : notify_one woken s = Some s' → sound s → sound s'.
Proof.
  unfold notify_one. intros H Hs. destruct (notifies s) as [|n]; [done|]. destruct woken as [i|].
  - destruct (workers s !! i) as [w|] eqn:Hi; [|done]. simpl in H.
    destruct (is_blocked w) eqn:Hb; [|done]. injection H as <-.
    by apply (woken_sound i w); [|apply blocked_pc|].
  - destruct (existsb _ _); [done|]. by injection H as <-.
Qed.

Lemma stop_flag_sound s s' : stop_flag s = Some s' → sound s → sound s'.
Proof.
  unfold stop_flag. destruct (running s) eqn:Hr; [|by intros [= <-]].
  intros [= <-] (Hm & [He Hid Hst Hso] & Hc). split_and!; simpl; [| |done].
  - destruct Hm. split; [done..|]. intros. by left.
  - split; simpl; [|done..|].
    + intros i w Hi Hp. destruct (He i w Hi Hp). congruence.
    + intros _. apply Hso. by left.
Qed.

Lemma stop_notify_sound s s' : stop_notify s = Some s' → sound s → sound s'.
Proof.
  unfold stop_notify. destruct (stopping s) eqn:E; try done. intros [= <-] (Hm & Hl & Hc).
  apply life_ok_wake in Hl. split_and!; simpl; [by apply mutex_ok_wake| |done].
  rewrite E in Hl. destruct Hl as [He Hid Hst Hso].
  split; [done..| |]; [intros _; by apply Hst|]. intros _. apply Hso. by right.
Qed.

Lemma exited_pc w : is_exited w = true → pc w = Exited.
Proof. unfold is_exited. by destruct (pc w). Qed.

(** When every worker has exited, the queue is empty and the mutex free. *)
Lemma all_exited s :
  sound s → stopping s ≠ NotStopping → forallb is_exited (workers s) = true →
  running s = false ∧ tasks s = [] ∧ mutex s = None ∧ omap running_task (workers s) = [].
Proof.
  intros (Hm & [He Hid Hst Hso] & Hc) Hn Ha. rewrite forallb_forall in Ha.
  assert (Hx : ∀ w, w ∈ workers s → pc w = Exited).
  { intros w Hw. apply exited_pc, Ha. by apply list_elem_of_In. }
  destruct (workers s) as [|w ws] eqn:Hw; [by destruct Hso; [right|]|]. rewrite <- Hw in *.
  destruct (He 0%nat w) as [Hr Ht]; [by rewrite Hw|apply Hx; rewrite Hw; by constructor|].
  split_and!; [done|done| |].
  - destruct (mutex s) as [i|] eqn:Hmu; [|done].
    destruct (mo_holder _ _ _ _ Hm i eq_refl) as (w' & Hi & Hh). unfold holds_mutex in Hh.
    rewrite (Hx w') in Hh; [done|]. by eapply list_elem_of_lookup_2.
  - apply elem_of_nil_inv. intros c Hin. apply list_elem_of_omap in Hin as (w' & Hin & Hc').
    unfold running_task in Hc'. by rewrite (Hx w' Hin) in Hc'.
Qed.

Lemma stop_joined_sound s s' : stop_joined s = Some s' → sound s → sound s'.
Proof.
  unfold stop_joined. destruct (stopping s) eqn:E; try done.
  destruct (forallb is_exited (workers s)) eqn:Ha; [|done]. intros [= <-] Hs.
  destruct (all_exited s Hs) as (Hr & Ht & Hmu & _); [by rewrite E|done|].
  destruct Hs as (_ & _ & Hc). split_and!; simpl; [| |done].
  - rewrite Hmu. split; done.
  - rewrite Hr. split; [done..|]. by intros [|].
Qed.

Lemma step_sound a s s' : step throws a s = Some s' → sound s → sound s'.
Proof.
  destruct a as [|t task|woken| | | |i|i|i|i|i|i]; simpl;
    eauto using start_sound, submit_sound, notify_one_sound, stop_flag_sound, stop_notify_sound,
      stop_joined_sound, lock_sound, test_sound, park_sound, take_sound, finish_sound.
  unfold spurious_wake. intros H Hs. destruct (workers s !! i) as [w|] eqn:Hi; [|done]. simpl in H.
  destruct (pc w) eqn:Hp; try done. injection H as <-. by eapply woken_sound.
Qed.

(** *** The history *)

(** The context a task must see: its submitter's, when that was tracing. *)
Definition submitter_ctx (c : Carried T) : ThreadCtx := mkCtx (parent c) (request_id c).
Definition parent_ok (c : Carried T) : Prop :=
  match parent c with Some p => SpanContext.is_valid p = true | None => True end.

Record history_ok (ws : list (Worker T)) (ts ac st : list (Carried T))
    (fi : list (Carried T * ThreadCtx)) (done_ bad : Z) : Prop := {
  ho_queue : (st ++ ts)%list = ac;
  ho_run : (fi.*1 ++ omap running_task ws)%list ≡ₚ st;
  ho_clean : Forall (λ w, ctx w = no_ctx) ws;
  ho_seen : Forall (λ '(c, seen), seen = submitter_ctx c) fi;
  ho_parent : Forall parent_ok ac;
  ho_count : counter (done_ + bad) = counter (Z.of_nat (length fi)) }.

Definition recorded s : Prop :=
  history_ok (workers s) (tasks s) (accepted s) (started s) (finished s) (completed s) (failed s).

Lemma capture_ok t task : parent_ok (capture t task).
Proof.
  unfold capture, parent_ok. simpl. destruct (ctx_span t) as [p|]; simpl; [|done].
  by destruct (SpanContext.is_valid p) eqn:E.
Qed.

(** A task runs in its submitter's context, and leaves a clean thread clean. *)
Lemma run_carried_clean c : parent_ok c → run_carried c no_ctx = (submitter_ctx c, no_ctx).
Proof.
  unfold run_carried, parent_ok, submitter_ctx. destruct c as [t [p|] id]; simpl; [|done].
  by intros ->.
Qed.

(** A worker that runs nothing moves to a position where it runs nothing. *)
Lemma history_alter ws ts ac st fi d b i p w :
  history_ok ws ts ac st fi d b → ws !! i = Some w → running_task w = None →
  running_task (mkWorker p (ctx w)) = None → history_ok (alter (set_pc p) i ws) ts ac st fi d b.
Proof.
  intros [Hq Hr Hc Hs Hp Hn] Hi Hw Hp0. split; try done.
  - rewrite (running_alter i p ws w Hi Hw), Hp0. done.
  - apply Forall_alter; [done|]. intros w' _. done.
Qed.

Lemma start_recorded s s' : start s = Some s' → sound s → recorded s → recorded s'.
Proof.
  unfold start. destruct (stopping s) eqn:Hst; try done.
  destruct (running s) eqn:Hr; [by intros [= <-]|]. intros [= <-] (_ & Hl & _) [Hq Hp Hc Hs Hpa Hn].
  destruct (lo_idle _ _ _ _ Hl Hr Hst) as [Hw Ht]. rewrite Hw in *. split; simpl; try done.
  - replace (omap running_task (replicate _ _)) with ([] : list (Carried T)); [done|].
    symmetry. by induction (worker_count s).
  - by apply Forall_replicate.
Qed.

Lemma submit_recorded t task s s' : submit t task s = Some s' → recorded s → recorded s'.
Proof.
  unfold submit. destruct (mutex s); [done|]. destruct (running s); [|by intros [= <-]].
  intros [= <-] [Hq Hp Hc Hs Hpa Hn]. split; simpl; try done.
  - by rewrite <- Hq, app_assoc.
  - apply Forall_app. split; [done|]. apply Forall_singleton, capture_ok.
Qed.

Lemma running_cons w (ws : list (Worker T)) :
  omap running_task (w :: ws) = (option_list (running_task w) ++ omap running_task ws)%list.
Proof. simpl. by destruct (running_task w). Qed.

Lemma running_wake (ws : list (Worker T)) : omap running_task (wake <$> ws) = omap running_task ws.
Proof.
  induction ws as [|w ws IH]; [done|]. rewrite fmap_cons, !running_cons, IH.
  by destruct w as [[] x].
Qed.

Lemma wake_recorded s : recorded s → ∀ r st, recorded (set_stop r st (set_workers (wake <$> workers s) s)).
Proof.
  intros [Hq Hp Hc Hs Hpa Hn] r st. split; simpl; try done.
  - by rewrite running_wake.
  - apply Forall_fmap. eapply Forall_impl; [done|]. intros w Hw. unfold wake. simpl.
    by destruct (is_blocked w).
Qed.

Lemma take_recorded i s s' : take_ i s = Some s' → recorded s → recorded s'.
Proof.
  unfold take_. destruct (workers s !! i) as [w|] eqn:Hi; [|done]. simpl.
  destruct (pc w) eqn:Hpc; try done. intros H Hrec.
  assert (Hr : running_task w = None) by (unfold running_task; by rewrite Hpc).
  destruct (negb (running s) && is_nil (tasks s)); [injection H as <-; by eapply history_alter|].
  destruct (tasks s) as [|t rest] eqn:Et; [done|]. injection H as <-.
  destruct Hrec as [Hq Hp Hc Hs Hpa Hn]. rewrite Et in Hq. split; simpl; try done.
  - by rewrite <- app_assoc.
  - rewrite (running_alter i (Running t) _ w Hi Hr). simpl.
    rewrite <- Permutation_middle, Hp. apply Permutation_cons_append.
  - apply Forall_alter; [done|]. by intros.
Qed.

Lemma counter_add_l a b : counter (counter a + b) = counter (a + b).
Proof. unfold counter. by rewrite Z.add_mod_idemp_l. Qed.
Lemma counter_add_r a b : counter (a + counter b) = counter (a + b).
Proof. unfold counter. by rewrite Z.add_mod_idemp_r. Qed.
Lemma counter_succ a b : counter a = counter b → counter (a + 1) = counter (b + 1).
Proof. intros H. by rewrite <- counter_add_l, H, counter_add_l. Qed.

Lemma finish_recorded i s s' : finish throws i s = Some s' → recorded s → recorded s'.
Proof.
  unfold finish. destruct (workers s !! i) as [w|] eqn:Hi; [|done]. simpl.
  destruct (pc w) as [| | | | | |c|] eqn:Hpc; try done. intros H [Hq Hp Hc Hs Hpa Hn].
  assert (Hcw : ctx w = no_ctx) by by eapply (Forall_lookup_1 _ _ _ _ Hc).
  assert (Hrun : c ∈ started s).
  { rewrite <- Hp. apply elem_of_app. right. apply list_elem_of_omap. exists w.
    split; [by eapply list_elem_of_lookup_2|]. unfold running_task. by rewrite Hpc. }
  assert (Hok : parent_ok c).
  { rewrite Forall_forall in Hpa. apply Hpa. rewrite <- Hq. apply elem_of_app. by left. }
  rewrite Hcw, (run_carried_clean c Hok) in H. injection H as <-.
  destruct (alter_middle (λ _, mkWorker Top no_ctx) i _ w Hi) as (l1 & l2 & E1 & E2).
  assert (Hins : <[i := mkWorker Top no_ctx]> (workers s) = (l1 ++ mkWorker Top no_ctx :: l2)%list).
  { by rewrite <- E2, <- (alter_insert_eq _ _ w). }
  split; simpl; rewrite ?Hins; try done.
  - rewrite <- Hp, E1, fmap_app, !omap_app. simpl. unfold running_task at 4. rewrite Hpc. simpl.
    rewrite <- app_assoc. apply Permutation_app_head. simpl. by rewrite Permutation_middle.
  - rewrite E1 in Hc. apply Forall_app in Hc as [H1 H2]. inversion H2. apply Forall_app. split; [done|].
    by constructor.
  - apply Forall_app. split; [done|]. by apply Forall_singleton.
  - rewrite length_app, Nat2Z.inj_add. apply (counter_succ _ _) in Hn.
    destruct (throws (inner c)); rewrite ?counter_add_l, ?counter_add_r; etrans; try exact Hn; f_equal; lia.
Qed.

Lemma step_recorded a s s' : step throws a s = Some s' → sound s → recorded s → recorded s'.
Proof.
  destruct a as [|t task|woken| | | |i|i|i|i|i|i]; simpl;
    eauto using start_recorded, submit_recorded, take_recorded, finish_recorded; intros H Hs Hr.
  - unfold notify_one in H. destruct (notifies s) as [|n]; [done|]. destruct woken as [i|].
    + destruct (workers s !! i) as [w|] eqn:Hi; [|done]. simpl in H.
      destruct (is_blocked w) eqn:Hb; [|done]. injection H as <-.
      apply (history_alter _ _ _ _ _ _ _ i Woken w Hr Hi); [|done].
      unfold running_task. by rewrite (blocked_pc w Hb).
    + destruct (existsb _ _); [done|]. by injection H as <-.
  - unfold stop_flag in H. by destruct (running s); injection H as <-.
  - unfold stop_notify in H. destruct (stopping s); try done. injection H as <-. by apply wake_recorded.
  - unfold stop_joined in H. destruct (stopping s) eqn:E; try done.
    destruct (forallb is_exited (workers s)) eqn:Ha; [|done]. injection H as <-.
    destruct (all_exited s Hs) as (_ & _ & _ & Ho); [by rewrite E|done|].
    destruct Hr as [Hq Hp Hc Hse Hpa Hn]. rewrite Ho in Hp. by split.
  - unfold lock in H. destruct (workers s !! i) as [w|] eqn:Hi; [|done]. simpl in H.
    destruct (pc w) eqn:Hp, (mutex s); try done; injection H as <-;
      (apply (history_alter _ _ _ _ _ _ _ i Testing w Hr Hi); [|done]); unfold running_task; by rewrite Hp.
  - unfold test in H. destruct (workers s !! i) as [w|] eqn:Hi; [|done]. simpl in H.
    destruct (pc w) eqn:Hp; try done. injection H as <-.
    apply (history_alter _ _ _ _ _ _ _ i _ w Hr Hi); [unfold running_task; by rewrite Hp|].
    by destruct (_ || _).
  - unfold park in H. destruct (workers s !! i) as [w|] eqn:Hi; [|done]. simpl in H.
    destruct (pc w) eqn:Hp; try done. injection H as <-.
    apply (history_alter _ _ _ _ _ _ _ i Blocked w Hr Hi); [unfold running_task; by rewrite Hp|done].
  - unfold spurious_wake in H. destruct (workers s !! i) as [w|] eqn:Hi; [|done]. simpl in H.
    destruct (pc w) eqn:Hp; try done. injection H as <-.
    apply (history_alter _ _ _ _ _ _ _ i Woken w Hr Hi); [unfold running_task; by rewrite Hp|done].
Qed.

Lemma run_cons a acts s s1 s' :
  step throws a s = Some s1 → run throws acts s1 = Some s' → run throws (a :: acts) s = Some s'.
Proof. intros H1 H2. simpl. by rewrite H1. Qed.

Lemma run_ok acts : ∀ s s', run throws acts s = Some s' → sound s → recorded s → sound s' ∧ recorded s'.
Proof.
  induction acts as [|a acts IH]; intros s s' H Hs Hr; simpl in H; [by injection H as <-|].
  destruct (step throws a s) as [s1|] eqn:E; [|done]. simpl in H.
  eauto using step_sound, step_recorded.
Qed.

Lemma recorded_make n : recorded (make n).
Proof. by split. Qed.

Lemma reachable_ok n acts s : run throws acts (make n) = Some s → sound s ∧ recorded s.
Proof. intros H. eapply run_ok; eauto using sound_make, recorded_make. Qed.

(** *** Draining *)

(** The joining phase of [stop], with no worker blocked or about to block. *)
Definition drainable s : Prop :=
  stopping s = Joining ∧ ∀ i w, workers s !! i = Some w → pc w ≠ Parking ∧ pc w ≠ Blocked.

Definition worker_action (a : Action T) : bool :=
  match a with
  | Lock _ | Test _ | Park _ | SpuriousWake _ | Take _ | Finish _ => true
  | _ => false
  end.

Definition weight w : nat :=
  match pc w with
  | Exited => 0 | Holding => 2 | Testing | Parking => 3 | Top | Woken | Blocked => 4 | Running _ => 5
  end.
Definition work s : nat := (6 * length (tasks s) + sum_list_with weight (workers s))%nat.

Lemma weight_alter f i (l : list (Worker T)) w :
  l !! i = Some w →
  (sum_list_with weight (alter f i l) + weight w = sum_list_with weight l + weight (f w))%nat.
Proof.
  intros H. destruct (alter_middle f i l w H) as (l1 & l2 & -> & ->).
  rewrite !sum_list_with_app. simpl. lia.
Qed.

Lemma drainable_alter s i f w s' :
  drainable s → workers s !! i = Some w → stopping s' = stopping s →
  workers s' = alter f i (workers s) → pc (f w) ≠ Parking → pc (f w) ≠ Blocked → drainable s'.
Proof.
  intros [Hst Hb] Hi Hs Hw H1 H2. split; [congruence|]. rewrite Hw. intros j w' Hj.
  apply lookup_alter_cases in Hj as [(<- & y & Hy & ->)|[_ Hj]]; [|by eapply Hb].
  assert (y = w) as -> by congruence. done.
Qed.

(** Every step of a worker brings the end nearer. *)
Lemma drain_step a s s' :
  sound s → drainable s → worker_action a = true → step throws a s = Some s' →
  drainable s' ∧ (work s' < work s)%nat.
Proof.
  intros (Hm & Hl & _) Hd Ha H. destruct Hd as [Hst Hb].
  assert (Hr : running s = false) by (apply (lo_stop _ _ _ _ Hl); by rewrite Hst).
  destruct a as [| | | | | |i|i|i|i|i|i]; try done; simpl in H;
    unfold lock, test, park, spurious_wake, take_, finish in H;
    (destruct (workers s !! i) as [w|] eqn:Hi; [|done]); simpl in H;
    destruct (Hb i w Hi) as [Hp1 Hp2]; destruct (pc w) as [| | | | | |c|] eqn:Hpc; try done.
  - destruct (mutex s); [done|]. injection H as <-. split; [by eapply drainable_alter|].
    pose proof (weight_alter (set_pc Testing) i _ w Hi) as Hw. unfold work, weight in *. simpl in *.
    rewrite Hpc in Hw. lia.
  - destruct (mutex s); [done|]. injection H as <-. split; [by eapply drainable_alter|].
    pose proof (weight_alter (set_pc Testing) i _ w Hi) as Hw. unfold work, weight in *. simpl in *.
    rewrite Hpc in Hw. lia.
  - rewrite Hr in H. simpl in H. injection H as <-. split; [by eapply drainable_alter|].
    pose proof (weight_alter (set_pc Holding) i _ w Hi) as Hw. unfold work, weight in *. simpl in *.
    rewrite Hpc in Hw. lia.
  - destruct (tasks s) as [|t rest] eqn:Et; rewrite Hr in H; simpl in H; injection H as <-.
    + split; [by eapply drainable_alter|].
      pose proof (weight_alter (set_pc Exited) i _ w Hi) as Hw. unfold work, weight in *. simpl in *.
      rewrite Hpc in Hw. rewrite Et. simpl. lia.
    + split; [by eapply (drainable_alter s i (set_pc (Running t)))|].
      pose proof (weight_alter (set_pc (Running t)) i _ w Hi) as Hw. unfold work, weight in *. simpl in *.
      rewrite Hpc in Hw. rewrite Et. simpl. lia.
  - destruct (run_carried c (ctx w)) as [seen after]. injection H as <-.
    rewrite <- (alter_insert_eq _ _ w) by done.
    split; [by eapply (drainable_alter s i (λ _, mkWorker Top after))|].
    pose proof (weight_alter (λ _, mkWorker Top after) i _ w Hi) as Hw. unfold work, weight in *. simpl in *.
    rewrite Hpc in Hw. lia.
Qed.

(** Until every worker has exited, some worker can move. *)
Lemma drain_enabled s :
  sound s → drainable s → forallb is_exited (workers s) = false →
  ∃ a s', worker_action a = true ∧ step throws a s = Some s'.
Proof.
  intros (Hm & Hl & _) [Hst Hb] Ha.
  assert (Hr : running s = false) by (apply (lo_stop _ _ _ _ Hl); by rewrite Hst).
  destruct (mutex s) as [i|] eqn:Hmu.
  - destruct (mo_holder _ _ _ _ Hm i eq_refl) as (w & Hi & Hh). unfold holds_mutex in Hh.
    destruct (Hb i w Hi) as [Hp _]. destruct (pc w) eqn:Hpc; try done.
    + exists (Test i). eexists. split; [done|]. simpl. unfold test. rewrite Hi. simpl. by rewrite Hpc.
    + exists (Take i). simpl. unfold take_. rewrite Hi. simpl. rewrite Hpc, Hr.
      destruct (tasks s); eexists; done.
  - assert (∃ i w, workers s !! i = Some w ∧ pc w ≠ Exited) as (i & w & Hi & Hx).
    { clear -Ha. induction (workers s) as [|w ws IH]; [done|]. simpl in Ha. unfold is_exited at 1 in Ha.
      destruct (pc w) eqn:Hp; try (exists 0%nat, w; split; [done|by rewrite Hp]).
      destruct (IH Ha) as (i & w' & Hi & Hx). by exists (S i), w'. }
    destruct (Hb i w Hi) as [Hp1 Hp2].
    destruct (pc w) as [| | | | | |c|] eqn:Hpc; try done;
      try (pose proof (mo_owner _ _ _ _ Hm i w Hi) as Ho; unfold holds_mutex in Ho;
           rewrite Hpc in Ho; by specialize (Ho eq_refl)).
    + exists (Lock i). eexists. split; [done|]. simpl. unfold lock. rewrite Hi. simpl. by rewrite Hpc, Hmu.
    + exists (Lock i). eexists. split; [done|]. simpl. unfold lock. rewrite Hi. simpl. by rewrite Hpc, Hmu.
    + exists (Finish i). simpl. unfold finish. rewrite Hi. simpl. rewrite Hpc.
      destruct (run_carried c (ctx w)) as [seen after]. by eexists.
Qed.

Lemma drain_run acts : ∀ s s',
  sound s → drainable s → Forall (λ a, worker_action a = true) acts → run throws acts s = Some s' →
  sound s' ∧ drainable s' ∧ (length acts + work s' <= work s)%nat.
Proof.
  induction acts as [|a acts IH]; intros s s' Hs Hd Ha H; simpl in H.
  - injection H as <-. simpl. auto.
  - apply Forall_cons in Ha as [Ha Has]. destruct (step throws a s) as [s1|] eqn:E; [|done]. simpl in H.
    destruct (drain_step a s s1 Hs Hd Ha E) as [Hd1 Hw].
    destruct (IH s1 s' (step_sound _ _ _ E Hs) Hd1 Has H) as (H1 & H2 & H3). simpl. split_and!; [done..|lia].
Qed.

Lemma all_done s :
  sound s → recorded s → stopping s = Joining → forallb is_exited (workers s) = true →
  (finished s).*1 ≡ₚ accepted s.
Proof.
  intros Hs [Hq Hp _ _ _ _] Hst Ha.
  destruct (all_exited s Hs) as (_ & Ht & _ & Ho); [by rewrite Hst|done|].
  rewrite Ho, app_nil_r in Hp. rewrite Ht, app_nil_r in Hq. by rewrite <- Hq.
Qed.

(** *** The lost wake-up *)

(** Worker [i] is blocked while [stop] joins, and nothing is left to wake it. *)
Definition stuck (i : nat) s : Prop :=
  stopping s = Joining ∧ running s = false ∧ notifies s = 0%nat ∧
  ∃ w, workers s !! i = Some w ∧ pc w = Blocked.

Definition spurious (a : Action T) : bool := match a with SpuriousWake _ => true | _ => false end.

Lemma stuck_alter i j f w s s' :
  stuck i s → workers s !! j = Some w → pc w ≠ Blocked → workers s' = alter f j (workers s) →
  stopping s' = stopping s → running s' = running s → notifies s' = notifies s → stuck i s'.
Proof.
  intros (Hs & Hr & Hn & w0 & Hi & Hp) Hj Hb Hw Hs' Hr' Hn'. split_and!; [congruence..|].
  exists w0. split; [|done]. rewrite Hw, list_lookup_alter. case_decide; [|done]. subst. congruence.
Qed.

Lemma stuck_step i a s s' : spurious a = false → stuck i s → step throws a s = Some s' → stuck i s'.
Proof.
  intros Ha Hst H. pose proof Hst as (Hs & Hr & Hn & w & Hi & Hp).
  destruct a as [|t task|woken| | | |j|j|j|j|j|j]; simpl in H; try done.
  - unfold start in H. by rewrite Hs in H.
  - unfold submit in H. rewrite Hr in H. destruct (mutex s); [done|]. by injection H as <-.
  - unfold notify_one in H. by rewrite Hn in H.
  - unfold stop_flag in H. rewrite Hr in H. by injection H as <-.
  - unfold stop_notify in H. by rewrite Hs in H.
  - unfold stop_joined in H. rewrite Hs in H. destruct (forallb is_exited (workers s)) eqn:E; [|done].
    rewrite forallb_forall in E. specialize (E w). unfold is_exited in E. rewrite Hp in E.
    discriminate E. apply list_elem_of_In. by eapply list_elem_of_lookup_2.
  - unfold lock in H. destruct (workers s !! j) as [w'|] eqn:Hj; [|done]. simpl in H.
    destruct (pc w') eqn:Hp', (mutex s); try done; injection H as <-; by eapply (stuck_alter _ _ _ _ _ _ Hst Hj); [rewrite Hp'|..].
  - unfold test in H. destruct (workers s !! j) as [w'|] eqn:Hj; [|done]. simpl in H.
    destruct (pc w') eqn:Hp'; try done; injection H as <-; by eapply (stuck_alter _ _ _ _ _ _ Hst Hj); [rewrite Hp'|..].
  - unfold park in H. destruct (workers s !! j) as [w'|] eqn:Hj; [|done]. simpl in H.
    destruct (pc w') eqn:Hp'; try done; injection H as <-; by eapply (stuck_alter _ _ _ _ _ _ Hst Hj); [rewrite Hp'|..].
  - unfold take_ in H. destruct (workers s !! j) as [w'|] eqn:Hj; [|done]. simpl in H.
    destruct (pc w') eqn:Hp'; try done. rewrite Hr in H.
    destruct (tasks s) as [|t rest]; simpl in H; injection H as <-; by eapply (stuck_alter _ _ _ _ _ _ Hst Hj); [rewrite Hp'|..].
  - unfold finish in H. destruct (workers s !! j) as [w'|] eqn:Hj; [|done]. simpl in H.
    destruct (pc w') as [| | | | | |c|] eqn:Hp'; try done.
    destruct (run_carried c (ctx w')) as [seen after]. injection H as <-.
    rewrite <- (alter_insert_eq _ _ w') by done. by eapply (stuck_alter _ _ _ _ _ _ Hst Hj); [rewrite Hp'|..].
Qed.

Lemma stuck_run i acts : ∀ s s',
  Forall (λ a, spurious a = false) acts → stuck i s → run throws acts s = Some s' → stuck i s'.
Proof.
  induction acts as [|a acts IH]; intros s s' Ha Hs H; simpl in H; [by injection H as <-|].
  apply Forall_cons in Ha as [Ha Has]. destruct (step throws a s) as [s1|] eqn:E; [|done].
  eauto using stuck_step.
Qed.
End Facts.
End ExecutorFacts.

(** ** The scheduler *)

Module PeriodicScheduler.
Section Scheduler.
Context {W : Type}.

(** One turn of the loop: every task runs, whatever the ones before it did.
    The result counts the failures that are logged. *)
(* src/jobs/periodic_scheduler.cpp:42-48, PeriodicScheduler::run *)
Fixpoint tick (tasks : list (string * M W exn unit)) (w : W) : list string * W :=
  match tasks with
  | [] => ([], w)
  | (name, task) :: rest =>
      let '(r, w) := task w in
      let '(failures, w) := tick rest w in
      (match r with Ok _ => failures | Err _ => name :: failures end, w)
  end.

(** The loop, given for each turn whether [stop] was seen before the wait and
    whether it was seen after it. *)
(* src/jobs/periodic_scheduler.cpp:33-50, PeriodicScheduler::run *)
Fixpoint loop (turns : list (bool * bool)) (tasks : list (string * M W exn unit)) (w : W)
    : list string * W :=
  match turns with
  | [] => ([], w)
  | (true, _) :: _ => ([], w)
  | (false, true) :: _ => ([], w)
  | (false, false) :: rest =>
      let '(failures, w) := tick tasks w in
      let '(more, w) := loop rest tasks w in ((failures ++ more)%list, w)
  end.

(** The thread between the turns: in [wait_for], or out of its loop. *)
Inductive Phase := Waiting | Ended.
(* include/rtc/jobs/periodic_scheduler.hpp:46-51, PeriodicScheduler *)
Record t := mk { tasks_ : list (string * M W exn unit); running_ : bool; thread_ : option Phase }.

(* src/jobs/periodic_scheduler.cpp:13-21, PeriodicScheduler::start *)
Definition start (s : t) : t := if running_ s then s else mk (tasks_ s) true (Some Waiting).

(** The flag and the notification; the join after them returns when the thread
    has ended. *)
(* src/jobs/periodic_scheduler.cpp:23-27, PeriodicScheduler::stop *)
Definition stop (s : t) : t := mk (tasks_ s) false (thread_ s).
(* src/jobs/periodic_scheduler.cpp:28-30, PeriodicScheduler::stop (join) *)
Definition join (s : t) : option t :=
  match thread_ s with Some Waiting => None | _ => Some (mk (tasks_ s) (running_ s) None) end.

(** A return of the wait, up to the next one: a turn of [loop]. *)
Definition wake (s : t) (w : W) : t * (list string * W) :=
  match thread_ s with
  | Some Waiting =>
      if running_ s then (s, loop [(false, false)] (tasks_ s) w)
      else (mk (tasks_ s) false (Some Ended), loop [(false, true)] (tasks_ s) w)
  | _ => (s, ([], w))
  end.

(** After [stop] no task starts any more, and the next return of the wait, at
    the latest after an interval, lets the join go on. *)
Lemma stop_starts_nothing s w :
  let '(s', (failures, w')) := wake (stop s) w in
  w' = w ∧ failures = [] ∧ (thread_ s = None ∨ is_Some (join s')).
Proof. unfold wake, stop, join. destruct s as [tasks r [[]|]]; cbn; eauto. Qed.

(** A turn runs the tasks in their order, whatever each of them does. *)
Lemma tick_worlds tasks w : (tick tasks w).2 = foldl (λ w task, (task.2 w).2) w tasks.
Proof.
  revert w. induction tasks as [|[name task] rest IH]; intros w; [done|]. cbn.
  destruct (task w) as [r w1]. cbn. rewrite <- IH. by destruct (tick rest w1).
Qed.
End Scheduler.
End PeriodicScheduler.

(** ** Domain events *)

Module EventDispatcher.
Section Dispatcher.
Context {W : Type}.

(** A subscriber is identified by its address. *)
Record Subscriber := mkSub {
  address : Z; interested_in : EventType.t → bool; handle : DomainEvent.t → M W exn unit }.

(* include/rtc/events/event_dispatcher.hpp:49-57, EventDispatcher *)
Record t := mk { subscribers : list Subscriber; dispatched : Z; failures : Z }.

(* src/events/event_dispatcher.cpp:10-24, EventDispatcher::subscribe *)
Definition subscribe (s : Subscriber) (d : t) : t :=
  if existsb (λ x, address x =? address s) (subscribers d) then d
  else mk (subscribers d ++ [s])%list (dispatched d) (failures d).

(** The loop over the subscribers, counting the handlers that threw. *)
(* src/events/event_dispatcher.cpp:30-54, EventDispatcher::dispatch *)
Fixpoint deliver (event : DomainEvent.t) (subs : list Subscriber) (w : W) : Z * W :=
  match subs with
  | [] => (0, w)
  | s :: rest =>
      if negb (interested_in s (DomainEvent.type event)) then deliver event rest w
      else let '(r, w) := handle s event w in
           let '(n, w) := deliver event rest w in
           (match r with Ok _ => n | Err _ => n + 1 end, w)
  end.

(* src/events/event_dispatcher.cpp:26-59, EventDispatcher::dispatch *)
Definition dispatch (event : DomainEvent.t) (d : t) (w : W) : t * W :=
  let '(n, w) := deliver event (subscribers d) w in
  (mk (subscribers d) (BackgroundExecutor.counter (dispatched d + 1))
     (BackgroundExecutor.counter (failures d + n)), w).

(* src/events/event_dispatcher.cpp:61-68, EventDispatcher::subscriber_count *)
Definition subscriber_count (d : t) : nat := length (subscribers d).
End Dispatcher.
Arguments Subscriber W : clear implicits.
Arguments t W : clear implicits.
End EventDispatcher.

Module InProcessEventBus.
Section Bus.
Context {W : Type}.

(* include/rtc/events/in_process_event_bus.hpp:59-62, InProcessEventBus *)
Record t := mk {
  dispatcher : EventDispatcher.t W;
  executor : option (BackgroundExecutor.State DomainEvent.t);
  published : Z;
  dropped : Z }.

(** [None] while the executor's mutex is held: the publisher waits.  What
    [submit] can throw, a failed allocation, is not modelled, so nothing is
    ever counted as dropped. *)
(* src/events/in_process_event_bus.cpp:14-33, InProcessEventBus::publish *)
Definition publish (publisher : ThreadCtx) (event : DomainEvent.t) (b : t) (w : W) : option (t * W) :=
  let n := BackgroundExecutor.counter (published b + 1) in
  match executor b with
  | None => let '(d, w) := EventDispatcher.dispatch event (dispatcher b) w in
            Some (mk d None n (dropped b), w)
  | Some ex =>
      ex' ← BackgroundExecutor.submit publisher event ex;
      Some (mk (dispatcher b) (Some ex') n (dropped b), w)
  end.
End Bus.
Arguments t W : clear implicits.
End InProcessEventBus.

(** A subscriber that notes each event it is given before handling it. *)
Definition noting {W} (s : EventDispatcher.Subscriber W)
    : EventDispatcher.Subscriber (W * list (Z * DomainEvent.t)) :=
  EventDispatcher.mkSub (EventDispatcher.address s) (EventDispatcher.interested_in s)
    (λ ev '(w, log), let '(r, w) := EventDispatcher.handle s ev w in
                     (r, (w, (log ++ [(EventDispatcher.address s, ev)])%list))).

Definition addressees {W} (subs : list (EventDispatcher.Subscriber W)) (ev : DomainEvent.t) : list Z :=
  EventDispatcher.address
    <$> filter (λ s, EventDispatcher.interested_in s (DomainEvent.type ev) = true) subs.

(** A failing subscriber does not keep the event from the others. *)
Lemma deliver_noting {W} ev (subs : list (EventDispatcher.Subscriber W)) : ∀ w log,
  (EventDispatcher.deliver ev (noting <$> subs) (w, log)).2.2
  = (log ++ ((λ a, (a, ev)) <$> addressees subs ev))%list.
Proof.
  unfold addressees. induction subs as [|s subs IH]; intros w log; [by simpl; rewrite app_nil_r|].
  rewrite fmap_cons, filter_cons. simpl.
  destruct (EventDispatcher.interested_in s (DomainEvent.type ev)) eqn:E; simpl; [|apply IH].
  destruct (EventDispatcher.handle s ev w) as [r w1].
  specialize (IH w1 (log ++ [(EventDispatcher.address s, ev)])%list).
  destruct (EventDispatcher.deliver ev (noting <$> subs) _) as [n [w2 log2]]. simpl in *.
  rewrite IH, <- app_assoc. by destruct r.
Qed.

(** Registration keeps addresses distinct. *)
Lemma subscribe_nodup {W} s (d : EventDispatcher.t W) :
  NoDup (EventDispatcher.address <$> EventDispatcher.subscribers d) →
  NoDup (EventDispatcher.address <$> EventDispatcher.subscribers (EventDispatcher.subscribe s d)).
Proof.
  unfold EventDispatcher.subscribe. destruct (existsb _ _) eqn:E; [done|]. simpl. intros H.
  rewrite fmap_app. apply NoDup_app. split_and!; [done| |apply NoDup_singleton].
  intros a Ha Hin. apply list_elem_of_singleton in Hin. apply list_elem_of_fmap in Ha as (x & -> & Hx).
  apply list_elem_of_In in Hx. assert (existsb (λ x, EventDispatcher.address x =? EventDispatcher.address s)
    (EventDispatcher.subscribers d) = true); [|congruence].
  apply existsb_exists. exists x. split; [done|]. by apply Z.eqb_eq.
Qed.

(** The dispatches of a list of events, one after the other. *)
Fixpoint deliver_each {W} (evs : list DomainEvent.t) (subs : list (EventDispatcher.Subscriber W)) (w : W) : W :=
  match evs with
  | [] => w
  | ev :: rest => deliver_each rest subs (EventDispatcher.deliver ev subs w).2
  end.

Definition owed {W} (subs : list (EventDispatcher.Subscriber W)) (ev : DomainEvent.t)
    : list (Z * DomainEvent.t) := (λ a, (a, ev)) <$> addressees subs ev.

Lemma deliver_each_noting {W} evs (subs : list (EventDispatcher.Subscriber W)) : ∀ w log,
  (deliver_each evs (noting <$> subs) (w, log)).2 = (log ++ concat (owed subs <$> evs))%list.
Proof.
  induction evs as [|ev evs IH]; intros w log; [by simpl; rewrite app_nil_r|]. simpl.
  pose proof (deliver_noting ev subs w log) as H.
  destruct (EventDispatcher.deliver ev (noting <$> subs) (w, log)) as [n [w1 log1]]. simpl in *.
  by rewrite IH, H, app_assoc.
Qed.

(** ** The properties *)

Module Executor.
Import BackgroundExecutor ExecutorFacts.


(** C38. [stop] drains.  Once it is joining and no worker is blocked or about to
    block, whatever order the workers run in, they take at most [work s] steps;
    and whenever no worker can move any more, the join succeeds, the executor
    has no workers and no tasks left, and every accepted task has run. *)
Theorem executor_drains {T : Type} (throws : T → bool) (n : nat) (acts acts' : list (Action T))
    (s s' : State T) :
  run throws acts (make n) = Some s → drainable s →
  Forall (λ a, worker_action a = true) acts' → run throws acts' s = Some s' →
  (length acts' <= work s)%nat ∧
  ((∃ a s'', worker_action a = true ∧ step throws a s' = Some s'') ∨
   (∃ s'', step throws StopJoined s' = Some s'' ∧ workers s'' = [] ∧ tasks s'' = [] ∧
           (finished s'').*1 ≡ₚ accepted s'')).
Proof.
  intros Hr Hd Ha Hr'. destruct (reachable_ok throws n acts s Hr) as [Hs Hrec].
  destruct (drain_run throws acts' s s' Hs Hd Ha Hr') as (Hs' & Hd' & Hw).
  destruct (run_ok throws acts' s s' Hr' Hs Hrec) as [_ Hrec']. split; [lia|].
  destruct (forallb is_exited (workers s')) eqn:E; [right|left; by apply drain_enabled].
  destruct Hd' as [Hst _]. destruct (all_exited s' Hs') as (_ & Ht & _); [by rewrite Hst|done|].
  eexists. simpl. unfold stop_joined. rewrite Hst, E. split; [done|]. simpl. split_and!; [done..|].
  by apply all_done.
Qed.

(** The schedule: the only worker to look at the queue finds it empty while
    the executor runs, and starts to block after [stop] has notified. *)
Definition lost_wakeup {T : Type} : list (Action T) :=
  [Start; Lock 0; Test 0; StopFlag; StopNotify; Park 0].

(** [stop] can hang.  It clears the flag and notifies without holding the
    mutex, so a worker that has evaluated its predicate and has not blocked yet
    misses the notification: the state reached is one from which, whatever
    else happens short of a spurious wake-up, [stop] never returns. *)
Theorem executor_stop_lost_wakeup {T : Type} (throws : T → bool) (n : nat) :
  ∃ s, run throws lost_wakeup (make n) = Some s ∧ running s = false ∧
    ∀ acts s', Forall (λ a, spurious a = false) acts → run throws acts s = Some s' →
      stopping s' = Joining.
Proof.
  assert (H : ∃ s, run throws (T:=T) lost_wakeup (make n) = Some s ∧ stuck 0 s).
  { destruct n as [|n]; (eexists; split; [do 6 (eapply run_cons; [vm_compute; reflexivity|]); reflexivity|]);
      (split_and!; [reflexivity..|]); eexists; split; reflexivity. }
  destruct H as (s & Hrun & Hstuck). exists s. split_and!; [done|apply Hstuck|].
  intros acts s' Ha Hr. by destruct (stuck_run throws 0 acts s s' Ha Hstuck Hr).
Qed.

(** Every domain event that the bus hands to a running executor reaches
    every subscriber interested in its type exactly once by the time the
    executor has stopped, also when other subscribers throw. *)
Theorem published_events_delivered {W : Type} (subs : list (EventDispatcher.Subscriber W)) (w : W)
    (n : nat) (acts : list (Action DomainEvent.t)) (s : State DomainEvent.t) :
  run (λ _, false) acts (make n) = Some s → running s = false → stopping s = NotStopping →
  (deliver_each (inner <$> (finished s).*1) (noting <$> subs) (w, [])).2
  ≡ₚ concat (owed subs <$> (inner <$> accepted s)).
Proof.
  intros H Hr Hst. destruct (reachable_ok _ n acts s H) as [(_ & Hl & _) [Hq Hp _ _ _ _]].
  destruct (lo_idle _ _ _ _ Hl Hr Hst) as [Hw Ht].
  rewrite Hw, app_nil_r in Hp. rewrite Ht, app_nil_r in Hq. rewrite deliver_each_noting. simpl.
  by rewrite Hp, Hq.
Qed.
End Executor.

(** ** Instances *)

Module JobsSample.
Import BackgroundExecutor ExecutorFacts Executor.

(** One worker, and two tasks submitted by two requests; the first throws. *)
Definition throws (t : nat) : bool := (t =? 0)%nat.
Definition request_a : ThreadCtx :=
  mkCtx (Some (SpanContext.mk "0af7651916cd43dd8448eb211c80319c" "b7ad6b7169203331" true "")) "req-a".
Definition request_b : ThreadCtx := mkCtx None "req-b".

Definition to_joining : list (Action nat) :=
  [Start; Submit request_a 0%nat; Submit request_b 1%nat; NotifyOne None; Lock 0; Test 0; StopFlag;
   StopNotify].
Definition draining : list (Action nat) :=
  [Take 0; Finish 0; Lock 0; Test 0; Take 0; Finish 0; Lock 0; Test 0; Take 0].

Ltac run_steps := repeat (eapply run_cons; [vm_compute; reflexivity|]); reflexivity.

Lemma joining : ∃ s, run throws to_joining (make 1) = Some s ∧ drainable s ∧
  ∃ s', run throws draining s = Some s'.
Proof.
  eexists. split; [run_steps|]. split; [|eexists; run_steps].
  split; [done|]. intros [|i] w Hi; [|done]. by injection Hi as <-.
Qed.

Lemma drained : ∃ s, run throws (to_joining ++ draining ++ [StopJoined])%list (make 1) = Some s ∧
  running s = false ∧ stopping s = NotStopping ∧ length (accepted s) = 2%nat.
Proof. eexists. split; [simpl app; run_steps|]. done. Qed.

Definition event (type : EventType.t) (id : string) : DomainEvent.t :=
  DomainEvent.make (DomainEvent.mk_env id 0 None) (Build_EventDraft type JNull None).

(** The event bus of one worker with one event published. *)
Definition bus_run (ev : DomainEvent.t) : list (Action DomainEvent.t) :=
  [Start; Submit no_ctx ev; NotifyOne None; Lock 0; Test 0; Take 0;
   Finish 0; StopFlag; StopNotify; Lock 0; Test 0; Take 0; StopJoined].

Lemma bus_stopped ev : ∃ s, run (λ _, false) (bus_run ev) (make 1) = Some s ∧
  running s = false ∧ stopping s = NotStopping ∧ inner <$> accepted s = [ev].
Proof. eexists. split; [run_steps|]. done. Qed.

(** A subscriber that always fails, and one that counts. *)
Definition broken : EventDispatcher.Subscriber Z :=
  EventDispatcher.mkSub 1 (λ _, true) (λ _ w, (Err (DatabaseException "down" ""), w)).
Definition counting : EventDispatcher.Subscriber Z :=
  EventDispatcher.mkSub 2 (λ t, bool_decide (t = EventType.kMessageSent)) (λ _ w, (Ok tt, w + 1)).
End JobsSample.


Lemma executor_drains_witness :
  ∃ s s' : BackgroundExecutor.State nat,
    BackgroundExecutor.run JobsSample.throws JobsSample.draining s = Some s' ∧
    (length JobsSample.draining <= ExecutorFacts.work s)%nat.
Proof.
  destruct JobsSample.joining as (s & Hrun & Hd & s' & Hrun'). exists s, s'.
  split; [exact Hrun'|].
  assert (Ha : Forall (λ a, ExecutorFacts.worker_action a = true) JobsSample.draining)
    by (repeat constructor).
  exact (proj1 (Executor.executor_drains JobsSample.throws 1 _ _ s s' Hrun Hd Ha Hrun')).
Defined.

Lemma published_events_delivered_witness :
  ∃ s : BackgroundExecutor.State DomainEvent.t,
    (deliver_each (BackgroundExecutor.inner <$> (BackgroundExecutor.finished s).*1)
       (noting <$> [JobsSample.broken; JobsSample.counting]) (0, [])).2
    ≡ₚ [(1, JobsSample.event EventType.kMessageSent "e1");
        (2, JobsSample.event EventType.kMessageSent "e1")].
Proof.
  destruct (JobsSample.bus_stopped (JobsSample.event EventType.kMessageSent "e1")) as (s & Hrun & Hr & Hst & Ha). exists s.
  pose proof (Executor.published_events_delivered [JobsSample.broken; JobsSample.counting] 0 1 _ s
    Hrun Hr Hst) as H.
  rewrite Ha in H. exact H.
Defined.
