(* ===== verification/Logger.v ===== *)
(** * Logger: levels, correlation flags and the logger registry

    Models src/logging/logger.cpp: the textual levels, the pattern flags that
    attach the trace, span and request id to every line, the two patterns, and
    the registration, lookup and shutdown of the application's logger.

    spdlog is a parameter: its registry ([Spdlog]) and its pattern language
    ([Pattern]), with the documented behaviour the sources rely on as laws. *)

From S2P Require Import Prelude Text Json Validation Tracing Jobs.
Open Scope string_scope.
Open Scope Z_scope.

(** [spdlog::level::level_enum]. *)
Inductive Level := trace | debug | info | warn | err | critical | off.

(* src/logging/logger.cpp:152-169, parse_level *)
Definition parse_level (level : string) : Level :=
  let normalized := to_lower level in
  if String.eqb normalized "trace" then trace
  else if String.eqb normalized "debug" then debug
  else if String.eqb normalized "info" then info
  else if String.eqb normalized "warn" || String.eqb normalized "warning" then warn
  else if String.eqb normalized "error" || String.eqb normalized "err" then err
  else if String.eqb normalized "critical" || String.eqb normalized "crit" then critical
  else if String.eqb normalized "off" then off
  else info.

(** ** The correlation flags *)

(** A flag writes to the line from the context of the calling thread. *)
(* src/logging/logger.cpp:66-93, TraceIdFlag *)
Definition TraceIdFlag (bracketed : bool) (t : ThreadCtx) : string :=
  match ctx_span t with
  | Some c =>
      if SpanContext.is_valid c
      then (if bracketed then " [" else "") +:+ SpanContext.trace_id c +:+ (if bracketed then "]" else "")
      else ""
  | None => ""
  end.

(* src/logging/logger.cpp:95-110, SpanIdFlag *)
Definition SpanIdFlag (t : ThreadCtx) : string :=
  match ctx_span t with
  | Some c => if SpanContext.is_valid c then SpanContext.span_id c else ""
  | None => ""
  end.

(* src/logging/logger.cpp:112-139, RequestIdFlag *)
Definition RequestIdFlag (bracketed : bool) (t : ThreadCtx) : string :=
  let request_id := LogContext.current_request_id t in
  if String.eqb request_id "" then ""
  else (if bracketed then " [" else "") +:+ request_id +:+ (if bracketed then "]" else "").

(* src/logging/logger.cpp:33-35, kTraceIdFlag, kSpanIdFlag, kRequestIdFlag *)
Definition kTraceIdFlag : ascii := "*".
Definition kSpanIdFlag : ascii := "&".
Definition kRequestIdFlag : ascii := "~".

Definition quote : string := String "034" "".
Definition quoted (s : string) : string := quote +:+ s +:+ quote.

(* src/logging/logger.cpp:41-41, kTextPattern *)
Definition kTextPattern : string := "%Y-%m-%d %H:%M:%S.%e [%^%l%$] [tid %t] %n:%~%* %v".

(* src/logging/logger.cpp:50-52, kJsonPattern *)
Definition kJsonPattern : string :=
  "{" +:+ quoted "time" +:+ ":" +:+ quoted "%Y-%m-%dT%H:%M:%S.%e%z" +:+ "," +:+ quoted "level" +:+ ":" +:+ quoted "%l"
  +:+ "," +:+ quoted "thread" +:+ ":%t," +:+ quoted "logger" +:+ ":" +:+ quoted "%n" +:+ ","
  +:+ quoted "trace_id" +:+ ":" +:+ quoted "%*" +:+ "," +:+ quoted "span_id" +:+ ":" +:+ quoted "%&" +:+ ","
  +:+ quoted "request_id" +:+ ":" +:+ quoted "%~" +:+ "," +:+ quoted "message" +:+ ":" +:+ quoted "%v" +:+ "}".

(** [spdlog::pattern_formatter]: a line from a pattern, the custom flags and what
    the built-in flags stand for. *)
Class Pattern := render : (ascii → option string) → (ascii → string) → string → string.
Class PatternLaws `{Pattern} := {
  render_end c b : render c b "" = "";
  render_literal c b x s : x ≠ "%"%char → render c b (String x s) = String x (render c b s);
  render_flag c b f s : render c b (String "%" (String f s)) = default (b f) (c f) +:+ render c b s
}.

(* src/logging/logger.cpp:143-150, make_formatter *)
Definition make_formatter `{Pattern} (json : bool) (t : ThreadCtx) (builtin : ascii → string) : string :=
  let custom f :=
    if Ascii.eqb f kTraceIdFlag then Some (TraceIdFlag (negb json) t)
    else if Ascii.eqb f kSpanIdFlag then Some (SpanIdFlag t)
    else if Ascii.eqb f kRequestIdFlag then Some (RequestIdFlag (negb json) t)
    else None in
  render custom builtin (if json then kJsonPattern else kTextPattern).

(** ** The registry *)

Record LoggerObject := mkLogger { json_format : bool; level_of : Level; flush_on : Level }.

(** The registry of spdlog: named loggers and a default one. *)
Class Spdlog (R : Type) := {
  sp_get : string → R → option LoggerObject;
  sp_default : R → option LoggerObject;
  sp_drop : string → R → R;
  sp_register : string → LoggerObject → R → R;
  sp_set_default : LoggerObject → R → R;
  sp_shutdown : R → R
}.
Class SpdlogLaws (R : Type) `{Spdlog R} := {
  get_registered name l r : sp_get name (sp_register name l r) = Some l;
  get_set_default name l r : sp_get name (sp_set_default l r) = sp_get name r;
  get_shutdown name r : sp_get name (sp_shutdown r) = None;
  default_shutdown r : sp_default (sp_shutdown r) = None
}.

Section Registry.
Context {R : Type} `{Spdlog R}.

(* src/logging/logger.cpp:17-17, kLoggerName *)
Definition kLoggerName : string := "realtime-chat".

(** The logger as it is once configured. *)
(* src/logging/logger.cpp:171-188, init *)
Definition init (level format : string) (r : R) : R :=
  let r := sp_drop kLoggerName r in
  let logger := mkLogger (String.eqb (to_lower format) "json") (parse_level level) warn in
  sp_set_default logger (sp_register kLoggerName logger r).

(* src/logging/logger.cpp:190-195, get *)
Definition get (r : R) : option LoggerObject :=
  match sp_get kLoggerName r with Some logger => Some logger | None => sp_default r end.

(* src/logging/logger.cpp:197-202, shutdown *)
Definition shutdown (r : R) : R := sp_shutdown r.
End Registry.

(** ** What a line holds *)

Lemma level_case_blind s : parse_level (to_lower s) = parse_level s.
Proof. unfold parse_level. unfold to_lower. by rewrite (transform_idem tolower _ tolower_idem). Qed.

Lemma init_get {R} `{SpdlogLaws R} level format r :
  get (init level format r) = Some (mkLogger (String.eqb (to_lower format) "json") (parse_level level) warn).
Proof. unfold get, init. by rewrite get_set_default, get_registered. Qed.

Lemma shutdown_get {R} `{SpdlogLaws R} r : get (shutdown r) = None.
Proof. unfold get, shutdown. by rewrite get_shutdown, default_shutdown. Qed.

(** A line of the structured format: the three correlation keys are there
    whatever the context, and the request id and the message stand between their
    quotes as they are. *)
Definition member (key value rest : string) : string := quoted key +:+ ":" +:+ quote +:+ value +:+ quote +:+ rest.

Definition structured (t : ThreadCtx) (b : ascii → string) (request_id message : string) : string :=
  "{" +:+ quoted "time" +:+ ":" +:+ quote +:+ b "Y"%char +:+ "-" +:+ b "m"%char +:+ "-" +:+ b "d"%char +:+ "T"
  +:+ b "H"%char +:+ ":" +:+ b "M"%char +:+ ":" +:+ b "S"%char +:+ "." +:+ b "e"%char +:+ b "z"%char +:+ quote +:+ ","
  +:+ member "level" (b "l"%char) ("," +:+ quoted "thread" +:+ ":" +:+ b "t"%char +:+ ","
  +:+ member "logger" (b "n"%char) ("," +:+ member "trace_id" (TraceIdFlag false t) ("," +:+
      member "span_id" (SpanIdFlag t) ("," +:+ member "request_id" request_id ("," +:+
      member "message" message "}"))))).

Lemma json_line `{PatternLaws} t b :
  make_formatter true t b = structured t b (LogContext.current_request_id t) (b "v"%char).
Proof.
  assert (Hr : RequestIdFlag false t = LogContext.current_request_id t).
  { unfold RequestIdFlag. destruct (String.eqb_spec (LogContext.current_request_id t) ""); [done|].
    induction (LogContext.current_request_id t) as [|c s IH]; [done|].
    change (String c (s +:+ "") = String c s). f_equal. clear. induction s as [|c s IH]; [done|].
    change (String c (s +:+ "") = String c s). by f_equal. }
  pose (custom f := if Ascii.eqb f kTraceIdFlag then Some (TraceIdFlag false t)
                    else if Ascii.eqb f kSpanIdFlag then Some (SpanIdFlag t)
                    else if Ascii.eqb f kRequestIdFlag then Some (RequestIdFlag false t) else None).
  let p := eval vm_compute in kJsonPattern in
    change (make_formatter true t b) with (render custom b p).
  repeat first [rewrite render_flag | rewrite render_literal by discriminate | rewrite render_end].
  subst custom. cbn [default]. rewrite <- Hr. reflexivity.
Qed.

(** So a line does not tell its request id from its message: a client that sends
    quotes in its X-Request-Id header writes members of the line. *)
Lemma json_line_ambiguous t b x y z :
  let sep := quote +:+ "," +:+ quoted "message" +:+ ":" +:+ quote in
  structured t b x (y +:+ sep +:+ z) = structured t b (x +:+ sep +:+ y) z.
Proof. intros sep. unfold structured, member. subst sep. by rewrite <- !append_assoc_str. Qed.

(** ** Samples *)

(** Libraries with the behaviour the laws state. *)
Module LoggerSample.
Fixpoint write (c : ascii → option string) (b : ascii → string) (s : string) : string :=
  match s with
  | "" => ""
  | String "%" (String f s) => default (b f) (c f) +:+ write c b s
  | String x s => String x (write c b s)
  end.
Global Instance pattern : Pattern := write.
Lemma laws : PatternLaws.
Proof. split; [done| |done]. intros c b x s Hx. destruct x as [[] [] [] [] [] [] [] []]; done. Qed.

(** A registry: the named loggers, and the default one. *)
Definition Reg : Type := gmap string LoggerObject * option LoggerObject.
Global Instance spdlog : Spdlog Reg := {|
  sp_get name r := r.1 !! name;
  sp_default r := r.2;
  sp_drop name r := (delete name r.1, r.2);
  sp_register name l r := (<[name := l]> r.1, r.2);
  sp_set_default l r := (r.1, Some l);
  sp_shutdown r := (∅, None) |}.
Global Instance spdlog_laws : SpdlogLaws Reg.
Proof. split; [|done..]. intros name l r. apply lookup_insert_eq. Qed.

(** Nothing is registered at first. *)
Definition fresh : Reg := (∅, None).
End LoggerSample.
