(* ===== verification/Pool.v ===== *)
(** * Pool: the database connection pool and the migration runner

    Models src/database/connection_pool.cpp and src/database/migration_runner.cpp.

    The pool is a transition system whose steps are its critical sections: an
    [acquire] takes the first idle connection under the mutex, and checks or
    replaces it after releasing the mutex, so other threads run in between.
    What the server does (whether a connection has died, whether a new one can
    be opened) is given with the action.  An [acquire] that has to wait is an
    action that is not possible yet. *)

From S2P Require Import Prelude Text Errors.
Open Scope string_scope.
Open Scope Z_scope.

Module ConnectionPool.
(** A connection is known by an identity; [inhand] holds the connections popped
    by an [acquire] that has not returned, [leases] those handed out. *)
(* include/rtc/database/connection_pool.hpp:77-82, ConnectionPool *)
Record t := mk {
  size : nat; idle : list Z; shutting_down : bool; inhand : list Z; leases : list Z }.

(** What [pqxx::connection] answers when it is opened: a connection, with
    whether it is open, or an exception. *)
Inductive Opening := Opened (conn : Z) (is_open : bool) | Threw (e : exn).

(* src/database/connection_pool.cpp:54-66, ConnectionPool::make_connection *)
Definition make_connection (o : Opening) : result exn Z :=
  match o with
  | Opened conn true => Ok conn
  | Opened conn false => Err (DatabaseException "Database connection is not open" "")
  | Threw (App ex) =>
      if bool_decide (ex_type ex = kDatabase) then Err (App ex)
      else Err (DatabaseException "Failed to open database connection" (ex_message ex))
  | Threw (Std what) => Err (DatabaseException "Failed to open database connection" what)
  end.

Fixpoint open_all (openings : list Opening) : result exn (list Z) :=
  match openings with
  | [] => Ok []
  | o :: rest =>
      match make_connection o with
      | Err e => Err e
      | Ok c => match open_all rest with Ok cs => Ok (c :: cs) | Err e => Err e end
      end
  end.

(** The openings beyond the size are not attempted. *)
(* src/database/connection_pool.cpp:38-44, ConnectionPool::ConnectionPool *)
Definition make (n : nat) (openings : nat → Opening) : result exn t :=
  let n := if (n =? 0)%nat then 1%nat else n in
  match open_all (openings <$> seq 0 n) with
  | Ok cs => Ok (mk n cs false [] [])
  | Err e => Err e
  end.

Inductive Action :=
  | Pop
  | Refused
  | Checked (conn : Z) (is_open : bool) (replacement : Opening)
  | Return (conn : Z)
  | Destroy.

Definition remove_one (x : Z) (l : list Z) : list Z :=
  match list_find (λ y, y = x) l with Some (i, _) => delete i l | None => l end.

(** The critical section of [acquire]: possible when the wait is over. *)
(* src/database/connection_pool.cpp:69-77, ConnectionPool::acquire *)
Definition pop (p : t) : option t :=
  if shutting_down p then None
  else match idle p with
       | [] => None
       | c :: rest => Some (mk (size p) rest false (inhand p ++ [c])%list (leases p))
       end.

(* src/database/connection_pool.cpp:71-73, ConnectionPool::acquire *)
Definition refused (p : t) : option (exn * t) :=
  if shutting_down p then Some (DatabaseException "Connection pool is shutting down" "", p) else None.

(** The rest of [acquire], after the mutex is released: a lease, or the
    exception of [make_connection]. *)
(* src/database/connection_pool.cpp:79-86, ConnectionPool::acquire *)
Definition checked (c : Z) (is_open : bool) (replacement : Opening) (p : t) : option (result exn Z * t) :=
  if bool_decide (c ∈ inhand p)
  then
    let rest := remove_one c (inhand p) in
    if is_open then Some (Ok c, mk (size p) (idle p) (shutting_down p) rest (leases p ++ [c])%list)
    else match make_connection replacement with
         | Ok c' => Some (Ok c', mk (size p) (idle p) (shutting_down p) rest (leases p ++ [c'])%list)
         | Err e => Some (Err e, mk (size p) (idle p) (shutting_down p) rest (leases p))
         end
  else None.

(** A lease ends by [PooledConnection]'s destructor. *)
(* src/database/connection_pool.cpp:88-95, ConnectionPool::release *)
Definition release (c : Z) (p : t) : option t :=
  if bool_decide (c ∈ leases p)
  then
    let rest := remove_one c (leases p) in
    if shutting_down p then Some (mk (size p) (idle p) true (inhand p) rest)
    else Some (mk (size p) (idle p ++ [c])%list false (inhand p) rest)
  else None.

(* src/database/connection_pool.cpp:46-52, ConnectionPool::~ConnectionPool *)
Definition destroy (p : t) : t := mk (size p) [] true (inhand p) (leases p).

(* src/database/connection_pool.cpp:97-100, ConnectionPool::idle_count *)
Definition idle_count (p : t) : nat := length (idle p).

Definition step (a : Action) (p : t) : option t :=
  match a with
  | Pop => pop p
  | Refused => snd <$> refused p
  | Checked c is_open o => snd <$> checked c is_open o p
  | Return c => release c p
  | Destroy => Some (destroy p)
  end.

(** Whether a step is an [acquire] that lost its slot: the connection it popped
    was dead and could not be replaced. *)
Definition loses (a : Action) : nat :=
  match a with
  | Checked _ false o => match make_connection o with Ok _ => 0 | Err _ => 1 end
  | _ => 0
  end.

Fixpoint run (acts : list Action) (p : t) : option t :=
  match acts with [] => Some p | a :: rest => p' ← step a p; run rest p' end.

Definition lost (acts : list Action) : nat := sum_list_with loses acts.

(** *** Lemmas *)

Lemma length_remove_one x l : x ∈ l → length (remove_one x l) = pred (length l).
Proof.
  intros H. unfold remove_one. destruct (list_find (λ y, y = x) l) as [[i y]|] eqn:E.
  - apply list_find_Some in E as (Hi & _ & _). rewrite length_delete; [lia|by eexists].
  - apply list_find_None in E. rewrite Forall_forall in E. by specialize (E x H).
Qed.

Lemma elem_length (x : Z) l : x ∈ l → (0 < length l)%nat.
Proof. intros H. destruct l; [by inversion H|simpl; lia]. Qed.

(** Everything that left the idle queue is accounted for. *)
Definition held (p : t) : nat := (length (idle p) + length (inhand p) + length (leases p))%nat.

Lemma open_all_length os cs : open_all os = Ok cs → length cs = length os.
Proof.
  revert cs. induction os as [|o os IH]; intros cs H; simpl in H; [by injection H as <-|].
  destruct (make_connection o); [|done]. destruct (open_all os); [|done]. injection H as <-.
  simpl. by rewrite (IH _ eq_refl).
Qed.

Lemma step_held a p p' :
  step a p = Some p' → shutting_down p' = false →
  shutting_down p = false ∧ size p' = size p ∧ (held p' + loses a = held p)%nat.
Proof.
  unfold held. destruct a as [| |c o r|c|]; simpl; unfold pop, refused, checked, release.
  - destruct (shutting_down p) eqn:Hs; [done|]. destruct (idle p) as [|c rest] eqn:E; [done|].
    intros [= <-] _. simpl. rewrite length_app. simpl. split_and!; [done..|lia].
  - destruct (shutting_down p) eqn:Hs; [|done]. intros [= <-]. congruence.
  - case_bool_decide as Hc; [|done]. pose proof (length_remove_one c _ Hc) as Hl.
    apply elem_length in Hc. destruct o.
    + intros [= <-] Hs. simpl in *. rewrite length_app, Hl. simpl. split_and!; [done..|lia].
    + destruct (make_connection r); intros [= <-] Hs; simpl in *; rewrite ?length_app, Hl; simpl;
        split_and!; done || lia.
  - case_bool_decide as Hc; [|done]. pose proof (length_remove_one c _ Hc) as Hl.
    apply elem_length in Hc. destruct (shutting_down p) eqn:Hs; [by intros [= <-]|].
    intros [= <-] _. simpl. rewrite length_app, Hl. simpl. split_and!; [done..|lia].
  - by intros [= <-].
Qed.

Lemma run_held acts : ∀ p p',
  run acts p = Some p' → shutting_down p' = false →
  shutting_down p = false ∧ size p' = size p ∧ (held p' + lost acts = held p)%nat.
Proof.
  unfold lost. induction acts as [|a acts IH]; intros p p' H Hs; simpl in H.
  - injection H as <-. simpl. split_and!; [done..|lia].
  - destruct (step a p) as [p1|] eqn:E; [|done]. simpl in H.
    destruct (IH p1 p' H Hs) as (H1 & H2 & H3). destruct (step_held a p p1 E H1) as (H4 & H5 & H6).
    simpl. split_and!; [done|congruence|lia].
Qed.

(** *** Running dry *)

(** Every idle connection has died and the server refuses new ones: each is
    popped by an [acquire] that throws. *)
Definition outage (conns : list Z) : list Action :=
  concat ((λ c, [Pop; Checked c false (Threw (Std "server closed the connection"))]) <$> conns).

Lemma remove_one_last c : remove_one c [c] = [].
Proof. unfold remove_one. simpl. by rewrite decide_True. Qed.

Lemma outage_run conns : ∀ n,
  run (outage conns) (mk n conns false [] []) = Some (mk n [] false [] []).
Proof.
  induction conns as [|c conns IH]; intros n; [done|]. simpl.
  unfold checked. simpl. rewrite bool_decide_true by (by apply list_elem_of_singleton).
  simpl. rewrite remove_one_last. apply IH.
Qed.

(** A pool that holds nothing gains nothing. *)
Definition dry (p : t) : Prop := idle p = [] ∧ inhand p = [] ∧ leases p = [].

Lemma dry_step a p p' : dry p → step a p = Some p' → dry p'.
Proof.
  intros (H1 & H2 & H3). destruct a as [| |c o r|c|]; simpl; unfold pop, refused, checked, release.
  - rewrite H1. by destruct (shutting_down p).
  - destruct (shutting_down p); [|done]. by intros [= <-].
  - rewrite H2. rewrite bool_decide_false by (by inversion 1). done.
  - rewrite H3. rewrite bool_decide_false by (by inversion 1). done.
  - by intros [= <-].
Qed.

Lemma dry_run acts : ∀ p p', dry p → run acts p = Some p' → dry p'.
Proof.
  induction acts as [|a acts IH]; intros p p' Hp H; simpl in H; [by injection H as <-|].
  destruct (step a p) as [p1|] eqn:E; [|done]. eauto using dry_step.
Qed.

(** *** The properties *)

(** C21. The pool keeps its bound.  As long as it is not shutting down, the
    connections idle, in the hands of an [acquire] and leased number exactly
    the size of the pool less the slots lost to replacements that failed, so
    never more than [size] connections are in use; and while no slot has been
    lost, an [acquire] waits only when all [size] connections are in use, and
    the return of any lease lets it go on. *)
Theorem pool_bounds (n : nat) (openings : nat → Opening) (acts : list Action) (p0 p : t) :
  make n openings = Ok p0 → run acts p0 = Some p → shutting_down p = false →
  size p = Nat.max n 1 ∧ (held p + lost acts = size p)%nat ∧
  (lost acts = 0%nat → pop p = None → (length (inhand p) + length (leases p) = size p)%nat) ∧
  (∀ c, c ∈ leases p → ∃ p1 p2, release c p = Some p1 ∧ pop p1 = Some p2).
Proof.
  unfold make. set (m := if (n =? 0)%nat then 1%nat else n).
  destruct (open_all (openings <$> seq 0 m)) as [cs|] eqn:E; [|done]. intros [= <-] Hr Hs.
  apply open_all_length in E. rewrite length_fmap, length_seq in E.
  destruct (run_held acts _ _ Hr Hs) as (_ & Hz & Hh). unfold held in *. simpl in *.
  split_and!; [|lia| |].
  - rewrite Hz. subst m. destruct n; simpl; lia.
  - intros Hl. unfold pop. rewrite Hs. destruct (idle p); [|done]. intros _. simpl in *. lia.
  - intros c Hc. unfold release. rewrite bool_decide_true, Hs by done.
    destruct (idle p); eexists _, _; split; reflexivity.
Qed.

(** A slot that is lost is never regained.  For every pool there is an
    outage after which it holds no connection at all although nothing is
    leased: each [acquire] popped a dead connection, failed to replace it and
    threw, without giving the slot back.  From then on, also when the server
    is back, no [acquire] succeeds; each waits for ever. *)
Theorem pool_runs_dry (n : nat) (openings : nat → Opening) (p0 : t) :
  make n openings = Ok p0 →
  ∃ p, run (outage (idle p0)) p0 = Some p ∧ shutting_down p = false ∧ leases p = [] ∧
    ∀ acts p', run acts p = Some p' → pop p' = None ∧ leases p' = [].
Proof.
  unfold make. destruct (open_all _) as [cs|]; [|done]. intros [= <-].
  eexists. split; [apply outage_run|]. split_and!; [done..|]. intros acts p' H.
  apply dry_run in H as (H1 & H2 & H3); [|done]. unfold pop. rewrite H1.
  by destruct (shutting_down p').
Qed.
End ConnectionPool.

Module PoolSample.
Definition openings (i : nat) : ConnectionPool.Opening := ConnectionPool.Opened (Z.of_nat i) true.
Definition p0 : ConnectionPool.t := ConnectionPool.mk 2 [0; 1] false [] [].
End PoolSample.

(** One connection leased, one dead and replaced. *)
Lemma pool_bounds_witness :
  ∃ p, ConnectionPool.run
    [ConnectionPool.Pop; ConnectionPool.Checked 0 true (ConnectionPool.Opened 9 true);
     ConnectionPool.Pop; ConnectionPool.Checked 1 false (ConnectionPool.Opened 9 true)]
    PoolSample.p0 = Some p ∧ ConnectionPool.leases p = [0; 9] ∧ ConnectionPool.pop p = None ∧
    (length (ConnectionPool.inhand p) + length (ConnectionPool.leases p) = ConnectionPool.size p)%nat.
Proof.
  exists (ConnectionPool.mk 2 [] false [] [0; 9]). split; [reflexivity|]. split; [reflexivity|].
  split; [reflexivity|].
  refine (proj1 (proj2 (proj2 (ConnectionPool.pool_bounds 2 PoolSample.openings
    [ConnectionPool.Pop; ConnectionPool.Checked 0 true (ConnectionPool.Opened 9 true);
     ConnectionPool.Pop; ConnectionPool.Checked 1 false (ConnectionPool.Opened 9 true)]
    PoolSample.p0 _ _ _ _))) _ _); reflexivity.
Defined.

Lemma pool_runs_dry_witness :
  ∃ p, ConnectionPool.run (ConnectionPool.outage [0; 1]) PoolSample.p0 = Some p ∧
    ConnectionPool.leases p = [] ∧ ConnectionPool.pop p = None.
Proof.
  destruct (ConnectionPool.pool_runs_dry 2 PoolSample.openings PoolSample.p0 eq_refl)
    as (p & Hr & _ & Hl & Hd).
  exists p. split; [exact Hr|]. split; [exact Hl|]. exact (proj1 (Hd [] p eq_refl)).
Defined.

(** ** Migrations *)

(** [std::filesystem::path] on a file name: the extension starts at the last
    dot, unless that is the first character. *)
Fixpoint split_last_dot (s : string) : option (string * string) :=
  match s with
  | "" => None
  | String c r =>
      match split_last_dot r with
      | Some (a, b) => Some (String c a, b)
      | None => if Ascii.eqb c "."%char then Some ("", s) else None
      end
  end.
Definition split_name (s : string) : string * string :=
  if String.eqb s ".." then (s, "")
  else match split_last_dot s with
       | Some (String c a, e) => (String c a, e)
       | _ => (s, "")
       end.
Definition stem (s : string) : string := (split_name s).1.
Definition extension (s : string) : string := (split_name s).2.

Lemma split_last_dot_app s a b : split_last_dot s = Some (a, b) → a +:+ b = s.
Proof.
  revert a b. induction s as [|c r IH]; intros a b H; simpl in H; [done|].
  destruct (split_last_dot r) as [[a' b']|].
  - injection H as <- <-. by apply (f_equal (String c)), IH.
  - destruct (Ascii.eqb c "."%char); [|done]. by injection H as <- <-.
Qed.

Lemma stem_extension s : stem s +:+ extension s = s.
Proof.
  unfold stem, extension, split_name. destruct (String.eqb s ".."); [apply append_nil_r|].
  destruct (split_last_dot s) as [[[|c a] e]|] eqn:E; simpl; try apply append_nil_r.
  by apply split_last_dot_app in E.
Qed.

Module MigrationRunner.
Section Runner.
(** The schema, and what executing the text of a migration does to it. *)
Context {S : Type} (exec : string → S → result exn S).

(** The versions recorded in [schema_migrations], when the table exists. *)
Record Db := mkDb { schema : S; applied : option (list string) }.

(** What may happen to a transaction: nothing, it fails (no connection, a
    failed commit), or its commit succeeds and its caller is not told. *)
Inductive Fault := Fine | Fails (what : string) | InDoubt (what : string).

Record World := mkW { db : Db; faults : list Fault }.

Definition next_fault (w : World) : Fault * World :=
  match faults w with
  | [] => (Fine, w)
  | f :: rest => (f, mkW (db w) rest)
  end.

(** A transaction on a leased connection. *)
Definition transaction {A} (body : Db → result exn (A * Db)) : M World exn A := λ w,
  let '(f, w) := next_fault w in
  match f, body (db w) with
  | Fails what, _ => (Err (Std what), w)
  | _, Err e => (Err e, w)
  | Fine, Ok (a, d) => (Ok a, mkW d (faults w))
  | InDoubt what, Ok (a, d) => (Err (Std what), mkW d (faults w))
  end.

(** An entry of the migrations directory. *)
Record Entry := mkEntry { filename : string; is_regular_file : bool; contents : option string }.

(* src/database/migration_runner.cpp:19-28, read_file *)
Definition read_file (e : Entry) : result exn string :=
  match contents e with
  | Some text => Ok text
  | None => Err (DatabaseException "Cannot open migration file" (filename e))
  end.

(* src/database/migration_runner.cpp:35-44, MigrationRunner::ensure_bookkeeping_table *)
Definition ensure_bookkeeping_table : M World exn unit :=
  transaction (λ d, Ok (tt, mkDb (schema d) (Some (default [] (applied d))))).

(** A query on a table that does not exist fails. *)
Definition table (d : Db) : result exn (list string) :=
  match applied d with
  | Some l => Ok l
  | None => Err (Std "relation schema_migrations does not exist")
  end.

(* src/database/migration_runner.cpp:46-53, MigrationRunner::is_applied *)
Definition is_applied (version : string) : M World exn bool :=
  transaction (λ d, match table d with
                    | Ok l => Ok (bool_decide (version ∈ l), d)
                    | Err e => Err e
                    end).

(** The body and its record in one transaction; a version is recorded once. *)
(* src/database/migration_runner.cpp:55-62, MigrationRunner::apply *)
Definition apply (version sql : string) : M World exn unit :=
  transaction (λ d,
    match exec sql (schema d) with
    | Err e => Err e
    | Ok s' =>
        match table d with
        | Err e => Err e
        | Ok l => if bool_decide (version ∈ l) then Err (Std "duplicate key value: schema_migrations_pkey")
                  else Ok (tt, mkDb s' (Some (l ++ [version])%list))
        end
    end).

(** [std::sort] by file name. *)
Fixpoint insert_entry (e : Entry) (l : list Entry) : list Entry :=
  match l with
  | [] => [e]
  | x :: rest => if String.leb (filename e) (filename x) then e :: l else x :: insert_entry e rest
  end.
Definition sort_entries : list Entry → list Entry := foldr insert_entry [].

(* src/database/migration_runner.cpp:72-81, MigrationRunner::run *)
Definition migration_files (entries : list Entry) : list Entry :=
  sort_entries (filter (λ e, is_regular_file e = true ∧ extension (filename e) = ".sql") entries).

(** The exceptions of the application pass; others are wrapped. *)
(* src/database/migration_runner.cpp:91-97, MigrationRunner::run *)
Definition wrap {A} (version : string) (m : M World exn A) : M World exn A := λ w,
  match m w with
  | (Err (Std what), w') => (Err (DatabaseException ("Migration failed: " +:+ version) what), w')
  | r => r
  end.

(* src/database/migration_runner.cpp:83-99, MigrationRunner::run *)
Fixpoint apply_all (count : Z) (files : list Entry) : M World exn Z :=
  match files with
  | [] => mret count
  | file :: rest =>
      let version := stem (filename file) in
      present ← is_applied version;
      if (present : bool) then apply_all count rest
      else
        wrap version (sql ← (λ w, (read_file file, w)); apply version sql);;
        apply_all (count + 1) rest
  end.

(** [None] for a directory that does not exist or is not one. *)
(* src/database/migration_runner.cpp:64-103, MigrationRunner::run *)
Definition run (migrations_dir : string) (entries : option (list Entry)) : M World exn Z :=
  match entries with
  | None => mthrow (DatabaseException "Migrations directory not found" migrations_dir)
  | Some es => ensure_bookkeeping_table;; apply_all 0 (migration_files es)
  end.
End Runner.
Arguments Db S : clear implicits.
Arguments World S : clear implicits.
End MigrationRunner.

Module MigrationFacts.
Import MigrationRunner.
Section Facts.
Context {S : Type} (exec : string → S → result exn S).

Definition version_of (e : Entry) : string := stem (filename e).

(** The texts of the files executed one after the other. *)
Fixpoint exec_all (files : list Entry) (s : S) : result exn S :=
  match files with
  | [] => Ok s
  | f :: rest => match read_file f with
                 | Ok sql => match exec sql s with Ok s' => exec_all rest s' | Err e => Err e end
                 | Err e => Err e
                 end
  end.

Lemma exec_all_snoc files f sql s s' s'' :
  exec_all files s = Ok s' → read_file f = Ok sql → exec sql s' = Ok s'' →
  exec_all (files ++ [f])%list s = Ok s''.
Proof.
  revert s. induction files as [|g files IH]; intros s H Hr He; simpl in *.
  - injection H as ->. by rewrite Hr, He.
  - destruct (read_file g); [|done]. destruct (exec _ s); [|done]. auto.
Qed.

Lemma insert_entry_perm e l : insert_entry e l ≡ₚ e :: l.
Proof.
  induction l as [|x l IH]; [done|]. simpl. destruct (String.leb _ _); [done|].
  rewrite IH. apply Permutation_swap.
Qed.
Lemma sort_entries_perm l : sort_entries l ≡ₚ l.
Proof. induction l as [|e l IH]; [done|]. simpl. by rewrite insert_entry_perm, IH. Qed.

(** File names of one directory are distinct, so versions are. *)
Lemma versions_nodup es : NoDup (filename <$> es) → NoDup (version_of <$> migration_files es).
Proof.
  intros H. unfold migration_files. rewrite sort_entries_perm.
  induction es as [|e es IH]; [done|]. rewrite fmap_cons in H. apply NoDup_cons in H as [Hn H].
  rewrite filter_cons. case_decide as He; [|auto]. rewrite fmap_cons. apply NoDup_cons. split; [|auto].
  intros Hin. apply list_elem_of_fmap in Hin as (e' & Hv & Hin). apply list_elem_of_filter in Hin as [He' Hin].
  apply Hn. apply list_elem_of_fmap. exists e'. split; [|done].
  unfold version_of in Hv. rewrite <- (stem_extension (filename e)), <- (stem_extension (filename e')).
  destruct He as [_ ->], He' as [_ ->]. by rewrite Hv.
Qed.

(** The first [k] of the files have been applied, and no others. *)
Section Progress.
Context (files : list Entry) (s0 : S).
Hypothesis distinct : NoDup (version_of <$> files).

Record at_step (k : nat) (w : World S) : Prop := {
  as_bound : (k <= length files)%nat;
  as_schema : exec_all (take k files) s0 = Ok (schema (db w));
  as_applied : applied (db w) = Some (take k (version_of <$> files)) }.

Lemma at_step_next k w f : at_step k w → at_step k (mkW (db w) f).
Proof. by intros []. Qed.

Lemma at_step_table k w : at_step k w → table (db w) = Ok (take k (version_of <$> files)).
Proof. intros [_ _ Ha]. unfold table. by rewrite Ha. Qed.

Lemma present_iff k i f :
  files !! i = Some f → (version_of f ∈ take k (version_of <$> files)) ↔ (i < k)%nat.
Proof.
  intros Hi. assert (Hv : (version_of <$> files) !! i = Some (version_of f)).
  { by rewrite list_lookup_fmap, Hi. }
  rewrite list_elem_of_lookup. split.
  - intros (j & Hj). apply lookup_take_Some in Hj as [Hj Hjk].
    assert (j = i) as -> by by eapply NoDup_lookup. done.
  - intros Hk. exists i. rewrite lookup_take_lt by done. done.
Qed.

(** A transaction either leaves the database alone or commits its body. *)
Lemma transaction_cases {A} (body : Db S → result exn (A * Db S)) w :
  (∃ a d f, body (db w) = Ok (a, d) ∧ transaction body w = (Ok a, mkW d f)) ∨
  (∃ e d f, transaction body w = (Err e, mkW d f) ∧
            (d = db w ∨ ∃ a, body (db w) = Ok (a, d))).
Proof.
  unfold transaction. destruct w as [d fs]. unfold next_fault. simpl.
  destruct fs as [|[|what|what] fs]; simpl; destruct (body d) as [[a d']|e] eqn:E; eauto 10.
Qed.

Lemma apply_step k w f :
  at_step k w → files !! k = Some f →
  match wrap (version_of f) (sql ← (λ w, (read_file f, w)); apply exec (version_of f) sql) w with
  | (Ok _, w') => at_step (Datatypes.S k) w'
  | (Err _, w') => at_step k w' ∨ at_step (Datatypes.S k) w'
  end.
Proof.
  intros Hw Hf. pose proof Hw as [Hb Hs Ha]. unfold wrap, mbind, M_bind.
  destruct (read_file f) as [sql|e] eqn:Hr; [|destruct e; by left].
  assert (Hbody : ∀ u d, match exec sql (schema (db w)) with
      | Err e => Err e
      | Ok s' => match table (db w) with
                 | Err e => Err e
                 | Ok l => if bool_decide (version_of f ∈ l)
                           then Err (Std "duplicate key value: schema_migrations_pkey")
                           else Ok (tt, mkDb s' (Some (l ++ [version_of f])%list))
                 end
      end = Ok (u, d) → ∀ fs, at_step (Datatypes.S k) (mkW d fs)).
  { intros u d H fs. destruct (exec sql (schema (db w))) as [s'|] eqn:He; [|done].
    rewrite (at_step_table _ _ Hw) in H. case_bool_decide; [done|]. injection H as <- <-.
    split; simpl.
    - by apply lookup_lt_Some in Hf.
    - rewrite (take_S_r _ _ f Hf). by eapply exec_all_snoc.
    - by rewrite (take_S_r _ _ (version_of f)) by (by rewrite list_lookup_fmap, Hf). }
  unfold apply.
  match goal with |- context [transaction ?b w] => destruct (transaction_cases b w) as [H|H] end.
  - destruct H as (a & d & fs & H & ->). eauto.
  - destruct H as (e & d & fs & -> & H). destruct e; (destruct H as [->|(a & H)]; [left; by destruct Hw|right; eauto]).
Qed.

Lemma apply_all_progress rest : ∀ i k c w,
  drop i files = rest → (i <= k)%nat → at_step k w →
  match apply_all exec c rest w with
  | (Ok n, w') => at_step (length files) w' ∧ n = c + Z.of_nat (length files - k)
  | (Err e, w') => ∃ k', at_step k' w'
  end.
Proof.
  induction rest as [|f rest IH]; intros i k c w Hr Hi Hw; simpl.
  - assert (k = length files) as ->.
    { apply (f_equal length) in Hr. rewrite length_drop in Hr. simpl in Hr. destruct Hw. lia. }
    split; [done|lia].
  - assert (Hf : files !! i = Some f).
    { pose proof (lookup_drop files i 0) as Hd. by rewrite Hr, Nat.add_0_r in Hd. }
    rewrite (drop_S _ _ _ Hf) in Hr. injection Hr as Hr.
    unfold mbind at 1, M_bind at 1. unfold is_applied.
    match goal with |- context [transaction ?b w] => destruct (transaction_cases b w) as [H|H] end;
      pose proof (at_step_table _ _ Hw) as Ht.
    + destruct H as (a & d & fs & H & ->). rewrite Ht in H. injection H as <- <-. apply (at_step_next _ _ fs) in Hw.
      case_bool_decide as Hp; apply (present_iff k i f Hf) in Hp || rewrite (present_iff k i f Hf) in Hp.
      * by apply (IH (Datatypes.S i) k c _ Hr).
      * assert (i = k) as -> by lia. pose proof (apply_step k _ f Hw Hf) as Hstep.
        unfold mbind at 1, M_bind at 1. fold (version_of f).
        destruct (wrap _ _ _) as [[u|e] w1]; [|destruct Hstep; eauto].
        specialize (IH (Datatypes.S k) (Datatypes.S k) (c + 1) w1 Hr (le_n _) Hstep).
        destruct (apply_all exec (c + 1) rest w1) as [[n|e] w2]; [|done].
        destruct IH as [IH ->]. split; [done|]. apply lookup_lt_Some in Hf. lia.
    + destruct H as (e & d & fs & -> & H). rewrite Ht in H. exists k.
      assert (d = db w) as -> by (destruct H as [->|(a & H)]; [done|by injection H as _ <-]).
      by apply at_step_next.
Qed.

Definition progress (w : World S) : Prop :=
  (applied (db w) = None ∧ schema (db w) = s0) ∨ ∃ k, at_step k w.

Definition done_before (w : World S) : nat := length (default [] (applied (db w))).

Lemma ensure_progress w :
  progress w →
  match ensure_bookkeeping_table w with
  | (Ok _, w') => at_step (done_before w) w'
  | (Err _, w') => progress w'
  end.
Proof.
  intros Hp. unfold ensure_bookkeeping_table.
  assert (Hbody : ∀ fs, at_step (done_before w)
    (mkW (mkDb (schema (db w)) (Some (default [] (applied (db w))))) fs)).
  { intros fs. unfold done_before. destruct Hp as [[Hn Hs]|[k [Hb Hs Ha]]].
    - rewrite Hn, Hs. split; simpl; [lia|done..].
    - rewrite Ha. simpl. rewrite length_take, length_fmap, Nat.min_l by done. by split. }
  match goal with |- context [transaction ?b w] => destruct (transaction_cases b w) as [H|H] end.
  - destruct H as (a & d & fs & H & ->). injection H as <- <-. apply Hbody.
  - destruct H as (e & d & fs & -> & [->|(a & H)]).
    + destruct Hp as [Hp|[k Hk]]; [by left|]. right. exists k. by apply at_step_next.
    + injection H as <- <-. right. eauto.
Qed.
End Progress.

Lemma run_progress dir es s0 w :
  NoDup (filename <$> es) → progress (migration_files es) s0 w →
  match run exec dir (Some es) w with
  | (Ok c, w') => at_step (migration_files es) s0 (length (migration_files es)) w' ∧
                  c = Z.of_nat (length (migration_files es) - done_before w)
  | (Err _, w') => progress (migration_files es) s0 w'
  end.
Proof.
  intros Hn Hp. apply versions_nodup in Hn. simpl. unfold mbind, M_bind.
  pose proof (ensure_progress _ _ w Hp) as He.
  destruct (ensure_bookkeeping_table w) as [[u|e] w1]; [|done].
  pose proof (apply_all_progress _ s0 Hn _ 0 (done_before w) 0 w1 (drop_0 _) (le_0_n _) He) as Ha.
  destruct (apply_all exec 0 (migration_files es) w1) as [[c|e] w2]; [done|]. by right.
Qed.

(** Starts of the program, one after the other, each after the last one ended
    or died. *)
Fixpoint boots (n : nat) (dir : string) (es : list Entry) (w : World S) : World S :=
  match n with O => w | Datatypes.S n => boots n dir es (run exec dir (Some es) w).2 end.

Lemma boots_progress n dir es s0 : ∀ w,
  NoDup (filename <$> es) → progress (migration_files es) s0 w →
  progress (migration_files es) s0 (boots n dir es w).
Proof.
  induction n as [|n IH]; intros w Hn Hp; [done|]. cbn [boots]. apply IH; [done|].
  pose proof (run_progress dir es s0 w Hn Hp) as H.
  destruct (run exec dir (Some es) w) as [[c|e] w']; [|done]. right. naive_solver.
Qed.
End Facts.
End MigrationFacts.

Module Migrations.
Import MigrationRunner MigrationFacts.

(** C22. Migrations are applied exactly once and in the order of their file
    names, however often the program is started and whatever happens to its
    transactions, commits whose outcome was not reported included: after any
    number of starts the schema is the one that the first [k] files give, and
    exactly those are recorded.  A start that succeeds leaves all of them
    applied and reports how many it applied itself; the next one that succeeds
    applies none and changes nothing. *)
Theorem migrations_exactly_once {S : Type} (exec : string → S → result exn S) (n : nat)
    (dir : string) (es : list Entry) (s0 : S) (fs : list Fault) :
  NoDup (filename <$> es) →
  let files := migration_files es in
  let w := boots exec n dir es (mkW (mkDb s0 None) fs) in
  (∃ k, exec_all exec (take k files) s0 = Ok (schema (db w)) ∧
        default [] (applied (db w)) = version_of <$> take k files) ∧
  (∀ c w1, run exec dir (Some es) w = (Ok c, w1) →
     exec_all exec files s0 = Ok (schema (db w1)) ∧ applied (db w1) = Some (version_of <$> files) ∧
     c = Z.of_nat (length files - done_before w) ∧
     ∀ c' w2, run exec dir (Some es) w1 = (Ok c', w2) → c' = 0 ∧ db w2 = db w1).
Proof.
  intros Hn files w.
  assert (Hp : progress exec files s0 w) by (apply boots_progress; [done|by left]).
  assert (Hall : ∀ w1, at_step exec files s0 (length files) w1 →
    exec_all exec files s0 = Ok (schema (db w1)) ∧ applied (db w1) = Some (version_of <$> files)).
  { intros w1 [_ Hs Ha]. rewrite take_ge in Hs by done. rewrite take_ge in Ha by by rewrite length_fmap.
    done. }
  split.
  - destruct Hp as [[Ha Hs]|[k [_ Hs Ha]]]; [exists 0%nat|exists k]; rewrite Ha;
      rewrite ?fmap_take; simpl; by rewrite <- ?Hs.
  - intros c w1 H1. pose proof (run_progress exec dir es s0 w Hn Hp) as Hr. rewrite H1 in Hr.
    destruct Hr as [Hw1 ->]. destruct (Hall w1 Hw1) as [Hs1 Ha1]. split_and!; [done..|].
    intros c' w2 H2. assert (Hp1 : progress exec files s0 w1) by (right; eauto).
    pose proof (run_progress exec dir es s0 w1 Hn Hp1) as Hr. rewrite H2 in Hr.
    destruct Hr as [Hw2 ->]. destruct (Hall w2 Hw2) as [Hs2 Ha2]. unfold done_before. rewrite Ha1. simpl.
    rewrite length_fmap. fold files. split; [lia|].
    destruct (db w1), (db w2). simpl in *. congruence.
Qed.
End Migrations.

Module MigrationSample.
(** The schema is the list of statements executed; two files and a readme, and
    a commit whose outcome is lost. *)
Definition exec (sql : string) (s : list string) : result exn (list string) := Ok (s ++ [sql])%list.
Definition entries : list MigrationRunner.Entry :=
  [MigrationRunner.mkEntry "0002_add.sql" true (Some "ALTER");
   MigrationRunner.mkEntry "README.md" true None;
   MigrationRunner.mkEntry "0001_create.sql" true (Some "CREATE")].
Definition faults : list MigrationRunner.Fault :=
  [MigrationRunner.Fine; MigrationRunner.Fine; MigrationRunner.InDoubt "connection lost"].
End MigrationSample.

Lemma migrations_exactly_once_witness :
  ∃ w1, MigrationRunner.run MigrationSample.exec "migrations" (Some MigrationSample.entries)
          (MigrationFacts.boots MigrationSample.exec 1 "migrations" MigrationSample.entries
             (MigrationRunner.mkW (MigrationRunner.mkDb [] None) MigrationSample.faults)) = (Ok 1, w1) ∧
    MigrationRunner.applied (MigrationRunner.db w1) = Some ["0001_create"; "0002_add"] ∧
    MigrationRunner.schema (MigrationRunner.db w1) = ["CREATE"; "ALTER"].
Proof.
  assert (Hn : NoDup (MigrationRunner.filename <$> MigrationSample.entries))
    by (apply (bool_decide_unpack _); vm_compute; exact I).
  exists (MigrationRunner.mkW (MigrationRunner.mkDb ["CREATE"; "ALTER"]
            (Some ["0001_create"; "0002_add"])) []).
  split; [vm_compute; reflexivity|].
  destruct (proj2 (Migrations.migrations_exactly_once MigrationSample.exec 1 "migrations"
    MigrationSample.entries [] MigrationSample.faults Hn) 1
    (MigrationRunner.mkW (MigrationRunner.mkDb ["CREATE"; "ALTER"]
       (Some ["0001_create"; "0002_add"])) []) ltac:(vm_compute; reflexivity)) as (Hs & Ha & _).
  split; [exact Ha|reflexivity].
Defined.
