(* ===== verification/SqlSchema.v ===== *)
(** * SqlSchema: the migrations and the schema they build

    Models the files of migrations/ statement by statement, and what PostgreSQL
    does with their statements: the tables, columns, indexes, constraints,
    triggers, functions and extensions they add to the catalog, and the errors
    they raise.  Types, defaults and expressions are kept as written.  Whether
    the server can install an extension is a parameter.  The runner of Pool
    executes the files; [schema_migrates] says what a start of the program
    achieves with them; that the result is what the repositories rely on is
    [schema_supports] in RowMapping. *)

From S2P Require Import Prelude Text Errors Pool.
Open Scope string_scope.
Open Scope Z_scope.

(** ** Statements *)

Inductive SqlType :=
  | BIGSERIAL | BIGINT | INTEGER | TEXT | JSONB | TIMESTAMPTZ | TSVECTOR | VARCHAR (n : Z).

Inductive OnDelete := CASCADE | SET_NULL.

(** The conditions of [CHECK]: one of some texts, or not negative. *)
Inductive Check := OneOf (values : list string) | NotNegative.

Global Instance SqlType_eq_dec : EqDecision SqlType.
Proof. solve_decision. Defined.
Global Instance OnDelete_eq_dec : EqDecision OnDelete.
Proof. solve_decision. Defined.
Global Instance Check_eq_dec : EqDecision Check.
Proof. solve_decision. Defined.

Record Column := mkColumn {
  c_name : string; c_type : SqlType; nullable : bool; primary : bool; unique : bool;
  default_ : option string; references : option (string * string * OnDelete); check : option Check;
  generated : option string }.

(** Columns as they are declared: a nullable one and its modifiers. *)
Definition column (name : string) (type : SqlType) : Column :=
  mkColumn name type true false false None None None None.
Definition not_null (c : Column) : Column :=
  mkColumn (c_name c) (c_type c) false (primary c) (unique c) (default_ c) (references c) (check c) (generated c).
Definition primary_key (c : Column) : Column :=
  mkColumn (c_name c) (c_type c) false true true (default_ c) (references c) (check c) (generated c).
Definition with_default (text : string) (c : Column) : Column :=
  mkColumn (c_name c) (c_type c) (nullable c) (primary c) (unique c) (Some text) (references c) (check c) (generated c).
Definition on_table (table : string) (action : OnDelete) (c : Column) : Column :=
  mkColumn (c_name c) (c_type c) (nullable c) (primary c) (unique c) (default_ c) (Some (table, "id", action)) (check c)
    (generated c).
Definition checked (k : Check) (c : Column) : Column :=
  mkColumn (c_name c) (c_type c) (nullable c) (primary c) (unique c) (default_ c) (references c) (Some k) (generated c).
Definition is_unique (c : Column) : Column :=
  mkColumn (c_name c) (c_type c) (nullable c) (primary c) true (default_ c) (references c) (check c) (generated c).
Definition generated_as (text : string) (c : Column) : Column :=
  mkColumn (c_name c) (c_type c) (nullable c) (primary c) (unique c) (default_ c) (references c) (check c) (Some text).

(** The declarations that recur. *)
Definition id_column : Column := primary_key (column "id" BIGSERIAL).
Definition timestamp (name : string) : Column := with_default "now()" (not_null (column name TIMESTAMPTZ)).
Definition foreign (name table : string) : Column := on_table table CASCADE (not_null (column name BIGINT)).

(** What an index is over: a column or an expression of columns, and the
    operator class if one is named. *)
Record Key := mkKey { expression : string; mentions : list string; op_class : option string }.
Definition key (c : string) : Key := mkKey c [c] None.
Definition key_desc (c : string) : Key := mkKey (c +:+ " DESC") [c] None.
Definition expr (text : string) (columns : list string) : Key := mkKey text columns None.
Definition trgm (k : Key) : Key := mkKey (expression k) (mentions k) (Some "gin_trgm_ops").

Inductive Where := IsNull (c : string) | IsNotNull (c : string).
Inductive Method := BTREE | GIN.

Global Instance Key_eq_dec : EqDecision Key.
Proof. solve_decision. Defined.
Global Instance Where_eq_dec : EqDecision Where.
Proof. solve_decision. Defined.
Global Instance Method_eq_dec : EqDecision Method.
Proof. solve_decision. Defined.

Record Index := mkIndex {
  i_unique : bool; i_table : string; i_method : Method; keys : list Key; where_ : option Where }.

Inductive Constraint :=
  | CheckColumn (c : string) (k : Check)
  | ForeignKey (c table target : string) (action : OnDelete).

(** The conditions a handler can name, and any other. *)
Inductive SqlState :=
  | undefined_table | undefined_column | duplicate_column | undefined_function | undefined_object
  | duplicate_object | insufficient_privilege | other_state (code : string).
Global Instance SqlState_eq_dec : EqDecision SqlState.
Proof. solve_decision. Defined.

(** [CREATE TABLE], [CREATE INDEX], [ADD COLUMN] and [CREATE EXTENSION] are all
    written [IF NOT EXISTS], [DROP TRIGGER] with [IF EXISTS] and [CREATE
    FUNCTION] with [OR REPLACE]; [AddConstraint] is the block that first looks
    for the name in [pg_constraint]. *)
Inductive Statement :=
  | CreateTable (name : string) (columns : list Column)
  | CreateIndex (name : string) (index : Index)
  | CreateFunction (name : string)
  | DropTrigger (name table : string)
  | CreateTrigger (name table function : string)
  | AddColumns (table : string) (columns : list Column)
  | AddConstraint (table name : string) (c : Constraint)
  | CreateExtension (name : string).

(** A statement by itself, or a [DO] block whose handler turns one condition
    into a notice. *)
Inductive Command := Run (s : Statement) | Do (body : list Statement) (handled : SqlState).

(** ** The catalog *)

Record Catalog := mkCatalog {
  tables : gmap string (list Column); indexes : gmap string Index; functions : gset string;
  triggers : gset (string * string); constraints : gmap string (string * Constraint);
  extensions : gset string }.

Global Instance Index_eq_dec : EqDecision Index.
Proof. solve_decision. Defined.
Global Instance Constraint_eq_dec : EqDecision Constraint.
Proof. solve_decision. Defined.
Global Instance Column_eq_dec : EqDecision Column.
Proof. solve_decision. Defined.
Global Instance Catalog_eq_dec : EqDecision Catalog.
Proof. solve_decision. Defined.

Definition empty_catalog : Catalog := mkCatalog ∅ ∅ ∅ ∅ ∅ ∅.

Definition set_tables x c := mkCatalog x (indexes c) (functions c) (triggers c) (constraints c) (extensions c).
Definition set_indexes x c := mkCatalog (tables c) x (functions c) (triggers c) (constraints c) (extensions c).
Definition set_functions x c := mkCatalog (tables c) (indexes c) x (triggers c) (constraints c) (extensions c).
Definition set_triggers x c := mkCatalog (tables c) (indexes c) (functions c) x (constraints c) (extensions c).
Definition set_constraints x c := mkCatalog (tables c) (indexes c) (functions c) (triggers c) x (extensions c).
Definition set_extensions x c := mkCatalog (tables c) (indexes c) (functions c) (triggers c) (constraints c) x.

Definition relation_exists (name : string) (c : Catalog) : bool :=
  bool_decide (is_Some (tables c !! name)) || bool_decide (is_Some (indexes c !! name)).
Definition has_column (columns : list Column) (name : string) : bool :=
  existsb (λ x, String.eqb (c_name x) name) columns.

Definition require (b : bool) (e : SqlState) : result SqlState unit := if b then Ok () else Err e.
Definition table_of (name : string) (c : Catalog) : result SqlState (list Column) :=
  match tables c !! name with Some columns => Ok columns | None => Err undefined_table end.

(** A reference is to a column of a table that exists, or of the table that is
    being made. *)
Definition check_reference (self : string) (own : list Column) (r : string * string * OnDelete) (c : Catalog)
    : result SqlState unit :=
  let '(table, target, _) := r in
  columns ← (if String.eqb table self then Ok own else table_of table c);
  require (has_column columns target) undefined_column.

Fixpoint check_columns (self : string) (all : list Column) (l : list Column) (c : Catalog) : result SqlState unit :=
  match l with
  | [] => Ok ()
  | x :: rest =>
      require (negb (has_column rest (c_name x))) duplicate_column;;
      (match references x with Some r => check_reference self all r c | None => Ok () end);;
      check_columns self all rest c
  end.

(** The operator classes are the built-in ones and those of [pg_trgm]. *)
Definition op_class_ok (k : Key) (c : Catalog) : bool :=
  match op_class k with
  | Some "gin_trgm_ops" => bool_decide ("pg_trgm" ∈ extensions c)
  | Some _ => false
  | None => true
  end.

(** What the server answers to the installation of an extension: nothing, or an
    error. *)
Definition Server := string → option SqlState.

Section Execution.
Context (server : Server).

Definition exec_statement (s : Statement) (c : Catalog) : result SqlState Catalog :=
  match s with
  | CreateTable name columns =>
      if relation_exists name c then Ok c
      else check_columns name columns columns c;; Ok (set_tables (<[name := columns]> (tables c)) c)
  | CreateIndex name i =>
      if relation_exists name c then Ok c
      else
        columns ← table_of (i_table i) c;
        require (forallb (λ k, forallb (has_column columns) (mentions k)) (keys i)) undefined_column;;
        require (forallb (λ k, op_class_ok k c) (keys i)) undefined_object;;
        Ok (set_indexes (<[name := i]> (indexes c)) c)
  | CreateFunction name => Ok (set_functions ({[name]} ∪ functions c) c)
  | DropTrigger name table => Ok (set_triggers (triggers c ∖ {[(name, table)]}) c)
  | CreateTrigger name table function =>
      table_of table c;;
      require (bool_decide (function ∈ functions c)) undefined_function;;
      require (negb (bool_decide ((name, table) ∈ triggers c))) duplicate_object;;
      Ok (set_triggers ({[(name, table)]} ∪ triggers c) c)
  | AddColumns table added =>
      columns ← table_of table c;
      let fresh := filter (λ x, has_column columns (c_name x) = false) added in
      check_columns table (columns ++ fresh) fresh c;;
      Ok (set_tables (<[table := (columns ++ fresh)%list]> (tables c)) c)
  | AddConstraint table name k =>
      if bool_decide (is_Some (constraints c !! name)) then Ok c
      else
        columns ← table_of table c;
        (match k with
         | CheckColumn x _ => require (has_column columns x) undefined_column
         | ForeignKey x target y action =>
             require (has_column columns x) undefined_column;; check_reference table columns (target, y, action) c
         end);;
        Ok (set_constraints (<[name := (table, k)]> (constraints c)) c)
  | CreateExtension name =>
      if bool_decide (name ∈ extensions c) then Ok c
      else match server name with
           | Some e => Err e
           | None => Ok (set_extensions ({[name]} ∪ extensions c) c)
           end
  end.

Fixpoint exec_statements (l : list Statement) (c : Catalog) : result SqlState Catalog :=
  match l with [] => Ok c | s :: l => c ← exec_statement s c; exec_statements l c end.

(** A block that raises is undone as a whole. *)
Definition exec_command (x : Command) (c : Catalog) : result SqlState Catalog :=
  match x with
  | Run s => exec_statement s c
  | Do body handled =>
      match exec_statements body c with
      | Err e => if decide (e = handled) then Ok c else Err e
      | r => r
      end
  end.

Fixpoint exec_file (l : list Command) (c : Catalog) : result SqlState Catalog :=
  match l with [] => Ok c | x :: l => c ← exec_command x c; exec_file l c end.
End Execution.

(** ** The files *)

Definition index (name table : string) (l : list Key) : Command := Run (CreateIndex name (mkIndex false table BTREE l None)).
Definition unique_index (name table : string) (l : list Key) : Command :=
  Run (CreateIndex name (mkIndex true table BTREE l None)).
Definition gin_index (name table : string) (l : list Key) : Statement := CreateIndex name (mkIndex false table GIN l None).
Definition partial_index (name table : string) (l : list Key) (w : Where) : Command :=
  Run (CreateIndex name (mkIndex false table BTREE l (Some w))).

(** The two statements that give a table the trigger on [updated_at]. *)
Definition updated_at_trigger (name table : string) : list Command :=
  [Run (DropTrigger name table); Run (CreateTrigger name table "set_updated_at")].

(* migrations/0001_create_users.sql:8-35, 0001_create_users *)
Definition create_users : list Command :=
  ([Run (CreateTable "users"
      [id_column; not_null (column "username" (VARCHAR 32)); not_null (column "email" (VARCHAR 254));
       not_null (column "password_hash" TEXT); timestamp "created_at"; timestamp "updated_at"]);
    unique_index "ux_users_username_lower" "users" [expr "LOWER(username)" ["username"]];
    unique_index "ux_users_email_lower" "users" [expr "LOWER(email)" ["email"]];
    Run (CreateFunction "set_updated_at")]
   ++ updated_at_trigger "trg_users_set_updated_at" "users")%list.

(* migrations/0002_add_user_profile.sql:7-10, 0002_add_user_profile *)
Definition add_user_profile : list Command :=
  [Run (AddColumns "users"
     [column "display_name" (VARCHAR 64); column "bio" (VARCHAR 500); column "avatar_url" (VARCHAR 2048)])].

(* migrations/0003_create_conversations.sql:7-52, 0003_create_conversations *)
Definition create_conversations : list Command :=
  ([Run (CreateTable "conversations"
      [id_column; checked (OneOf ["direct"; "group"]) (not_null (column "type" (VARCHAR 16)));
       column "name" (VARCHAR 128); on_table "users" SET_NULL (column "owner_id" BIGINT);
       column "direct_key" (VARCHAR 64); timestamp "created_at"; timestamp "updated_at";
       column "last_message_at" TIMESTAMPTZ]);
    Run (CreateIndex "ux_conversations_direct_key"
      (mkIndex true "conversations" BTREE [key "direct_key"] (Some (IsNotNull "direct_key"))));
    index "ix_conversations_last_message_at" "conversations"
      [expr "last_message_at DESC NULLS LAST" ["last_message_at"]]]
   ++ updated_at_trigger "trg_conversations_set_updated_at" "conversations"
   ++ [Run (CreateTable "conversation_participants"
         [id_column; foreign "conversation_id" "conversations"; foreign "user_id" "users";
          checked (OneOf ["owner"; "member"]) (with_default "'member'" (not_null (column "role" (VARCHAR 16))));
          timestamp "joined_at"; column "last_read_message_id" BIGINT]);
       unique_index "ux_participants_conversation_user" "conversation_participants"
         [key "conversation_id"; key "user_id"];
       index "ix_participants_user" "conversation_participants" [key "user_id"]])%list.

(* migrations/0004_create_messages.sql:7-35, 0004_create_messages *)
Definition create_messages : list Command :=
  ([Run (CreateTable "messages"
      [id_column; foreign "conversation_id" "conversations"; foreign "sender_id" "users";
       checked (OneOf ["text"; "system"]) (with_default "'text'" (not_null (column "type" (VARCHAR 16))));
       not_null (column "content" TEXT); timestamp "created_at"; timestamp "updated_at";
       column "edited_at" TIMESTAMPTZ; column "deleted_at" TIMESTAMPTZ]);
    index "ix_messages_conversation_id" "messages" [key "conversation_id"; key_desc "id"];
    index "ix_messages_sender" "messages" [key "sender_id"];
    Run (gin_index "ix_messages_content_fts" "messages" [expr "to_tsvector('simple', content)" ["content"]])]
   ++ updated_at_trigger "trg_messages_set_updated_at" "messages")%list.

(* migrations/0005_create_read_receipts.sql:7-26, 0005_create_read_receipts *)
Definition create_read_receipts : list Command :=
  ([Run (CreateTable "read_receipts"
      [id_column; foreign "message_id" "messages"; foreign "user_id" "users";
       checked (OneOf ["sent"; "delivered"; "read"]) (with_default "'sent'" (not_null (column "state" (VARCHAR 16))));
       timestamp "updated_at"]);
    unique_index "ux_read_receipts_message_user" "read_receipts" [key "message_id"; key "user_id"];
    index "ix_read_receipts_message" "read_receipts" [key "message_id"];
    index "ix_read_receipts_user" "read_receipts" [key "user_id"]]
   ++ updated_at_trigger "trg_read_receipts_set_updated_at" "read_receipts")%list.

(* migrations/0006_create_attachments.sql:8-28, 0006_create_attachments *)
Definition create_attachments : list Command :=
  [Run (CreateTable "attachments"
     [id_column; foreign "owner_id" "users"; on_table "messages" CASCADE (column "message_id" BIGINT);
      with_default "'local'" (not_null (column "storage_backend" (VARCHAR 32)));
      not_null (column "storage_key" TEXT); column "thumbnail_key" TEXT;
      not_null (column "original_filename" (VARCHAR 255)); not_null (column "content_type" (VARCHAR 128));
      checked (OneOf ["image"; "pdf"; "document"; "video"; "audio"; "other"]) (not_null (column "kind" (VARCHAR 16)));
      checked NotNegative (not_null (column "byte_size" BIGINT)); column "width" INTEGER; column "height" INTEGER;
      column "checksum" (VARCHAR 64); timestamp "created_at"]);
   index "ix_attachments_message" "attachments" [key "message_id"];
   index "ix_attachments_owner" "attachments" [key "owner_id"]].

(* migrations/0007_create_message_reactions.sql:6-22, 0007_create_message_reactions *)
Definition create_message_reactions : list Command :=
  ([Run (CreateTable "message_reactions"
      [id_column; foreign "message_id" "messages"; foreign "user_id" "users";
       not_null (column "emoji" (VARCHAR 16)); timestamp "created_at"; timestamp "updated_at"]);
    unique_index "ux_reactions_message_user" "message_reactions" [key "message_id"; key "user_id"];
    index "ix_reactions_message" "message_reactions" [key "message_id"]]
   ++ updated_at_trigger "trg_reactions_set_updated_at" "message_reactions")%list.

(* migrations/0008_create_notifications.sql:7-18, 0008_create_notifications *)
Definition create_notifications : list Command :=
  [Run (CreateTable "notifications"
     [id_column; foreign "user_id" "users"; not_null (column "type" (VARCHAR 32));
      with_default "'{}'::jsonb" (not_null (column "payload" JSONB)); column "read_at" TIMESTAMPTZ;
      timestamp "created_at"]);
   index "ix_notifications_user" "notifications" [key "user_id"; key_desc "id"];
   partial_index "ix_notifications_unread" "notifications" [key "user_id"] (IsNull "read_at")].

(* migrations/0009_create_sessions.sql:9-23, 0009_create_sessions *)
Definition create_sessions : list Command :=
  [Run (CreateTable "sessions"
     [primary_key (column "id" (VARCHAR 64)); foreign "user_id" "users";
      not_null (column "refresh_token_hash" (VARCHAR 64)); column "user_agent" (VARCHAR 255); column "ip" (VARCHAR 64);
      timestamp "created_at"; timestamp "last_used_at"; not_null (column "expires_at" TIMESTAMPTZ);
      column "revoked_at" TIMESTAMPTZ]);
   index "ix_sessions_user" "sessions" [key "user_id"];
   index "ix_sessions_expires" "sessions" [key "expires_at"]].

(* migrations/0010_create_cache_metadata.sql:7-14, 0010_create_cache_metadata *)
Definition create_cache_metadata : list Command :=
  [Run (CreateTable "cache_metadata"
     [primary_key (column "cache_key" (VARCHAR 255)); not_null (column "namespace" (VARCHAR 64));
      with_default "1" (not_null (column "version" BIGINT)); timestamp "updated_at"]);
   index "ix_cache_metadata_namespace" "cache_metadata" [key "namespace"]].

(* migrations/0011_add_user_roles.sql:16-46, 0011_add_user_roles *)
Definition add_user_roles : list Command :=
  [Run (AddColumns "users"
     [with_default "'user'" (not_null (column "role" (VARCHAR 20))); column "banned_at" TIMESTAMPTZ;
      column "ban_reason" (VARCHAR 255); column "banned_by" BIGINT]);
   Run (AddConstraint "users" "ck_users_role" (CheckColumn "role" (OneOf ["user"; "moderator"; "admin"; "super_admin"])));
   Run (AddConstraint "users" "fk_users_banned_by" (ForeignKey "banned_by" "users" "id" SET_NULL));
   index "ix_users_role" "users" [key "role"];
   partial_index "ix_users_banned" "users" [key "banned_at"] (IsNotNull "banned_at")].

(* migrations/0012_create_audit_logs.sql:19-45, 0012_create_audit_logs *)
Definition create_audit_logs : list Command :=
  [Run (CreateTable "audit_logs"
     [id_column; is_unique (not_null (column "event_id" (VARCHAR 32))); not_null (column "event_type" (VARCHAR 64));
      on_table "users" SET_NULL (column "actor_id" BIGINT); column "actor_username" (VARCHAR 64);
      column "target_type" (VARCHAR 32); column "target_id" (VARCHAR 64); column "ip" (VARCHAR 64);
      column "user_agent" (VARCHAR 255); column "correlation_id" (VARCHAR 64); column "trace_id" (VARCHAR 32);
      with_default "'{}'::jsonb" (not_null (column "metadata" JSONB)); timestamp "occurred_at"; timestamp "created_at"]);
   index "ix_audit_logs_occurred" "audit_logs" [key_desc "occurred_at"; key_desc "id"];
   index "ix_audit_logs_actor" "audit_logs" [key "actor_id"; key_desc "occurred_at"];
   index "ix_audit_logs_type" "audit_logs" [key "event_type"; key_desc "occurred_at"];
   index "ix_audit_logs_target" "audit_logs" [key "target_type"; key "target_id"];
   index "ix_audit_logs_correlation" "audit_logs" [key "correlation_id"];
   Run (gin_index "ix_audit_logs_metadata" "audit_logs" [key "metadata"])].

(* migrations/0013_message_full_text_search.sql:34-88, 0013_message_full_text_search *)
Definition message_full_text_search : list Command :=
  [Do [CreateExtension "pg_trgm"] insufficient_privilege;
   Run (AddColumns "messages"
     [generated_as "setweight(to_tsvector('english', content), 'B')" (column "search_vector" TSVECTOR)]);
   Run (gin_index "ix_messages_search_vector" "messages" [key "search_vector"]);
   Do [gin_index "ix_messages_content_trgm" "messages" [trgm (key "content")]] undefined_object;
   partial_index "ix_messages_search_scope" "messages" [key "conversation_id"; key_desc "created_at"]
     (IsNull "deleted_at");
   Do [gin_index "ix_users_username_trgm" "users" [trgm (key "username")];
       gin_index "ix_users_display_name_trgm" "users" [trgm (expr "COALESCE(display_name, '')" ["display_name"])]]
     undefined_object].

(** The directory, in the order of the file names. *)
Definition migrations : list (string * list Command) :=
  [("0001_create_users", create_users); ("0002_add_user_profile", add_user_profile);
   ("0003_create_conversations", create_conversations); ("0004_create_messages", create_messages);
   ("0005_create_read_receipts", create_read_receipts); ("0006_create_attachments", create_attachments);
   ("0007_create_message_reactions", create_message_reactions); ("0008_create_notifications", create_notifications);
   ("0009_create_sessions", create_sessions); ("0010_create_cache_metadata", create_cache_metadata);
   ("0011_add_user_roles", add_user_roles); ("0012_create_audit_logs", create_audit_logs);
   ("0013_message_full_text_search", message_full_text_search)].

Definition migrate (server : Server) (l : list (string * list Command)) (c : Catalog) : result SqlState Catalog :=
  foldl (λ r m, c ← r; exec_file server m.2 c) (Ok c) l.

(** With and without the extension. *)
Definition with_trigrams : Catalog := match migrate (λ _, None) migrations empty_catalog with Ok c => c | Err _ => empty_catalog end.
Definition without_trigrams : Catalog :=
  match migrate (λ _, Some insufficient_privilege) migrations empty_catalog with Ok c => c | Err _ => empty_catalog end.

(** ** What the files build *)

Section Facts.
Context (names : list string).

(** A file that asks the server for no extensions but these. *)
Definition extension_ok (s : Statement) : bool :=
  match s with CreateExtension name => bool_decide (name ∈ names) | _ => true end.
Definition command_ok (x : Command) : bool :=
  match x with Run s => extension_ok s | Do body _ => forallb extension_ok body end.
Definition asks_only (l : list (string * list Command)) : bool := forallb (λ m, forallb command_ok m.2) l.

Context (server server' : Server) (Hs : ∀ name, name ∈ names → server name = server' name).

Lemma exec_statement_server s c : extension_ok s = true → exec_statement server s c = exec_statement server' s c.
Proof. destruct s; try done. cbn. intros Hn%bool_decide_eq_true. by rewrite (Hs _ Hn). Qed.

Lemma exec_statements_server l : ∀ c,
  forallb extension_ok l = true → exec_statements server l c = exec_statements server' l c.
Proof.
  induction l as [|s l IH]; intros c; [done|]. cbn [forallb exec_statements]. intros [H1 H2]%andb_prop.
  rewrite exec_statement_server by done. destruct (exec_statement server' s c); [|done]. by apply IH.
Qed.

Lemma exec_command_server x c : command_ok x = true → exec_command server x c = exec_command server' x c.
Proof.
  destruct x as [s|body h]; cbn [command_ok exec_command]; [apply exec_statement_server|].
  intros H. by rewrite exec_statements_server.
Qed.

Lemma exec_file_server l : ∀ c, forallb command_ok l = true → exec_file server l c = exec_file server' l c.
Proof.
  induction l as [|x l IH]; intros c; [done|]. cbn [forallb exec_file]. intros [H1 H2]%andb_prop.
  rewrite exec_command_server by done. destruct (exec_command server' x c); [|done]. by apply IH.
Qed.

Lemma migrate_server l : ∀ c, asks_only l = true → migrate server l c = migrate server' l c.
Proof.
  unfold migrate, asks_only. intros c. generalize (Ok (E:=SqlState) c).
  induction l as [|m l IH]; intros r; [done|]. cbn [forallb foldl]. intros [H1 H2]%andb_prop.
  rewrite IH by done. f_equal. destruct r as [c0|e]; [|done]. cbn. by apply exec_file_server.
Qed.
End Facts.

(** The servers on which the files apply: the extension can be installed, or the
    role lacks the privilege to. *)
Definition suitable (server : Server) : bool :=
  match server "pg_trgm" with None | Some insufficient_privilege => true | Some _ => false end.
Definition final (server : Server) : Catalog :=
  match server "pg_trgm" with None => with_trigrams | Some _ => without_trigrams end.

Lemma with_trigrams_built : migrate (λ _, None) migrations empty_catalog = Ok with_trigrams.
Proof.
  assert (H : is_ok (migrate (λ _, None) migrations empty_catalog) = true) by (vm_compute; reflexivity).
  unfold with_trigrams. by destruct (migrate _ _ _).
Qed.
Lemma without_trigrams_built : migrate (λ _, Some insufficient_privilege) migrations empty_catalog = Ok without_trigrams.
Proof.
  assert (H : is_ok (migrate (λ _, Some insufficient_privilege) migrations empty_catalog) = true) by (vm_compute; reflexivity).
  unfold without_trigrams. by destruct (migrate _ _ _).
Qed.

Lemma files_ok : asks_only ["pg_trgm"] migrations = true.
Proof. vm_compute. reflexivity. Qed.

Lemma agree (server : Server) r :
  server "pg_trgm" = r → ∀ name, name ∈ ["pg_trgm"] → server name = (λ _ : string, r) name.
Proof. by intros E name ->%list_elem_of_singleton. Qed.

(** What holds of the two kinds of suitable server holds of all. *)
Lemma suitable_cases (P : Server → Catalog → Prop) server :
  suitable server = true →
  (server "pg_trgm" = None → P server with_trigrams) →
  (server "pg_trgm" = Some insufficient_privilege → P server without_trigrams) → P server (final server).
Proof.
  unfold suitable, final. destruct (server "pg_trgm") as [e|]; [|auto].
  destruct (decide (e = insufficient_privilege)) as [->|Hne]; [auto|]. by destruct e.
Qed.

Lemma migrations_apply server : suitable server = true → migrate server migrations empty_catalog = Ok (final server).
Proof.
  intros Hs. apply (suitable_cases (λ server c, migrate server migrations empty_catalog = Ok c)); [done|intros E..].
  - rewrite (migrate_server _ server _ (agree _ _ E) migrations _ files_ok). exact with_trigrams_built.
  - rewrite (migrate_server _ server _ (agree _ _ E) migrations _ files_ok). exact without_trigrams_built.
Qed.

(** Each file, executed again on the result, changes nothing. *)
Definition unchanged_by (server : Server) (c : Catalog) (m : string * list Command) : bool :=
  match exec_file server m.2 c with Ok c' => bool_decide (c' = c) | Err _ => false end.

Lemma migrations_idempotent server m :
  suitable server = true → m ∈ migrations → exec_file server m.2 (final server) = Ok (final server).
Proof.
  intros Hs Hm. apply list_elem_of_In in Hm.
  pose proof (proj1 (forallb_forall _ _) files_ok m Hm) as Hok. cbn beta in Hok.
  assert (Hu : ∀ server' c, forallb (unchanged_by server' c) migrations = true → exec_file server' m.2 c = Ok c).
  { intros server' c Hall. pose proof (proj1 (forallb_forall _ _) Hall m Hm) as H. unfold unchanged_by in H.
    destruct (exec_file server' m.2 c); [|done]. by apply bool_decide_eq_true in H as ->. }
  apply (suitable_cases (λ server c, exec_file server m.2 c = Ok c)); [done|intros E..].
  - rewrite (exec_file_server _ server _ (agree _ _ E) m.2 _ Hok). apply Hu. vm_compute. reflexivity.
  - rewrite (exec_file_server _ server _ (agree _ _ E) m.2 _ Hok). apply Hu. vm_compute. reflexivity.
Qed.

(** The tables as the first twelve files leave them. *)
Definition before_search : Catalog :=
  match migrate (λ _, None) (take 12 migrations) empty_catalog with Ok c => c | Err _ => empty_catalog end.

(** On any other server the last file fails, with the server's own error. *)
Lemma last_file_fails server e :
  server "pg_trgm" = Some e → e ≠ insufficient_privilege →
  migrate server (take 12 migrations) empty_catalog = Ok before_search ∧
  exec_file server message_full_text_search before_search = Err e.
Proof.
  intros He Hne. split.
  - assert (H : is_ok (migrate (λ _, None) (take 12 migrations) empty_catalog) = true) by (vm_compute; reflexivity).
    assert (Hn : asks_only [] (take 12 migrations) = true) by (vm_compute; reflexivity).
    rewrite (migrate_server [] server (λ _, None) (λ name Hin, False_ind _ (not_elem_of_nil name Hin)) _ _ Hn).
    unfold before_search. by destruct (migrate _ _ _).
  - unfold message_full_text_search. cbn [exec_file exec_command exec_statements exec_statement].
    rewrite bool_decide_eq_false_2; [by rewrite He; cbn; rewrite decide_False|].
    apply (bool_decide_eq_false _). vm_compute. reflexivity.
Qed.

(** ** The runner over the files *)

Import MigrationRunner MigrationFacts.

Lemma exec_all_app {S} (exec : string → S → result exn S) fs gs s s' :
  exec_all exec fs s = Ok s' → exec_all exec (fs ++ gs)%list s = exec_all exec gs s'.
Proof.
  revert s. induction fs as [|f fs IH]; intros s; cbn; [by intros [= ->]|].
  destruct (read_file f) as [sql|]; [|done]. destruct (exec sql s); [|done]. apply IH.
Qed.

Section Starts.
Context (server : Server).
(** The parser of PostgreSQL, and the texts of the files. *)
Context (parse : string → option (list Command)) (texts : list string).
Hypothesis reads : parse <$> texts = Some <$> migrations.*2.

Definition exec_sql (text : string) (c : Catalog) : result exn Catalog :=
  match parse text with
  | None => Err (Std "syntax error")
  | Some l => match exec_file server l c with Ok c => Ok c | Err _ => Err (Std "migration statement failed") end
  end.

Definition directory : list Entry :=
  zip_with (λ m text, mkEntry (m.1 +:+ ".sql") true (Some text)) migrations texts.

Lemma texts_length : length texts = 13%nat.
Proof. apply (f_equal length) in reads. by rewrite !length_fmap in reads. Qed.

(** The runner finds the files in the order of their numbers. *)
Lemma directory_files : migration_files directory = directory.
Proof.
  pose proof texts_length as Hl. unfold directory. revert Hl. generalize texts. intros ts.
  do 13 (destruct ts as [|? ts]; [done|]). destruct ts; [|done]. intros _. vm_compute. reflexivity.
Qed.

Lemma directory_distinct : NoDup (filename <$> directory).
Proof.
  pose proof texts_length as Hl. unfold directory. revert Hl. generalize texts. intros ts.
  do 13 (destruct ts as [|? ts]; [done|]). destruct ts; [|done]. intros _.
  apply (bool_decide_unpack _). vm_compute. exact I.
Qed.

(** Executing the texts is executing the translated files. *)
Lemma exec_all_migrate l ts : ∀ c c',
  parse <$> ts = Some <$> l.*2 → migrate server l c = Ok c' →
  exec_all exec_sql (zip_with (λ m text, mkEntry (m.1 +:+ ".sql") true (Some text)) l ts) c = Ok c'.
Proof.
  revert ts. induction l as [|m l IH]; intros [|text ts] c c' Hp Hm; [by injection Hm as ->|done|done|].
  rewrite !fmap_cons in Hp. injection Hp as Hp Hps. cbn [zip_with exec_all read_file contents]. unfold exec_sql at 1. rewrite Hp.
  unfold migrate in Hm. cbn [foldl] in Hm.
  change (foldl (λ r m, c ← r; exec_file server m.2 c) (exec_file server m.2 c) l = Ok c') in Hm.
  destruct (exec_file server m.2 c) as [c1|e] eqn:E; [by apply IH|].
  exfalso. clear IH Hps. induction l as [|m' l IHl]; [done|]. by apply IHl.
Qed.

(** On an unsuitable server the texts cannot all be executed. *)
Lemma unsuitable_fails c : suitable server = false → exec_all exec_sql directory empty_catalog ≠ Ok c.
Proof.
  intros Hs Hc. unfold suitable in Hs. destruct (server "pg_trgm") as [e|] eqn:He; [|done].
  destruct (last_file_fails server e He) as [H12 Hlast]; [by intros ->|].
  assert (Hd : directory = (zip_with (λ m text, mkEntry (m.1 +:+ ".sql") true (Some text)) (take 12 migrations) (take 12 texts)
                ++ zip_with (λ m text, mkEntry (m.1 +:+ ".sql") true (Some text)) (drop 12 migrations) (drop 12 texts))%list).
  { unfold directory. rewrite <- zip_with_app by (rewrite !length_take, texts_length; reflexivity). by rewrite !take_drop. }
  assert (Hp : parse <$> take 12 texts = Some <$> (take 12 migrations).*2) by (rewrite !fmap_take; by f_equal).
  assert (Hp' : parse <$> drop 12 texts = Some <$> (drop 12 migrations).*2) by (rewrite !fmap_drop; by f_equal).
  pose proof (exec_all_migrate _ _ _ _ Hp H12) as Hpre. rewrite Hd, (exec_all_app _ _ _ _ _ Hpre) in Hc.
  destruct (drop 12 texts) as [|text [|]]; [done| |done]. injection Hp' as Hp'.
  cbn [drop migrations zip_with exec_all read_file contents snd] in Hc. unfold exec_sql in Hc. rewrite Hp' in Hc.
  rewrite Hlast in Hc. discriminate Hc.
Qed.
End Starts.

(** ** A start without faults *)

Section Faultless.
Context {S : Type} (exec : string → S → result exn S) (files : list Entry) (s0 sN : S).
Hypothesis distinct : NoDup (version_of <$> files).
Hypothesis applies : exec_all exec files s0 = Ok sN.

Lemma exec_all_prefix k f :
  files !! k = Some f → ∀ s, exec_all exec (take k files) s0 = Ok s →
  ∃ sql s', read_file f = Ok sql ∧ exec sql s = Ok s'.
Proof.
  clear distinct. revert files s0 applies. induction k as [|k IH]; intros [|g fs] s1 Ha; try done; cbn in *.
  - intros [= ->] s [= ->]. destruct (read_file f) as [sql|]; [|done]. destruct (exec sql s) eqn:E; [|done]. eauto.
  - destruct (read_file g) as [sql|]; [|done]. destruct (exec sql s1) as [s2|]; [|done]. by apply IH.
Qed.

Lemma apply_faultless k w f :
  at_step exec files s0 k w → faults w = [] → files !! k = Some f →
  ∃ w', wrap (version_of f) (sql ← (λ w, (read_file f, w)); apply exec (version_of f) sql) w = (Ok (), w') ∧ faults w' = [].
Proof.
  intros Hw Hf Hk. destruct (exec_all_prefix k f Hk _ (as_schema _ _ _ _ _ Hw)) as (sql & s' & Hr & He).
  unfold wrap, mbind, M_bind, apply, transaction, next_fault. rewrite Hr, Hf. cbn. rewrite He, (at_step_table _ _ _ _ _ Hw).
  rewrite bool_decide_eq_false_2; [by eexists|]. rewrite (present_iff files distinct k k f Hk). lia.
Qed.

Lemma apply_all_faultless rest : ∀ i k c w,
  drop i files = rest → (i <= k)%nat → at_step exec files s0 k w → faults w = [] → is_ok (apply_all exec c rest w).1 = true.
Proof.
  induction rest as [|f rest IH]; intros i k c w Hr Hi Hw Hf; [done|].
  assert (Hk : files !! i = Some f).
  { pose proof (lookup_drop files i 0) as Hd. by rewrite Hr, Nat.add_0_r in Hd. }
  rewrite (drop_S _ _ _ Hk) in Hr. injection Hr as Hr.
  cbn [apply_all]. unfold mbind at 1, M_bind at 1, is_applied, transaction, next_fault. rewrite Hf.
  rewrite (at_step_table _ _ _ _ _ Hw). case_bool_decide as Hp.
  - apply (IH (Datatypes.S i) k); [done| |by destruct Hw|done]. apply (present_iff files distinct k i f Hk) in Hp. lia.
  - rewrite (present_iff files distinct k i f Hk) in Hp. assert (i = k) as -> by lia.
    assert (Hw' : at_step exec files s0 k (mkW (db w) (faults w))) by by destruct Hw.
    destruct (apply_faultless k _ f Hw' Hf Hk) as (w1 & H1 & Hf1). pose proof (apply_step exec files s0 k _ f Hw' Hk) as Hs.
    unfold mbind at 1, M_bind at 1. fold (version_of f). rewrite H1 in *.
    apply (IH (Datatypes.S k) (Datatypes.S k)); [done|lia|done|done].
Qed.
End Faultless.

Lemma run_faultless {S} (exec : string → S → result exn S) dir es s0 sN d :
  NoDup (filename <$> es) → exec_all exec (migration_files es) s0 = Ok sN →
  progress exec (migration_files es) s0 (mkW d []) →
  ∃ c w, run exec dir (Some es) (mkW d []) = (Ok c, w) ∧ schema (db w) = sN.
Proof.
  intros Hn Ha Hp. pose proof (run_progress exec dir es s0 _ Hn Hp) as Hr. apply versions_nodup in Hn.
  assert (Hok : is_ok (run exec dir (Some es) (mkW d [])).1 = true).
  { pose proof (ensure_progress exec _ _ _ Hp) as He. cbn [run]. unfold mbind at 1, M_bind at 1.
    unfold ensure_bookkeeping_table, transaction, next_fault in *. cbn in *.
    by apply (apply_all_faultless exec _ s0 sN Hn Ha _ 0 (done_before (mkW d []))); [apply drop_0|lia|..]. }
  destruct (run exec dir (Some es) (mkW d [])) as [[c|e] w]; [|done]. destruct Hr as [[_ Hs _] _].
  rewrite take_ge in Hs by done. exists c, w. split; [done|]. congruence.
Qed.

(** C23. The files build the schema.  On a server where the trigram extension can
    be installed, or where the role may not install it: after any number of
    starts whatever became of their transactions, a start whose transactions do
    not fail succeeds, and one that succeeds leaves exactly the catalog of the
    thirteen files, with or without the trigram indexes; executing any file once
    more would change nothing.  On any other server (the extension is not
    available) no start ever succeeds. *)
Theorem schema_migrates (server : Server) (parse : string → option (list Command)) (texts : list string)
    (n : nat) (dir : string) (fs : list Fault) :
  parse <$> texts = Some <$> migrations.*2 →
  let exec := exec_sql server parse in
  let es := directory texts in
  let w := boots exec n dir es (mkW (mkDb empty_catalog None) fs) in
  (suitable server = true →
     (∃ c w1, run exec dir (Some es) (mkW (db w) []) = (Ok c, w1) ∧ schema (db w1) = final server) ∧
     (∀ c w1, run exec dir (Some es) w = (Ok c, w1) → schema (db w1) = final server) ∧
     (∀ m, m ∈ migrations → exec_file server m.2 (final server) = Ok (final server))) ∧
  (suitable server = false → ∀ c, (run exec dir (Some es) w).1 ≠ Ok c).
Proof.
  intros Hparse exec es w. pose proof (directory_distinct parse texts Hparse) as Hn.
  pose proof (directory_files parse texts Hparse) as Hfiles. fold es in Hn, Hfiles.
  assert (Hp : progress exec (migration_files es) empty_catalog w) by (apply boots_progress; [done|by left]).
  split.
  - intros Hs. assert (Ha : exec_all exec (migration_files es) empty_catalog = Ok (final server)).
    { rewrite Hfiles. apply exec_all_migrate; [done|by apply migrations_apply]. }
    split_and!.
    + apply (run_faultless exec dir es empty_catalog); [done..|].
      destruct Hp as [[? ?]|[k Hk]]; [by left|right; exists k; by destruct Hk].
    + intros c w1 Hr. pose proof (run_progress exec dir es empty_catalog w Hn Hp) as H. rewrite Hr in H.
      destruct H as [[_ H _] _]. rewrite take_ge in H by done. congruence.
    + intros m Hm. by apply migrations_idempotent.
  - intros Hs c Hr. pose proof (run_progress exec dir es empty_catalog w Hn Hp) as H.
    destruct (run exec dir (Some es) w) as [r w1]. cbn in Hr. subst r. destruct H as [[_ H _] _].
    rewrite take_ge, Hfiles in H by done. by eapply unsuitable_fails.
Qed.

(** A directory whose texts stand for themselves, on a server that refuses the
    extension; the first start loses its fourth transaction. *)
Module SchemaSample.
Definition server : Server := λ _, Some insufficient_privilege.
Definition texts : list string := migrations.*1.
Definition parse (text : string) : option (list Command) := (list_to_map migrations : gmap string (list Command)) !! text.
Definition faults : list Fault := [Fine; Fine; Fine; Fails "connection lost"].
End SchemaSample.

Lemma schema_migrates_witness :
  let exec := exec_sql SchemaSample.server SchemaSample.parse in
  let es := directory SchemaSample.texts in
  let w := boots exec 1 "migrations" es (mkW (mkDb empty_catalog None) SchemaSample.faults) in
  done_before w = 1%nat ∧
  ∃ c w1, run exec "migrations" (Some es) (mkW (db w) []) = (Ok c, w1) ∧ schema (db w1) = without_trigrams.
Proof.
  intros exec es w. split; [vm_compute; reflexivity|].
  destruct (schema_migrates SchemaSample.server SchemaSample.parse SchemaSample.texts 1 "migrations" SchemaSample.faults)
    as [Hok _]; [vm_compute; reflexivity|].
  destruct Hok as [Hrun _]; [reflexivity|]. exact Hrun.
Defined.
