(* ===== verification/Database.v ===== *)
(** * Database: tables, sequences, transactions and the world of the services

    The tables are those of migrations/0001-0013, each a finite map from primary
    key to row; a row keeps what the column stores: text for enumerations,
    microseconds for timestamps ([TIMESTAMPTZ]).  [with_transaction] is the one
    of include/rtc/database/base_repository.hpp: it undoes the changes of a body
    that throws, passes application errors through and wraps all others.

    [World] is everything a service call can read or change: the tables, the
    sequences (never rolled back, as in PostgreSQL), the clock, the faults the
    environment will inject into the next transactions, and the ordered list of
    calls made on the three outgoing interfaces ([IEventBroadcaster],
    [INotificationDispatcher], [IEventPublisher]), and the files of the upload
    directory with the I/O failures to inject.  One service call reads one
    clock value.  [VARCHAR] length limits are not part of the model.  The
    declarations themselves are in SqlSchema; [interleaved_tables] in Interleave
    shows that the constraints written out here are the declared ones. *)

From S2P Require Import Prelude Text Json Errors TimeUtil Models Events.
Open Scope string_scope.
Open Scope Z_scope.

(** ** Rows *)

Module UserRow.
(* migrations/0001_create_users.sql:8-15, users *)
Record t := mk {
  username : string; email : string; password_hash : string;
  display_name : option string; bio : option string; avatar_url : option string;
  role : string; banned_at : option Z; ban_reason : option string; banned_by : option Z;
  created_at : Z; updated_at : Z }.
End UserRow.

Module ConversationRow.
(* migrations/0003_create_conversations.sql:7-19, conversations *)
Record t := mk {
  type : string; name : option string; owner_id : option Z; direct_key : option string;
  created_at : Z; updated_at : Z; last_message_at : option Z }.
End ConversationRow.

Module ParticipantRow.
(* migrations/0003_create_conversations.sql:34-44, conversation_participants *)
Record t := mk {
  conversation_id : Z; user_id : Z; role : string; joined_at : Z;
  last_read_message_id : option Z }.
End ParticipantRow.

Module MessageRow.
(* migrations/0004_create_messages.sql:7-17, messages *)
Record t := mk {
  conversation_id : Z; sender_id : Z; type : string; content : string;
  created_at : Z; updated_at : Z; edited_at : option Z; deleted_at : option Z }.
End MessageRow.

Module ReceiptRow.
(* migrations/0005_create_read_receipts.sql:7-14, read_receipts *)
Record t := mk { message_id : Z; user_id : Z; state : string; updated_at : Z }.
End ReceiptRow.

Module AttachmentRow.
(* migrations/0006_create_attachments.sql:8-24, attachments *)
Record t := mk {
  owner_id : Z; message_id : option Z; storage_backend : string; storage_key : string;
  thumbnail_key : option string; original_filename : string; content_type : string;
  kind : string; byte_size : Z; width : option Z; height : option Z;
  checksum : option string; created_at : Z }.
End AttachmentRow.

Module ReactionRow.
(* migrations/0007_create_message_reactions.sql:6-13, message_reactions *)
Record t := mk {
  message_id : Z; user_id : Z; emoji : string; created_at : Z; updated_at : Z }.
End ReactionRow.

Module NotificationRow.
(* migrations/0008_create_notifications.sql:7-14, notifications *)
Record t := mk {
  user_id : Z; type : string; payload : json; read_at : option Z; created_at : Z }.
End NotificationRow.

Module SessionRow.
(* migrations/0009_create_sessions.sql:9-19, sessions *)
Record t := mk {
  user_id : Z; refresh_token_hash : string; user_agent : option string; ip : option string;
  created_at : Z; last_used_at : Z; expires_at : Z; revoked_at : option Z }.
End SessionRow.

Module AuditRow.
(* migrations/0012_create_audit_logs.sql:19-34, audit_logs *)
Record t := mk {
  event_id : string; event_type : string; actor_id : option Z; actor_username : option string;
  target_type : option string; target_id : option string; ip : option string;
  user_agent : option string; correlation_id : option string; trace_id : option string;
  metadata : json; occurred_at : Z; created_at : Z }.
End AuditRow.

(** ** The database *)

Record Database := mkDb {
  users : gmap Z UserRow.t;
  conversations : gmap Z ConversationRow.t;
  participants : gmap Z ParticipantRow.t;
  messages : gmap Z MessageRow.t;
  receipts : gmap Z ReceiptRow.t;
  attachments : gmap Z AttachmentRow.t;
  reactions : gmap Z ReactionRow.t;
  notifications : gmap Z NotificationRow.t;
  sessions : gmap string SessionRow.t;
  audit_logs : gmap Z AuditRow.t
}.

Definition empty_db : Database := mkDb ∅ ∅ ∅ ∅ ∅ ∅ ∅ ∅ ∅ ∅.

Definition set_users x d :=
  mkDb x (conversations d) (participants d) (messages d) (receipts d) (attachments d)
    (reactions d) (notifications d) (sessions d) (audit_logs d).
Definition set_conversations x d :=
  mkDb (users d) x (participants d) (messages d) (receipts d) (attachments d)
    (reactions d) (notifications d) (sessions d) (audit_logs d).
Definition set_participants x d :=
  mkDb (users d) (conversations d) x (messages d) (receipts d) (attachments d)
    (reactions d) (notifications d) (sessions d) (audit_logs d).
Definition set_messages x d :=
  mkDb (users d) (conversations d) (participants d) x (receipts d) (attachments d)
    (reactions d) (notifications d) (sessions d) (audit_logs d).
Definition set_receipts x d :=
  mkDb (users d) (conversations d) (participants d) (messages d) x (attachments d)
    (reactions d) (notifications d) (sessions d) (audit_logs d).
Definition set_attachments x d :=
  mkDb (users d) (conversations d) (participants d) (messages d) (receipts d) x
    (reactions d) (notifications d) (sessions d) (audit_logs d).
Definition set_reactions x d :=
  mkDb (users d) (conversations d) (participants d) (messages d) (receipts d)
    (attachments d) x (notifications d) (sessions d) (audit_logs d).
Definition set_notifications x d :=
  mkDb (users d) (conversations d) (participants d) (messages d) (receipts d)
    (attachments d) (reactions d) x (sessions d) (audit_logs d).
Definition set_sessions x d :=
  mkDb (users d) (conversations d) (participants d) (messages d) (receipts d)
    (attachments d) (reactions d) (notifications d) x (audit_logs d).
Definition set_audit_logs x d :=
  mkDb (users d) (conversations d) (participants d) (messages d) (receipts d)
    (attachments d) (reactions d) (notifications d) (sessions d) x.

(** The [BIGSERIAL] sequences. *)
Inductive Seq :=
  | SUsers | SConversations | SParticipants | SMessages | SReceipts | SAttachments
  | SReactions | SNotifications | SAuditLogs.
Global Instance Seq_eq_dec : EqDecision Seq.
Proof. solve_decision. Defined.

(** ** Outgoing calls *)

(* include/rtc/notifications/notification_dispatcher.hpp:16-39, INotificationDispatcher *)
Inductive NotifyCall :=
  | NewMessage (sender_id conversation_id message_id : Z) (recipient_ids : list Z)
  | AddedToGroup (conversation_id added_user_id actor_id : Z)
  | RemovedFromGroup (conversation_id removed_user_id actor_id : Z)
  | ReactionAddedCall (message_author_id message_id reactor_id : Z) (emoji : string)
  | ProfileUpdatedCall (user_id : Z).

(** Besides the three interfaces: metrics, and jobs handed to the background
    executor. *)
Inductive Effect :=
  | EBroadcast (user_ids : list Z) (type : string) (data : json)
  | ENotify (call : NotifyCall)
  | EPublish (event : EventDraft)
  | EMetric (name : string)
  | EObserve (name : string) (value : Z)
  | EImageJob (attachment_id : Z) (bytes content_type base_key : string)
  | EPush (user_id : Z) (title body : string) (data : json).

(** ** Faults

    What the environment may do to a transaction: refuse the connection, fail
    the commit, or lose the connection while committing, in which case the
    changes are durable although the caller sees an exception. *)
Inductive Fault :=
  | FAcquire (what : string)
  | FCommit (what : string)
  | FInDoubt (what : string).

Record World := mkWorld {
  db : Database;
  seqs : Seq → Z;
  now : Z;
  faults : list (option Fault);
  out : list Effect;
  files : gmap string string;
  io_faults : list bool
}.

Definition set_db d w :=
  mkWorld d (seqs w) (now w) (faults w) (out w) (files w) (io_faults w).
Definition set_faults f w :=
  mkWorld (db w) (seqs w) (now w) f (out w) (files w) (io_faults w).
Definition set_seq s n w :=
  mkWorld (db w) (λ s', if decide (s' = s) then n else seqs w s') (now w) (faults w) (out w)
    (files w) (io_faults w).
Definition add_out e w :=
  mkWorld (db w) (seqs w) (now w) (faults w) (out w ++ [e]) (files w) (io_faults w).
Definition set_files f io w := mkWorld (db w) (seqs w) (now w) (faults w) (out w) f io.

Definition emit (e : Effect) : M World exn unit := modify (add_out e).
Definition on_db {A} (f : Database → A) : M World exn A := gets (λ w, f (db w)).
Definition update (f : Database → Database) : M World exn unit :=
  modify (λ w, set_db (f (db w)) w).
Definition clock : M World exn Z := gets now.

(** [nextval]: also consumed by an insert that then does nothing. *)
Definition nextval (s : Seq) : M World exn Z := λ w, (Ok (seqs w s), set_seq s (seqs w s + 1) w).

Definition wrap (what : string) : exn := DatabaseException "Database operation failed" what.

(* include/rtc/database/base_repository.hpp:31-50, BaseRepository::with_transaction *)
Definition with_transaction {A} (fn : M World exn A) : M World exn A := λ w0,
  let fault := mjoin (head (faults w0)) in
  let w := set_faults (tail (faults w0)) w0 in
  match fault with
  | Some (FAcquire what) => (Err (wrap what), w)
  | _ =>
      match fn w with
      | (Err (App ex), w') => (Err (App ex), set_db (db w) w')
      | (Err (Std what), w') => (Err (wrap what), set_db (db w) w')
      | (Ok a, w') =>
          match fault with
          | Some (FCommit what) => (Err (wrap what), set_db (db w) w')
          | Some (FInDoubt what) => (Err (wrap what), w')
          | _ => (Ok a, w')
          end
      end
  end.

(** A violated foreign key raises at the end of the statement. *)
Definition foreign_key (ok : bool) : M World exn unit :=
  if ok then mret () else mthrow (Std "violates foreign key constraint").

(** [bool_decide (is_Some (t !! k))]. *)
Definition exists_row {K V} `{Countable K} (t : gmap K V) (k : K) : bool :=
  bool_decide (is_Some (t !! k)).

(** The rows of a table that satisfy a [WHERE] clause, in no particular order. *)
Definition rows {V} (P : V → bool) (t : gmap Z V) : list (Z * V) :=
  filter (λ kv, P kv.2 = true) (map_to_list t).
Definition any_row {V} (P : V → bool) (t : gmap Z V) : bool :=
  match rows P t with [] => false | _ => true end.
(** [result.front()] of a query with at most one row. *)
Definition one_row {V} (P : V → bool) (t : gmap Z V) : option (Z * V) := head (rows P t).
(** [UPDATE ... WHERE P SET f] and [DELETE ... WHERE P]. *)
Definition update_where {V} (P : V → bool) (f : V → V) (t : gmap Z V) : gmap Z V :=
  (λ r, if P r then f r else r) <$> t.
Definition delete_where {V} (P : V → bool) (t : gmap Z V) : gmap Z V :=
  filter (λ kv, P kv.2 = false) t.

(** [EXTRACT(EPOCH FROM t)::bigint] rounds to the nearest second, halves away
    from zero; [Clock::from_time_t] makes a time point of it. *)
Definition epoch (micros : Z) : Z :=
  if 0 <=? micros then (micros + 500000) / 1000000 else - ((- micros + 500000) / 1000000).
Definition db_time (micros : Z) : TimePoint := from_time_t (epoch micros).

(** PostgreSQL's [to_timestamp] of seconds, in microseconds; [None] when it is
    out of range. *)
Class PgTime := {
  to_timestamp : Z → option Z;
  to_timestamp_micros : ∀ s t, to_timestamp s = Some t → t = s * 1000000
}.

(** [to_timestamp($n)] of an optional parameter, evaluated when the statement is
    planned. *)
Definition timestamp_param `{PgTime} (epoch : option Z) : result exn (option Z) :=
  match epoch with
  | None => Ok None
  | Some s => match to_timestamp s with
              | Some t => Ok (Some t)
              | None => Err (Std "timestamp out of range")
              end
  end.

(** [$n IS NULL OR t >= $n] and the like. *)
Definition at_least (from : option Z) (t : Z) : bool := match from with None => true | Some f => f <=? t end.
Definition at_most (to : option Z) (t : Z) : bool := match to with None => true | Some u => t <=? u end.

Lemma timestamp_param_spec `{PgTime} (o t : option Z) :
  timestamp_param o = Ok t → t = (λ e, e * 1000000) <$> o.
Proof.
  unfold timestamp_param. destruct o as [e|]; [|by intros [= <-]].
  destruct (to_timestamp e) as [u|] eqn:E; [|done]. intros [= <-]. simpl. f_equal. by apply to_timestamp_micros.
Qed.

(** ** Query lemmas *)

Section Queries.
Context {V : Type}.
Implicit Types (P : V → bool) (t : gmap Z V).

Lemma elem_of_rows P t k r : (k, r) ∈ rows P t ↔ t !! k = Some r ∧ P r = true.
Proof. unfold rows. rewrite list_elem_of_filter, elem_of_map_to_list. simpl. tauto. Qed.

Lemma any_row_true P t : any_row P t = true ↔ ∃ k r, t !! k = Some r ∧ P r = true.
Proof.
  unfold any_row. destruct (rows P t) as [|[k r] l] eqn:E.
  - split; [done|]. intros (k & r & H). apply elem_of_rows in H. rewrite E in H. set_solver.
  - split; [|done]. intros _. exists k, r. apply elem_of_rows. rewrite E. set_solver.
Qed.

Lemma any_row_false P t : any_row P t = false ↔ ∀ k r, t !! k = Some r → P r = false.
Proof.
  rewrite <- not_true_iff_false, any_row_true. split.
  - intros H k r Hk. destruct (P r) eqn:E; [|done]. exfalso. eauto.
  - intros H (k & r & Hk & HP). rewrite (H k r) in HP; done.
Qed.

Lemma one_row_some P t k r : one_row P t = Some (k, r) → t !! k = Some r ∧ P r = true.
Proof.
  unfold one_row. intros H. apply elem_of_rows. destruct (rows P t); simplify_eq/=; set_solver.
Qed.

Lemma one_row_none P t : one_row P t = None ↔ any_row P t = false.
Proof. unfold one_row, any_row. by destruct (rows P t). Qed.

(** Where at most one row qualifies, it is the row that is found. *)
Lemma one_row_unique P t k r :
  (∀ k1 k2 r1 r2, t !! k1 = Some r1 → t !! k2 = Some r2 → P r1 = true → P r2 = true → k1 = k2) →
  t !! k = Some r → P r = true → one_row P t = Some (k, r).
Proof.
  intros Hu Hk HP. destruct (one_row P t) as [[k' r']|] eqn:E.
  - apply one_row_some in E as [Hk' HP']. assert (k' = k) as -> by eauto. congruence.
  - apply one_row_none in E. rewrite any_row_false in E. rewrite (E k r Hk) in HP. done.
Qed.

Lemma lookup_update_where P f t k r :
  update_where P f t !! k = Some r ↔ ∃ r0, t !! k = Some r0 ∧ r = if P r0 then f r0 else r0.
Proof. unfold update_where. rewrite lookup_fmap_Some. split; intros (r0 & ? & ?); eauto. Qed.

Lemma lookup_delete_where P t k r :
  delete_where P t !! k = Some r ↔ t !! k = Some r ∧ P r = false.
Proof. unfold delete_where. rewrite map_lookup_filter_Some. done. Qed.

Lemma exists_row_true {K W} `{Countable K} (t : gmap K W) k :
  exists_row t k = true ↔ is_Some (t !! k).
Proof. unfold exists_row. apply bool_decide_eq_true. Qed.
End Queries.

(** ** Transactions *)

(** Two worlds that differ in the faults left to inject at most. *)
Definition same (w w' : World) : Prop :=
  db w' = db w ∧ seqs w' = seqs w ∧ now w' = now w ∧ out w' = out w ∧ files w' = files w ∧
  io_faults w' = io_faults w.

Global Instance same_refl : Reflexive same.
Proof. done. Qed.
Global Instance same_trans : Transitive same.
Proof. unfold same. intros w1 w2 w3 (?&?&?&?&?&?) (?&?&?&?&?&?). repeat split; congruence. Qed.

Lemma with_transaction_ok {A} (fn : M World exn A) w a w' :
  with_transaction fn w = (Ok a, w') → ∃ w1, same w w1 ∧ fn w1 = (Ok a, w').
Proof.
  unfold with_transaction. intros H. exists (set_faults (tail (faults w)) w). split; [done|].
  destruct (mjoin (head (faults w))) as [[]|]; try done;
    destruct (fn _) as [[?|[]] ?]; simplify_eq; done.
Qed.

(** What a transaction leaves behind, whatever its result: the tables as they
    were, or what its body made of them. *)
Lemma with_transaction_db {A} (fn : M World exn A) w :
  db (with_transaction fn w).2 = db w ∨
  ∃ a w1 w', same w w1 ∧ fn w1 = (Ok a, w') ∧ db (with_transaction fn w).2 = db w'.
Proof.
  unfold with_transaction. set (w1 := set_faults _ w).
  destruct (mjoin _) as [[]|]; [by left|..];
    destruct (fn w1) as [[a|[]] w2] eqn:E; simpl; (try by left);
    right; exists a, w1, w2; done.
Qed.

Lemma query_ok {A} (f : Database → A) w a w' :
  with_transaction (on_db f) w = (Ok a, w') → a = f (db w) ∧ same w w'.
Proof.
  intros H. apply with_transaction_ok in H as (w1 & Hs & H1). msimpl.
  unfold on_db, gets in H1. simplify_eq. destruct Hs as (Hd&?&?&?&?&?). split; [by rewrite Hd|done].
Qed.

(** No fault is injected: the transaction does what its body does. *)
Lemma with_transaction_run {A} (fn : M World exn A) w a w' :
  faults w = [] → fn w = (Ok a, w') → with_transaction fn w = (Ok a, w').
Proof.
  intros Hf H. unfold with_transaction. rewrite Hf. simpl.
  replace (set_faults [] w) with w by (destruct w; simpl in *; by subst). by rewrite H.
Qed.

(** Atomicity: a transaction that throws leaves the tables as they were, except
    when the connection was lost during a commit. *)
Definition no_doubt (w : World) : Prop := ∀ what, Some (FInDoubt what) ∉ faults w.

Lemma with_transaction_err {A} (fn : M World exn A) w e w' :
  with_transaction fn w = (Err e, w') → no_doubt w → db w' = db w.
Proof.
  unfold with_transaction, no_doubt. intros H Hn.
  destruct (faults w) as [|[f|] fs] eqn:Hf; simpl in H.
  - destruct (fn _) as [[?|[]] ?]; simplify_eq; done.
  - destruct f as [f|f|f]; simpl in H; [by simplify_eq|..];
      destruct (fn _) as [[?|[]] ?]; simplify_eq; try done.
    exfalso. apply (Hn f). set_solver.
  - destruct (fn _) as [[?|[]] ?]; simplify_eq; done.
Qed.

(** Sequences only grow. *)
Definition seqs_le (w w' : World) : Prop := ∀ s, seqs w s <= seqs w' s.
Definition grows {A} (m : M World exn A) : Prop := ∀ w, seqs_le w (m w).2.

Lemma grows_ret {A} (a : A) : grows (mret a).
Proof. intros w s; simpl; lia. Qed.
Lemma grows_throw {A} (e : exn) : grows (A:=A) (mthrow e).
Proof. intros w s; simpl; lia. Qed.
Lemma grows_gets {A} (f : World → A) : grows (gets f).
Proof. intros w s; simpl; lia. Qed.
Lemma grows_emit e : grows (emit e).
Proof. intros w s; simpl; lia. Qed.
Lemma grows_update f : grows (update f).
Proof. intros w s; simpl; lia. Qed.
Lemma grows_nextval s : grows (nextval s).
Proof. intros w s'; simpl. case_decide; subst; lia. Qed.
Lemma grows_bind {A B} (m : M World exn A) (f : A → M World exn B) :
  grows m → (∀ a, grows (f a)) → grows (m ≫= f).
Proof.
  intros Hm Hf w s. unfold mbind, M_bind. specialize (Hm w s).
  destruct (m w) as [[a|e] w1]; simpl in *; [|done]. specialize (Hf a w1 s). lia.
Qed.
Lemma grows_for_each {A} (f : A → M World exn unit) l :
  (∀ a, grows (f a)) → grows (for_each f l).
Proof. intros Hf. induction l; simpl; [apply grows_ret|by apply grows_bind]. Qed.
Lemma grows_foreign_key b : grows (foreign_key b).
Proof. destruct b; [apply grows_ret|apply grows_throw]. Qed.
Lemma grows_with_transaction {A} (fn : M World exn A) : grows fn → grows (with_transaction fn).
Proof.
  intros Hf w s. unfold with_transaction. specialize (Hf (set_faults (tail (faults w)) w) s).
  destruct (mjoin _) as [[]|], (fn _) as [[?|[]] ?]; simpl in *; lia.
Qed.

Create HintDb grows discriminated.
#[export] Hint Resolve grows_ret grows_throw grows_gets grows_emit grows_update grows_nextval
  grows_bind grows_for_each grows_foreign_key grows_with_transaction : grows.
#[export] Hint Unfold on_db clock : grows.
Ltac solve_grows :=
  repeat first
    [ progress cbn beta iota zeta
    | apply grows_ret | apply grows_throw | apply grows_gets | apply grows_emit
    | apply grows_update | apply grows_nextval | apply grows_foreign_key
    | apply grows_with_transaction | apply grows_for_each; intros ?
    | apply grows_bind; [|intros ?] | case_match | progress unfold on_db, clock ].

(** An invariant of tables and sequences that growing sequences keep is kept by
    a transaction as soon as its body re-establishes it whenever it succeeds:
    everything else is undone. *)
Section Invariants.
Context (I : Database → (Seq → Z) → Prop).
Context (I_mono : ∀ d s s', I d s → (∀ q, s q <= s' q) → I d s').
Definition world_inv (w : World) : Prop := I (db w) (seqs w).

Lemma keeps_with_transaction {A} (fn : M World exn A) :
  grows fn →
  (∀ w a w', world_inv w → fn w = (Ok a, w') → world_inv w') →
  keeps world_inv (with_transaction fn).
Proof.
  intros Hg Hok w Hw. unfold with_transaction. set (w1 := set_faults (tail (faults w)) w).
  assert (world_inv w1) as Hw1 by done. specialize (Hg w1). specialize (Hok w1).
  assert (∀ w', seqs_le w1 w' → world_inv (set_db (db w1) w')) as Hroll.
  { intros w' Hle. by apply (I_mono _ (seqs w1)). }
  destruct (mjoin _) as [[]|]; [done|..];
    destruct (fn w1) as [[?|[]] w2]; simpl in *; eauto.
Qed.

Lemma keeps_query {A} (f : Database → A) : keeps world_inv (with_transaction (on_db f)).
Proof.
  apply keeps_with_transaction; [apply grows_gets|].
  intros w a w' Hw. unfold on_db, gets. by intros [= <- <-].
Qed.

Lemma keeps_emit e : keeps world_inv (emit e).
Proof. intros w; done. Qed.
End Invariants.

(** ** Program logic for services

    Assertions speak about the tables and the sequences.  [hoare P m Q E]: from
    [P], a call of [m] that returns ends in [Q] of its result and one that
    throws ends in [E], whatever faults are injected on the way. *)
Definition assertion : Type := Database → (Seq → Z) → Prop.

Definition hoare {A} (P : assertion) (m : M World exn A) (Q : A → assertion) (E : assertion)
    : Prop :=
  ∀ w, P (db w) (seqs w) →
  match m w with
  | (Ok a, w') => Q a (db w') (seqs w')
  | (Err _, w') => E (db w') (seqs w')
  end.

Lemma hoare_ret {A} (P : assertion) (a : A) (Q : A → assertion) (E : assertion) :
  (∀ d s, P d s → Q a d s) → hoare P (mret a) Q E.
Proof. intros H w. apply H. Qed.

Lemma hoare_throw {A} (P : assertion) (e : exn) (Q : A → assertion) (E : assertion) :
  (∀ d s, P d s → E d s) → hoare P (mthrow e) Q E.
Proof. intros H w. apply H. Qed.

Lemma hoare_lift {A} (P : assertion) (r : result exn A) (Q : A → assertion) (E : assertion) :
  (∀ d s, P d s → E d s) → (∀ a d s, r = Ok a → P d s → Q a d s) → hoare P (lift r) Q E.
Proof. intros HE H w HP. unfold lift. destruct r; eauto. Qed.

Lemma hoare_emit (P E : assertion) e : hoare P (emit e) (λ _, P) E.
Proof. intros w HP. done. Qed.

Lemma hoare_emit_last (P Q E : assertion) e :
  (∀ d s, P d s → Q d s) → hoare P (emit e) (λ _, Q) E.
Proof. intros H w HP. by apply H. Qed.

Lemma hoare_bind {A B} (P : assertion) (R : A → assertion) (Q : B → assertion) (E : assertion)
    (m : M World exn A) (f : A → M World exn B) :
  hoare P m R E → (∀ a, hoare (R a) (f a) Q E) → hoare P (m ≫= f) Q E.
Proof.
  intros Hm Hf w HP. unfold mbind, M_bind. specialize (Hm w HP).
  destruct (m w) as [[a|e] w1]; [by apply Hf|done].
Qed.

Lemma hoare_conseq {A} (P P' : assertion) (Q Q' : A → assertion) (E E' : assertion) m :
  hoare P' m Q' E' → (∀ d s, P d s → P' d s) → (∀ a d s, Q' a d s → Q a d s) →
  (∀ d s, E' d s → E d s) → hoare P m Q E.
Proof.
  intros Hm HP HQ HE w Hw. specialize (Hm w (HP _ _ Hw)).
  destruct (m w) as [[a|e] w1]; eauto.
Qed.

Lemma hoare_query {A} (P : assertion) (f : Database → A) (E : assertion) :
  (∀ d s, P d s → E d s) →
  hoare P (with_transaction (on_db f)) (λ a d s, P d s ∧ a = f d) E.
Proof.
  intros HE w HP. unfold with_transaction, on_db, gets.
  destruct (mjoin _) as [[]|]; simpl; eauto.
Qed.

Lemma hoare_txn {A} (P : assertion) (fn : M World exn A) (Q : A → assertion) (E : assertion) :
  grows fn →
  (∀ d s s', P d s → (∀ q, s q <= s' q) → E d s') →
  (∀ w a w', P (db w) (seqs w) → fn w = (Ok a, w') →
     Q a (db w') (seqs w') ∧ E (db w') (seqs w')) →
  hoare P (with_transaction fn) Q E.
Proof.
  intros Hg HE Hok w HP. unfold with_transaction. set (w1 := set_faults _ w).
  assert (P (db w1) (seqs w1)) as HP1 by done. specialize (Hg w1).
  specialize (Hok w1). assert (∀ w', seqs_le w1 w' → E (db w1) (seqs w')) as Hroll
    by (intros; by apply (HE _ (seqs w1))).
  destruct (mjoin _) as [[]|]; simpl; [by apply (HE _ (seqs w))|..];
    destruct (fn w1) as [[a|[]] w2]; simpl in *; try (by apply Hroll); by destruct (Hok a w2).
Qed.

Lemma hoare_for_each {A} (P : assertion) (f : A → M World exn unit) (E : assertion) l :
  (∀ a, a ∈ l → hoare P (f a) (λ _, P) E) → hoare P (for_each f l) (λ _, P) E.
Proof.
  intros Hf. induction l as [|x l IH]; simpl; [by apply hoare_ret|].
  apply (hoare_bind _ (λ _, P)); [apply Hf; set_solver|]. intros _. apply IH. set_solver.
Qed.

Lemma foreign_key_ok b w a w' : foreign_key b w = (Ok a, w') → b = true ∧ w' = w.
Proof. destruct b; [|done]. by intros [= <-]. Qed.

Section Primitives.
Implicit Types w : World.

Lemma ret_ok {A} (a b : A) w w' : mret (M:=M World exn) a w = (Ok b, w') → b = a ∧ w' = w.
Proof. by intros [= -> ->]. Qed.
Lemma throw_ok {A} (e : exn) (b : A) w w' : mthrow (M:=M World exn) e w = (Ok b, w') → False.
Proof. done. Qed.
Lemma gets_ok {A} (f : World → A) w b w' : gets (E:=exn) f w = (Ok b, w') → b = f w ∧ w' = w.
Proof. by intros [= -> ->]. Qed.
Lemma on_db_ok {A} (f : Database → A) w b w' : on_db f w = (Ok b, w') → b = f (db w) ∧ w' = w.
Proof. apply (gets_ok (λ w, f (db w))). Qed.
Lemma clock_ok w b w' : clock w = (Ok b, w') → b = now w ∧ w' = w.
Proof. apply gets_ok. Qed.
Lemma nextval_ok s w b w' :
  nextval s w = (Ok b, w') → b = seqs w s ∧ w' = set_seq s (seqs w s + 1) w.
Proof. by intros [= -> ->]. Qed.
Lemma update_ok f w b w' : update f w = (Ok b, w') → w' = set_db (f (db w)) w.
Proof. unfold update, modify. intros H. by simplify_eq. Qed.
Lemma emit_ok e w a w' : emit e w = (Ok a, w') → w' = add_out e w.
Proof. unfold emit, modify. intros H. by simplify_eq. Qed.
Lemma lift_ok {A} (r : result exn A) w a w' : lift r w = (Ok a, w') → r = Ok a ∧ w' = w.
Proof. unfold lift. intros H. by simplify_eq. Qed.
End Primitives.

(** Entailments between assertions that are conjunctions. *)
Ltac entails :=
  cbn beta; intros; repeat match goal with H : _ ∧ _ |- _ => destruct H end; subst; eauto.

(** [run_txn H] executes a program in [H : m w = (Ok a, w')] as far as it is
    made of the primitives, one case per branch. *)
Ltac run_txn H :=
  cbn beta zeta in H;
  lazymatch type of H with
  | mbind _ _ _ = (Ok _, _) =>
      let a := fresh "a" in let w := fresh "w" in let Hs := fresh "Hs" in
      apply bind_ok_inv in H as (a & w & Hs & H); run_txn Hs; run_txn H
  | nextval _ _ = _ => apply nextval_ok in H as [-> ->]
  | clock _ = _ => apply clock_ok in H as [-> ->]
  | on_db _ _ = _ => apply on_db_ok in H as [-> ->]
  | gets _ _ = _ => apply gets_ok in H as [-> ->]
  | update _ _ = _ => apply update_ok in H as ->
  | emit _ _ = _ => apply emit_ok in H as ->
  | lift _ _ = _ => apply lift_ok in H as [? ->]
  | mret _ _ = _ =>
      let E := fresh "Er" in
      apply ret_ok in H as [E ->]; try match type of E with ?x = _ => subst x end
  | mthrow _ _ = _ => by apply throw_ok in H
  | foreign_key _ _ = _ => apply foreign_key_ok in H as [? ->]
  | (if ?b then _ else _) _ = _ => destruct b eqn:?; run_txn H
  | (match ?x with _ => _ end) _ = _ => destruct x eqn:?; run_txn H
  | _ => idtac
  end;
  cbn [db seqs now faults out files io_faults set_db set_seq set_faults add_out set_files] in *.

(** ** Outputs *)

(** Programs that only read leave the outputs as they are, also when they
    fail; the same holds for writing transactions. *)
Definition silent {A} (m : M World exn A) : Prop := ∀ w, out (m w).2 = out w.

Lemma silent_ret {A} (a : A) : silent (mret a).
Proof. done. Qed.
Lemma silent_throw {A} (e : exn) : silent (A:=A) (mthrow e).
Proof. done. Qed.
Lemma silent_lift {A} (r : result exn A) : silent (lift r).
Proof. done. Qed.
Lemma silent_gets {A} (f : World → A) : silent (gets f).
Proof. done. Qed.
Lemma silent_update f : silent (update f).
Proof. done. Qed.
Lemma silent_nextval s : silent (nextval s).
Proof. done. Qed.
Lemma silent_foreign_key b : silent (foreign_key b).
Proof. by destruct b. Qed.
Lemma silent_bind {A B} (m : M World exn A) (f : A → M World exn B) :
  silent m → (∀ a, silent (f a)) → silent (m ≫= f).
Proof.
  intros Hm Hf w. unfold mbind, M_bind. specialize (Hm w).
  destruct (m w) as [[a|e] w1]; simpl in *; [by rewrite Hf|done].
Qed.
Lemma silent_for_each {A} (f : A → M World exn unit) l :
  (∀ a, silent (f a)) → silent (for_each f l).
Proof. intros Hf. induction l; simpl; [apply silent_ret|by apply silent_bind]. Qed.
Lemma silent_with_transaction {A} (fn : M World exn A) : silent fn → silent (with_transaction fn).
Proof.
  intros Hf w. unfold with_transaction. specialize (Hf (set_faults (tail (faults w)) w)).
  destruct (mjoin _) as [[]|], (fn _) as [[?|[]] ?]; simpl in *; done.
Qed.

Ltac solve_silent :=
  repeat first
    [ progress cbn beta iota zeta
    | apply silent_ret | apply silent_throw | apply silent_lift | apply silent_gets
    | apply silent_update | apply silent_nextval | apply silent_foreign_key
    | apply silent_with_transaction | apply silent_for_each; intros ?
    | apply silent_bind; [|intros ?] | case_match | progress unfold on_db, clock ].

(** A program that first computes silently and then only announces: a failure
    announces nothing. *)
Definition late {A} (m : M World exn A) : Prop :=
  ∀ w e w', m w = (Err e, w') → out w' = out w.

Lemma late_silent {A} (m : M World exn A) : silent m → late m.
Proof. intros H w e w' Hm. specialize (H w). by rewrite Hm in H. Qed.
Lemma late_bind {A B} (m : M World exn A) (f : A → M World exn B) :
  silent m → (∀ a, late (f a)) → late (m ≫= f).
Proof.
  intros Hm Hf w e w' H. specialize (Hm w). apply bind_err_inv in H as [H|(a & w1 & H1 & H)].
  - by rewrite H in Hm.
  - rewrite H1 in Hm. simpl in Hm. rewrite <- Hm. by eapply Hf.
Qed.
(** Emits never fail. *)
Lemma late_emit {B} e (m : M World exn B) :
  (∀ w, ∃ b w', m w = (Ok b, w')) → late (emit e ≫= λ _, m).
Proof.
  intros Hm w e' w' H. apply bind_err_inv in H as [H|(a & w1 & _ & H)]; [done|].
  destruct (Hm w1) as (b & w2 & H2). congruence.
Qed.
Ltac total_tac :=
  intros ?; unfold mbind, M_bind, emit, modify, mret, M_ret; eauto.

(** Programs that only read: they leave the world as it was, up to the faults
    they met. *)
Definition reader {A} (m : M World exn A) : Prop := ∀ w, same w (m w).2.

Lemma reader_ret {A} (a : A) : reader (mret a).
Proof. done. Qed.
Lemma reader_throw {A} (e : exn) : reader (A:=A) (mthrow e).
Proof. done. Qed.
Lemma reader_lift {A} (r : result exn A) : reader (lift r).
Proof. done. Qed.
Lemma reader_query {A} (f : Database → A) : reader (with_transaction (on_db f)).
Proof.
  intros w. unfold with_transaction, on_db, gets. by destruct (mjoin _) as [[]|].
Qed.
Lemma reader_bind {A B} (m : M World exn A) (f : A → M World exn B) :
  reader m → (∀ a, reader (f a)) → reader (m ≫= f).
Proof.
  intros Hm Hf w. unfold mbind, M_bind. specialize (Hm w).
  destruct (m w) as [[a|e] w1]; simpl in *; [by etrans; [|apply Hf]|done].
Qed.
Lemma reader_for_each {A} (f : A → M World exn unit) l :
  (∀ a, reader (f a)) → reader (for_each f l).
Proof. intros Hf. induction l; simpl; [apply reader_ret|by apply reader_bind]. Qed.

Lemma reader_silent {A} (m : M World exn A) : reader m → silent m.
Proof. intros H w. by destruct (H w) as (_ & _ & _ & ? & _). Qed.

Create HintDb reader discriminated.
#[export] Hint Resolve reader_ret reader_throw reader_lift reader_query reader_bind
  reader_for_each : reader.

(** A call that first reads and checks, and only then goes on: it succeeds only
    if the check did, and changes nothing if it did not. *)
Lemma gate {A B} (m : M World exn A) (k : A → M World exn B) (Good : Prop) w :
  reader m → (∀ a w', m w = (Ok a, w') → Good) →
  (is_ok ((m ≫= k) w).1 = true → Good) ∧ (¬ Good → same w ((m ≫= k) w).2).
Proof.
  intros Hr Hg. unfold mbind, M_bind. specialize (Hr w).
  destruct (m w) as [[a|e] w1] eqn:E; simpl in *; [|done].
  assert Good by eauto. split; [done|]. intros Hn. by destruct Hn.
Qed.
