(* ===== verification/Samples.v ===== *)
(** * Samples: a small world to evaluate the model on

    Three accounts, and a group of all three with a message in it. *)

From S2P Require Import Prelude Text Json Errors TimeUtil Models Events Database.
Open Scope string_scope.
Open Scope Z_scope.

Definition sample_user (name : string) : UserRow.t :=
  UserRow.mk name (name +:+ "@example.com") "pw" None None None "user" None None None 0 0.

(** Users 1, 2 and 3; nothing else. *)
Definition accounts_only : World :=
  mkWorld (set_users (list_to_map [(1, sample_user "ann"); (2, sample_user "bob");
                                   (3, sample_user "cyd")]) empty_db)
    (λ q, if decide (q = SUsers) then 4 else 1) 1700000000000000 [] [] ∅ [].

(** Group 1 of users 1 (owner), 2 and 3, with message 1 by user 2. *)
Definition group_world : World :=
  mkWorld
    (set_conversations {[1 := ConversationRow.mk "group" (Some "team") (Some 1) None 0 0 (Some 5)]}
    (set_participants (list_to_map [(1, ParticipantRow.mk 1 1 "owner" 0 None);
                                    (2, ParticipantRow.mk 1 2 "member" 0 None);
                                    (3, ParticipantRow.mk 1 3 "member" 0 None)])
    (set_messages {[1 := MessageRow.mk 1 2 "text" "hello" 5 5 None None]} (db accounts_only))))
    (λ _, 4) 1700000000000000 [] [] ∅ [].

(** Messages 1 to 5 of conversation 1. *)
Definition five_messages : Database :=
  set_messages (list_to_map ((λ i, (i, MessageRow.mk 1 2 "text" "hello" i i None None))
                               <$> [1; 2; 3; 4; 5])) empty_db.
