(* ===== verification/Users.v ===== *)
(** * Users: accounts

    Models src/repositories/pg_user_repository.cpp and
    src/services/user_service.cpp.  [LOWER] is ASCII lower-casing.  Password
    hashing belongs to bcrypt and is a parameter, [PasswordHasher]; the text of a
    unique violation belongs to PostgreSQL and is a parameter too. *)

From S2P Require Import Prelude Text Json Errors Validation TimeUtil Models Events Dto Database.
Open Scope string_scope.
Open Scope Z_scope.

(** [s.find(sub) != npos]. *)
Fixpoint contains (sub s : string) : bool :=
  starts_with sub s || match s with "" => false | String _ r => contains sub r end.

Definition LOWER (s : string) : string := transform tolower s.

(** [what()] of a unique violation, from the index and the duplicate key. *)
Class ViolationText := violation_what : string → string → string.

(** [IPasswordHasher]; the salt stands for the randomness of [hash]. *)
Class PasswordHasher := {
  hash : string → string → string;
  verify : string → string → bool
}.

Module PgUserRepository.
(* include/rtc/repositories/user_repository.hpp:15-19, NewUser *)
Record NewUser := { nu_username : string; nu_email : string; nu_password_hash : string }.

(* src/repositories/pg_user_repository.cpp:32-46, map_row *)
Definition map_row (kr : Z * UserRow.t) : User.t :=
  let '(id, r) := kr in
  User.mk id (UserRow.username r) (UserRow.email r) (UserRow.password_hash r)
    (UserRow.display_name r) (UserRow.bio r) (UserRow.avatar_url r)
    (db_time (UserRow.created_at r)) (db_time (UserRow.updated_at r)).

Definition has_username (u : string) (r : UserRow.t) : bool :=
  String.eqb (LOWER (UserRow.username r)) (LOWER u).
Definition has_email (e : string) (r : UserRow.t) : bool :=
  String.eqb (LOWER (UserRow.email r)) (LOWER e).

(* src/repositories/pg_user_repository.cpp:57-77, PgUserRepository::create *)
Definition create `{ViolationText} (input : NewUser) : M World exn User.t :=
  with_transaction (
    id ← nextval SUsers;
    now ← clock;
    d ← on_db (λ d, d);
    let row := UserRow.mk (nu_username input) (nu_email input) (nu_password_hash input)
                 None None None "user" None None None now now in
    let conflict (what : string) : exn :=
      if contains "email" what
      then ConflictException "Email is already registered" "field=email"
      else ConflictException "Username is already taken" "field=username" in
    if any_row (has_username (nu_username input)) (users d)
    then mthrow (conflict (violation_what "ux_users_username_lower" (LOWER (nu_username input))))
    else if any_row (has_email (nu_email input)) (users d)
    then mthrow (conflict (violation_what "ux_users_email_lower" (LOWER (nu_email input))))
    else
      update (λ d, set_users (<[id := row]> (users d)) d);;
      mret (map_row (id, row))).

(* src/repositories/pg_user_repository.cpp:79-85, PgUserRepository::find_by_id *)
Definition find_by_id (id : Z) : M World exn (option User.t) :=
  with_transaction (on_db (λ d, (λ r, map_row (id, r)) <$> users d !! id)).

(* src/repositories/pg_user_repository.cpp:87-93, PgUserRepository::find_by_username *)
Definition find_by_username (username : string) : M World exn (option User.t) :=
  with_transaction (on_db (λ d, map_row <$> one_row (has_username username) (users d))).

(* src/repositories/pg_user_repository.cpp:95-101, PgUserRepository::find_by_email *)
Definition find_by_email (email : string) : M World exn (option User.t) :=
  with_transaction (on_db (λ d, map_row <$> one_row (has_email email) (users d))).

(* src/repositories/pg_user_repository.cpp:103-110, PgUserRepository::find_by_identifier *)
Definition find_by_identifier (identifier : string) : M World exn (option User.t) :=
  with_transaction (on_db (λ d,
    map_row <$> one_row (λ r, has_username identifier r || has_email identifier r) (users d))).

(* src/repositories/pg_user_repository.cpp:112-119, PgUserRepository::exists_by_username *)
Definition exists_by_username (username : string) : M World exn bool :=
  with_transaction (on_db (λ d, any_row (has_username username) (users d))).

(* src/repositories/pg_user_repository.cpp:121-128, PgUserRepository::exists_by_email *)
Definition exists_by_email (email : string) : M World exn bool :=
  with_transaction (on_db (λ d, any_row (has_email email) (users d))).

(** [CASE WHEN flag THEN value ELSE column END]. *)
Definition case_when {A} (flag : bool) (value column : A) : A := if flag then value else column.

(* src/repositories/pg_user_repository.cpp:130-167, PgUserRepository::update_profile *)
Definition update_profile (id : Z) (u : UpdateProfileRequest) : M World exn User.t :=
  with_transaction (
    row ← on_db (λ d, users d !! id);
    now ← clock;
    match row with
    | None => mthrow (NotFoundException "User not found" "")
    | Some r =>
        if negb (display_name_set u) && negb (bio_set u) && negb (avatar_url_set u)
        then mret (map_row (id, r))
        else
          let r' := UserRow.mk (UserRow.username r) (UserRow.email r) (UserRow.password_hash r)
            (case_when (display_name_set u) (upd_display_name u) (UserRow.display_name r))
            (case_when (bio_set u) (upd_bio u) (UserRow.bio r))
            (case_when (avatar_url_set u) (upd_avatar_url u) (UserRow.avatar_url r))
            (UserRow.role r) (UserRow.banned_at r) (UserRow.ban_reason r) (UserRow.banned_by r)
            (UserRow.created_at r) now in
          update (λ d, set_users (<[id := r']> (users d)) d);;
          mret (map_row (id, r'))
    end).
End PgUserRepository.

Module UserService.
Import PgUserRepository.

(* src/services/user_service.cpp:15-15, kDummyHash *)
Definition kDummyHash : string :=
  "$2b$12$C6UzMDM.H6dfI/f/IKcEeO3f0i1E1r5aI3l0m9n8o7p6q5r4s3t2u".

(* src/services/user_service.cpp:19-27, UserService::register_user *)
Definition register_user `{PasswordHasher, ViolationText} (salt : string)
    (request : RegisterRequest) : M World exn User.t :=
  create {| nu_username := reg_username request; nu_email := reg_email request;
            nu_password_hash := hash salt (reg_password request) |}.

(* src/services/user_service.cpp:29-40, UserService::authenticate *)
Definition authenticate `{PasswordHasher} (request : LoginRequest) : M World exn User.t :=
  user ← find_by_identifier (login_identifier request);
  match user with
  | None =>
      let _ := verify (login_password request) kDummyHash in
      mthrow (AuthenticationException "Invalid credentials" "")
  | Some user =>
      if verify (login_password request) (User.password_hash user) then mret user
      else mthrow (AuthenticationException "Invalid credentials" "")
  end.

(* src/services/user_service.cpp:42-48, UserService::get_by_id *)
Definition get_by_id (id : Z) : M World exn User.t :=
  user ← find_by_id id;
  match user with
  | None => mthrow (NotFoundException "User not found" ("user_id=" +:+ to_string id))
  | Some user => mret user
  end.

(* src/services/user_service.cpp:50-62, UserService::update_profile *)
Definition update_profile (id : Z) (request : UpdateProfileRequest) : M World exn User.t :=
  request ← lift (validate_and_normalize_profile request);
  PgUserRepository.update_profile id request.
End UserService.
