(* ===== verification/Crypto.v ===== *)
(** * Crypto: password hashing and digests

    Models src/security/bcrypt_password_hasher.cpp and src/utils/hash.cpp over the
    libraries they call: the random generator and SHA-256 of OpenSSL and the
    primitives of the bcrypt library are parameters.  The two wrappers discharge
    the interfaces [PasswordHasher] and [Sha256] the services are written
    against. *)

From S2P Require Import Prelude Text Json Errors Tracing Models Dto Database Users.
Open Scope string_scope.
Open Scope Z_scope.

(** ** Passwords *)

(** [bcrypt_gensalt] from the work factor and a seed, [node_bcrypt] into a buffer
    from a key and a salt, and [bcrypt::validatePassword]; the last two may
    throw. *)
Class Bcrypt := {
  bcrypt_gensalt : Z → string → string;
  node_bcrypt : string → string → result string string;
  validatePassword : string → string → result string bool
}.

Module BcryptPasswordHasher.
(* include/rtc/security/bcrypt_password_hasher.hpp:17-19, kDefaultCost, kMinCost, kMaxCost *)
Definition kDefaultCost : Z := 12.
Definition kMinCost : Z := 4.
Definition kMaxCost : Z := 31.

(* src/security/bcrypt_password_hasher.cpp:67-68, BcryptPasswordHasher::BcryptPasswordHasher *)
Definition make (cost : Z) : Z := Z.max kMinCost (Z.min cost kMaxCost).

(* src/security/bcrypt_password_hasher.cpp:57-63, kSeedBytes, kHashBufferBytes, kHashLength *)
Definition kHashBufferBytes : nat := 61.
Definition kHashLength : nat := 60.

(** [s.resize(n)]: cut, or filled with NUL. *)
Fixpoint resize (n : nat) (s : string) : string :=
  match n with
  | O => ""
  | S n => match s with String c s => String c (resize n s) | "" => String "000" (resize n "") end
  end.

Section Hasher.
Context `{Bcrypt}.

(** [seed] is what RAND_bytes delivers, if it does. *)
(* src/security/bcrypt_password_hasher.cpp:70-100, BcryptPasswordHasher::hash *)
Definition hash (cost : Z) (seed : option string) (plaintext : string) : result exn string :=
  match seed with
  | None => Err (InternalException "Password hashing failed: no secure randomness available for the salt" "")
  | Some seed =>
      let salt := bcrypt_gensalt cost seed in
      match node_bcrypt plaintext salt with
      | Err what => Err (InternalException "Password hashing failed" what)
      | Ok buffer =>
          let hashed := resize kHashLength (resize kHashBufferBytes buffer) in
          if negb (String.length hashed =? kHashLength)%nat
             || negb (match hashed with String c _ => Ascii.eqb c "$" | "" => false end)
          then Err (InternalException "Password hashing produced a malformed hash" "")
          else Ok hashed
      end
  end.

(* src/security/bcrypt_password_hasher.cpp:102-115, BcryptPasswordHasher::verify *)
Definition verify (plaintext stored : string) : bool :=
  if String.eqb stored "" then false
  else match validatePassword plaintext stored with Ok b => b | Err _ => false end.

(** The hasher of the application, when the libraries deliver. *)
Definition hasher : PasswordHasher := {|
  Users.hash salt plaintext := match hash (make kDefaultCost) (Some salt) plaintext with Ok h => h | Err _ => "" end;
  Users.verify := verify |}.
End Hasher.
End BcryptPasswordHasher.

(** ** Digests *)

(** OpenSSL's SHA256: the bytes of the digest. *)
Class OpenSsl := SHA256 : string → list Z.

(* src/utils/hash.cpp:10-22, sha256_hex *)
Definition sha256_hex `{OpenSsl} (data : string) : string :=
  foldr (λ byte out, String (Random.hex_digit (Z.shiftr byte 4)) (String (Random.hex_digit (Z.land byte 15)) out)) ""
    (SHA256 data).

#[export] Instance openssl_sha256 `{OpenSsl} : Sha256 := sha256_hex.

(** ** What they give *)

Lemma resize_length n s : String.length (BcryptPasswordHasher.resize n s) = n.
Proof. revert s. induction n as [|n IH]; intros [|c s]; simpl; [done..|by rewrite IH|by rewrite IH]. Qed.

(** A hash is sixty characters and starts as one; whatever goes wrong is an
    internal error. *)
Lemma hash_well_formed `{Bcrypt} cost seed plaintext :
  match BcryptPasswordHasher.hash cost seed plaintext with
  | Ok h => String.length h = 60%nat ∧ String.prefix "$" h = true
  | Err e => ∃ message details, e = InternalException message details
  end.
Proof.
  unfold BcryptPasswordHasher.hash. destruct seed as [seed|]; [|by do 2 eexists].
  destruct (node_bcrypt _ _) as [buffer|what]; [|by do 2 eexists]. cbv zeta.
  set (h := BcryptPasswordHasher.resize _ _). assert (Hl : String.length h = 60%nat) by apply resize_length.
  rewrite Hl. simpl. destruct h as [|c h]; [done|]. simpl. destruct (Ascii.eqb_spec c "$") as [->|]; [|by do 2 eexists].
  simpl. split; [exact Hl|]. by destruct h.
Qed.

(** The assumption of the sign-in theorems about the hasher holds of this one, if
    the library validates what it produced. *)
Lemma hasher_verifies `{Bcrypt}
    (produces : ∀ cost seed p, ∃ b, node_bcrypt p (bcrypt_gensalt cost seed) = Ok b ∧ String.prefix "$" b = true ∧
       validatePassword p (BcryptPasswordHasher.resize 60 b) = Ok true) salt pw :
  let h := BcryptPasswordHasher.hasher in Users.verify (PasswordHasher:=h) pw (Users.hash (PasswordHasher:=h) salt pw) = true.
Proof.
  destruct (produces (BcryptPasswordHasher.make BcryptPasswordHasher.kDefaultCost) salt pw) as (b & Hb & Hp & Hv).
  cbv zeta. cbn [Users.verify Users.hash BcryptPasswordHasher.hasher]. unfold BcryptPasswordHasher.hash. rewrite Hb. cbv zeta.
  assert (Hr : ∀ s, BcryptPasswordHasher.resize 60 (BcryptPasswordHasher.resize 61 s) = BcryptPasswordHasher.resize 60 s).
  { intros s. generalize 60%nat. intros n. revert s. induction n as [|n IH]; intros [|c s]; [done..| |]; simpl; f_equal;
    [exact (IH "")|exact (IH s)]. }
  unfold BcryptPasswordHasher.kHashLength, BcryptPasswordHasher.kHashBufferBytes. rewrite Hr, resize_length. rewrite Nat.eqb_refl. cbn [negb orb].
  unfold BcryptPasswordHasher.verify. destruct b as [|c b]; [done|].
  change (BcryptPasswordHasher.resize 60 (String c b)) with (String c (BcryptPasswordHasher.resize 59 b)) in *.
  revert Hp. cbn [String.prefix]. destruct (ascii_dec "$" c) as [<-|]; [|done]. intros _.
  change (Ascii.eqb "$" "$") with true. cbn [negb orb String.eqb]. by rewrite Hv.
Qed.

(** Hexadecimal digits lose nothing: equal texts come from equal digests. *)
Lemma hex_digit_inj a b : 0 <= a < 16 → 0 <= b < 16 → Random.hex_digit a = Random.hex_digit b → a = b.
Proof.
  intros Ha Hb.
  assert (H : forallb (λ x, forallb (λ y, negb (Ascii.eqb (Random.hex_digit x) (Random.hex_digit y)) || (x =? y))
                 (seqZ 0 16)) (seqZ 0 16) = true) by (vm_compute; reflexivity).
  rewrite forallb_forall in H. specialize (H a). rewrite <- list_elem_of_In, elem_of_seqZ in H.
  specialize (H ltac:(lia)). rewrite forallb_forall in H. specialize (H b).
  rewrite <- list_elem_of_In, elem_of_seqZ in H. specialize (H ltac:(lia)). intros E. rewrite E, Ascii.eqb_refl in H.
  simpl in H. by apply Z.eqb_eq in H.
Qed.

Lemma sha256_hex_faithful `{OpenSsl} x y :
  Forall (λ b, 0 <= b < 256) (SHA256 x) → Forall (λ b, 0 <= b < 256) (SHA256 y) →
  sha256_hex x = sha256_hex y → SHA256 x = SHA256 y.
Proof.
  unfold sha256_hex. generalize (SHA256 x) as l, (SHA256 y) as k. induction l as [|a l IH]; intros [|b k] Hl Hk E; try done.
  inversion_clear Hl as [|?? Ha Hl']. inversion_clear Hk as [|?? Hb Hk']. simpl in E. injection E as E1 E2 E3.
  assert (Hsh : ∀ z, 0 <= z < 256 → 0 <= Z.shiftr z 4 < 16 ∧ 0 <= Z.land z 15 < 16 ∧ z = Z.shiftr z 4 * 16 + Z.land z 15).
  { intros z Hz. rewrite Z.shiftr_div_pow2 by lia. change 15 with (Z.ones 4). rewrite Z.land_ones by lia.
    change (2 ^ 4) with 16. pose proof (Z.div_mod z 16). pose proof (Z.mod_pos_bound z 16).
    split; [split; [apply Z.div_pos; lia|apply Z.div_lt_upper_bound; lia]|lia]. }
  destruct (Hsh a Ha) as (? & ? & ->), (Hsh b Hb) as (? & ? & ->).
  apply hex_digit_inj in E1; [|done..]. apply hex_digit_inj in E2; [|done..]. rewrite E1, E2. f_equal. by apply IH.
Qed.
