(* ===== verification/Conversations.v ===== *)
(** * Conversations: repository and service

    Models src/repositories/pg_conversation_repository.cpp (the SQL of each
    method, over the tables of Database.v, constraints, triggers and cascades
    included) and src/services/conversation_service.cpp. *)

From S2P Require Import Prelude Text Json Errors Validation TimeUtil Models Events Dto Database.
From S2P Require Import Users.
Open Scope string_scope.
Open Scope Z_scope.

(** Wire names of the events the services broadcast. *)
Module WireEvents.
(* include/rtc/realtime/events.hpp:12-33, rtc::realtime::events *)
Definition kMessageCreated := "message.created".
Definition kMessageUpdated := "message.updated".
Definition kMessageDeleted := "message.deleted".
Definition kConversationCreated := "conversation.created".
Definition kConversationDeleted := "conversation.deleted".
Definition kMemberAdded := "conversation.member_added".
Definition kMemberRemoved := "conversation.member_removed".
Definition kTypingStart := "typing.start".
Definition kTypingStop := "typing.stop".
Definition kPresenceUpdate := "presence.update".
Definition kReceiptUpdate := "receipt.update".
Definition kReadUpdate := "read.update".
Definition kAttachmentUploaded := "attachment.uploaded".
Definition kReactionAdded := "reaction.added".
Definition kReactionRemoved := "reaction.removed".
Definition kNotification := "notification".
Definition kSessionExpired := "session.expired".
Definition kCacheInvalidated := "cache.invalidated".
Definition kPong := "pong".
Definition kError := "error".
Definition kReady := "ready".
End WireEvents.

Module PgConversationRepository.

(* src/repositories/pg_conversation_repository.cpp:39-51, map_conversation *)
Definition map_conversation (kr : Z * ConversationRow.t) : Conversation.t :=
  let '(id, r) := kr in
  Conversation.mk id
    (default ConversationType.kDirect (ConversationType.from_string (ConversationRow.type r)))
    (ConversationRow.name r) (ConversationRow.owner_id r) (ConversationRow.direct_key r)
    (db_time (ConversationRow.created_at r)) (db_time (ConversationRow.updated_at r))
    (db_time <$> ConversationRow.last_message_at r).

(* src/repositories/pg_conversation_repository.cpp:53-63, map_participant *)
Definition map_participant (kr : Z * ParticipantRow.t) : ConversationParticipant.t :=
  let '(id, r) := kr in
  ConversationParticipant.mk id (ParticipantRow.conversation_id r) (ParticipantRow.user_id r)
    (default ParticipantRole.kMember (ParticipantRole.from_string (ParticipantRow.role r)))
    (db_time (ParticipantRow.joined_at r)) (ParticipantRow.last_read_message_id r).

(* src/repositories/pg_conversation_repository.cpp:69-73, direct_key *)
Definition direct_key (a b : Z) : string :=
  let lo := Z.min a b in
  let hi := Z.max a b in
  to_string lo +:+ ":" +:+ to_string hi.

(** [WHERE conversation_id = c AND user_id = u]. *)
Definition is_pair (c u : Z) (r : ParticipantRow.t) : bool :=
  (ParticipantRow.conversation_id r =? c) && (ParticipantRow.user_id r =? u).
Definition in_conversation (c : Z) (r : ParticipantRow.t) : bool :=
  ParticipantRow.conversation_id r =? c.
Definition of_user (u : Z) (r : ParticipantRow.t) : bool := ParticipantRow.user_id r =? u.
Definition has_direct_key (key : string) (r : ConversationRow.t) : bool :=
  bool_decide (ConversationRow.direct_key r = Some key).

(** [INSERT INTO conversation_participants ... ON CONFLICT DO NOTHING]. *)
Definition insert_ignore (c u : Z) (role : string) : M World exn unit :=
  id ← nextval SParticipants;
  now ← clock;
  d ← on_db (λ d, d);
  if any_row (is_pair c u) (participants d) then mret ()
  else
    foreign_key (exists_row (conversations d) c && exists_row (users d) u);;
    update (λ d, set_participants
      (<[id := ParticipantRow.mk c u role now None]> (participants d)) d).

(* src/repositories/pg_conversation_repository.cpp:77-99, PgConversationRepository::create_or_get_direct *)
Definition create_or_get_direct (user_a user_b : Z) : M World exn Conversation.t :=
  with_transaction (
    let key := direct_key user_a user_b in
    id ← nextval SConversations;
    now ← clock;
    d ← on_db (λ d, d);
    let upserted : Z * ConversationRow.t :=
      match one_row (has_direct_key key) (conversations d) with
      | Some (cid, r) =>
          (cid, ConversationRow.mk (ConversationRow.type r) (ConversationRow.name r)
                  (ConversationRow.owner_id r) (Some key) (ConversationRow.created_at r) now
                  (ConversationRow.last_message_at r))
      | None => (id, ConversationRow.mk "direct" None None (Some key) now now None)
      end in
    update (λ d, set_conversations (<[upserted.1 := upserted.2]> (conversations d)) d);;
    let conv := map_conversation upserted in
    insert_ignore (Conversation.id conv) user_a "member";;
    insert_ignore (Conversation.id conv) user_b "member";;
    mret conv).

(* src/repositories/pg_conversation_repository.cpp:101-129, PgConversationRepository::create_group *)
Definition create_group (owner_id : Z) (name : string) (member_ids : list Z)
    : M World exn Conversation.t :=
  with_transaction (
    id ← nextval SConversations;
    now ← clock;
    d ← on_db (λ d, d);
    foreign_key (exists_row (users d) owner_id);;
    let row := ConversationRow.mk "group" (Some name) (Some owner_id) None now now None in
    update (λ d, set_conversations (<[id := row]> (conversations d)) d);;
    let conv := map_conversation (id, row) in
    pid ← nextval SParticipants;
    update (λ d, set_participants
      (<[pid := ParticipantRow.mk (Conversation.id conv) owner_id "owner" now None]>
         (participants d)) d);;
    for_each (λ member,
      if member =? owner_id then mret ()
      else insert_ignore (Conversation.id conv) member "member") member_ids;;
    mret conv).

(* src/repositories/pg_conversation_repository.cpp:131-139, PgConversationRepository::find_by_id *)
Definition find_by_id (id : Z) : M World exn (option Conversation.t) :=
  with_transaction (on_db (λ d, (λ r, map_conversation (id, r)) <$> conversations d !! id)).

(** [ORDER BY c.last_message_at DESC NULLS LAST, c.id DESC]. *)
Definition activity_le (a b : Z * ConversationRow.t) : Prop :=
  match ConversationRow.last_message_at a.2, ConversationRow.last_message_at b.2 with
  | Some x, Some y => y < x ∨ (x = y ∧ b.1 <= a.1)
  | Some _, None => True
  | None, Some _ => False
  | None, None => b.1 <= a.1
  end.
Global Instance activity_le_dec a b : Decision (activity_le a b).
Proof. unfold activity_le. repeat case_match; apply _. Defined.

Definition limit_offset {A} (page : Pagination.t) (l : list A) : list A :=
  take (Z.to_nat (Pagination.limit page)) (drop (Z.to_nat (Pagination.offset page)) l).

(* src/repositories/pg_conversation_repository.cpp:141-158, PgConversationRepository::list_for_user *)
Definition list_for_user (user_id : Z) (page : Pagination.t) : M World exn (list Conversation.t) :=
  with_transaction (on_db (λ d,
    let joined := omap (λ kp : Z * ParticipantRow.t,
      let c := ParticipantRow.conversation_id kp.2 in
      (λ r, (c, r)) <$> conversations d !! c) (rows (of_user user_id) (participants d)) in
    map_conversation <$> limit_offset page (merge_sort activity_le joined))).

(** [ORDER BY joined_at ASC, id ASC]. *)
Definition joined_le (a b : Z * ParticipantRow.t) : Prop :=
  ParticipantRow.joined_at a.2 < ParticipantRow.joined_at b.2 ∨
  (ParticipantRow.joined_at a.2 = ParticipantRow.joined_at b.2 ∧ a.1 <= b.1).
Global Instance joined_le_dec a b : Decision (joined_le a b).
Proof. unfold joined_le. apply _. Defined.

Definition members_by_seniority (c : Z) (d : Database) : list (Z * ParticipantRow.t) :=
  merge_sort joined_le (rows (in_conversation c) (participants d)).

(* src/repositories/pg_conversation_repository.cpp:160-174, PgConversationRepository::list_participants *)
Definition list_participants (conversation_id : Z) : M World exn (list ConversationParticipant.t) :=
  with_transaction (on_db (λ d, map_participant <$> members_by_seniority conversation_id d)).

Definition member_ids (c : Z) (d : Database) : list Z :=
  (λ kp, ParticipantRow.user_id kp.2) <$> rows (in_conversation c) (participants d).

(* src/repositories/pg_conversation_repository.cpp:176-189, PgConversationRepository::list_participant_ids *)
Definition list_participant_ids (conversation_id : Z) : M World exn (list Z) :=
  with_transaction (on_db (member_ids conversation_id)).

(* src/repositories/pg_conversation_repository.cpp:191-202, PgConversationRepository::list_conversation_ids *)
Definition list_conversation_ids (user_id : Z) : M World exn (list Z) :=
  with_transaction (on_db (λ d,
    (λ kp, ParticipantRow.conversation_id kp.2) <$> rows (of_user user_id) (participants d))).

(* src/repositories/pg_conversation_repository.cpp:204-220, PgConversationRepository::list_peer_ids *)
Definition list_peer_ids (user_id : Z) : M World exn (list Z) :=
  with_transaction (on_db (λ d,
    remove_dups (
      p1 ← rows (of_user user_id) (participants d);
      p2 ← rows (λ r, (ParticipantRow.conversation_id p1.2 =? ParticipantRow.conversation_id r)
                      && negb (ParticipantRow.user_id r =? user_id)) (participants d);
      [ParticipantRow.user_id p2.2]))).

(* src/repositories/pg_conversation_repository.cpp:222-233, PgConversationRepository::find_participant *)
Definition find_participant (conversation_id user_id : Z)
    : M World exn (option ConversationParticipant.t) :=
  with_transaction (on_db (λ d,
    map_participant <$> one_row (is_pair conversation_id user_id) (participants d))).

Definition is_member (c u : Z) (d : Database) : bool := any_row (is_pair c u) (participants d).

(* src/repositories/pg_conversation_repository.cpp:235-244, PgConversationRepository::is_participant *)
Definition is_participant (conversation_id user_id : Z) : M World exn bool :=
  with_transaction (on_db (is_member conversation_id user_id)).

(* src/repositories/pg_conversation_repository.cpp:246-261, PgConversationRepository::add_participant *)
Definition add_participant (conversation_id user_id : Z) (role : ParticipantRole.t)
    : M World exn unit :=
  with_transaction (
    id ← nextval SParticipants;
    now ← clock;
    d ← on_db (λ d, d);
    if any_row (is_pair conversation_id user_id) (participants d)
    then mthrow (ConflictException "User is already a member of the conversation" "")
    else
      foreign_key (exists_row (conversations d) conversation_id && exists_row (users d) user_id);;
      update (λ d, set_participants
        (<[id := ParticipantRow.mk conversation_id user_id (ParticipantRole.to_string role) now None]>
           (participants d)) d)).

(* src/repositories/pg_conversation_repository.cpp:263-271, PgConversationRepository::remove_participant *)
Definition remove_participant (conversation_id user_id : Z) : M World exn unit :=
  with_transaction (
    update (λ d, set_participants
      (delete_where (is_pair conversation_id user_id) (participants d)) d)).

(** [UPDATE conversations SET ... WHERE id = c]; the trigger sets [updated_at]. *)
Definition update_conversation (c : Z) (f : ConversationRow.t → ConversationRow.t) (now : Z)
    (d : Database) : Database :=
  set_conversations (alter (λ r,
    let r := f r in
    ConversationRow.mk (ConversationRow.type r) (ConversationRow.name r)
      (ConversationRow.owner_id r) (ConversationRow.direct_key r)
      (ConversationRow.created_at r) now (ConversationRow.last_message_at r)) c
    (conversations d)) d.

(* src/repositories/pg_conversation_repository.cpp:273-278, PgConversationRepository::rename *)
Definition rename (conversation_id : Z) (name : string) : M World exn unit :=
  with_transaction (
    now ← clock;
    update (update_conversation conversation_id (λ r,
      ConversationRow.mk (ConversationRow.type r) (Some name) (ConversationRow.owner_id r)
        (ConversationRow.direct_key r) (ConversationRow.created_at r)
        (ConversationRow.updated_at r) (ConversationRow.last_message_at r)) now)).

Definition set_role (role : string) (r : ParticipantRow.t) : ParticipantRow.t :=
  ParticipantRow.mk (ParticipantRow.conversation_id r) (ParticipantRow.user_id r) role
    (ParticipantRow.joined_at r) (ParticipantRow.last_read_message_id r).

(* src/repositories/pg_conversation_repository.cpp:280-297, PgConversationRepository::transfer_ownership *)
Definition transfer_ownership (conversation_id new_owner_id : Z) : M World exn unit :=
  with_transaction (
    now ← clock;
    d ← on_db (λ d, d);
    foreign_key (exists_row (users d) new_owner_id || negb (exists_row (conversations d) conversation_id));;
    update (update_conversation conversation_id (λ r,
      ConversationRow.mk (ConversationRow.type r) (ConversationRow.name r) (Some new_owner_id)
        (ConversationRow.direct_key r) (ConversationRow.created_at r)
        (ConversationRow.updated_at r) (ConversationRow.last_message_at r)) now);;
    update (λ d, set_participants (update_where (λ r,
      in_conversation conversation_id r && String.eqb (ParticipantRow.role r) "owner"
        && negb (ParticipantRow.user_id r =? new_owner_id)) (set_role "member") (participants d)) d);;
    update (λ d, set_participants (update_where (is_pair conversation_id new_owner_id)
      (set_role "owner") (participants d)) d)).

(** [DELETE FROM conversations] with its cascades: participants and messages go
    with their conversation; receipts, reactions and attachments with their
    message. *)
Definition cascade (c : Z) (d : Database) : Database :=
  let ms := delete_where (λ r, MessageRow.conversation_id r =? c) (messages d) in
  let gone (m : Z) : bool := exists_row (messages d) m && negb (exists_row ms m) in
  mkDb (users d) (delete c (conversations d))
    (delete_where (in_conversation c) (participants d)) ms
    (delete_where (λ r, gone (ReceiptRow.message_id r)) (receipts d))
    (delete_where (λ r, match AttachmentRow.message_id r with Some m => gone m | None => false end)
       (attachments d))
    (delete_where (λ r, gone (ReactionRow.message_id r)) (reactions d))
    (notifications d) (sessions d) (audit_logs d).

(* src/repositories/pg_conversation_repository.cpp:299-303, PgConversationRepository::remove *)
Definition remove (conversation_id : Z) : M World exn unit :=
  with_transaction (update (cascade conversation_id)).

(* src/repositories/pg_conversation_repository.cpp:305-318, PgConversationRepository::update_last_read *)
Definition update_last_read (conversation_id user_id message_id : Z) : M World exn unit :=
  with_transaction (
    update (λ d, set_participants (update_where (is_pair conversation_id user_id) (λ r,
      ParticipantRow.mk (ParticipantRow.conversation_id r) (ParticipantRow.user_id r)
        (ParticipantRow.role r) (ParticipantRow.joined_at r)
        (Some (Z.max (default 0 (ParticipantRow.last_read_message_id r)) message_id)))
      (participants d)) d)).
End PgConversationRepository.

Module ConversationService.
Import PgConversationRepository.

(* src/services/conversation_service.cpp:20-27, ConversationService::require_conversation *)
Definition require_conversation (conversation_id : Z) : M World exn Conversation.t :=
  conversation ← find_by_id conversation_id;
  match conversation with
  | None => mthrow (NotFoundException "Conversation not found"
                      ("conversation_id=" +:+ to_string conversation_id))
  | Some conversation => mret conversation
  end.

(* src/services/conversation_service.cpp:29-34, ConversationService::require_participant *)
Definition require_participant (conversation_id user_id : Z) : M World exn unit :=
  b ← is_participant conversation_id user_id;
  if (b : bool) then mret () else mthrow (NotFoundException "Conversation not found" "").

(* src/services/conversation_service.cpp:36-44, ConversationService::require_owner *)
Definition require_owner (conversation : Conversation.t) (user_id : Z) : M World exn unit :=
  if negb (Conversation.is_group conversation)
  then mthrow (ValidationException "Operation is only valid for group conversations" "")
  else if decide (Conversation.owner_id conversation = Some user_id) then mret ()
  else mthrow (AuthorizationException "Only the group owner may perform this action" "").

(* src/services/conversation_service.cpp:46-50, ConversationService::require_user_exists *)
Definition require_user_exists (user_id : Z) : M World exn unit :=
  user ← PgUserRepository.find_by_id user_id;
  match user with
  | None => mthrow (NotFoundException "User not found" ("user_id=" +:+ to_string user_id))
  | Some _ => mret ()
  end.

(** [std::set<std::int64_t>] over a range: distinct and ascending. *)
Definition sorted_set (l : list Z) : list Z := merge_sort Z.le (remove_dups l).

(* src/services/conversation_service.cpp:56-102, ConversationService::create *)
Definition create (actor_id : Z) (request : CreateConversationRequest.t)
    : M World exn Conversation.t :=
  conversation ←
    (if decide (CreateConversationRequest.type request = ConversationType.kDirect) then
       match CreateConversationRequest.participant_ids request with
       | [other] =>
           if other =? actor_id
           then mthrow (ValidationException "Cannot start a direct conversation with yourself"
                          "field=participant_ids")
           else
             require_user_exists other;;
             create_or_get_direct actor_id other
       | _ => mthrow (ValidationException "A direct conversation requires exactly one other user"
                        "field=participant_ids")
       end
     else
       match CreateConversationRequest.name request with
       | None => mthrow (ValidationException "A group requires a name" "field=name")
       | Some name =>
           name ← lift (validate_group_name name);
           let members := filter (λ m, m ≠ actor_id)
                            (sorted_set (CreateConversationRequest.participant_ids request)) in
           for_each require_user_exists members;;
           create_group actor_id name members
       end);
  participants ← list_participants (Conversation.id conversation);
  ids ← list_participant_ids (Conversation.id conversation);
  emit (EBroadcast ids WireEvents.kConversationCreated
          (ConversationResponse.to_json (ConversationResponse.from conversation participants)));;
  emit (EPublish (ConversationCreated (Conversation.id conversation) actor_id
          (Conversation.is_group conversation) ids));;
  mret conversation.

(* src/services/conversation_service.cpp:104-108, ConversationService::get *)
Definition get (actor_id conversation_id : Z) : M World exn Conversation.t :=
  conversation ← require_conversation conversation_id;
  require_participant conversation_id actor_id;;
  mret conversation.

(* src/services/conversation_service.cpp:110-113, ConversationService::list *)
Definition list (actor_id : Z) (page : Pagination.t) : M World exn (list Conversation.t) :=
  list_for_user actor_id page.

(* src/services/conversation_service.cpp:115-118, ConversationService::participants *)
Definition participants (conversation_id : Z) := list_participants conversation_id.
(* src/services/conversation_service.cpp:120-122, ConversationService::participant_ids *)
Definition participant_ids (conversation_id : Z) := list_participant_ids conversation_id.
(* src/services/conversation_service.cpp:124-126, ConversationService::conversation_ids *)
Definition conversation_ids (user_id : Z) := list_conversation_ids user_id.
(* src/services/conversation_service.cpp:128-130, ConversationService::peer_ids *)
Definition peer_ids (user_id : Z) := list_peer_ids user_id.

(* src/services/conversation_service.cpp:132-149, ConversationService::remove *)
Definition remove (actor_id conversation_id : Z) : M World exn unit :=
  conversation ← require_conversation conversation_id;
  (if Conversation.is_group conversation then require_owner conversation actor_id
   else require_participant conversation_id actor_id);;
  ids ← list_participant_ids conversation_id;
  PgConversationRepository.remove conversation_id;;
  emit (EBroadcast ids WireEvents.kConversationDeleted
          (jobj [("conversation_id", JInt conversation_id)]));;
  emit (EPublish (ConversationDeleted conversation_id actor_id)).

(* src/services/conversation_service.cpp:151-165, ConversationService::rename_group *)
Definition rename_group (actor_id conversation_id : Z) (request : RenameGroupRequest.t)
    : M World exn Conversation.t :=
  conversation ← require_conversation conversation_id;
  require_owner conversation actor_id;;
  name ← lift (validate_group_name (RenameGroupRequest.name request));
  rename conversation_id name;;
  updated ← require_conversation conversation_id;
  ids ← list_participant_ids conversation_id;
  ps ← list_participants conversation_id;
  emit (EBroadcast ids WireEvents.kConversationCreated
          (ConversationResponse.to_json (ConversationResponse.from updated ps)));;
  mret updated.

Definition member_payload (conversation_id user_id : Z) : json :=
  jobj [("conversation_id", JInt conversation_id); ("user_id", JInt user_id)].

(* src/services/conversation_service.cpp:167-191, ConversationService::add_member *)
Definition add_member (actor_id conversation_id user_id : Z)
    : M World exn ConversationParticipant.t :=
  conversation ← require_conversation conversation_id;
  require_owner conversation actor_id;;
  require_user_exists user_id;;
  add_participant conversation_id user_id ParticipantRole.kMember;;
  participant ← find_participant conversation_id user_id;
  match participant with
  | None => mthrow (InternalException "Failed to load newly added participant" "")
  | Some participant =>
      ids ← list_participant_ids conversation_id;
      emit (EBroadcast ids WireEvents.kMemberAdded (member_payload conversation_id user_id));;
      emit (ENotify (AddedToGroup conversation_id user_id actor_id));;
      emit (EPublish (MemberAdded conversation_id user_id actor_id));;
      mret participant
  end.

(* src/services/conversation_service.cpp:193-214, ConversationService::remove_member *)
Definition remove_member (actor_id conversation_id target_user_id : Z) : M World exn unit :=
  conversation ← require_conversation conversation_id;
  require_owner conversation actor_id;;
  if decide (Conversation.owner_id conversation = Some target_user_id)
  then mthrow (ValidationException "The owner cannot be removed; transfer ownership or delete" "")
  else
    ids ← list_participant_ids conversation_id;
    remove_participant conversation_id target_user_id;;
    emit (EBroadcast ids WireEvents.kMemberRemoved
            (member_payload conversation_id target_user_id));;
    emit (ENotify (RemovedFromGroup conversation_id target_user_id actor_id));;
    emit (EPublish (MemberRemoved conversation_id target_user_id actor_id)).

(* src/services/conversation_service.cpp:216-242, ConversationService::leave *)
Definition leave (actor_id conversation_id : Z) : M World exn unit :=
  conversation ← require_conversation conversation_id;
  require_participant conversation_id actor_id;;
  ids ← list_participant_ids conversation_id;
  (if Conversation.is_group conversation
      && bool_decide (Conversation.owner_id conversation = Some actor_id)
   then
     members ← list_participants conversation_id;
     match List.find (λ p, negb (ConversationParticipant.user_id p =? actor_id)) members with
     | Some successor =>
         transfer_ownership conversation_id (ConversationParticipant.user_id successor);;
         remove_participant conversation_id actor_id
     | None => PgConversationRepository.remove conversation_id
     end
   else remove_participant conversation_id actor_id);;
  emit (EBroadcast ids WireEvents.kMemberRemoved (member_payload conversation_id actor_id)).
End ConversationService.
