(* ===== verification/RowMapping.v ===== *)
(** * RowMapping: the queries and the schema

    The column lists of the queries of src/repositories and the fields their row
    mappers read, against the schema of SqlSchema; the targets of their
    [ON CONFLICT] clauses.  What the mappers make of the fields is in the
    repositories' own files. *)

From S2P Require Import Prelude Text Errors Database SqlSchema.
Open Scope string_scope.
Open Scope Z_scope.

(** ** Column lists *)

(** An entry of a select list: a column, [EXTRACT(EPOCH FROM c)::bigint AS a], or
    [c::text AS a]. *)
Inductive Output := Plain (c : string) | Epoch (c a : string) | AsText (c a : string).
Definition source (o : Output) : string := match o with Plain c | Epoch c _ | AsText c _ => c end.
Definition name (o : Output) : string := match o with Plain c => c | Epoch _ a | AsText _ a => a end.
Definition plain (l : list string) : list Output := Plain <$> l.

(** A field as a mapper reads it: the type it asks for, and whether it looks for
    a null first. *)
Inductive FieldType := AsInt64 | AsInt | AsString | AsTime.
Record Field := mkField { f_name : string; f_type : FieldType; f_optional : bool }.
Definition int64 (n : string) : Field := mkField n AsInt64 false.
Definition text (n : string) : Field := mkField n AsString false.
Definition time (n : string) : Field := mkField n AsTime false.
Definition opt_int64 (n : string) : Field := mkField n AsInt64 true.
Definition opt_int (n : string) : Field := mkField n AsInt true.
Definition opt_text (n : string) : Field := mkField n AsString true.
Definition opt_time (n : string) : Field := mkField n AsTime true.

Module PgUser.
(* src/repositories/pg_user_repository.cpp:19-22, kSelectColumns *)
Definition kSelectColumns : list Output :=
  (plain ["id"; "username"; "email"; "password_hash"; "display_name"; "bio"; "avatar_url"]
   ++ [Epoch "created_at" "created_epoch"; Epoch "updated_at" "updated_epoch"])%list.
(* src/repositories/pg_user_repository.cpp:25-46, map_row *)
Definition fields : list Field :=
  [int64 "id"; text "username"; text "email"; text "password_hash"; opt_text "display_name"; opt_text "bio";
   opt_text "avatar_url"; time "created_epoch"; time "updated_epoch"].
End PgUser.

Module PgUserAdmin.
(* src/repositories/pg_user_admin_repository.cpp:18-23, kColumns *)
Definition kColumns : list Output :=
  (plain ["id"; "username"; "email"; "password_hash"; "display_name"; "bio"; "avatar_url"; "role"; "ban_reason";
          "banned_by"]
   ++ [Epoch "created_at" "created_epoch"; Epoch "updated_at" "updated_epoch"; Epoch "banned_at" "banned_epoch"])%list.
(* src/repositories/pg_user_admin_repository.cpp:55-74, map_record *)
Definition fields : list Field :=
  [int64 "id"; text "username"; text "email"; text "password_hash"; opt_text "display_name"; opt_text "bio";
   opt_text "avatar_url"; time "created_epoch"; time "updated_epoch"; opt_text "role"; opt_int64 "banned_epoch";
   opt_text "ban_reason"; opt_int64 "banned_by"].
End PgUserAdmin.

Module PgConversation.
(* src/repositories/pg_conversation_repository.cpp:31-37, conv_columns *)
Definition conv_columns : list Output :=
  (plain ["id"; "type"; "name"; "owner_id"; "direct_key"]
   ++ [Epoch "created_at" "created_epoch"; Epoch "updated_at" "updated_epoch";
       Epoch "last_message_at" "last_message_epoch"])%list.
(* src/repositories/pg_conversation_repository.cpp:39-51, map_conversation *)
Definition conversation_fields : list Field :=
  [int64 "id"; text "type"; opt_text "name"; opt_int64 "owner_id"; opt_text "direct_key"; time "created_epoch";
   time "updated_epoch"; opt_time "last_message_epoch"].
(* src/repositories/pg_conversation_repository.cpp:65-67, kParticipantColumns *)
Definition kParticipantColumns : list Output :=
  (plain ["id"; "conversation_id"; "user_id"; "role"] ++ [Epoch "joined_at" "joined_epoch"; Plain "last_read_message_id"])%list.
(* src/repositories/pg_conversation_repository.cpp:53-63, map_participant *)
Definition participant_fields : list Field :=
  [int64 "id"; int64 "conversation_id"; int64 "user_id"; text "role"; time "joined_epoch"; opt_int64 "last_read_message_id"].
End PgConversation.

Module PgMessage.
(* src/repositories/pg_message_repository.cpp:16-21, kColumns *)
Definition kColumns : list Output :=
  (plain ["id"; "conversation_id"; "sender_id"; "type"; "content"]
   ++ [Epoch "created_at" "created_epoch"; Epoch "updated_at" "updated_epoch"; Epoch "edited_at" "edited_epoch";
       Epoch "deleted_at" "deleted_epoch"])%list.
(* src/repositories/pg_message_repository.cpp:29-42, map_message *)
Definition fields : list Field :=
  [int64 "id"; int64 "conversation_id"; int64 "sender_id"; text "type"; text "content"; time "created_epoch";
   time "updated_epoch"; opt_time "edited_epoch"; opt_time "deleted_epoch"].
(** Of the table [m] of the join. *)
(* src/repositories/pg_message_search_repository.cpp:26-31, kMessageColumns *)
Definition kMessageColumns : list Output :=
  (plain ["id"; "conversation_id"; "sender_id"; "type"; "content"]
   ++ [Epoch "created_at" "created_epoch"; Epoch "updated_at" "updated_epoch"; Epoch "edited_at" "edited_epoch";
       Epoch "deleted_at" "deleted_epoch"])%list.
(* src/repositories/pg_message_search_repository.cpp:56-69, map_message *)
Definition search_fields : list Field :=
  [int64 "id"; int64 "conversation_id"; int64 "sender_id"; text "type"; text "content"; time "created_epoch";
   time "updated_epoch"; opt_time "edited_epoch"; opt_time "deleted_epoch"].
End PgMessage.

Module PgReceipt.
(* src/repositories/pg_read_receipt_repository.cpp:14-15, kColumns *)
Definition kColumns : list Output :=
  (plain ["id"; "message_id"; "user_id"; "state"] ++ [Epoch "updated_at" "updated_epoch"])%list.
(* src/repositories/pg_read_receipt_repository.cpp:23-32, map_receipt *)
Definition fields : list Field := [int64 "id"; int64 "message_id"; int64 "user_id"; text "state"; time "updated_epoch"].
End PgReceipt.

Module PgReaction.
(* src/repositories/pg_reaction_repository.cpp:14-17, kColumns *)
Definition kColumns : list Output :=
  (plain ["id"; "message_id"; "user_id"; "emoji"] ++ [Epoch "created_at" "created_epoch"; Epoch "updated_at" "updated_epoch"])%list.
(* src/repositories/pg_reaction_repository.cpp:19-28, map_row *)
Definition fields : list Field :=
  [int64 "id"; int64 "message_id"; int64 "user_id"; text "emoji"; time "created_epoch"; time "updated_epoch"].
End PgReaction.

Module PgAttachment.
(* src/repositories/pg_attachment_repository.cpp:14-17, kColumns *)
Definition kColumns : list Output :=
  (plain ["id"; "owner_id"; "message_id"; "storage_backend"; "storage_key"; "thumbnail_key"; "original_filename";
          "content_type"; "kind"; "byte_size"; "width"; "height"; "checksum"]
   ++ [Epoch "created_at" "created_epoch"])%list.
(* src/repositories/pg_attachment_repository.cpp:19-47, map_row *)
Definition fields : list Field :=
  [int64 "id"; int64 "owner_id"; opt_int64 "message_id"; text "storage_backend"; text "storage_key";
   opt_text "thumbnail_key"; text "original_filename"; text "content_type"; text "kind"; int64 "byte_size";
   opt_int "width"; opt_int "height"; opt_text "checksum"; time "created_epoch"].
End PgAttachment.

Module PgNotification.
(* src/repositories/pg_notification_repository.cpp:14-17, kColumns *)
Definition kColumns : list Output :=
  (plain ["id"; "user_id"; "type"]
   ++ [AsText "payload" "payload_text"; Epoch "read_at" "read_epoch"; Epoch "created_at" "created_epoch"])%list.
(* src/repositories/pg_notification_repository.cpp:19-47, map_row *)
Definition fields : list Field :=
  [int64 "id"; int64 "user_id"; text "type"; text "payload_text"; opt_time "read_epoch"; time "created_epoch"].
End PgNotification.

Module PgSession.
(* src/repositories/pg_session_repository.cpp:14-19, kColumns *)
Definition kColumns : list Output :=
  (plain ["id"; "user_id"; "refresh_token_hash"; "user_agent"; "ip"]
   ++ [Epoch "created_at" "created_epoch"; Epoch "last_used_at" "last_used_epoch"; Epoch "expires_at" "expires_epoch";
       Epoch "revoked_at" "revoked_epoch"])%list.
(* src/repositories/pg_session_repository.cpp:21-39, map_row *)
Definition fields : list Field :=
  [text "id"; int64 "user_id"; text "refresh_token_hash"; opt_text "user_agent"; opt_text "ip"; time "created_epoch";
   time "last_used_epoch"; time "expires_epoch"; opt_time "revoked_epoch"].
End PgSession.

Module PgAuditLog.
(* src/repositories/pg_audit_log_repository.cpp:19-23, kColumns *)
Definition kColumns : list Output :=
  (plain ["id"; "event_id"; "event_type"; "actor_id"; "actor_username"; "target_type"; "target_id"; "ip"; "user_agent";
          "correlation_id"; "trace_id"]
   ++ [AsText "metadata" "metadata_text"; Epoch "occurred_at" "occurred_epoch"; Epoch "created_at" "created_epoch"])%list.
(* src/repositories/pg_audit_log_repository.cpp:25-61, map_audit_log *)
Definition fields : list Field :=
  [int64 "id"; text "event_id"; text "event_type"; opt_int64 "actor_id"; opt_text "actor_username"; opt_text "target_type";
   opt_text "target_id"; opt_text "ip"; opt_text "user_agent"; opt_text "correlation_id"; opt_text "trace_id";
   opt_text "metadata_text"; time "occurred_epoch"; time "created_epoch"].
End PgAuditLog.

(** A query of one table: the rows it returns and the mapper that reads them. *)
Record Query := mkQuery { q_table : string; q_select : list Output; q_fields : list Field }.
Definition queries : list Query :=
  [mkQuery "users" PgUser.kSelectColumns PgUser.fields;
   mkQuery "users" PgUserAdmin.kColumns PgUserAdmin.fields;
   mkQuery "conversations" PgConversation.conv_columns PgConversation.conversation_fields;
   mkQuery "conversation_participants" PgConversation.kParticipantColumns PgConversation.participant_fields;
   mkQuery "messages" PgMessage.kColumns PgMessage.fields;
   mkQuery "messages" PgMessage.kMessageColumns PgMessage.search_fields;
   mkQuery "read_receipts" PgReceipt.kColumns PgReceipt.fields;
   mkQuery "message_reactions" PgReaction.kColumns PgReaction.fields;
   mkQuery "attachments" PgAttachment.kColumns PgAttachment.fields;
   mkQuery "notifications" PgNotification.kColumns PgNotification.fields;
   mkQuery "sessions" PgSession.kColumns PgSession.fields;
   mkQuery "audit_logs" PgAuditLog.kColumns PgAuditLog.fields].

(** ** Values *)

(** Timestamps are finite and count microseconds. *)
Inductive Value := VNull | VInt (z : Z) | VText (s : string) | VTime (micros : Z) | VJson (text : string) | VVector.

(** What a column of a type can hold besides null. *)
Definition holds (t : SqlType) (v : Value) : Prop :=
  match t, v with
  | BIGSERIAL, VInt z | BIGINT, VInt z => - 2 ^ 63 <= z < 2 ^ 63
  | INTEGER, VInt z => - 2 ^ 31 <= z < 2 ^ 31
  | TEXT, VText _ | VARCHAR _, VText _ | JSONB, VJson _ | TSVECTOR, VVector => True
  | TIMESTAMPTZ, VTime t => - 2 ^ 64 <= t <= 2 ^ 64
  | _, _ => False
  end.

(** A row that a table can hold. *)
Definition admitted (c : Column) (v : Value) : Prop := (v = VNull ∧ nullable c = true) ∨ holds (c_type c) v.
Definition admits (columns : list Column) (row : list Value) : Prop := Forall2 admitted columns row.

(** The value of the column of a name. *)
Fixpoint value_of (columns : list Column) (row : list Value) (c : string) : option Value :=
  match columns, row with
  | x :: columns, v :: row => if String.eqb (c_name x) c then Some v else value_of columns row c
  | _, _ => None
  end.

(** [EXTRACT] needs a timestamp and the cast to text, here, a document; null
    stays null. *)
Definition output (o : Output) (v : Value) : option Value :=
  match o, v with
  | Plain _, v => Some v
  | _, VNull => Some VNull
  | Epoch _ _, VTime t => Some (VInt (epoch t))
  | AsText _ _, VJson s => Some (VText s)
  | _, _ => None
  end.

(** A row of the result; a statement with an unknown column fails. *)
Fixpoint select (columns : list Column) (row : list Value) (l : list Output) : option (list (string * Value)) :=
  match l with
  | [] => Some []
  | o :: l =>
      v ← value_of columns row (source o);
      x ← output o v;
      rest ← select columns row l;
      Some ((name o, x) :: rest)
  end.

(** [row[name]]: the first column of the name, or an exception. *)
Fixpoint named (n : string) (res : list (string * Value)) : option Value :=
  match res with [] => None | (m, v) :: res => if String.eqb m n then Some v else named n res end.

(** [field.as<T>()]: an exception for a null, which [f_optional] mappers test
    before, for a number out of range, and for a text that is no number. *)
Definition as_type (t : FieldType) (v : Value) : bool :=
  match t, v with
  | AsInt64, VInt z | AsTime, VInt z => bool_decide (- 2 ^ 63 <= z < 2 ^ 63)
  | AsInt, VInt z => bool_decide (- 2 ^ 31 <= z < 2 ^ 31)
  | AsString, VText _ => true
  | _, _ => false
  end.
Definition reads (res : list (string * Value)) (f : Field) : bool :=
  match named (f_name f) res with
  | None => false
  | Some VNull => f_optional f
  | Some v => as_type (f_type f) v
  end.

(** ** The check on declarations *)

Fixpoint declared (columns : list Column) (c : string) : option Column :=
  match columns with [] => None | x :: columns => if String.eqb (c_name x) c then Some x else declared columns c end.

Definition output_type (o : Output) (t : SqlType) : option SqlType :=
  match o, t with
  | Plain _, t => Some t
  | Epoch _ _, TIMESTAMPTZ => Some BIGINT
  | AsText _ _, JSONB => Some TEXT
  | _, _ => None
  end.

Definition type_fits (f : FieldType) (t : SqlType) : bool :=
  match f, t with
  | (AsInt64 | AsTime), (BIGSERIAL | BIGINT | INTEGER) | AsInt, INTEGER | AsString, (TEXT | VARCHAR _) => true
  | _, _ => false
  end.

Definition output_fits (columns : list Column) (o : Output) : bool :=
  match declared columns (source o) with
  | Some c => bool_decide (is_Some (output_type o (c_type c)))
  | None => false
  end.

(** The first output of the field's name has a type it reads, and is not null
    where it does not look. *)
Definition field_fits (columns : list Column) (l : list Output) (f : Field) : bool :=
  match List.find (λ o, String.eqb (name o) (f_name f)) l with
  | Some o =>
      match declared columns (source o) with
      | Some c =>
          match output_type o (c_type c) with
          | Some t => type_fits (f_type f) t && (f_optional f || negb (nullable c))
          | None => false
          end
      | None => false
      end
  | None => false
  end.

Definition query_fits (cat : Catalog) (q : Query) : bool :=
  match tables cat !! q_table q with
  | Some columns => forallb (output_fits columns) (q_select q) && forallb (field_fits columns (q_select q)) (q_fields q)
  | None => false
  end.

(** ** Soundness *)

Lemma declared_value columns row c x :
  admits columns row → declared columns c = Some x → ∃ v, value_of columns row c = Some v ∧ admitted x v.
Proof.
  induction 1 as [|y v columns row Hv _ IH]; [done|]. simpl. destruct (String.eqb _ _); [|done].
  intros [= <-]. eauto.
Qed.

Lemma output_admitted o c v t :
  admitted c v → output_type o (c_type c) = Some t →
  ∃ x, output o v = Some x ∧ ((x = VNull ∧ nullable c = true) ∨ holds t x).
Proof.
  intros [[-> Hn]|Hh] Ht.
  - exists VNull. split; [by destruct o|]. by left.
  - destruct o, (c_type c) eqn:Et, v; simplify_eq/=; try done; eauto.
    eexists. split; [done|]. right. simpl. unfold epoch. case_match; Z.to_euclidean_division_equations; lia.
Qed.

Lemma fits_as f t v : holds t v → type_fits f t = true → as_type f v = true.
Proof. intros Hh Hf. destruct f, t, v; simplify_eq/=; try done; apply bool_decide_eq_true; lia. Qed.

Section Sound.
Context (columns : list Column) (row : list Value) (Hrow : admits columns row).

Lemma select_total l :
  forallb (output_fits columns) l = true → ∃ res, select columns row l = Some res.
Proof.
  induction l as [|o l IH]; [by eexists|]. simpl. intros [Ho Hl]%andb_true_iff. destruct (IH Hl) as [res Hres].
  unfold output_fits in Ho. destruct (declared columns (source o)) as [c|] eqn:Hc; [|done].
  apply bool_decide_eq_true in Ho as [t Ht]. destruct (declared_value _ _ _ _ Hrow Hc) as (v & Hv & Ha).
  destruct (output_admitted _ _ _ _ Ha Ht) as (x & Hx & _). rewrite Hv. simpl. rewrite Hx. simpl.
  rewrite Hres. by eexists.
Qed.

(** The value under a name is the output of the first entry of that name. *)
Lemma select_named l res n :
  select columns row l = Some res →
  named n res = o ← List.find (λ o, String.eqb (name o) n) l; v ← value_of columns row (source o); output o v.
Proof.
  revert res. induction l as [|o l IH]; intros res; simpl; [by intros [= <-]|].
  destruct (value_of columns row (source o)) as [v|] eqn:Hv; [|done]. simpl.
  destruct (output o v) as [x|] eqn:Hx; [|done]. simpl.
  destruct (select columns row l) as [rest|]; [|done]. intros [= <-]. simpl.
  destruct (String.eqb _ _); simpl; [by rewrite Hv; simpl; rewrite Hx|by apply IH].
Qed.

Lemma field_reads l res f :
  select columns row l = Some res → field_fits columns l f = true → reads res f = true.
Proof.
  intros Hs Hf. unfold reads. rewrite (select_named _ _ _ Hs). unfold field_fits in Hf.
  destruct (List.find _ l) as [o|]; [|done]. simpl.
  destruct (declared columns (source o)) as [c|] eqn:Hc; [|done].
  destruct (output_type o (c_type c)) as [t|] eqn:Ht; [|done].
  apply andb_true_iff in Hf as [Hty Hnull]. destruct (declared_value _ _ _ _ Hrow Hc) as (v & -> & Ha). simpl.
  destruct (output_admitted _ _ _ _ Ha Ht) as (x & -> & [[-> Hn]|Hh]).
  - rewrite Hn in Hnull. by destruct (f_optional f).
  - pose proof (fits_as _ _ _ Hh Hty). destruct x; try done. by destruct t.
Qed.
End Sound.

Lemma query_fits_sound cat q columns row :
  query_fits cat q = true → tables cat !! q_table q = Some columns → admits columns row →
  ∃ res, select columns row (q_select q) = Some res ∧ forallb (reads res) (q_fields q) = true.
Proof.
  unfold query_fits. intros Hq Hc Hrow. rewrite Hc in Hq. apply andb_true_iff in Hq as [Ho Hf].
  destruct (select_total _ _ Hrow _ Ho) as [res Hres]. exists res. split; [done|].
  apply forallb_forall. intros f Hin. rewrite forallb_forall in Hf. eapply field_reads; eauto.
Qed.

(** ** Inserts *)

(** The columns an [INSERT] gives: those whose parameter is never null, and those
    whose parameter is an [std::optional]; and its [ON CONFLICT] target. *)
Record Conflict := mkConflict { k_table : string; k_columns : list string; k_where : option Where }.
Record Insert := mkInsert { n_table : string; n_given : list string; n_optional : list string; n_conflict : option Conflict }.
Definition on_conflict (t : string) (columns : list string) : option Conflict := Some (mkConflict t columns None).

(* src/repositories/pg_user_repository.cpp:59-65, PgUserRepository::create (statement) *)
Definition insert_user : Insert := mkInsert "users" ["username"; "email"; "password_hash"] [] None.
(* src/repositories/pg_conversation_repository.cpp:83-87, PgConversationRepository::create_or_get_direct (statement) *)
Definition insert_direct : Insert :=
  mkInsert "conversations" ["type"; "direct_key"] []
    (Some (mkConflict "conversations" ["direct_key"] (Some (IsNotNull "direct_key")))).
(* src/repositories/pg_conversation_repository.cpp:90-96, PgConversationRepository::create_or_get_direct (members) *)
Definition insert_pair : Insert :=
  mkInsert "conversation_participants" ["conversation_id"; "user_id"; "role"] []
    (on_conflict "conversation_participants" ["conversation_id"; "user_id"]).
(* src/repositories/pg_conversation_repository.cpp:104-109, PgConversationRepository::create_group (statement) *)
Definition insert_group : Insert := mkInsert "conversations" ["type"; "name"; "owner_id"] [] None.
(* src/repositories/pg_conversation_repository.cpp:111-115, PgConversationRepository::create_group (owner) *)
Definition insert_owner : Insert :=
  mkInsert "conversation_participants" ["conversation_id"; "user_id"; "role"] [] None.
(* src/repositories/pg_conversation_repository.cpp:121-125, PgConversationRepository::create_group (members) *)
Definition insert_members : Insert :=
  mkInsert "conversation_participants" ["conversation_id"; "user_id"; "role"] []
    (on_conflict "conversation_participants" ["conversation_id"; "user_id"]).
(* src/repositories/pg_conversation_repository.cpp:251-256, PgConversationRepository::add_participant (statement) *)
Definition insert_participant : Insert :=
  mkInsert "conversation_participants" ["conversation_id"; "user_id"; "role"] [] None.
(* src/repositories/pg_message_repository.cpp:50-60, PgMessageRepository::create (statement) *)
Definition insert_message : Insert :=
  mkInsert "messages" ["conversation_id"; "sender_id"; "type"; "content"] [] None.
(* src/repositories/pg_read_receipt_repository.cpp:42-53, PgReadReceiptRepository::upsert_state (statement) *)
Definition insert_receipt : Insert :=
  mkInsert "read_receipts" ["message_id"; "user_id"; "state"] [] (on_conflict "read_receipts" ["message_id"; "user_id"]).
(* src/repositories/pg_read_receipt_repository.cpp:62-71, PgReadReceiptRepository::mark_conversation_read (statement) *)
Definition insert_receipts : Insert :=
  mkInsert "read_receipts" ["message_id"; "user_id"; "state"] [] (on_conflict "read_receipts" ["message_id"; "user_id"]).
(* src/repositories/pg_reaction_repository.cpp:36-43, PgReactionRepository::upsert (statement) *)
Definition insert_reaction : Insert :=
  mkInsert "message_reactions" ["message_id"; "user_id"; "emoji"] []
    (on_conflict "message_reactions" ["message_id"; "user_id"]).
(* src/repositories/pg_attachment_repository.cpp:53-67, PgAttachmentRepository::create (statement) *)
Definition insert_attachment : Insert :=
  mkInsert "attachments"
    ["owner_id"; "storage_backend"; "storage_key"; "original_filename"; "content_type"; "kind"; "byte_size"]
    ["checksum"] None.
(* src/repositories/pg_notification_repository.cpp:54-61, PgNotificationRepository::create (statement) *)
Definition insert_notification : Insert := mkInsert "notifications" ["user_id"; "type"; "payload"] [] None.
(* src/repositories/pg_session_repository.cpp:45-58, PgSessionRepository::create (statement) *)
Definition insert_session : Insert :=
  mkInsert "sessions" ["id"; "user_id"; "refresh_token_hash"; "expires_at"] ["user_agent"; "ip"] None.
(* src/repositories/pg_audit_log_repository.cpp:83-103, PgAuditLogRepository::append (statement) *)
Definition insert_audit : Insert :=
  mkInsert "audit_logs" ["event_id"; "event_type"; "metadata"; "occurred_at"]
    ["actor_id"; "actor_username"; "target_type"; "target_id"; "ip"; "user_agent"; "correlation_id"; "trace_id"]
    (on_conflict "audit_logs" ["event_id"]).

Definition inserts : list Insert :=
  [insert_user; insert_direct; insert_pair; insert_group; insert_owner; insert_members; insert_participant;
   insert_message; insert_receipt; insert_receipts; insert_reaction; insert_attachment; insert_notification;
   insert_session; insert_audit].

(** The row an [INSERT] makes: the parameters, and for the other columns the
    number of the sequence, the default or the generated value if the column has
    one ([fill]), or null. *)
Definition is_given (i : Insert) (c : string) : bool := bool_decide (c ∈ ((n_given i ++ n_optional i)%list)).
Definition has_default (c : Column) : bool :=
  bool_decide (c_type c = BIGSERIAL) || bool_decide (is_Some (default_ c)) || bool_decide (is_Some (generated c)).
Definition new_value (i : Insert) (given : string → Value) (fill : Column → Value) (c : Column) : Value :=
  if is_given i (c_name c) then given (c_name c) else if has_default c then fill c else VNull.
Definition new_row (i : Insert) (given : string → Value) (fill : Column → Value) (columns : list Column) : list Value :=
  new_value i given fill <$> columns.

Definition column_fits (i : Insert) (c : Column) : bool :=
  if is_given i (c_name c) then bool_decide (c_name c ∈ n_given i) || nullable c
  else has_default c || nullable c.
Definition insert_fits (cat : Catalog) (i : Insert) : bool :=
  match tables cat !! n_table i with
  | Some columns =>
      forallb (column_fits i) columns
      && forallb (λ c, match declared columns c with Some x => bool_decide (generated x = None) | None => false end)
           ((n_given i ++ n_optional i)%list)
  | None => false
  end.

(** Parameters of the column's type, null for optional ones only. *)
Definition typed (i : Insert) (columns : list Column) (given : string → Value) (fill : Column → Value) : Prop :=
  (∀ c, c ∈ columns → is_given i (c_name c) = true →
     ((c_name c ∉ n_given i) ∧ given (c_name c) = VNull) ∨ holds (c_type c) (given (c_name c))) ∧
  (∀ c, c ∈ columns → has_default c = true → holds (c_type c) (fill c)).

Lemma insert_fits_sound cat i columns given fill :
  insert_fits cat i = true → tables cat !! n_table i = Some columns → typed i columns given fill →
  admits columns (new_row i given fill columns).
Proof.
  unfold insert_fits. intros Hi Hc [Hg Hf]. rewrite Hc in Hi. apply andb_true_iff in Hi as [Hi _].
  rewrite forallb_forall in Hi. apply Forall2_fmap_r, Forall_Forall2_diag, Forall_forall. intros c Hin. unfold compose.
  specialize (Hi c (proj1 (list_elem_of_In _ _) Hin)). specialize (Hg c Hin). specialize (Hf c Hin).
  unfold new_value, column_fits in *. destruct (is_given i (c_name c)).
  - destruct (Hg eq_refl) as [[Hn Hv]|Hh]; [|by right]. left. split; [done|].
    apply orb_true_iff in Hi as [Hi%bool_decide_eq_true|]; done.
  - destruct (has_default c); [right; by apply Hf|]. left. done.
Qed.

(** ** Conflict targets *)

(** The arbiter PostgreSQL infers: a unique index on just these columns, total or
    with the condition of the clause; or a column declared unique.  Without one
    the statement fails. *)
Definition arbiter (k : Conflict) (i : Index) : bool :=
  i_unique i && String.eqb (i_table i) (k_table k)
  && bool_decide ((expression <$> keys i) = k_columns k)
  && (bool_decide (where_ i = None) || bool_decide (where_ i = k_where k)).
Definition unique_column (cat : Catalog) (k : Conflict) : bool :=
  match k_columns k with
  | [c] => match tables cat !! k_table k with
           | Some columns => match declared columns c with Some x => unique x | None => false end
           | None => false
           end
  | _ => false
  end.
Definition inferred (cat : Catalog) (k : Conflict) : bool :=
  existsb (λ ki, arbiter k ki.2) (map_to_list (indexes cat)) || unique_column cat k.
Definition conflict_inferred (cat : Catalog) (i : Insert) : bool :=
  match n_conflict i with Some k => inferred cat k | None => true end.


(** A new message, and what its mapper reads of it. *)
Module RowSample.
Definition given (c : string) : Value :=
  if bool_decide (c ∈ ["type"; "content"]) then VText "text" else VInt 7.
Definition fill (c : Column) : Value :=
  match c_type c with
  | BIGSERIAL | BIGINT | INTEGER => VInt 12
  | TEXT | VARCHAR _ => VText "x" | JSONB => VJson "{}" | TIMESTAMPTZ => VTime 1700000000000000 | TSVECTOR => VVector
  end.
Definition columns : list Column := default [] (tables without_trigrams !! "messages").
End RowSample.

