(* ===== verification/ConversationInv.v ===== *)
(** * ConversationInv: the membership and ownership invariant

    What the tables promise about conversations, and that every operation of
    ConversationService keeps it, also when transactions fail on the way.  The
    invariant has two strengths.  The strict one holds between calls.  The other
    one does not ask for the owner of a group to be in it: each transaction keeps
    it by itself, so it also holds when calls overlap. *)

From S2P Require Import Prelude Text Json Errors Validation TimeUtil Models Events Dto Database.
From S2P Require Import Users Conversations.
Import PgConversationRepository.
Open Scope string_scope.
Open Scope Z_scope.

(** The columns the invariant speaks about. *)
Definition cview (r : ConversationRow.t) : string * option Z * option string :=
  (ConversationRow.type r, ConversationRow.owner_id r, ConversationRow.direct_key r).
Definition pview (r : ParticipantRow.t) : Z * Z * string :=
  (ParticipantRow.conversation_id r, ParticipantRow.user_id r, ParticipantRow.role r).

(** A group has one owner, and no other member's role says owner; strictly, that
    user is a member.  A direct conversation has no owner, its key names two
    distinct users, and nobody else is in it. *)
Definition group_ok (strict : bool) (us : gset Z) (ps : gmap Z (Z * Z * string)) (c : Z)
    (v : string * option Z * option string) : Prop :=
  ∃ o, v = ("group", Some o, None) ∧ o ∈ us ∧
    (strict = true → ∃ p, ps !! p = Some (c, o, "owner")) ∧
    (∀ p u role, ps !! p = Some (c, u, role) →
       (role = "owner" ∧ u = o) ∨ (role = "member" ∧ (strict = true → u ≠ o))).
Definition direct_ok (ps : gmap Z (Z * Z * string)) (c : Z)
    (v : string * option Z * option string) : Prop :=
  ∃ a b, v = ("direct", None, Some (direct_key a b)) ∧ a ≠ b ∧
    (∀ p u role, ps !! p = Some (c, u, role) → role = "member" ∧ (u = a ∨ u = b)).

Record views_ok (strict : bool) (us : gset Z) (cs : gmap Z (string * option Z * option string))
    (ps : gmap Z (Z * Z * string)) (nc np : Z) : Prop := {
  c_fresh : ∀ c v, cs !! c = Some v → c < nc;
  p_fresh : ∀ p v, ps !! p = Some v → p < np;
  p_unique : ∀ p1 p2 c u role1 role2,
    ps !! p1 = Some (c, u, role1) → ps !! p2 = Some (c, u, role2) → p1 = p2;
  p_refs : ∀ p c u role, ps !! p = Some (c, u, role) → is_Some (cs !! c) ∧ u ∈ us;
  key_unique : ∀ c1 c2 t1 t2 o1 o2 k,
    cs !! c1 = Some (t1, o1, Some k) → cs !! c2 = Some (t2, o2, Some k) → c1 = c2;
  kind_ok : ∀ c v, cs !! c = Some v → group_ok strict us ps c v ∨ direct_ok ps c v
}.

Definition members_inv (strict : bool) : assertion := λ d s,
  views_ok strict (dom (users d)) (cview <$> conversations d) (pview <$> participants d)
    (s SConversations) (s SParticipants).
Definition conv_inv : assertion := members_inv true.

(** The key names the unordered pair. *)
Lemma direct_key_sym a b : direct_key a b = direct_key b a.
Proof. unfold direct_key. by rewrite Z.min_comm, Z.max_comm. Qed.

Lemma direct_key_inj a b a' b' :
  direct_key a b = direct_key a' b' → (a = a' ∧ b = b') ∨ (a = b' ∧ b = a').
Proof.
  unfold direct_key. intros H.
  apply (append_sep_inj is_int_char ":"%char) in H as [H1 H2]; try apply to_string_chars; [|done].
  apply to_string_inj in H1, H2. lia.
Qed.

(** ** The steps on views *)

Section Views.
Context {strict : bool} (us : gset Z) (cs : gmap Z (string * option Z * option string)).
Context (ps : gmap Z (Z * Z * string)) (nc np : Z).
Hypothesis Hok : views_ok strict us cs ps nc np.

Lemma views_mono nc' np' : nc <= nc' → np <= np' → views_ok strict us cs ps nc' np'.
Proof.
  intros Hc Hp. destruct Hok as [H1 H2]. split; try done.
  - intros c v Hv. specialize (H1 c v Hv). lia.
  - intros p v Hv. specialize (H2 p v Hv). lia.
Qed.

Lemma fresh_p : ps !! np = None.
Proof. destruct (ps !! np) eqn:E; [|done]. apply (p_fresh _ _ _ _ _ _ Hok) in E. lia. Qed.
Lemma fresh_c : cs !! nc = None.
Proof. destruct (cs !! nc) eqn:E; [|done]. apply (c_fresh _ _ _ _ _ _ Hok) in E. lia. Qed.

Lemma no_part_of_fresh p u role : ps !! p ≠ Some (nc, u, role).
Proof.
  intros E. apply (p_refs _ _ _ _ _ _ Hok) in E as [[v Hv] _]. apply (c_fresh _ _ _ _ _ _ Hok) in Hv. lia.
Qed.


(** A new member joins a group, or is one of the two users of a direct
    conversation. *)
Lemma views_join c u v :
  cs !! c = Some v → u ∈ us → (∀ p role, ps !! p ≠ Some (c, u, role)) →
  (group_ok strict us ps c v ∨ ∃ b, u ≠ b ∧ v.2 = Some (direct_key u b)) →
  views_ok strict us cs (<[np := (c, u, "member")]> ps) nc (np + 1).
Proof.
  intros Hc Hu Hnew Hkind. pose proof fresh_p as Hf. destruct Hok as [H1 H2 H3 H4 H5 H6].
  split; try done.
  - intros p v'. rewrite lookup_insert_Some. intros [[<- _]|[_ Hv]]; [lia|]. specialize (H2 _ _ Hv). lia.
  - intros p1 p2 c' u' r1 r2. rewrite !lookup_insert_Some.
    intros [[<- ?]|[? Hp1]] [[<- ?]|[? Hp2]]; simplify_eq; try done;
      [exfalso; by eapply Hnew|exfalso; by eapply Hnew|by eapply H3].
  - intros p c' u' role. rewrite lookup_insert_Some. intros [[<- ?]|[_ Hp]]; simplify_eq; eauto.
  - intros c' v' Hc'. destruct (H6 c' v' Hc') as [Hg|Hd].
    + left. destruct Hg as (o & -> & Ho & Hin & Hall). exists o. do 2 (split; [done|]). split.
      * intros Hs. destruct (Hin Hs) as (p & Hp). exists p. rewrite lookup_insert_ne; [done|]. intros <-. congruence.
      * intros p' u' role. rewrite lookup_insert_Some. intros [[<- ?]|[_ Hp']]; simplify_eq; [|eauto].
        right. split; [done|]. intros Hs ->. destruct (Hin Hs) as (p & Hp). by eapply Hnew.
    + right. destruct Hd as (a & b & -> & Hab & Hall). exists a, b. split; [done|]. split; [done|].
      intros p' u' role. rewrite lookup_insert_Some. intros [[<- ?]|[_ Hp']]; simplify_eq; [|eauto].
      split; [done|]. destruct Hkind as [(o & ? & _)|(b' & Hub & Hk)]; simplify_eq/=.
      by apply direct_key_inj in Hk as [[-> ->]|[-> ->]]; auto.
Qed.

(** A new group starts with its owner as the one member. *)
Lemma views_new_group o :
  o ∈ us →
  views_ok strict us (<[nc := ("group", Some o, None)]> cs) (<[np := (nc, o, "owner")]> ps)
    (nc + 1) (np + 1).
Proof.
  intros Ho. pose proof fresh_p as Hf. pose proof fresh_c as Hfc. pose proof no_part_of_fresh as Hnp.
  destruct Hok as [H1 H2 H3 H4 H5 H6]. split.
  - intros c v. rewrite lookup_insert_Some. intros [[<- _]|[_ Hv]]; [lia|]. specialize (H1 _ _ Hv). lia.
  - intros p v. rewrite lookup_insert_Some. intros [[<- _]|[_ Hv]]; [lia|]. specialize (H2 _ _ Hv). lia.
  - intros p1 p2 c' u' r1 r2. rewrite !lookup_insert_Some.
    intros [[<- ?]|[? Hp1]] [[<- ?]|[? Hp2]]; simplify_eq; try done;
      [by apply Hnp in Hp2|by apply Hnp in Hp1|by eapply H3].
  - intros p c' u' role. rewrite lookup_insert_Some. intros [[<- ?]|[_ Hp]]; simplify_eq.
    + split; [|done]. rewrite lookup_insert_eq. by eexists.
    + apply H4 in Hp as [? ?]. split; [|done]. rewrite lookup_insert_is_Some'. by right.
  - intros c1 c2 t1 t2 o1 o2 k. rewrite !lookup_insert_Some.
    intros [[<- ?]|[? Hp1]] [[<- ?]|[? Hp2]]; simplify_eq; eauto.
  - intros c v. rewrite lookup_insert_Some. intros [[<- <-]|[Hne Hv]].
    + left. exists o. do 2 (split; [done|]). split; [intros _; exists np; by rewrite lookup_insert_eq|].
      intros p u role. rewrite lookup_insert_Some. intros [[_ ?]|[_ Hp]]; simplify_eq; [auto|].
      by apply Hnp in Hp.
    + destruct (H6 c v Hv) as [(o' & -> & Ho' & Hin & Hall)|(a & b & -> & Hab & Hall)].
      * left. exists o'. do 2 (split; [done|]). split.
        { intros Hs. destruct (Hin Hs) as (p & Hp). exists p. rewrite lookup_insert_ne; [done|]. intros <-. congruence. }
        intros p' u' role. rewrite lookup_insert_Some. intros [[_ ?]|[_ Hp']]; simplify_eq; eauto.
      * right. exists a, b. do 2 (split; [done|]).
        intros p' u' role. rewrite lookup_insert_Some. intros [[_ ?]|[_ Hp']]; simplify_eq; eauto.
Qed.

(** A new direct conversation starts without members. *)
Lemma views_new_direct a b :
  a ≠ b → (∀ c t o, cs !! c ≠ Some (t, o, Some (direct_key a b))) →
  views_ok strict us (<[nc := ("direct", None, Some (direct_key a b))]> cs) ps (nc + 1) np.
Proof.
  intros Hab Hnew. pose proof fresh_c as Hfc. pose proof no_part_of_fresh as Hnp.
  destruct Hok as [H1 H2 H3 H4 H5 H6]. split; try done.
  - intros c v. rewrite lookup_insert_Some. intros [[<- _]|[_ Hv]]; [lia|]. specialize (H1 _ _ Hv). lia.
  - intros p c' u' role Hp. apply H4 in Hp as [? ?]. split; [|done].
    rewrite lookup_insert_is_Some'. by right.
  - intros c1 c2 t1 t2 o1 o2 k. rewrite !lookup_insert_Some.
    intros [[<- ?]|[? Hp1]] [[<- ?]|[? Hp2]]; simplify_eq; eauto; exfalso; by eapply Hnew.
  - intros c v. rewrite lookup_insert_Some. intros [[<- <-]|[Hne Hv]]; [|eauto].
    right. exists a, b. do 2 (split; [done|]). intros p u role Hp. by apply Hnp in Hp.
Qed.

(** Members leave; strictly, an owner only together with the group. *)
Lemma views_filter_parts (P : Z * Z * string → bool) :
  (strict = true → ∀ c o k, cs !! c = Some ("group", Some o, k) → P (c, o, "owner") = false) →
  views_ok strict us cs (filter (λ kv, P kv.2 = false) ps) nc np.
Proof.
  intros Hkeep. destruct Hok as [H1 H2 H3 H4 H5 H6]. split; try done.
  - intros p v. rewrite map_lookup_filter_Some. intros [? _]. eauto.
  - intros p1 p2 c u r1 r2. rewrite !map_lookup_filter_Some. intros [? _] [? _]. eauto.
  - intros p c u role. rewrite map_lookup_filter_Some. intros [? _]. eauto.
  - intros c v Hv. destruct (H6 c v Hv) as [(o & -> & Ho & Hin & Hall)|(a & b & -> & Hab & Hall)].
    + left. exists o. do 2 (split; [done|]). split.
      * intros Hs. destruct (Hin Hs) as (p & Hp). exists p. rewrite map_lookup_filter_Some. simpl. eauto.
      * intros p' u role. rewrite map_lookup_filter_Some. intros [? _]. eauto.
    + right. exists a, b. do 2 (split; [done|]).
      intros p' u role. rewrite map_lookup_filter_Some. intros [? _]. eauto.
Qed.

(** A conversation goes with all its members. *)
Lemma views_remove c :
  views_ok strict us (delete c cs) (filter (λ kv, (kv.2.1.1 =? c) = false) ps) nc np.
Proof.
  destruct Hok as [H1 H2 H3 H4 H5 H6]. split.
  - intros c' v. rewrite lookup_delete_Some. intros [_ ?]. eauto.
  - intros p v. rewrite map_lookup_filter_Some. intros [? _]. eauto.
  - intros p1 p2 c' u r1 r2. rewrite !map_lookup_filter_Some. intros [? _] [? _]. eauto.
  - intros p c' u role. rewrite map_lookup_filter_Some. simpl. intros [Hp Hne].
    rewrite lookup_delete_ne by lia. eauto.
  - intros c1 c2 t1 t2 o1 o2 k. rewrite !lookup_delete_Some. intros [_ ?] [_ ?]. eauto.
  - intros c' v. rewrite lookup_delete_Some. intros [Hne Hv].
    destruct (H6 c' v Hv) as [(o & -> & Ho & Hin & Hall)|(a & b & -> & Hab & Hall)].
    + left. exists o. do 2 (split; [done|]). split.
      * intros Hs. destruct (Hin Hs) as (p & Hp). exists p. rewrite map_lookup_filter_Some.
        split; [done|]. simpl. lia.
      * intros p' u role. rewrite map_lookup_filter_Some. intros [? _]. eauto.
    + right. exists a, b. do 2 (split; [done|]).
      intros p' u role. rewrite map_lookup_filter_Some. intros [? _]. eauto.
Qed.

(** Handing a group to another user; strictly, to one of its members. *)
Definition handover (c n : Z) (v : Z * Z * string) : Z * Z * string :=
  let '(c', u, role) := v in
  let role := if (c' =? c) && String.eqb role "owner" && negb (u =? n) then "member" else role in
  (c', u, if (c' =? c) && (u =? n) then "owner" else role).

Lemma views_handover c o n :
  cs !! c = Some ("group", Some o, None) → n ∈ us → (strict = true → ∃ p role, ps !! p = Some (c, n, role)) →
  views_ok strict us (<[c := ("group", Some n, None)]> cs) (handover c n <$> ps) nc np.
Proof.
  intros Hc Hus Hn. destruct Hok as [H1 H2 H3 H4 H5 H6].
  assert (∀ p c' u role, (handover c n <$> ps) !! p = Some (c', u, role) →
    ∃ role0, ps !! p = Some (c', u, role0) ∧ handover c n (c', u, role0) = (c', u, role)) as Hinv.
  { intros p c' u role. rewrite lookup_fmap_Some. intros ([[c1 u1] r1] & E & Hp).
    simpl in E. injection E as <- <- E. exists r1. split; [done|]. simpl. by rewrite E. }
  split.
  - intros c' v. rewrite lookup_insert_Some. intros [[<- _]|[_ ?]]; eauto.
  - intros p v. rewrite lookup_fmap_Some. intros (v0 & _ & ?). eauto.
  - intros p1 p2 c' u r1 r2 (?&?&_)%Hinv (?&?&_)%Hinv. eauto.
  - intros p c' u role (?&Hp&_)%Hinv. apply H4 in Hp as [? ?]. split; [|done].
    rewrite lookup_insert_is_Some'. by right.
  - intros c1 c2 t1 t2 o1 o2 k. rewrite !lookup_insert_Some.
    intros [[<- ?]|[? Hp1]] [[<- ?]|[? Hp2]]; simplify_eq; eauto.
  - intros c' v. rewrite lookup_insert_Some. intros [[<- <-]|[Hne Hv]].
    + left. exists n. do 2 (split; [done|]). destruct (H6 _ _ Hc) as [(o' & ? & _ & _ & Hall)|(?&?&?&_)]; [|done].
      split.
      * intros Hs. destruct (Hn Hs) as (p0 & r0 & Hp0). exists p0. rewrite lookup_fmap, Hp0. simpl.
        by rewrite !Z.eqb_refl.
      * intros p u role (r0 & Hp & E)%Hinv. simpl in E. rewrite Z.eqb_refl in E. simpl in E.
        destruct (Z.eqb_spec u n) as [->|Hun]; simpl in E; [left; by simplify_eq|right].
        destruct (Hall _ _ _ Hp) as [[-> _]|[-> _]]; simplify_eq/=; done.
    + assert (∀ p u role, (handover c n <$> ps) !! p = Some (c', u, role) →
        ps !! p = Some (c', u, role)) as Hsame.
      { intros p u role (r0 & Hp & E)%Hinv. simpl in E.
        rewrite (proj2 (Z.eqb_neq c' c)) in E by done. simpl in E. congruence. }
      destruct (H6 c' v Hv) as [(o' & -> & Ho' & Hin & Hall)|(a & b & -> & Hab & Hall)].
      * left. exists o'. do 2 (split; [done|]). split; [|eauto].
        intros Hs. destruct (Hin Hs) as (p & Hp). exists p. rewrite lookup_fmap, Hp. simpl. by rewrite (proj2 (Z.eqb_neq c' c)).
      * right. exists a, b. eauto.
Qed.
End Views.

(** ** From tables to views *)

Section Tables.
Context {strict : bool}.
Abbreviation inv := (members_inv strict).

Lemma conv_inv_mono d s s' : inv d s → (∀ q, s q <= s' q) → inv d s'.
Proof. intros H Hle. eapply views_mono; [exact H|apply Hle..]. Qed.

(** The invariant depends on the three views only. *)
Lemma conv_inv_ext d d' s s' :
  inv d s → dom (users d') = dom (users d) →
  cview <$> conversations d' = cview <$> conversations d →
  pview <$> participants d' = pview <$> participants d →
  (∀ q, s q <= s' q) → inv d' s'.
Proof.
  intros H Hu Hc Hp Hle. apply (conv_inv_mono _ s); [|done]. unfold members_inv. by rewrite Hu, Hc, Hp.
Qed.

Definition conv_view (d : Database) (c : Z) : option (string * option Z * option string) :=
  cview <$> conversations d !! c.

Lemma conv_view_lookup d c : conv_view d c = (cview <$> conversations d) !! c.
Proof. unfold conv_view. by rewrite lookup_fmap. Qed.

Lemma not_member_views c u (t : gmap Z ParticipantRow.t) :
  any_row (is_pair c u) t = false → ∀ p role, (pview <$> t) !! p ≠ Some (c, u, role).
Proof.
  rewrite any_row_false. intros H p role. rewrite lookup_fmap_Some. intros (r & E & Hr).
  specialize (H p r Hr). unfold is_pair, pview in *. simplify_eq. by rewrite !Z.eqb_refl in H.
Qed.

Lemma delete_where_views (P : ParticipantRow.t → bool) (P' : Z * Z * string → bool) t :
  (∀ r, P r = P' (pview r)) →
  pview <$> delete_where P t = filter (λ kv, P' kv.2 = false) (pview <$> t).
Proof.
  intros H. rewrite map_filter_fmap. unfold delete_where. f_equal.
  apply map_filter_ext. intros i x _. simpl. by rewrite H.
Qed.

Lemma alter_views {V B} (g : V → B) (f : V → V) (c : Z) (t : gmap Z V) :
  (∀ r, g (f r) = g r) → g <$> alter f c t = g <$> t.
Proof.
  intros H. apply map_eq. intros i. rewrite !lookup_fmap. destruct (decide (i = c)) as [->|Hne].
  - rewrite lookup_alter_eq. destruct (t !! c); simpl; [by rewrite H|done].
  - by rewrite lookup_alter_ne.
Qed.

Lemma update_where_views (P : ParticipantRow.t → bool) f t :
  (∀ r, pview (f r) = pview r) → pview <$> update_where P f t = pview <$> t.
Proof.
  intros H. unfold update_where. rewrite <- map_fmap_compose. apply map_fmap_ext.
  intros i x _. simpl. destruct (P x); [apply H|done].
Qed.

(** Who may be added: anyone to a group, the two users named by the key to a
    direct conversation. *)
Definition joinable (u : Z) (v : string * option Z * option string) : Prop :=
  v.1.1 = "group" ∨ ∃ b, u ≠ b ∧ v.2 = Some (direct_key u b).

Definition bump (s : Seq) (n : Z) (f : Seq → Z) : Seq → Z := λ s', if decide (s' = s) then n else f s'.

Lemma conv_inv_join d s c u now v :
  inv d s → conv_view d c = Some v → is_Some (users d !! u) →
  any_row (is_pair c u) (participants d) = false → joinable u v →
  inv (set_participants (<[s SParticipants := ParticipantRow.mk c u "member" now None]>
              (participants d)) d) (bump SParticipants (s SParticipants + 1) s).
Proof.
  intros Hinv Hv Hu Hnew Hj. unfold members_inv, bump. simpl. rewrite fmap_insert.
  change (pview (ParticipantRow.mk c u "member" now None)) with (c, u, "member").
  rewrite conv_view_lookup in Hv. eapply views_join; [exact Hinv|exact Hv|..].
  - by apply elem_of_dom.
  - by apply not_member_views.
  - destruct Hj as [Hg|Hd]; [|by right]. left.
    destruct (kind_ok _ _ _ _ _ _ Hinv c v Hv) as [H|(a & b & -> & _)]; [exact H|].
    by simpl in Hg.
Qed.

Lemma insert_ignore_ok c u w a w' v :
  insert_ignore c u "member" w = (Ok a, w') →
  inv (db w) (seqs w) → conv_view (db w) c = Some v → joinable u v →
  inv (db w') (seqs w') ∧ conv_view (db w') c = Some v.
Proof.
  unfold insert_ignore. intros H Hinv Hv Hj. run_txn H; [split; [|done]|split; [|done]].
  - eapply conv_inv_mono; [exact Hinv|]. intros q. case_decide; subst; lia.
  - match goal with E : (_ && _) = true |- _ => apply andb_true_iff in E as [_ Hu] end.
    apply exists_row_true in Hu. by eapply conv_inv_join.
Qed.

(** ** The repository keeps the invariant *)

Ltac grows_tac := solve [solve_grows].

(** The proof obligations common to the writing transactions: sequences grow
    and an undone transaction keeps the invariant. *)
Ltac hoare_write :=
  apply hoare_txn;
  [ grows_tac
  | intros d s s' HP Hle; first [ by eapply conv_inv_mono | by eapply conv_inv_mono; [apply HP|] ]
  | intros w a w' HP Hrun; enough (inv (db w') (seqs w')) by (split; done); run_txn Hrun ].

Lemma insert_ignore_grows c u role : grows (insert_ignore c u role).
Proof. unfold insert_ignore. solve_grows. Qed.

(** The upsert of a direct conversation: an existing one keeps its view, a new
    one starts without members. *)
Lemma upsert_inv a b w :
  a ≠ b → inv (db w) (seqs w) →
  let up : Z * ConversationRow.t :=
    match one_row (has_direct_key (direct_key a b)) (conversations (db w)) with
    | Some (cid, r) =>
        (cid, ConversationRow.mk (ConversationRow.type r) (ConversationRow.name r)
                (ConversationRow.owner_id r) (Some (direct_key a b)) (ConversationRow.created_at r)
                (now w) (ConversationRow.last_message_at r))
    | None => (seqs w SConversations,
               ConversationRow.mk "direct" None None (Some (direct_key a b)) (now w) (now w) None)
    end in
  let d := set_conversations (<[up.1 := up.2]> (conversations (db w))) (db w) in
  ∃ v, v.2 = Some (direct_key a b) ∧
    inv d (λ s', if decide (s' = SConversations) then seqs w SConversations + 1 else seqs w s') ∧
    conv_view d up.1 = Some v.
Proof.
  intros Hab Hinv up d. unfold d, up. clear d up. destruct (one_row _ _) as [[cid r]|] eqn:E.
  - apply one_row_some in E as [Hr Hkey]. apply bool_decide_eq_true in Hkey.
    exists (cview r). split; [done|]. split.
    + eapply conv_inv_ext; [exact Hinv|done| |done|].
      * simpl. rewrite fmap_insert. apply insert_id. rewrite lookup_fmap, Hr. simpl.
        unfold cview. simpl. by rewrite Hkey.
      * intros q. case_decide; subst; lia.
    + unfold conv_view. simpl. rewrite lookup_insert_eq. simpl. unfold cview. simpl. by rewrite Hkey.
  - exists ("direct", None, Some (direct_key a b)). split; [done|]. split.
    + unfold members_inv. simpl. rewrite fmap_insert. apply views_new_direct; [done|done|].
      intros c t o. rewrite lookup_fmap_Some. intros (r & Ev & Hr).
      rewrite one_row_none, any_row_false in E. specialize (E c r Hr).
      apply bool_decide_eq_false in E. unfold cview in Ev. by simplify_eq.
    + unfold conv_view. simpl. by rewrite lookup_insert_eq.
Qed.

Lemma create_or_get_direct_keeps a b :
  a ≠ b → hoare inv (create_or_get_direct a b) (λ _, inv) inv.
Proof.
  intros Hab. apply hoare_txn.
  - repeat first [apply insert_ignore_grows | progress solve_grows].
  - intros d s s' H Hle. by eapply conv_inv_mono.
  - intros w x w' Hinv H. enough (inv (db w') (seqs w')) by done.
    run_txn H. match goal with
    | H1 : insert_ignore _ a _ ?w1 = (Ok ?r1, ?w2), H2 : insert_ignore _ b _ ?w2 = (Ok ?r2, _) |- _ =>
        rename H1 into Ha; rename H2 into Hb end.
    destruct (upsert_inv a b w Hab Hinv) as (v & Hk & Hinv1 & Hv1).
    set (up := match one_row _ _ with Some _ => _ | None => _ end) in *.
    clearbody up. destruct up as [cid r]. simpl in *.
    eapply insert_ignore_ok in Ha as [Hinv2 Hv2]; [|exact Hinv1|exact Hv1|right; by exists b].
    eapply insert_ignore_ok in Hb as [Hinv3 Hv3]; [exact Hinv3|exact Hinv2|exact Hv2|].
    right. exists a. rewrite direct_key_sym. done.
Qed.

Lemma create_group_keeps o name ms :
  hoare inv (create_group o name ms) (λ _, inv) inv.
Proof.
  apply hoare_txn.
  - repeat first [apply insert_ignore_grows | progress solve_grows].
  - intros d s s' H Hle. by eapply conv_inv_mono.
  - intros w x w' Hinv H. enough (inv (db w') (seqs w')) by done. run_txn H.
    match goal with H1 : for_each _ _ ?w1 = (Ok ?r, _), H2 : exists_row _ o = true |- _ =>
      rename H1 into Hl; apply exists_row_true in H2 as Ho; set (w1' := w1) in * end.
    assert (inv (db w1') (seqs w1') ∧
            conv_view (db w1') (seqs w SConversations) = Some ("group", Some o, None)) as [Hi Hv].
    { unfold w1'. split.
      - unfold members_inv. simpl. rewrite !fmap_insert. apply views_new_group; [exact Hinv|].
        by apply elem_of_dom.
      - unfold conv_view. simpl. by rewrite lookup_insert_eq. }
    clearbody w1'. clear Hinv Ho. revert w1' Hi Hv Hl.
    induction ms as [|m ms IH]; intros w1 Hi Hv Hl; simpl in Hl.
    + run_txn Hl. done.
    + apply bind_ok_inv in Hl as ([] & w2 & Hs & Hl).
      destruct (m =? o); [run_txn Hs; by eapply IH|].
      eapply insert_ignore_ok in Hs as [Hi2 Hv2]; [|exact Hi|exact Hv|by left].
      by eapply IH.
Qed.

(** The conversation, if it is there, is a group. *)
Definition group_if_any (c : Z) (d : Database) : Prop := ∀ v, conv_view d c = Some v → v.1.1 = "group".

Lemma add_participant_keeps c u :
  hoare (λ d s, inv d s ∧ group_if_any c d)
    (add_participant c u ParticipantRole.kMember) (λ _, inv) inv.
Proof.
  hoare_write. destruct HP as [Hinv Hv].
  match goal with E : (_ && _) = true |- _ => apply andb_true_iff in E as [Hc Hu] end.
  apply exists_row_true in Hu. apply exists_row_true in Hc as [r Hr].
  assert (conv_view (db w) c = Some (cview r)) as Hcv by (unfold conv_view; by rewrite Hr).
  eapply conv_inv_join; [done..|]. left. by apply Hv.
Qed.

Lemma remove_participant_keeps c u :
  hoare (λ d s, inv d s ∧ (strict = true → ∀ k, conv_view d c ≠ Some ("group", Some u, k)))
    (remove_participant c u) (λ _, inv) inv.
Proof.
  hoare_write. destruct HP as [Hinv Hv]. unfold members_inv; simpl.
  rewrite (delete_where_views _ (λ v, (v.1.1 =? c) && (v.1.2 =? u))) by done.
  eapply (views_filter_parts (strict:=strict) _ _ _ _ _ Hinv (λ v, (v.1.1 =? c) && (v.1.2 =? u))). simpl.
  intros Hs c' o k Hc. rewrite <- conv_view_lookup in Hc.
  destruct (Z.eqb_spec c' c) as [->|], (Z.eqb_spec o u) as [->|]; try done. by apply (Hv Hs) in Hc.
Qed.

Lemma update_conversation_inv c f now d s :
  (∀ r, cview (f r) = cview r) → inv d s → inv (update_conversation c f now d) s.
Proof.
  intros Hf Hinv. eapply conv_inv_ext; [exact Hinv|done| |done|done]. simpl.
  apply alter_views. intros r. apply Hf.
Qed.

Lemma rename_keeps c name : hoare inv (rename c name) (λ _, inv) inv.
Proof. hoare_write. by apply update_conversation_inv. Qed.

Lemma update_last_read_keeps c u m :
  hoare inv (update_last_read c u m) (λ _, inv) inv.
Proof. hoare_write. eapply conv_inv_ext; [exact HP|done|done| |done]. by apply update_where_views. Qed.

Lemma remove_keeps c : hoare inv (remove c) (λ _, inv) inv.
Proof.
  hoare_write. unfold members_inv; simpl.
  rewrite fmap_delete, (delete_where_views _ (λ v, v.1.1 =? c)) by done. by apply views_remove.
Qed.

Lemma handover_views c n t :
  pview <$> update_where (is_pair c n) (set_role "owner") (update_where (λ r,
    in_conversation c r && String.eqb (ParticipantRow.role r) "owner" &&
      negb (ParticipantRow.user_id r =? n)) (set_role "member") t) =
  handover c n <$> (pview <$> t).
Proof.
  unfold update_where. rewrite <- !map_fmap_compose. apply map_fmap_ext. intros i r _. simpl.
  unfold is_pair, in_conversation, handover, pview, set_role. destruct r as [c' u role ? ?]; simpl.
  destruct (c' =? c) eqn:E1, (String.eqb role "owner") eqn:E2, (u =? n) eqn:E3; simpl;
    rewrite ?E1, ?E3; done.
Qed.

Lemma new_owner_views c n now d o k :
  conv_view d c = Some ("group", o, k) →
  cview <$> conversations (update_conversation c (λ r, ConversationRow.mk (ConversationRow.type r)
    (ConversationRow.name r) (Some n) (ConversationRow.direct_key r) (ConversationRow.created_at r)
    (ConversationRow.updated_at r) (ConversationRow.last_message_at r)) now d) =
  <[c := ("group", Some n, k)]> (cview <$> conversations d).
Proof.
  intros Ho. apply map_eq. intros i. simpl. rewrite lookup_fmap. destruct (decide (i = c)) as [->|Hne].
  - rewrite lookup_insert_eq, lookup_alter_eq. unfold conv_view in Ho.
    destruct (conversations d !! c) as [r|]; [|done]. injection Ho as Ht _ Hk.
    simpl. unfold cview. simpl. by rewrite Ht, Hk.
  - by rewrite lookup_insert_ne, lookup_alter_ne, lookup_fmap by done.
Qed.

Lemma is_member_views c u d :
  is_member c u d = true ↔ ∃ p role, (pview <$> participants d) !! p = Some (c, u, role).
Proof.
  unfold is_member. rewrite any_row_true. unfold is_pair. split.
  - intros (p & r & Hr & E). exists p, (ParticipantRow.role r). rewrite lookup_fmap, Hr. simpl.
    unfold pview. apply andb_true_iff in E as [->%Z.eqb_eq ->%Z.eqb_eq]. done.
  - intros (p & role & E). apply lookup_fmap_Some in E as (r & E & Hr). exists p, r. split; [done|].
    unfold pview in E. simplify_eq. by rewrite !Z.eqb_refl.
Qed.

(** Without the conversation there is nothing to hand over. *)
Lemma new_owner_none c n now d s :
  inv d s → conv_view d c = None →
  conversations (update_conversation c (λ r, ConversationRow.mk (ConversationRow.type r)
    (ConversationRow.name r) (Some n) (ConversationRow.direct_key r) (ConversationRow.created_at r)
    (ConversationRow.updated_at r) (ConversationRow.last_message_at r)) now d) = conversations d ∧
  handover c n <$> (pview <$> participants d) = pview <$> participants d.
Proof.
  intros Hinv Hc. split.
  - simpl. apply map_eq. intros i. destruct (decide (i = c)) as [->|Hne]; [|by rewrite lookup_alter_ne].
    rewrite lookup_alter_eq. unfold conv_view in Hc. by destruct (conversations d !! c).
  - apply map_eq. intros p. rewrite lookup_fmap. destruct ((pview <$> participants d) !! p) as [[[c' u] role]|] eqn:Hp;
      [|done]. simpl. destruct (Z.eqb_spec c' c) as [->|Hne]; [|done].
    destruct (p_refs _ _ _ _ _ _ Hinv p c u role Hp) as [Hs _]. rewrite <- conv_view_lookup, Hc in Hs. by destruct Hs.
Qed.

Lemma transfer_ownership_keeps c n :
  hoare (λ d s, inv d s ∧ group_if_any c d ∧ (strict = true → is_member c n d = true))
    (transfer_ownership c n)
    (λ _ d s, inv d s ∧ (strict = true → conv_view d c = Some ("group", Some n, None))) inv.
Proof.
  apply hoare_txn; [solve_grows|intros d s s' HP Hle; by eapply conv_inv_mono; [apply HP|]|].
  intros w a w' (Hinv & Hg & Hm) H.
  enough (inv (db w') (seqs w') ∧ (strict = true → conv_view (db w') c = Some ("group", Some n, None)))
    as [? ?] by done.
  run_txn H. destruct (conv_view (db w) c) as [v|] eqn:Ho.
  - specialize (Hg v Ho). pose proof Ho as Hv. rewrite conv_view_lookup in Hv.
    destruct (kind_ok _ _ _ _ _ _ Hinv _ _ Hv) as [(o & -> & _)|(?&?&->&_)]; [|done].
    pose proof (new_owner_views c n (now w) (db w) _ _ Ho) as E. simpl in E. split.
    + unfold members_inv. simpl. rewrite handover_views, E. eapply views_handover; [exact Hinv|exact Hv|..].
      * match goal with E : (_ || _) = true |- _ => apply orb_true_iff in E as [Hn|Hn] end.
        { by apply elem_of_dom, exists_row_true. }
        apply negb_true_iff in Hn. unfold conv_view in Ho. unfold exists_row in Hn.
        apply bool_decide_eq_false in Hn. destruct (conversations (db w) !! c); [|done]. by destruct Hn.
      * intros Hs. by apply is_member_views, Hm.
    + intros _. rewrite conv_view_lookup. simpl. rewrite E. by rewrite lookup_insert_eq.
  - destruct (new_owner_none c n (now w) (db w) (seqs w) Hinv Ho) as [E1 E2]. simpl in E1. split.
    + unfold members_inv. simpl. by rewrite handover_views, E1, E2.
    + intros Hs. apply is_member_views in Hm as (p & role & Hp); [|done].
      destruct (p_refs _ _ _ _ _ _ Hinv p c n role Hp) as [Hc _]. rewrite <- conv_view_lookup, Ho in Hc. by destruct Hc.
Qed.
End Tables.

Lemma transfer_ownership_keeps_strict c n :
  hoare (λ d s, conv_inv d s ∧ (∃ o, conv_view d c = Some ("group", Some o, None)) ∧
           is_member c n d = true)
    (transfer_ownership c n)
    (λ _ d s, conv_inv d s ∧ conv_view d c = Some ("group", Some n, None)) conv_inv.
Proof.
  eapply hoare_conseq; [apply (transfer_ownership_keeps (strict:=true) c n)|..|done].
  - intros d s (Hinv & (o & Ho) & Hm). split; [done|]. split; [|done]. intros v. rewrite Ho. by intros [= <-].
  - intros a d s [? Hv]. auto.
Qed.

(** ** The service keeps the invariant *)

Module ConversationServiceInv.
Import ConversationService.

Section Guards.
Context (P E : assertion) (HPE : ∀ d s, P d s → E d s).

Lemma require_conversation_spec c :
  hoare P (require_conversation c)
    (λ conv d s, P d s ∧ ∃ r, conversations d !! c = Some r ∧ conv = map_conversation (c, r)) E.
Proof.
  unfold require_conversation. eapply hoare_bind; [by apply hoare_query|]. intros o. cbn beta.
  destruct o as [conv|].
  - apply hoare_ret. intros d s [HP Ho]. split; [done|].
    destruct (conversations d !! c) as [r|] eqn:Hr; [|done]. exists r. simpl in Ho. by simplify_eq.
  - apply hoare_throw. entails.
Qed.

Lemma require_participant_spec c u :
  hoare P (require_participant c u) (λ _ d s, P d s ∧ is_member c u d = true) E.
Proof.
  unfold require_participant. eapply hoare_bind; [by apply hoare_query|]. intros b. cbn beta.
  destruct b; [apply hoare_ret|apply hoare_throw]; entails.
Qed.

Lemma require_owner_spec conv u :
  hoare P (require_owner conv u)
    (λ _ d s, P d s ∧ Conversation.is_group conv = true ∧ Conversation.owner_id conv = Some u) E.
Proof.
  unfold require_owner. destruct (Conversation.is_group conv); simpl; [|by apply hoare_throw].
  case_decide; [by apply hoare_ret|by apply hoare_throw].
Qed.

Lemma require_user_exists_spec u :
  hoare P (require_user_exists u) (λ _ d s, P d s ∧ is_Some (users d !! u)) E.
Proof.
  unfold require_user_exists. eapply hoare_bind; [by apply hoare_query|]. intros o. cbn beta.
  destruct o as [user|]; [apply hoare_ret|apply hoare_throw; entails].
  intros d s [HP Ho]. split; [done|]. by destruct (users d !! u).
Qed.
End Guards.

(** What a conversation that was read says about the tables. *)
Lemma is_group_view c r d :
  conversations d !! c = Some r →
  Conversation.is_group (map_conversation (c, r)) = true →
  ∃ o k, conv_view d c = Some ("group", o, k) ∧
    Conversation.owner_id (map_conversation (c, r)) = o.
Proof.
  intros Hr Hg. unfold conv_view. rewrite Hr. simpl. unfold cview.
  exists (ConversationRow.owner_id r), (ConversationRow.direct_key r). split; [|done].
  apply bool_decide_eq_true in Hg. simpl in Hg. unfold ConversationType.from_string in Hg.
  destruct (String.eqb_spec (ConversationRow.type r) "direct"); [done|].
  destruct (String.eqb_spec (ConversationRow.type r) "group") as [->|]; done.
Qed.

Lemma conv_view_group d s c o k :
  conv_inv d s → conv_view d c = Some ("group", o, k) →
  k = None ∧ ∃ u, o = Some u ∧ is_member c u d = true.
Proof.
  intros Hinv Hv. rewrite conv_view_lookup in Hv.
  destruct (kind_ok _ _ _ _ _ _ Hinv _ _ Hv) as [(u & E & _ & Hin & _)|(?&?&?&_)]; [|done].
  destruct Hin as (p & Hp); [done|]. simplify_eq. split; [done|]. exists u. split; [done|]. apply is_member_views. eauto.
Qed.

(** Steps that only read or emit: carry the assertion along. *)
Ltac read_step :=
  eapply hoare_bind; [ first [ by apply hoare_query; tauto | by apply hoare_emit
                             | apply hoare_query; entails ] | intros ?; cbn beta ].

Lemma create_keeps actor req : hoare conv_inv (create actor req) (λ _, conv_inv) conv_inv.
Proof.
  unfold create. apply (hoare_bind _ (λ _, conv_inv)).
  - case_decide.
    + destruct (CreateConversationRequest.participant_ids req) as [|other [|]];
        [by apply hoare_throw| |by apply hoare_throw].
      destruct (Z.eqb_spec other actor); [by apply hoare_throw|].
      eapply hoare_bind; [by apply require_user_exists_spec|]. intros ?; cbn beta.
      eapply hoare_conseq; [by apply (create_or_get_direct_keeps (strict:=true))|entails..].
    + destruct (CreateConversationRequest.name req) as [name|]; [|by apply hoare_throw].
      apply (hoare_bind _ (λ _, conv_inv)); [by apply hoare_lift|]. intros nm.
      apply (hoare_bind _ (λ _, conv_inv)); [|intros ?; apply (create_group_keeps (strict:=true))].
      apply hoare_for_each. intros m ?.
      eapply hoare_conseq; [by apply (require_user_exists_spec conv_inv conv_inv)|entails..].
  - intros conv. do 4 read_step. apply hoare_ret. entails.
Qed.

Lemma remove_keeps' actor c : hoare conv_inv (ConversationService.remove actor c) (λ _, conv_inv) conv_inv.
Proof.
  unfold ConversationService.remove. eapply hoare_bind; [by apply require_conversation_spec|].
  intros conv. cbn beta. apply (hoare_bind _ (λ _, conv_inv)).
  - destruct (Conversation.is_group conv).
    + eapply hoare_conseq; [by apply require_owner_spec|entails..].
    + eapply hoare_conseq; [by apply require_participant_spec|entails..].
  - intros ?; cbn beta. read_step. apply (hoare_bind _ (λ _, conv_inv)).
    + eapply hoare_conseq; [apply (remove_keeps (strict:=true))|entails..].
    + intros ?; cbn beta. read_step. apply hoare_emit.
Qed.

Lemma rename_group_keeps actor c req :
  hoare conv_inv (rename_group actor c req) (λ _, conv_inv) conv_inv.
Proof.
  unfold rename_group. eapply hoare_bind; [by apply require_conversation_spec|]. intros conv.
  eapply hoare_bind; [apply require_owner_spec; entails|]. intros ?; cbn beta.
  apply (hoare_bind _ (λ _, conv_inv)); [apply hoare_lift; entails|]. intros nm.
  eapply hoare_bind; [apply (rename_keeps (strict:=true))|]. intros ?; cbn beta.
  eapply hoare_bind; [by apply require_conversation_spec|]. intros u. cbn beta.
  do 3 read_step. apply hoare_ret. entails.
Qed.

Lemma add_member_keeps actor c u : hoare conv_inv (add_member actor c u) (λ _, conv_inv) conv_inv.
Proof.
  unfold add_member. eapply hoare_bind; [by apply require_conversation_spec|]. intros conv.
  eapply hoare_bind; [apply require_owner_spec; entails|]. intros ?; cbn beta.
  eapply hoare_bind; [apply require_user_exists_spec; entails|]. intros ?; cbn beta.
  apply (hoare_bind _ (λ _, conv_inv)).
  - intros w Hw. destruct Hw as [[[Hinv (r & Hr & ->)] [Hg _]] _].
    destruct (is_group_view _ _ _ Hr Hg) as (o & k & Hv & _).
    apply (add_participant_keeps (strict:=true) c u). split; [done|]. intros v. rewrite Hv. by intros [= <-].
  - intros ?; cbn beta. read_step.
    match goal with |- hoare _ (match ?o with _ => _ end) _ _ => destruct o as [p|] end;
      [|apply hoare_throw; entails].
    do 4 read_step. apply hoare_ret. entails.
Qed.

Lemma remove_member_keeps actor c u :
  hoare conv_inv (remove_member actor c u) (λ _, conv_inv) conv_inv.
Proof.
  unfold remove_member. eapply hoare_bind; [by apply require_conversation_spec|]. intros conv.
  eapply hoare_bind; [apply require_owner_spec; entails|]. intros ?; cbn beta.
  case_decide as Hown; [apply hoare_throw; entails|]. read_step.
  apply (hoare_bind _ (λ _, conv_inv)).
  - intros w Hw. destruct Hw as [[[Hinv (r & Hr & ->)] [Hg _]] _].
    destruct (is_group_view _ _ _ Hr Hg) as (o & k & Hv & Ho). rewrite Ho in Hown.
    apply (remove_participant_keeps (strict:=true)). split; [done|]. intros _ k'. by rewrite Hv; intros [= ->].
  - intros ?; cbn beta. do 2 read_step. apply hoare_emit.
Qed.

Lemma leave_keeps actor c : hoare conv_inv (leave actor c) (λ _, conv_inv) conv_inv.
Proof.
  unfold leave. eapply hoare_bind; [by apply require_conversation_spec|]. intros conv.
  eapply hoare_bind; [apply require_participant_spec; entails|]. intros ?; cbn beta. read_step.
  apply (hoare_bind _ (λ _, conv_inv)); [|intros ?; apply hoare_emit].
  destruct (Conversation.is_group conv && _) eqn:Hg.
  - apply andb_true_iff in Hg as [Hg Ho%bool_decide_eq_true]. read_step.
    match goal with |- context [List.find ?f ?l] => destruct (List.find f l) as [succ|] eqn:Hf end; cycle 1.
    { eapply hoare_conseq; [apply (remove_keeps (strict:=true))|entails..]. }
    apply find_some in Hf as [Hin Hne]. apply negb_true_iff, Z.eqb_neq in Hne.
    apply (hoare_bind _ (λ _ d s, conv_inv d s ∧
      conv_view d c = Some ("group", Some (ConversationParticipant.user_id succ), None))).
    + intros w Hw. destruct Hw as [[[[Hinv (r & Hr & ->)] _] _] ->].
      destruct (is_group_view _ _ _ Hr Hg) as (o & k & Hv & Ho').
      destruct (conv_view_group _ _ _ _ _ Hinv Hv) as (-> & u & -> & _).
      apply transfer_ownership_keeps_strict. split; [done|]. split; [by exists u|].
      apply list_elem_of_In, list_elem_of_fmap in Hin as ([p pr] & -> & Hin).
      unfold members_by_seniority in Hin. rewrite merge_sort_Permutation in Hin.
      apply elem_of_rows in Hin as [Hp Hc]. unfold is_member. apply any_row_true.
      exists p, pr. split; [done|]. unfold is_pair, in_conversation in *. rewrite Hc. simpl.
      by rewrite Z.eqb_refl.
    + intros ?; cbn beta. eapply hoare_conseq; [apply (remove_participant_keeps (strict:=true) c actor)|..|done|done].
      intros d s [Hinv Hv]. split; [done|]. intros _ k. rewrite Hv. intros [=]. done.
  - intros w Hw. destruct Hw as [[[Hinv (r & Hr & ->)] _] _].
    apply (remove_participant_keeps (strict:=true)). split; [done|]. intros _ k Hv.
    unfold conv_view in Hv. rewrite Hr in Hv. simpl in Hv. unfold cview in Hv.
    injection Hv as Ht Ho _. unfold Conversation.is_group in Hg. simpl in Hg.
    rewrite Ht, Ho in Hg. simpl in Hg. by rewrite bool_decide_eq_true_2 in Hg.
Qed.
End ConversationServiceInv.
