(* ===== verification/ConversationProps.v ===== *)
(** * ConversationProps: what the conversation service guarantees

    One direct conversation per pair of users; group administration by the
    owner only; succession when the owner leaves; nothing announced by a call
    that fails. *)

From S2P Require Import Prelude Text Json Errors Validation TimeUtil Models Events Dto Database.
From S2P Require Import Samples Users Conversations ConversationInv.
Import PgConversationRepository.
Open Scope string_scope.
Open Scope Z_scope.

(** ** Guards of successful calls *)

Lemma require_conversation_ok c w conv w' :
  ConversationService.require_conversation c w = (Ok conv, w') →
  same w w' ∧ ∃ r, conversations (db w) !! c = Some r ∧ conv = map_conversation (c, r).
Proof.
  unfold ConversationService.require_conversation. intros H.
  apply bind_ok_inv in H as (o & w1 & Ho & H). apply query_ok in Ho as [-> Hs].
  destruct (conversations (db w) !! c) as [r|] eqn:E; [|done].
  apply ret_ok in H as [-> ->]. eauto.
Qed.

Lemma require_participant_ok' c u w a w' :
  ConversationService.require_participant c u w = (Ok a, w') →
  same w w' ∧ is_member c u (db w) = true.
Proof.
  unfold ConversationService.require_participant. intros H.
  apply bind_ok_inv in H as (b & w1 & Hb & H). apply query_ok in Hb as [-> Hs].
  destruct (is_member c u (db w)); [|done]. by apply ret_ok in H as [_ ->].
Qed.

(** [owned c u d]: conversation [c] is a group that [u] owns. *)
Definition owned (c u : Z) (d : Database) : Prop :=
  ∃ r, conversations d !! c = Some r ∧ ConversationRow.type r = "group" ∧
    ConversationRow.owner_id r = Some u.

Lemma is_group_type c r :
  Conversation.is_group (map_conversation (c, r)) = true ↔ ConversationRow.type r = "group".
Proof.
  unfold Conversation.is_group. rewrite bool_decide_eq_true. simpl.
  unfold ConversationType.from_string.
  destruct (String.eqb_spec (ConversationRow.type r) "direct") as [->|]; [done|].
  by destruct (String.eqb_spec (ConversationRow.type r) "group").
Qed.

Lemma require_owner_ok c r u w a w' :
  ConversationService.require_owner (map_conversation (c, r)) u w = (Ok a, w') →
  w' = w ∧ ConversationRow.type r = "group" ∧ ConversationRow.owner_id r = Some u.
Proof.
  unfold ConversationService.require_owner.
  destruct (Conversation.is_group (map_conversation (c, r))) eqn:E; simpl; [|done].
  apply is_group_type in E. case_decide; [|done]. intros H'. by apply ret_ok in H' as [_ ->].
Qed.

(** ** Who may administer a group *)

(** The administrative calls of the service. *)
Inductive AdminCall :=
  | CallRename (conversation_id : Z) (request : RenameGroupRequest.t)
  | CallAdd (conversation_id user_id : Z)
  | CallRemoveMember (conversation_id user_id : Z)
  | CallDelete (conversation_id : Z).

(** Who may: the owner of a group; a direct conversation may also be deleted by
    its members. *)
Definition admin_allowed (actor : Z) (k : AdminCall) (d : Database) : Prop :=
  match k with
  | CallRename c _ | CallAdd c _ | CallRemoveMember c _ => owned c actor d
  | CallDelete c =>
      owned c actor d ∨
      ∃ r, conversations d !! c = Some r ∧ ConversationRow.type r ≠ "group" ∧
        is_member c actor d = true
  end.

Definition admin_call (actor : Z) (k : AdminCall) : M World exn unit :=
  match k with
  | CallRename c req => ConversationService.rename_group actor c req;; mret ()
  | CallAdd c u => ConversationService.add_member actor c u;; mret ()
  | CallRemoveMember c u => ConversationService.remove_member actor c u
  | CallDelete c => ConversationService.remove actor c
  end.

Lemma reader_require_conversation c : reader (ConversationService.require_conversation c).
Proof. apply reader_bind; [apply reader_query|intros o; by destruct o]. Qed.
Lemma reader_require_participant c u : reader (ConversationService.require_participant c u).
Proof. apply reader_bind; [apply reader_query|intros o; by destruct o]. Qed.
Lemma reader_require_owner conv u : reader (ConversationService.require_owner conv u).
Proof. unfold ConversationService.require_owner. intros w. by repeat case_match. Qed.

(** The owner check in front of a call. *)
Lemma owner_gate {A} actor c (k : Conversation.t → M World exn A) w :
  let m := (conversation ← ConversationService.require_conversation c;
            ConversationService.require_owner conversation actor;; k conversation) in
  (is_ok (m w).1 = true → owned c actor (db w)) ∧ (¬ owned c actor (db w) → same w (m w).2).
Proof.
  intros m. set (check := conversation ← ConversationService.require_conversation c;
    ConversationService.require_owner conversation actor;; mret conversation).
  assert (m w = (check ≫= k) w) as ->.
  { unfold m, check, mbind, M_bind. destruct (ConversationService.require_conversation c w) as [[conv|e] w1]; [|done].
    by destruct (ConversationService.require_owner conv actor w1) as [[|] ?]. }
  apply gate.
  - apply reader_bind; [apply reader_require_conversation|intros conv].
    apply reader_bind; [apply reader_require_owner|intros ?; apply reader_ret].
  - intros conv w' H. apply bind_ok_inv in H as (cv & w1 & H1 & H).
    apply require_conversation_ok in H1 as [Hs (row & Hrow & ->)].
    apply bind_ok_inv in H as (? & w2 & H2 & _). apply require_owner_ok in H2 as (-> & Ht & Ho).
    by exists row.
Qed.

Lemma gate_ret {A} (m : M World exn A) (Good : Prop) w :
  (is_ok (m w).1 = true → Good) ∧ (¬ Good → same w (m w).2) →
  (is_ok ((m ≫= λ _, mret ()) w).1 = true → Good) ∧
  (¬ Good → same w ((m ≫= λ _, mret ()) w).2).
Proof. unfold mbind, M_bind. by destruct (m w) as [[a|e] w1]. Qed.

Lemma delete_gate actor c w :
  let Good := admin_allowed actor (CallDelete c) (db w) in
  (is_ok (ConversationService.remove actor c w).1 = true → Good) ∧
  (¬ Good → same w (ConversationService.remove actor c w).2).
Proof.
  intros Good. set (check := conversation ← ConversationService.require_conversation c;
    (if Conversation.is_group conversation then ConversationService.require_owner conversation actor
     else ConversationService.require_participant c actor)).
  assert (∀ k, (conversation ← ConversationService.require_conversation c;
    (if Conversation.is_group conversation then ConversationService.require_owner conversation actor
     else ConversationService.require_participant c actor);; k) w =
    ((check ≫= λ _, k) : M World exn unit) w) as Hassoc.
  { intros k. unfold check, mbind, M_bind.
    by destruct (ConversationService.require_conversation c w) as [[conv|e] w1]. }
  unfold ConversationService.remove. rewrite Hassoc. apply gate.
  - apply reader_bind; [apply reader_require_conversation|intros conv].
    case_match; [apply reader_require_owner|apply reader_require_participant].
  - intros ? w' H. apply bind_ok_inv in H as (cv & w1 & H1 & H).
    apply require_conversation_ok in H1 as [Hs (row & Hrow & ->)].
    destruct (Conversation.is_group (map_conversation (c, row))) eqn:Hg.
    + apply require_owner_ok in H as (-> & Ht & Ho). left. by exists row.
    + apply require_participant_ok' in H as [_ Hm]. destruct Hs as [Ed _]. rewrite Ed in Hm.
      right. exists row. split; [done|]. split; [|done]. intros Ht%(is_group_type c). congruence.
Qed.

(** C13. Group administration belongs to the owner.  Renaming, adding and removing
    members and deleting succeed only for the owner of the group (a direct
    conversation may be deleted by its members); for anyone else, and for a
    missing conversation, the call fails and leaves tables, sequences and
    outputs unchanged, whatever faults are injected. *)
Theorem administration_owner_only (actor : Z) (k : AdminCall) (w : World) :
  (is_ok (admin_call actor k w).1 = true → admin_allowed actor k (db w)) ∧
  (¬ admin_allowed actor k (db w) → same w (admin_call actor k w).2).
Proof.
  destruct k as [c req|c u|c u|c]; [apply gate_ret|apply gate_ret| |apply delete_gate];
    apply owner_gate.
Qed.

(** ** Leaving *)

Lemma remove_participant_ok c u w a w' :
  remove_participant c u w = (Ok a, w') →
  db w' = set_participants (delete_where (is_pair c u) (participants (db w))) (db w) ∧
  out w' = out w.
Proof.
  unfold remove_participant. intros H. apply with_transaction_ok in H as (w1 & Hs & H). run_txn H.
  destruct Hs as (-> & _ & _ & -> & _). done.
Qed.

Lemma is_pair_true c u r :
  is_pair c u r = true ↔ ParticipantRow.conversation_id r = c ∧ ParticipantRow.user_id r = u.
Proof. unfold is_pair. by rewrite andb_true_iff, !Z.eqb_eq. Qed.

Lemma is_member_after_removal c u c' v d :
  is_member c' v (set_participants (delete_where (is_pair c u) (participants d)) d) =
  is_member c' v d && negb ((c' =? c) && (v =? u)).
Proof.
  apply eq_true_iff_eq. rewrite andb_true_iff, negb_true_iff, andb_false_iff, !Z.eqb_neq.
  unfold is_member. rewrite !any_row_true. simpl. setoid_rewrite lookup_delete_where.
  setoid_rewrite is_pair_true. split.
  - intros (p & r & [Hp Hn] & Hc & Hv). split; [eauto|].
    apply not_true_iff_false in Hn. rewrite is_pair_true in Hn. subst.
    destruct (decide (ParticipantRow.conversation_id r = c)); [right|by left]. intros E. by apply Hn.
  - intros [(p & r & Hp & Hc & Hv) Hn]. exists p, r. split; [|done]. split; [done|].
    apply not_true_iff_false. rewrite is_pair_true. intros [? ?]. subst. by destruct Hn.
Qed.

Lemma transfer_ownership_ok c n w a w' :
  transfer_ownership c n w = (Ok a, w') →
  (∀ u, is_member c u (db w') = is_member c u (db w)) ∧ messages (db w') = messages (db w) ∧
  out w' = out w.
Proof.
  unfold transfer_ownership. intros H. apply with_transaction_ok in H as (w1 & Hs & H). run_txn H.
  destruct Hs as (Ed & _ & _ & Eo & _). split; [|by rewrite Ed, Eo].
  intros u. rewrite <- Ed. apply eq_true_iff_eq. unfold is_member. rewrite !any_row_true. simpl.
  setoid_rewrite lookup_update_where. setoid_rewrite lookup_update_where.
  setoid_rewrite is_pair_true. split.
  - intros (p & r & (r1 & (r2 & Hr2 & ->) & ->) & Hc & Hu). exists p, r2. split; [done|].
    destruct (_ && _) in Hc, Hu; destruct (is_pair c n _) in Hc, Hu; done.
  - intros (p & r & Hr & Hc & Hu). eexists p, _. split; [eauto|].
    destruct (_ && _); destruct (is_pair c n _); done.
Qed.

Global Instance joined_le_trans : Transitive joined_le.
Proof. unfold joined_le. intros x y z. lia. Qed.
Global Instance joined_le_total : Total joined_le.
Proof. unfold joined_le. intros x y. lia. Qed.

(** The first other member in seniority order is the most senior one. *)
Lemma senior_first actor l x :
  StronglySorted joined_le l →
  List.find (λ p, negb (ConversationParticipant.user_id p =? actor)) (map_participant <$> l) =
    Some x →
  ∃ k r, (k, r) ∈ l ∧ x = map_participant (k, r) ∧ ParticipantRow.user_id r ≠ actor ∧
    ∀ y, y ∈ l → ParticipantRow.user_id y.2 ≠ actor → joined_le (k, r) y.
Proof.
  induction 1 as [|[k r] l Hs IH Ha]; [done|]. simpl.
  destruct (Z.eqb_spec (ParticipantRow.user_id r) actor) as [E|E]; simpl.
  - intros Hf. destruct (IH Hf) as (k' & r' & Hin & -> & Hne & Hmin). exists k', r'.
    split; [by right|]. split; [done|]. split; [done|]. intros y [->|Hy]%elem_of_cons Hya; [done|eauto].
  - intros [= <-]. exists k, r. split; [left|]. split; [done|]. split; [done|].
    intros y [->|Hy]%elem_of_cons _; [unfold joined_le; lia|]. rewrite Forall_forall in Ha. by apply Ha.
Qed.

Lemma in_conversation_elem c d k r :
  (k, r) ∈ members_by_seniority c d ↔
  participants d !! k = Some r ∧ ParticipantRow.conversation_id r = c.
Proof.
  unfold members_by_seniority. rewrite merge_sort_Permutation, elem_of_rows.
  unfold in_conversation. by rewrite Z.eqb_eq.
Qed.

Lemma is_group_view_row c r d :
  conversations d !! c = Some r → ConversationRow.type r = "group" →
  ∃ k, conv_view d c = Some ("group", ConversationRow.owner_id r, k).
Proof. intros Hr Ht. unfold conv_view. rewrite Hr. simpl. unfold cview. rewrite Ht. eauto. Qed.

Definition successor (actor c : Z) (d : Database) : option ConversationParticipant.t :=
  List.find (λ p, negb (ConversationParticipant.user_id p =? actor))
    (map_participant <$> members_by_seniority c d).

(** A leaving owner: after the reads, the handover or the deletion. *)
Lemma leave_owner_ok actor c w a w' :
  owned c actor (db w) → ConversationService.leave actor c w = (Ok a, w') →
  ∃ w4 w8, same w w4 ∧
    w' = add_out (EBroadcast (member_ids c (db w)) WireEvents.kMemberRemoved
                    (ConversationService.member_payload c actor)) w8 ∧
    (match successor actor c (db w) with
     | Some succ =>
         transfer_ownership c (ConversationParticipant.user_id succ);;
         remove_participant c actor
     | None => remove c
     end) w4 = (Ok (), w8).
Proof.
  intros (row & Hrow & Ht & Hown) H. unfold ConversationService.leave in H.
  apply bind_ok_inv in H as (conv & w1 & H1 & H).
  apply require_conversation_ok in H1 as [Hs1 (row' & Hrow' & ->)].
  rewrite Hrow in Hrow'. injection Hrow' as <-.
  apply bind_ok_inv in H as (? & w2 & H2 & H). apply require_participant_ok' in H2 as [Hs2 _].
  apply bind_ok_inv in H as (ids & w3 & H3 & H). apply query_ok in H3 as [-> Hs3].
  apply bind_ok_inv in H as ([] & w8 & H4 & H). apply emit_ok in H as ->.
  assert (same w w3) as Hs by (by etrans; [|etrans]).
  assert (db w2 = db w) as -> by (destruct Hs1 as [E1 _], Hs2 as [E2 _]; congruence).
  rewrite (proj2 (is_group_type c row) Ht) in H4. simpl in H4.
  rewrite Hown, bool_decide_eq_true_2 in H4 by done. cbn [andb] in H4.
  apply bind_ok_inv in H4 as (ms & w4 & H4 & H5). apply query_ok in H4 as [-> Hs4].
  exists w4, w8. split; [by etrans|]. split; [done|]. destruct Hs as [Ed3 _]. by rewrite Ed3 in H5.
Qed.

(** The handover: the new owner is recorded, the leaver is out. *)
Lemma handover_ok actor c n w w' :
  conv_inv (db w) (seqs w) → owned c actor (db w) → is_member c n (db w) = true → n ≠ actor →
  (transfer_ownership c n;; remove_participant c actor) w = (Ok (), w') →
  conv_inv (db w') (seqs w') ∧ owned c n (db w') ∧
  (∀ u, is_member c u (db w') = is_member c u (db w) && negb (u =? actor)) ∧
  messages (db w') = messages (db w) ∧ out w' = out w.
Proof.
  intros Hinv (row & Hrow & Ht & Hown) Hm Hne H.
  apply bind_ok_inv in H as (? & w5 & H5 & H6). pose proof H6 as Hrm.
  apply remove_participant_ok in H6 as [Hd6 Ho6].
  pose proof H5 as Htr. apply transfer_ownership_ok in H5 as (Hmem & Hmsg & Ho5).
  destruct (is_group_view_row c row (db w) Hrow Ht) as (k0 & Hv0). rewrite Hown in Hv0.
  destruct (ConversationServiceInv.conv_view_group _ _ _ _ _ Hinv Hv0) as [-> _].
  pose proof (transfer_ownership_keeps_strict c n w) as Hto. rewrite Htr in Hto.
  destruct Hto as [Hinv5 Hv]; [split; [done|]; split; [by exists actor|done]|].
  pose proof (remove_participant_keeps (strict:=true) c actor w5) as Hrk. rewrite Hrm in Hrk.
  split; [apply Hrk; split; [done|]; intros _ k; rewrite Hv; by intros [= ?]|].
  split; [|split; [|split; [by rewrite Hd6|by rewrite Ho6, Ho5]]].
  - unfold conv_view in Hv. unfold owned. rewrite Hd6. simpl.
    destruct (conversations (db w5) !! c) as [cr|]; [|done]. exists cr.
    simpl in Hv. unfold cview in Hv. by simplify_eq.
  - intros u. rewrite Hd6, is_member_after_removal, Hmem. by rewrite Z.eqb_refl.
Qed.

Lemma remove_ok c w a w' :
  remove c w = (Ok a, w') → db w' = cascade c (db w) ∧ out w' = out w.
Proof.
  unfold remove. intros H. apply with_transaction_ok in H as (w1 & Hs & H). run_txn H.
  destruct Hs as (-> & _ & _ & -> & _). done.
Qed.

(** A deleted conversation leaves no membership and no message behind. *)
Lemma cascade_gone c d :
  conversations (cascade c d) !! c = None ∧ (∀ u, is_member c u (cascade c d) = false) ∧
  ∀ m r, messages (cascade c d) !! m = Some r → MessageRow.conversation_id r ≠ c.
Proof.
  split; [apply lookup_delete_eq|]. split.
  - intros u. unfold is_member. apply any_row_false. intros p r. simpl.
    rewrite lookup_delete_where. intros [_ Hn]. apply not_true_iff_false. rewrite is_pair_true.
    intros [Hc _]. unfold in_conversation in Hn. lia.
  - intros m r. simpl. rewrite lookup_delete_where. intros [_ Hn]. lia.
Qed.

(** C14. Succession.  When the owner of a group leaves, the group passes to the
    most senior other member (earliest joining time, then lowest id), who now
    has the owner's role; the leaver is no longer a member and every other
    membership is as before.  An owner who is alone takes the group and its
    messages along.  The former members are told. *)
Theorem owner_leaves (actor c : Z) (w w' : World) :
  conv_inv (db w) (seqs w) → owned c actor (db w) →
  ConversationService.leave actor c w = (Ok (), w') →
  out w' = (out w ++ [EBroadcast (member_ids c (db w)) WireEvents.kMemberRemoved
              (ConversationService.member_payload c actor)])%list ∧
  ((∃ k r,
      participants (db w) !! k = Some r ∧ ParticipantRow.conversation_id r = c ∧
      ParticipantRow.user_id r ≠ actor ∧
      (∀ k2 r2, participants (db w) !! k2 = Some r2 → ParticipantRow.conversation_id r2 = c →
         ParticipantRow.user_id r2 ≠ actor → joined_le (k, r) (k2, r2)) ∧
      conv_inv (db w') (seqs w') ∧ owned c (ParticipantRow.user_id r) (db w') ∧
      (∀ u, is_member c u (db w') = is_member c u (db w) && negb (u =? actor)) ∧
      messages (db w') = messages (db w))
   ∨ ((∀ u, is_member c u (db w) = true → u = actor) ∧
      conversations (db w') !! c = None ∧ (∀ u, is_member c u (db w') = false) ∧
      ∀ m r, messages (db w') !! m = Some r → MessageRow.conversation_id r ≠ c)).
Proof.
  intros Hinv Hown H. destruct (leave_owner_ok _ _ _ _ _ Hown H) as (w4 & w8 & Hs & -> & Hrun).
  destruct Hs as (Ed & Es & _ & Eo & _).
  destruct (successor actor c (db w)) as [succ|] eqn:Hf; unfold successor in Hf.
  - apply senior_first in Hf as (k & r & Hin & -> & Hne & Hmin);
      [|apply StronglySorted_merge_sort; apply _].
    apply in_conversation_elem in Hin as [Hk Hc].
    apply (handover_ok actor) in Hrun as (Hi & Ho & Hmem & Hmsg & Hout); [|rewrite ?Ed, ?Es; try done..].
    + simpl. rewrite Hout, Eo. rewrite Ed in Hmem, Hmsg. split; [done|]. left. exists k, r.
      do 3 (split; [done|]). split; [|done].
      intros k2 r2 Hk2 Hc2 Hn2. apply (Hmin (k2, r2)); [by apply in_conversation_elem|done].
    + apply any_row_true. exists k, r. split; [done|]. by apply is_pair_true.
  - apply remove_ok in Hrun as [Hd Hout]. simpl. rewrite Hout, Eo, Hd, Ed. split; [done|]. right.
    split; [|apply cascade_gone]. intros u (p & r & Hp & [Hc Hu]%is_pair_true)%any_row_true.
    assert (map_participant (p, r) ∈ map_participant <$> members_by_seniority c (db w)) as Hin
      by (by apply list_elem_of_fmap_2, in_conversation_elem).
    apply list_elem_of_In in Hin. pose proof (find_none _ _ Hf _ Hin) as Hn. simpl in Hn.
    apply negb_false_iff, Z.eqb_eq in Hn. congruence.
Qed.

(** ** Direct conversations *)

Lemma fresh_participant d s :
  conv_inv d s → participants d !! s SParticipants = None.
Proof.
  intros Hinv. apply fresh_p in Hinv. rewrite lookup_fmap in Hinv.
  by destruct (participants d !! s SParticipants).
Qed.

Lemma insert_ignore_members c u role w a w' :
  participants (db w) !! seqs w SParticipants = None →
  insert_ignore c u role w = (Ok a, w') →
  conversations (db w') = conversations (db w) ∧ is_member c u (db w') = true ∧
  (∀ v, is_member c v (db w) = true → is_member c v (db w') = true).
Proof.
  intros Hf H. unfold insert_ignore in H. run_txn H; [done|]. split; [done|]. split.
  - apply any_row_true. eexists _, _. split; [apply lookup_insert_eq|]. by apply is_pair_true.
  - intros v (p & r & Hp & Hr)%any_row_true. apply any_row_true. exists p, r. split; [|done]. simpl.
    rewrite lookup_insert_ne; [done|]. intros E. rewrite E in Hf. congruence.
Qed.

(** The row the upsert of [create_or_get_direct] leaves. *)
Lemma create_or_get_direct_ok a b w c w' :
  a ≠ b → conv_inv (db w) (seqs w) → create_or_get_direct a b w = (Ok c, w') →
  (∀ cid r, conversations (db w) !! cid = Some r →
     ConversationRow.direct_key r = Some (direct_key a b) →
     Conversation.id c = cid ∧ dom (conversations (db w')) = dom (conversations (db w))) ∧
  (∃ r, conversations (db w') !! Conversation.id c = Some r ∧
        ConversationRow.direct_key r = Some (direct_key a b)) ∧
  is_member (Conversation.id c) a (db w') = true ∧ is_member (Conversation.id c) b (db w') = true.
Proof.
  intros Hab Hinv0 H. unfold create_or_get_direct in H.
  apply with_transaction_ok in H as (w1 & Hs & H). destruct Hs as (Ed & Es & _).
  assert (conv_inv (db w1) (seqs w1)) as Hinv by (by rewrite Ed, Es).
  rewrite <- Ed. clear Hinv0 Ed Es. run_txn H.
  match goal with H1 : insert_ignore _ a _ ?wa = (Ok ?ra, ?wb), H2 : insert_ignore _ b _ ?wb = _ |- _ =>
    rename H1 into Ha; rename H2 into Hb; set (wa' := wa) in *; rename wb into wm end.
  set (up := match one_row _ _ with Some _ => _ | None => _ end) in *.
  assert (Conversation.id (map_conversation up) = up.1) as Hid by (by destruct up).
  rewrite Hid in *. destruct (upsert_inv a b w1 Hab Hinv) as (v & Hk & Hinva & Hv).
  fold up in Hinva, Hv. change (conv_inv (db wa') (seqs wa')) in Hinva.
  change (conv_view (db wa') up.1 = Some v) in Hv.
  pose proof (insert_ignore_members _ _ _ _ _ _ (fresh_participant _ _ Hinva) Ha) as (Hca & Hma & _).
  eapply insert_ignore_ok in Ha as [Hinvm Hvm]; [|exact Hinva|exact Hv|right; by exists b].
  pose proof (insert_ignore_members _ _ _ _ _ _ (fresh_participant _ _ Hinvm) Hb) as (Hcb & Hmb & Hkeep).
  rewrite Hcb, Hca. split; [|split; [|by auto]].
  - intros cid r Hr Hkey. unfold wa', up. simpl.
    rewrite (one_row_unique (has_direct_key (direct_key a b)) _ cid r); [|
      |done|by apply bool_decide_eq_true_2].
    + simpl. split; [done|]. rewrite dom_insert_L. apply elem_of_dom_2 in Hr.
      by apply subseteq_union_1_L, singleton_subseteq_l.
    + intros k1 k2 r1 r2 Hk1 Hk2 E1%bool_decide_eq_true E2%bool_decide_eq_true.
      eapply (key_unique _ _ _ _ _ _ Hinv); rewrite lookup_fmap; [rewrite Hk1|rewrite Hk2]; simpl;
        unfold cview; [rewrite E1|rewrite E2]; done.
  - unfold conv_view in Hv. destruct (conversations (db wa') !! up.1) as [r|]; [|done].
    exists r. split; [done|]. simpl in Hv. unfold cview in Hv. by simplify_eq/=.
Qed.

(** C16. One direct conversation per pair of users.  Opening a direct conversation
    makes both users members of a conversation that carries the key of the
    unordered pair; if a conversation with that key exists it is the one that
    is returned, and no conversation is created; two calls for the same pair, in
    either direction, therefore meet in the same conversation. *)
Theorem direct_conversation_unique (actor other : Z) (req : CreateConversationRequest.t)
    (w w' : World) (c : Conversation.t) :
  conv_inv (db w) (seqs w) →
  CreateConversationRequest.type req = ConversationType.kDirect →
  CreateConversationRequest.participant_ids req = [other] →
  ConversationService.create actor req w = (Ok c, w') →
  let key := direct_key actor other in
  key = direct_key other actor ∧
  (∀ cid r, conversations (db w) !! cid = Some r → ConversationRow.direct_key r = Some key →
     Conversation.id c = cid ∧ dom (conversations (db w')) = dom (conversations (db w))) ∧
  (∃ r, conversations (db w') !! Conversation.id c = Some r ∧ ConversationRow.direct_key r = Some key) ∧
  is_member (Conversation.id c) actor (db w') = true ∧
  is_member (Conversation.id c) other (db w') = true.
Proof.
  intros Hinv Ht Hids H key. split; [apply direct_key_sym|].
  unfold ConversationService.create in H. rewrite Ht, Hids in H.
  apply bind_ok_inv in H as (conv & w1 & H1 & H). rewrite decide_True in H1 by done.
  destruct (Z.eqb_spec other actor) as [|Hne]; [by apply throw_ok in H1|].
  apply bind_ok_inv in H1 as (? & w0 & H0 & H1).
  assert (same w w0) as (Ed & Es & _).
  { unfold ConversationService.require_user_exists in H0.
    apply bind_ok_inv in H0 as (o & wq & Hq & H0). apply query_ok in Hq as [_ Hs].
    destruct o; [by apply ret_ok in H0 as [_ ->]|by apply throw_ok in H0]. }
  apply bind_ok_inv in H as (ps & w2 & H2 & H). apply query_ok in H2 as [_ [E2 _]].
  apply bind_ok_inv in H as (ids & w3 & H3 & H). apply query_ok in H3 as [_ [E3 _]].
  apply bind_ok_inv in H as (? & w4 & H4%emit_ok & H).
  apply bind_ok_inv in H as (? & w5 & H5%emit_ok & H). apply ret_ok in H as [-> ->].
  subst w5 w4. simpl. rewrite E3, E2, <- Ed.
  apply create_or_get_direct_ok; [done|by rewrite Ed, Es|done].
Qed.

(** ** Sample conversations *)

Definition sample_group : World :=
  (ConversationService.create 1 (CreateConversationRequest.mk ConversationType.kGroup (Some "team")
     [2; 3]) accounts_only).2.

Lemma accounts_only_inv : conv_inv (db accounts_only) (seqs accounts_only).
Proof. split; intros *; cbn; rewrite lookup_fmap, lookup_empty; discriminate. Qed.

Lemma sample_group_inv : conv_inv (db sample_group) (seqs sample_group).
Proof.
  pose proof (ConversationServiceInv.create_keeps 1 (CreateConversationRequest.mk
    ConversationType.kGroup (Some "team") [2; 3]) accounts_only accounts_only_inv) as H.
  unfold sample_group. by destruct (ConversationService.create _ _ accounts_only) as [[] ?].
Qed.

Lemma owner_leaves_witness :
  ∃ w', ConversationService.leave 1 1 sample_group = (Ok (), w') ∧
    out w' = (out sample_group ++ [EBroadcast (member_ids 1 (db sample_group))
      WireEvents.kMemberRemoved (ConversationService.member_payload 1 1)])%list ∧
    ConversationRow.owner_id <$> conversations (db w') !! 1 = Some (Some 2).
Proof.
  destruct (ConversationService.leave 1 1 sample_group) as [r w'] eqn:E.
  assert (is_ok r = true) as Hr by (apply (f_equal fst) in E; cbn [fst] in E; rewrite <- E;
    vm_compute; reflexivity).
  destruct r as [[]|e]; [|discriminate]. exists w'. split; [reflexivity|]. split.
  - refine (proj1 (owner_leaves 1 1 sample_group w' sample_group_inv _ E)).
    eexists. split; [vm_compute; reflexivity|]. split; reflexivity.
  - apply (f_equal snd) in E. cbn [snd] in E. rewrite <- E. vm_compute. reflexivity.
Defined.

Lemma direct_conversation_unique_witness :
  ∃ c w', ConversationService.create 2 (CreateConversationRequest.mk ConversationType.kDirect None [1])
            accounts_only = (Ok c, w') ∧
    is_member (Conversation.id c) 1 (db w') = true.
Proof.
  destruct (ConversationService.create 2 (CreateConversationRequest.mk ConversationType.kDirect None [1])
    accounts_only) as [r w'] eqn:E.
  assert (is_ok r = true) as Hr by (apply (f_equal fst) in E; cbn [fst] in E; rewrite <- E;
    vm_compute; reflexivity).
  destruct r as [c|e]; [|discriminate]. exists c, w'. split; [reflexivity|].
  apply (direct_conversation_unique 2 1 (CreateConversationRequest.mk ConversationType.kDirect None [1])
    accounts_only w' c accounts_only_inv eq_refl eq_refl E).
Defined.
