(* ===== verification/Repositories.v ===== *)
(** * Repositories: messages, attachments, receipts and reactions

    Models src/repositories/pg_message_repository.cpp,
    pg_attachment_repository.cpp, pg_read_receipt_repository.cpp and
    pg_reaction_repository.cpp.  Full-text matching belongs to PostgreSQL and is
    a parameter ([TextSearch]). *)

From S2P Require Import Prelude Text Json Errors TimeUtil Models Events Dto Database Users.
From S2P Require Import Conversations.
Open Scope string_scope.
Open Scope Z_scope.

(** [to_tsvector('simple', content) @@ plainto_tsquery('simple', keyword)]. *)
Class TextSearch := text_matches : string → string → bool.

(** [ORDER BY id ASC] and [ORDER BY id DESC]. *)
Definition id_asc {V} (a b : Z * V) : Prop := a.1 <= b.1.
Definition id_desc {V} (a b : Z * V) : Prop := b.1 <= a.1.
Global Instance id_asc_dec {V} (a b : Z * V) : Decision (id_asc a b).
Proof. unfold id_asc. apply _. Defined.
Global Instance id_desc_dec {V} (a b : Z * V) : Decision (id_desc a b).
Proof. unfold id_desc. apply _. Defined.

Module PgMessageRepository.
(* src/repositories/pg_message_repository.cpp:29-42, map_message *)
Definition map_message (kr : Z * MessageRow.t) : Message.t :=
  let '(id, r) := kr in
  Message.mk id (MessageRow.conversation_id r) (MessageRow.sender_id r)
    (default MessageType.kText (MessageType.from_string (MessageRow.type r)))
    (MessageRow.content r) (db_time (MessageRow.created_at r)) (db_time (MessageRow.updated_at r))
    (db_time <$> MessageRow.edited_at r) (db_time <$> MessageRow.deleted_at r).

(* include/rtc/repositories/message_repository.hpp:16-21, NewMessage *)
Record NewMessage := {
  nm_conversation_id : Z; nm_sender_id : Z; nm_content : string; nm_type : MessageType.t }.

(* src/repositories/pg_message_repository.cpp:46-66, PgMessageRepository::create *)
Definition create (input : NewMessage) : M World exn Message.t :=
  with_transaction (
    id ← nextval SMessages;
    now ← clock;
    d ← on_db (λ d, d);
    foreign_key (exists_row (conversations d) (nm_conversation_id input)
                 && exists_row (users d) (nm_sender_id input));;
    let row := MessageRow.mk (nm_conversation_id input) (nm_sender_id input)
                 (MessageType.to_string (nm_type input)) (nm_content input) now now None None in
    update (λ d, set_messages (<[id := row]> (messages d)) d);;
    update (PgConversationRepository.update_conversation (nm_conversation_id input) (λ r,
      ConversationRow.mk (ConversationRow.type r) (ConversationRow.name r)
        (ConversationRow.owner_id r) (ConversationRow.direct_key r)
        (ConversationRow.created_at r) (ConversationRow.updated_at r) (Some now)) now);;
    mret (map_message (id, row))).

(* src/repositories/pg_message_repository.cpp:68-76, PgMessageRepository::find_by_id *)
Definition find_by_id (id : Z) : M World exn (option Message.t) :=
  with_transaction (on_db (λ d, (λ r, map_message (id, r)) <$> messages d !! id)).

(* include/rtc/repositories/message_repository.hpp:26-30, MessageFilter *)
Record MessageFilter := {
  mf_conversation_id : Z; mf_sender_id : option Z; mf_keyword : option string }.

(** The [WHERE] clause of [list]; a missing parameter is NULL. *)
(* src/repositories/pg_message_repository.cpp:86-91, PgMessageRepository::list (WHERE clause) *)
Definition in_filter `{TextSearch} (filter : MessageFilter) (page : Pagination.t)
    (kr : Z * MessageRow.t) : bool :=
  let '(id, r) := kr in
  (MessageRow.conversation_id r =? mf_conversation_id filter)
  && match mf_sender_id filter with None => true | Some s => MessageRow.sender_id r =? s end
  && match mf_keyword filter with
     | None => true
     | Some k => text_matches (MessageRow.content r) k && bool_decide (MessageRow.deleted_at r = None)
     end
  && match Pagination.before_id page with None => true | Some b => id <? b end
  && match Pagination.after_id page with None => true | Some a => a <? id end.

(** The rows the statement returns. *)
(* src/repositories/pg_message_repository.cpp:84-100, PgMessageRepository::list (statement) *)
Definition select_messages `{TextSearch} (filter : MessageFilter) (page : Pagination.t)
    (d : Database) : list (Z * MessageRow.t) :=
  PgConversationRepository.limit_offset page
    (merge_sort id_desc
      (base.filter (λ kr, in_filter filter page kr = true) (map_to_list (messages d)))).

(* src/repositories/pg_message_repository.cpp:78-108, PgMessageRepository::list *)
Definition list `{TextSearch} (filter : MessageFilter) (page : Pagination.t)
    : M World exn (list Message.t) :=
  with_transaction (on_db (λ d, map_message <$> select_messages filter page d)).

(** A row of [messages] changed by an [UPDATE]; the trigger sets [updated_at]. *)
Definition touch_message (content : string) (edited_at deleted_at : option Z) (now : Z)
    (r : MessageRow.t) : MessageRow.t :=
  MessageRow.mk (MessageRow.conversation_id r) (MessageRow.sender_id r) (MessageRow.type r)
    content (MessageRow.created_at r) now edited_at deleted_at.

(* src/repositories/pg_message_repository.cpp:110-122, PgMessageRepository::update_content *)
Definition update_content (id : Z) (content : string) : M World exn Message.t :=
  with_transaction (
    now ← clock;
    row ← on_db (λ d, messages d !! id);
    match row with
    | Some r =>
        if bool_decide (MessageRow.deleted_at r = None) then
          let r' := touch_message content (Some now) (MessageRow.deleted_at r) now r in
          update (λ d, set_messages (<[id := r']> (messages d)) d);;
          mret (map_message (id, r'))
        else mthrow (NotFoundException "Message not found or already deleted" "")
    | None => mthrow (NotFoundException "Message not found or already deleted" "")
    end).

(* src/repositories/pg_message_repository.cpp:124-136, PgMessageRepository::soft_delete *)
Definition soft_delete (id : Z) : M World exn Message.t :=
  with_transaction (
    now ← clock;
    row ← on_db (λ d, messages d !! id);
    match row with
    | Some r =>
        if bool_decide (MessageRow.deleted_at r = None) then
          let r' := touch_message (MessageRow.content r) (MessageRow.edited_at r) (Some now) now r in
          update (λ d, set_messages (<[id := r']> (messages d)) d);;
          mret (map_message (id, r'))
        else mthrow (NotFoundException "Message not found or already deleted" "")
    | None => mthrow (NotFoundException "Message not found or already deleted" "")
    end).
End PgMessageRepository.

Module PgAttachmentRepository.
(* src/repositories/pg_attachment_repository.cpp:29-47, map_row *)
Definition map_row (kr : Z * AttachmentRow.t) : Attachment.t :=
  let '(id, r) := kr in
  Attachment.mk id (AttachmentRow.owner_id r) (AttachmentRow.message_id r)
    (AttachmentRow.storage_backend r) (AttachmentRow.storage_key r) (AttachmentRow.thumbnail_key r)
    (AttachmentRow.original_filename r) (AttachmentRow.content_type r)
    (default AttachmentKind.kOther (AttachmentKind.from_string (AttachmentRow.kind r)))
    (AttachmentRow.byte_size r) (AttachmentRow.width r) (AttachmentRow.height r)
    (AttachmentRow.checksum r) (db_time (AttachmentRow.created_at r)).

(* include/rtc/repositories/attachment_repository.hpp:13-22, NewAttachment *)
Record NewAttachment := {
  na_owner_id : Z; na_storage_backend : string; na_storage_key : string;
  na_original_filename : string; na_content_type : string; na_kind : AttachmentKind.t;
  na_byte_size : Z; na_checksum : option string }.

(* src/repositories/pg_attachment_repository.cpp:51-70, PgAttachmentRepository::create *)
Definition create (input : NewAttachment) : M World exn Attachment.t :=
  with_transaction (
    id ← nextval SAttachments;
    now ← clock;
    d ← on_db (λ d, d);
    foreign_key (exists_row (users d) (na_owner_id input));;
    (if na_byte_size input <? 0 then mthrow (Std "violates check constraint") else mret ());;
    let row := AttachmentRow.mk (na_owner_id input) None (na_storage_backend input)
      (na_storage_key input) None (na_original_filename input) (na_content_type input)
      (AttachmentKind.to_string (na_kind input)) (na_byte_size input) None None
      (na_checksum input) now in
    update (λ d, set_attachments (<[id := row]> (attachments d)) d);;
    mret (map_row (id, row))).

(* src/repositories/pg_attachment_repository.cpp:72-80, PgAttachmentRepository::find_by_id *)
Definition find_by_id (id : Z) : M World exn (option Attachment.t) :=
  with_transaction (on_db (λ d, (λ r, map_row (id, r)) <$> attachments d !! id)).

Definition linked_to (m : Z) (r : AttachmentRow.t) : bool :=
  bool_decide (AttachmentRow.message_id r = Some m).

(* src/repositories/pg_attachment_repository.cpp:82-95, PgAttachmentRepository::list_for_message *)
Definition list_for_message (message_id : Z) : M World exn (list Attachment.t) :=
  with_transaction (on_db (λ d,
    map_row <$> merge_sort id_asc (rows (linked_to message_id) (attachments d)))).

Definition set_message_id (m : Z) (r : AttachmentRow.t) : AttachmentRow.t :=
  AttachmentRow.mk (AttachmentRow.owner_id r) (Some m) (AttachmentRow.storage_backend r)
    (AttachmentRow.storage_key r) (AttachmentRow.thumbnail_key r)
    (AttachmentRow.original_filename r) (AttachmentRow.content_type r) (AttachmentRow.kind r)
    (AttachmentRow.byte_size r) (AttachmentRow.width r) (AttachmentRow.height r)
    (AttachmentRow.checksum r) (AttachmentRow.created_at r).

(** The loop of [link_to_message], one [UPDATE] per id, counting the rows. *)
Fixpoint link_loop (ids : list Z) (message_id owner_id : Z) : M World exn Z :=
  match ids with
  | [] => mret 0
  | id :: ids =>
      d ← on_db (λ d, d);
      linked ←
        match attachments d !! id with
        | Some r =>
            if (AttachmentRow.owner_id r =? owner_id)
               && bool_decide (AttachmentRow.message_id r = None)
            then
              foreign_key (exists_row (messages d) message_id);;
              update (λ d, set_attachments
                (<[id := set_message_id message_id r]> (attachments d)) d);;
              mret 1
            else mret 0
        | None => mret 0
        end;
      rest ← link_loop ids message_id owner_id;
      mret (linked + rest)
  end.

(* src/repositories/pg_attachment_repository.cpp:97-117, PgAttachmentRepository::link_to_message *)
Definition link_to_message (attachment_ids : list Z) (message_id owner_id : Z) : M World exn Z :=
  match attachment_ids with
  | [] => mret 0
  | _ => with_transaction (link_loop attachment_ids message_id owner_id)
  end.

(** [COALESCE($n, column)]. *)
Definition coalesce {A} (a b : option A) : option A := match a with Some _ => a | None => b end.

(* src/repositories/pg_attachment_repository.cpp:119-135, PgAttachmentRepository::update_media_meta *)
Definition update_media_meta (id : Z) (width height : option Z) (thumbnail_key : option string)
    : M World exn unit :=
  with_transaction (
    update (λ d, set_attachments (alter (λ r,
      AttachmentRow.mk (AttachmentRow.owner_id r) (AttachmentRow.message_id r)
        (AttachmentRow.storage_backend r) (AttachmentRow.storage_key r)
        (coalesce thumbnail_key (AttachmentRow.thumbnail_key r))
        (AttachmentRow.original_filename r) (AttachmentRow.content_type r) (AttachmentRow.kind r)
        (AttachmentRow.byte_size r) (coalesce width (AttachmentRow.width r))
        (coalesce height (AttachmentRow.height r)) (AttachmentRow.checksum r)
        (AttachmentRow.created_at r)) id (attachments d)) d)).

(* src/repositories/pg_attachment_repository.cpp:137-141, PgAttachmentRepository::remove *)
Definition remove (id : Z) : M World exn bool :=
  with_transaction (
    found ← on_db (λ d, exists_row (attachments d) id);
    update (λ d, set_attachments (delete id (attachments d)) d);;
    mret found).
End PgAttachmentRepository.

Module PgReadReceiptRepository.
(* src/repositories/pg_read_receipt_repository.cpp:18-21, rank_sql *)
Definition rank_sql (state : string) : Z :=
  if String.eqb state "sent" then 0
  else if String.eqb state "delivered" then 1
  else if String.eqb state "read" then 2
  else 0.

(* src/repositories/pg_read_receipt_repository.cpp:23-32, map_receipt *)
Definition map_receipt (kr : Z * ReceiptRow.t) : ReadReceipt.t :=
  let '(id, r) := kr in
  ReadReceipt.mk id (ReceiptRow.message_id r) (ReceiptRow.user_id r)
    (default ReceiptState.kSent (ReceiptState.from_string (ReceiptRow.state r)))
    (db_time (ReceiptRow.updated_at r)).

Definition is_receipt (m u : Z) (r : ReceiptRow.t) : bool :=
  (ReceiptRow.message_id r =? m) && (ReceiptRow.user_id r =? u).

(* src/repositories/pg_read_receipt_repository.cpp:36-54, PgReadReceiptRepository::upsert_state *)
Definition upsert_state (message_id user_id : Z) (state : ReceiptState.t)
    : M World exn ReadReceipt.t :=
  with_transaction (
    id ← nextval SReceipts;
    now ← clock;
    d ← on_db (λ d, d);
    let excluded := ReceiptState.to_string state in
    match one_row (is_receipt message_id user_id) (receipts d) with
    | Some (rid, r) =>
        let r' := ReceiptRow.mk (ReceiptRow.message_id r) (ReceiptRow.user_id r)
          (if rank_sql (ReceiptRow.state r) <? rank_sql excluded then excluded
           else ReceiptRow.state r) now in
        update (λ d, set_receipts (<[rid := r']> (receipts d)) d);;
        mret (map_receipt (rid, r'))
    | None =>
        foreign_key (exists_row (messages d) message_id && exists_row (users d) user_id);;
        let r' := ReceiptRow.mk message_id user_id excluded now in
        update (λ d, set_receipts (<[id := r']> (receipts d)) d);;
        mret (map_receipt (id, r'))
    end).

(** One row of the [INSERT ... SELECT ... ON CONFLICT DO UPDATE]. *)
Definition read_one (user_id message_id : Z) : M World exn unit :=
  id ← nextval SReceipts;
  now ← clock;
  d ← on_db (λ d, d);
  match one_row (is_receipt message_id user_id) (receipts d) with
  | Some (rid, r) =>
      if String.eqb (ReceiptRow.state r) "read" then mret ()
      else update (λ d, set_receipts
             (<[rid := ReceiptRow.mk message_id user_id "read" now]> (receipts d)) d)
  | None =>
      foreign_key (exists_row (users d) user_id);;
      update (λ d, set_receipts
        (<[id := ReceiptRow.mk message_id user_id "read" now]> (receipts d)) d)
  end.

(* src/repositories/pg_read_receipt_repository.cpp:56-73, PgReadReceiptRepository::mark_conversation_read *)
Definition mark_conversation_read (conversation_id user_id up_to_message_id : Z)
    : M World exn unit :=
  with_transaction (
    ms ← on_db (λ d, filter (λ kr : Z * MessageRow.t,
           MessageRow.conversation_id kr.2 = conversation_id ∧ kr.1 <= up_to_message_id ∧
           MessageRow.sender_id kr.2 ≠ user_id) (map_to_list (messages d)));
    for_each (λ kr : Z * MessageRow.t, read_one user_id kr.1) ms).

(* src/repositories/pg_read_receipt_repository.cpp:75-88, PgReadReceiptRepository::list_for_message *)
Definition list_for_message (message_id : Z) : M World exn (list ReadReceipt.t) :=
  with_transaction (on_db (λ d,
    map_receipt <$> rows (λ r, ReceiptRow.message_id r =? message_id) (receipts d))).
End PgReadReceiptRepository.

Module PgReactionRepository.
(* src/repositories/pg_reaction_repository.cpp:19-28, map_row *)
Definition map_row (kr : Z * ReactionRow.t) : Reaction.t :=
  let '(id, r) := kr in
  Reaction.mk id (ReactionRow.message_id r) (ReactionRow.user_id r) (ReactionRow.emoji r)
    (db_time (ReactionRow.created_at r)) (db_time (ReactionRow.updated_at r)).

Definition is_reaction (m u : Z) (r : ReactionRow.t) : bool :=
  (ReactionRow.message_id r =? m) && (ReactionRow.user_id r =? u).

(* src/repositories/pg_reaction_repository.cpp:32-45, PgReactionRepository::upsert *)
Definition upsert (message_id user_id : Z) (emoji : string) : M World exn Reaction.t :=
  with_transaction (
    id ← nextval SReactions;
    now ← clock;
    d ← on_db (λ d, d);
    match one_row (is_reaction message_id user_id) (reactions d) with
    | Some (rid, r) =>
        let r' := ReactionRow.mk (ReactionRow.message_id r) (ReactionRow.user_id r) emoji
                    (ReactionRow.created_at r) now in
        update (λ d, set_reactions (<[rid := r']> (reactions d)) d);;
        mret (map_row (rid, r'))
    | None =>
        foreign_key (exists_row (messages d) message_id && exists_row (users d) user_id);;
        let r' := ReactionRow.mk message_id user_id emoji now now in
        update (λ d, set_reactions (<[id := r']> (reactions d)) d);;
        mret (map_row (id, r'))
    end).

(* src/repositories/pg_reaction_repository.cpp:47-55, PgReactionRepository::remove *)
Definition remove (message_id user_id : Z) : M World exn bool :=
  with_transaction (
    found ← on_db (λ d, any_row (is_reaction message_id user_id) (reactions d));
    update (λ d, set_reactions
      (delete_where (is_reaction message_id user_id) (reactions d)) d);;
    mret found).

(* src/repositories/pg_reaction_repository.cpp:57-70, PgReactionRepository::list_for_message *)
Definition list_for_message (message_id : Z) : M World exn (list Reaction.t) :=
  with_transaction (on_db (λ d,
    map_row <$> merge_sort id_asc
      (rows (λ r, ReactionRow.message_id r =? message_id) (reactions d)))).
End PgReactionRepository.
