(* ===== verification/Attachments.v ===== *)
(** * Attachments: file storage, MIME rules and the attachment service

    Models src/storage/local_file_storage.cpp, src/media/mime.cpp and
    src/services/attachment_service.cpp.  The upload directory is the [files] of
    the world, from path to contents; [io_faults] says which of the next opens
    for writing fail.  SHA-256 belongs to a library and is a parameter; so
    is the random token of a storage key.  The image processor is an interface,
    whose one implementation decodes nothing. *)

From S2P Require Import Prelude Text Json Errors TimeUtil Models Events Dto Database Users.
From S2P Require Import Conversations Repositories.
Open Scope string_scope.
Open Scope Z_scope.

(** The components of a path, between slashes. *)
Fixpoint split_slash (s : string) : list string :=
  match s with
  | "" => [""]
  | String c r =>
      if code c =? 47 then "" :: split_slash r
      else match split_slash r with
           | [] => [String c ""]
           | p :: ps => String c p :: ps
           end
  end.

Module LocalFileStorage.
Section Storage.
Context (root : string).

(* src/storage/local_file_storage.cpp:21-37, LocalFileStorage::resolve *)
Definition resolve (key : string) : result exn string :=
  if String.eqb key "" then Err (ValidationException "Empty storage key" "")
  else if starts_with "/" key then Err (ValidationException "Storage key must be relative" "")
  else if existsb (λ part, String.eqb part "..") (split_slash key)
  then Err (ValidationException "Storage key must not contain '..'" "")
  else Ok (root +:+ "/" +:+ key).

(* include/rtc/storage/file_storage.hpp:11-15, StoredObject *)
Record StoredObject := { so_key : string; so_backend : string; so_size : Z }.

(** Opening for writing and writing a whole file. *)
Definition write_file (path bytes : string) : M World exn unit := λ w,
  let io := tail (io_faults w) in
  if default false (head (io_faults w))
  then (Err (InternalException "Failed to open file for writing" path), set_files (files w) io w)
  else (Ok (), set_files (<[path := bytes]> (files w)) io w).

(* src/storage/local_file_storage.cpp:39-56, LocalFileStorage::put *)
Definition put (key content_type bytes : string) : M World exn StoredObject :=
  path ← lift (resolve key);
  write_file path bytes;;
  mret {| so_key := key; so_backend := "local"; so_size := ssize bytes |}.

(* src/storage/local_file_storage.cpp:58-67, LocalFileStorage::get *)
Definition get (key : string) : M World exn (option string) :=
  path ← lift (resolve key);
  gets (λ w, files w !! path).

(* src/storage/local_file_storage.cpp:69-72, LocalFileStorage::remove *)
Definition remove (key : string) : M World exn bool :=
  path ← lift (resolve key);
  found ← gets (λ w, exists_row (files w) path);
  modify (λ w, set_files (delete path (files w)) (io_faults w) w);;
  mret found.

(* src/storage/local_file_storage.cpp:74-77, LocalFileStorage::exists *)
Definition exists_key (key : string) : M World exn bool :=
  path ← lift (resolve key);
  gets (λ w, exists_row (files w) path).
End Storage.
End LocalFileStorage.

Module Mime.
(* src/media/mime.cpp:15-38, type_map *)
Definition type_map : gmap string AttachmentKind.t :=
  list_to_map [
    ("image/jpeg", AttachmentKind.kImage);
    ("image/png", AttachmentKind.kImage);
    ("image/gif", AttachmentKind.kImage);
    ("image/webp", AttachmentKind.kImage);
    ("application/pdf", AttachmentKind.kPdf);
    ("text/plain", AttachmentKind.kDocument);
    ("text/csv", AttachmentKind.kDocument);
    ("application/msword", AttachmentKind.kDocument);
    ("application/vnd.openxmlformats-officedocument.wordprocessingml.document",
       AttachmentKind.kDocument);
    ("application/vnd.openxmlformats-officedocument.spreadsheetml.sheet",
       AttachmentKind.kDocument);
    ("video/mp4", AttachmentKind.kVideo);
    ("video/webm", AttachmentKind.kVideo);
    ("video/quicktime", AttachmentKind.kVideo);
    ("audio/mpeg", AttachmentKind.kAudio);
    ("audio/ogg", AttachmentKind.kAudio);
    ("audio/wav", AttachmentKind.kAudio);
    ("audio/webm", AttachmentKind.kAudio)].

(* src/media/mime.cpp:40-46, lower *)
Definition lower (value : string) : string := transform tolower value.

(** The text after the last occurrence of a byte, if there is one. *)
Fixpoint after_last (c : ascii) (s : string) : option string :=
  match s with
  | "" => None
  | String d r =>
      match after_last c r with
      | Some t => Some t
      | None => if code d =? code c then Some r else None
      end
  end.

(* src/media/mime.cpp:48-54, extension_of *)
Definition extension_of (filename : string) : string :=
  match after_last "." filename with Some ext => lower ext | None => "" end.

(* src/media/mime.cpp:58-60, is_allowed_upload_type *)
Definition is_allowed_upload_type (content_type : string) : bool :=
  exists_row type_map (lower content_type).

(* src/media/mime.cpp:62-65, classify *)
Definition classify (content_type : string) : AttachmentKind.t :=
  default AttachmentKind.kOther (type_map !! lower content_type).

(* src/media/mime.cpp:68-83, kByExt *)
Definition kByExt : gmap string string :=
  list_to_map [("jpg", "image/jpeg"); ("jpeg", "image/jpeg"); ("png", "image/png");
    ("gif", "image/gif"); ("webp", "image/webp"); ("pdf", "application/pdf");
    ("txt", "text/plain"); ("csv", "text/csv"); ("mp4", "video/mp4"); ("webm", "video/webm");
    ("mov", "video/quicktime"); ("mp3", "audio/mpeg"); ("ogg", "audio/ogg"); ("wav", "audio/wav")].

(* src/media/mime.cpp:67-86, content_type_for_extension *)
Definition content_type_for_extension (filename : string) : string :=
  default "" (kByExt !! extension_of filename).
End Mime.

(** [IImageProcessor]. *)
Class ImageProcessor := {
  supports : string → bool;
  probe : string → option (Z * Z);
  make_thumbnail : string → string → Z → option (string * string)
}.

(** The processor the program is built with. *)
(* include/rtc/media/image_processor.hpp:45-58, NoopImageProcessor *)
Definition NoopImageProcessor : ImageProcessor :=
  {| supports content_type := starts_with "image/" content_type;
     probe _ := None; make_thumbnail _ _ _ := None |}.

Module AttachmentService.
Section Service.
Context (root : string) `{Sha256} `{ImageProcessor}.

(* include/rtc/services/attachment_service.hpp:28-31, AttachmentService::Options *)
Record Options := { max_upload_bytes : Z; thumbnail_max_dimension : Z }.

(* include/rtc/services/attachment_service.hpp:33-38, AttachmentService::UploadInput *)
Record UploadInput := {
  up_owner_id : Z; up_filename : string; up_declared : string; up_bytes : string }.

Context (options : Options).

(* src/services/attachment_service.cpp:17-29, resolve_content_type *)
Definition resolve_content_type (declared filename : string) : result exn string :=
  if negb (String.eqb declared "") && Mime.is_allowed_upload_type declared then Ok declared
  else
    let inferred := Mime.content_type_for_extension filename in
    if negb (String.eqb inferred "") && Mime.is_allowed_upload_type inferred then Ok inferred
    else Err (UnsupportedMediaTypeException "Unsupported or disallowed file type"
                ("content_type=" +:+ declared)).

(** [path::extension()]: of the last component; a component that starts with
    its only dot, and [.] and [..], have none. *)
Definition extension_of_name (name : string) : string :=
  if String.eqb name "." || String.eqb name ".." then ""
  else
    match Mime.after_last "." name with
    | Some ext => if String.eqb name (String "." ext) then "" else String "." ext
    | None => ""
    end.

(* src/services/attachment_service.cpp:31-34, extension_of *)
Definition extension_of (filename : string) : string :=
  extension_of_name (default "" (last (split_slash filename))).

Definition storage_key (owner_id : Z) (token filename : string) : string :=
  to_string owner_id +:+ "/" +:+ token +:+ extension_of filename.

(* src/services/attachment_service.cpp:79-107, AttachmentService::schedule_image_processing *)
Definition schedule_image_processing (attachment_id : Z) (bytes content_type base_key : string)
    : M World exn unit :=
  emit (EImageJob attachment_id bytes content_type base_key).

(* src/services/attachment_service.cpp:86-106, AttachmentService::schedule_image_processing *)
Definition image_job (attachment_id : Z) (bytes content_type base_key : string)
    : M World exn unit :=
  let info := probe bytes in
  thumbnail_key ←
    match make_thumbnail bytes content_type (thumbnail_max_dimension options) with
    | Some (tbytes, ttype) =>
        let tkey := base_key +:+ ".thumb" in
        LocalFileStorage.put root tkey ttype tbytes;;
        mret (Some tkey)
    | None => mret None
    end;
  match fst <$> info, snd <$> info, thumbnail_key with
  | None, None, None => mret ()
  | w, h, t => PgAttachmentRepository.update_media_meta attachment_id w h t
  end.

(* src/services/attachment_service.cpp:38-77, AttachmentService::upload *)
Definition upload (token : string) (input : UploadInput) : M World exn Attachment.t :=
  if String.eqb (up_bytes input) ""
  then mthrow (ValidationException "Uploaded file is empty" "")
  else if max_upload_bytes options <? ssize (up_bytes input)
  then mthrow (PayloadTooLargeException "File exceeds the maximum allowed size"
                 ("max_bytes=" +:+ to_string (max_upload_bytes options)))
  else
    content_type ← lift (resolve_content_type (up_declared input) (up_filename input));
    let kind := Mime.classify content_type in
    let key := storage_key (up_owner_id input) token (up_filename input) in
    stored ← LocalFileStorage.put root key content_type (up_bytes input);
    attachment ← PgAttachmentRepository.create {|
      PgAttachmentRepository.na_owner_id := up_owner_id input;
      PgAttachmentRepository.na_storage_backend := LocalFileStorage.so_backend stored;
      PgAttachmentRepository.na_storage_key := LocalFileStorage.so_key stored;
      PgAttachmentRepository.na_original_filename := up_filename input;
      PgAttachmentRepository.na_content_type := content_type;
      PgAttachmentRepository.na_kind := kind;
      PgAttachmentRepository.na_byte_size := LocalFileStorage.so_size stored;
      PgAttachmentRepository.na_checksum := Some (sha256_hex (up_bytes input)) |};
    emit (EMetric "rtc_uploads_total");;
    emit (EObserve "rtc_upload_bytes" (LocalFileStorage.so_size stored));;
    (if decide (kind = AttachmentKind.kImage) then
       if supports content_type
       then schedule_image_processing (Attachment.id attachment) (up_bytes input) content_type
              (LocalFileStorage.so_key stored)
       else mret ()
     else mret ());;
    mret attachment.

(* src/services/attachment_service.cpp:109-115, AttachmentService::require_attachment *)
Definition require_attachment (id : Z) : M World exn Attachment.t :=
  attachment ← PgAttachmentRepository.find_by_id id;
  match attachment with
  | None => mthrow (NotFoundException "Attachment not found" "")
  | Some attachment => mret attachment
  end.

(* src/services/attachment_service.cpp:117-131, AttachmentService::authorize_view *)
Definition authorize_view (actor_id : Z) (attachment : Attachment.t) : M World exn unit :=
  if Attachment.owner_id attachment =? actor_id then mret ()
  else
    allowed ←
      match Attachment.message_id attachment with
      | None => mret false
      | Some message_id =>
          message ← PgMessageRepository.find_by_id message_id;
          match message with
          | None => mret false
          | Some message =>
              PgConversationRepository.is_participant (Message.conversation_id message) actor_id
          end
      end;
    if (allowed : bool) then mret () else mthrow (NotFoundException "Attachment not found" "").

(* src/services/attachment_service.cpp:133-137, AttachmentService::get_metadata *)
Definition get_metadata (actor_id id : Z) : M World exn Attachment.t :=
  attachment ← require_attachment id;
  authorize_view actor_id attachment;;
  mret attachment.

(* src/services/attachment_service.cpp:139-153, AttachmentService::download *)
Definition download (actor_id id : Z) (thumbnail : bool)
    : M World exn (Attachment.t * string * string) :=
  attachment ← require_attachment id;
  authorize_view actor_id attachment;;
  let key := match thumbnail, Attachment.thumbnail_key attachment with
             | true, Some k => k
             | _, _ => Attachment.storage_key attachment
             end in
  bytes ← LocalFileStorage.get root key;
  match bytes with
  | None => mthrow (NotFoundException "Attachment content not found" "")
  | Some bytes =>
      emit (EMetric "rtc_downloads_total");;
      mret (attachment, bytes, Attachment.content_type attachment)
  end.

(* src/services/attachment_service.cpp:155-165, AttachmentService::remove *)
Definition remove (actor_id id : Z) : M World exn unit :=
  attachment ← require_attachment id;
  if negb (Attachment.owner_id attachment =? actor_id)
  then mthrow (AuthorizationException "Only the owner may delete this attachment" "")
  else
    LocalFileStorage.remove root (Attachment.storage_key attachment);;
    match Attachment.thumbnail_key attachment with
    | Some k => LocalFileStorage.remove root k;; mret ()
    | None => mret ()
    end;;
    PgAttachmentRepository.remove id;;
    mret ().
End Service.

(* src/services/attachment_service.cpp:167-171, AttachmentService::link_to_message *)
Definition link_to_message (owner_id : Z) (attachment_ids : list Z) (message_id : Z)
    : M World exn Z :=
  PgAttachmentRepository.link_to_message attachment_ids message_id owner_id.

(* src/services/attachment_service.cpp:173-179, AttachmentService::attachment_ids_for *)
Definition attachment_ids_for (message_id : Z) : M World exn (list Z) :=
  attachments ← PgAttachmentRepository.list_for_message message_id;
  mret (Attachment.id <$> attachments).

(* src/services/attachment_service.cpp:181-183, AttachmentService::for_message *)
Definition for_message (message_id : Z) : M World exn (list Attachment.t) :=
  PgAttachmentRepository.list_for_message message_id.
End AttachmentService.
