(* ===== verification/Messages.v ===== *)
(** * Messages: the message service

    Models src/services/message_service.cpp on top of the repositories.  The
    theorems fix what each operation persists and, in order, what it announces:
    a broadcast describes a row that is already stored. *)

From S2P Require Import Prelude Text Json Errors Validation TimeUtil Models Events Dto Database.
From S2P Require Import Users Conversations Repositories Attachments.
Import PgConversationRepository.
Open Scope string_scope.
Open Scope Z_scope.

Module MessageService.

(* src/services/message_service.cpp:21-27, MessageService::require_message *)
Definition require_message (message_id : Z) : M World exn Message.t :=
  message ← PgMessageRepository.find_by_id message_id;
  match message with
  | None => mthrow (NotFoundException "Message not found"
                      ("message_id=" +:+ to_string message_id))
  | Some message => mret message
  end.

(* src/services/message_service.cpp:29-33, MessageService::require_participant *)
Definition require_participant (conversation_id user_id : Z) : M World exn unit :=
  b ← is_participant conversation_id user_id;
  if (b : bool) then mret () else mthrow (NotFoundException "Conversation not found" "").

(* src/services/message_service.cpp:35-39, MessageService::to_response *)
Definition to_response (message : Message.t) : M World exn MessageResponse.t :=
  ids ← AttachmentService.attachment_ids_for (Message.id message);
  let r := MessageResponse.from message in
  mret (MessageResponse.mk (MessageResponse.id r) (MessageResponse.conversation_id r)
    (MessageResponse.sender_id r) (MessageResponse.type r) (MessageResponse.content r)
    (MessageResponse.deleted r) (MessageResponse.edited r) (MessageResponse.created_at r)
    (MessageResponse.updated_at r) (MessageResponse.edited_at r) ids).

(* src/services/message_service.cpp:41-83, MessageService::send *)
Definition send (actor_id : Z) (request : SendMessageRequest.t) : M World exn Message.t :=
  content ← lift (validate_message_content (SendMessageRequest.content request));
  require_participant (SendMessageRequest.conversation_id request) actor_id;;
  stored ← PgMessageRepository.create {|
    PgMessageRepository.nm_conversation_id := SendMessageRequest.conversation_id request;
    PgMessageRepository.nm_sender_id := actor_id;
    PgMessageRepository.nm_content := content;
    PgMessageRepository.nm_type := SendMessageRequest.type request |};
  (match SendMessageRequest.attachment_ids request with
   | [] => mret 0
   | ids => AttachmentService.link_to_message actor_id ids (Message.id stored)
   end);;
  participants ← list_participant_ids (SendMessageRequest.conversation_id request);
  response ← to_response stored;
  emit (EBroadcast participants WireEvents.kMessageCreated (MessageResponse.to_json response));;
  emit (ENotify (NewMessage actor_id (Message.conversation_id stored) (Message.id stored)
                   participants));;
  emit (EPublish (MessageSent (Message.id stored) (Message.conversation_id stored) actor_id
                    participants (ssize content)));;
  mret stored.

(* src/services/message_service.cpp:85-94, MessageService::list *)
Definition list `{TextSearch} (actor_id : Z) (query : MessageQuery.t) (page : Pagination.t)
    : M World exn (list Message.t) :=
  require_participant (MessageQuery.conversation_id query) actor_id;;
  PgMessageRepository.list {|
    PgMessageRepository.mf_conversation_id := MessageQuery.conversation_id query;
    PgMessageRepository.mf_sender_id := MessageQuery.sender_id query;
    PgMessageRepository.mf_keyword := MessageQuery.keyword query |} page.

(* src/services/message_service.cpp:96-116, MessageService::edit *)
Definition edit (actor_id message_id : Z) (request : UpdateMessageRequest.t)
    : M World exn Message.t :=
  existing ← require_message message_id;
  if negb (Message.sender_id existing =? actor_id)
  then mthrow (AuthorizationException "Only the author may edit a message" "")
  else
    content ← lift (validate_message_content (UpdateMessageRequest.content request));
    updated ← PgMessageRepository.update_content message_id content;
    ids ← list_participant_ids (Message.conversation_id updated);
    response ← to_response updated;
    emit (EBroadcast ids WireEvents.kMessageUpdated (MessageResponse.to_json response));;
    emit (EPublish (MessageEdited (Message.id updated) (Message.conversation_id updated)
                      actor_id));;
    mret updated.

(* src/services/message_service.cpp:118-148, MessageService::remove *)
Definition remove (actor_id message_id : Z) : M World exn Message.t :=
  existing ← require_message message_id;
  let is_author := Message.sender_id existing =? actor_id in
  permitted ←
    (if is_author then mret true
     else
       conversation ← find_by_id (Message.conversation_id existing);
       mret match conversation with
            | None => false
            | Some conversation =>
                Conversation.is_group conversation
                && bool_decide (Conversation.owner_id conversation = Some actor_id)
            end);
  if negb (permitted : bool)
  then mthrow (AuthorizationException "Not allowed to delete this message" "")
  else
    deleted ← PgMessageRepository.soft_delete message_id;
    ids ← list_participant_ids (Message.conversation_id deleted);
    response ← to_response deleted;
    emit (EBroadcast ids WireEvents.kMessageDeleted (MessageResponse.to_json response));;
    emit (EPublish (MessageDeleted (Message.id deleted) (Message.conversation_id deleted)
                      actor_id (negb is_author)));;
    mret deleted.

(* src/services/message_service.cpp:150-154, MessageService::get *)
Definition get (actor_id message_id : Z) : M World exn Message.t :=
  message ← require_message message_id;
  require_participant (Message.conversation_id message) actor_id;;
  mret message.
End MessageService.
