(* ===== verification/MessageProps.v ===== *)
(** * MessageProps: what the message service guarantees

    Sending persists before it announces and announces nothing when it fails;
    only the author edits; the author or the group's owner deletes; the content
    of a deleted message is not part of any response. *)

From S2P Require Import Prelude Text Json Errors Validation TimeUtil Models Events Dto Database.
From S2P Require Import Samples Users Conversations ConversationProps Repositories Attachments.
From S2P Require Import Messages.
Import PgConversationRepository.
Open Scope string_scope.
Open Scope Z_scope.

(** [same w w1] as rewrite rules. *)
Ltac use_same H :=
  let E1 := fresh "Ed" in let E2 := fresh "Es" in let E3 := fresh "En" in
  let E4 := fresh "Eo" in let E5 := fresh "Ef" in let E6 := fresh "Ei" in
  destruct H as (E1 & E2 & E3 & E4 & E5 & E6); rewrite ?E1, ?E2, ?E3, ?E4 in *.

Lemma is_participant_ok c u w b w' :
  is_participant c u w = (Ok b, w') → b = is_member c u (db w) ∧ same w w'.
Proof. apply query_ok. Qed.

Lemma require_participant_ok c u w a w' :
  MessageService.require_participant c u w = (Ok a, w') → is_member c u (db w) = true ∧ same w w'.
Proof.
  unfold MessageService.require_participant. intros H. apply bind_ok_inv in H as (b & w1 & Hb & H).
  apply is_participant_ok in Hb as [-> Hs]. destruct (is_member c u (db w)); [|done].
  by apply ret_ok in H as [_ ->].
Qed.

Lemma require_message_ok id w m w' :
  MessageService.require_message id w = (Ok m, w') →
  same w w' ∧ ∃ r, messages (db w) !! id = Some r ∧ m = PgMessageRepository.map_message (id, r).
Proof.
  unfold MessageService.require_message. intros H. apply bind_ok_inv in H as (o & w1 & Ho & H).
  apply query_ok in Ho as [-> Hs]. destruct (messages (db w) !! id) as [r|] eqn:E; [|done].
  apply ret_ok in H as [-> ->]. eauto.
Qed.

(** ** Linking attachments *)

Definition link_one (m o : Z) (t : gmap Z AttachmentRow.t) (id : Z) : gmap Z AttachmentRow.t :=
  match t !! id with
  | Some r =>
      if (AttachmentRow.owner_id r =? o) && bool_decide (AttachmentRow.message_id r = None)
      then <[id := PgAttachmentRepository.set_message_id m r]> t else t
  | None => t
  end.
Definition link_all (ids : list Z) (m o : Z) (t : gmap Z AttachmentRow.t) : gmap Z AttachmentRow.t :=
  foldl (link_one m o) t ids.

Lemma set_attachments_id d : set_attachments (attachments d) d = d.
Proof. by destruct d. Qed.

Lemma link_loop_ok ids m o w n w' :
  PgAttachmentRepository.link_loop ids m o w = (Ok n, w') →
  db w' = set_attachments (link_all ids m o (attachments (db w))) (db w) ∧
  seqs w' = seqs w ∧ now w' = now w ∧ out w' = out w.
Proof.
  revert w n w'. induction ids as [|id ids IH]; intros w n w' H; simpl in H.
  { injection H as _ <-. unfold link_all. simpl. by rewrite set_attachments_id. }
  apply bind_ok_inv in H as (d & w0 & Hd & H). injection Hd as <- <-.
  apply bind_ok_inv in H as (k & w1 & H1 & H). apply bind_ok_inv in H as (k2 & w2 & H2 & H).
  injection H as _ <-. apply IH in H2 as (Hdb & Hseq & Hnow & Hout).
  assert (db w1 = set_attachments (link_one m o (attachments (db w)) id) (db w) ∧
          seqs w1 = seqs w ∧ now w1 = now w ∧ out w1 = out w) as (Hdb1 & Hs1 & Hn1 & Ho1).
  { unfold link_one. destruct (attachments (db w) !! id) as [r|]; [destruct (_ && _)|];
      run_txn H1; by rewrite ?set_attachments_id. }
  rewrite Hdb, Hdb1. repeat split; congruence.
Qed.

Lemma link_to_message_ok o ids m w n w' :
  AttachmentService.link_to_message o ids m w = (Ok n, w') →
  db w' = set_attachments (link_all ids m o (attachments (db w))) (db w) ∧
  seqs w' = seqs w ∧ now w' = now w ∧ out w' = out w.
Proof.
  unfold AttachmentService.link_to_message, PgAttachmentRepository.link_to_message.
  destruct ids as [|i ids].
  - intros [= _ <-]. unfold link_all. simpl. by rewrite set_attachments_id.
  - intros H. apply with_transaction_ok in H as (w1 & Hs & H).
    apply link_loop_ok in H. use_same Hs. done.
Qed.

(** Exactly the sender's own, still unattached files are linked. *)
Lemma link_all_lookup ids m o t a :
  link_all ids m o t !! a =
    (λ r, if bool_decide (a ∈ ids) && (AttachmentRow.owner_id r =? o)
             && bool_decide (AttachmentRow.message_id r = None)
          then PgAttachmentRepository.set_message_id m r else r) <$> t !! a.
Proof.
  revert t. induction ids as [|i ids IH]; intros t; simpl.
  { destruct (t !! a); done. }
  rewrite IH. unfold link_one. destruct (decide (i = a)) as [->|Hne].
  - destruct (t !! a) as [r|] eqn:Ha; [|by rewrite Ha].
    destruct (AttachmentRow.owner_id r =? o) eqn:Ho; cycle 1.
    { simpl. rewrite Ha. simpl. by rewrite Ho, !andb_false_r. }
    destruct (decide (AttachmentRow.message_id r = None)) as [Hm|Hm]; cycle 1.
    { rewrite (bool_decide_eq_false_2 (_ = None)) by done. simpl. rewrite Ha. simpl.
      by rewrite (bool_decide_eq_false_2 (_ = None)), !andb_false_r by done. }
    rewrite (bool_decide_eq_true_2 (_ = None)) by done. simpl. rewrite lookup_insert_eq. simpl.
    rewrite Ho. rewrite (bool_decide_eq_true_2 (AttachmentRow.message_id r = None)) by done.
    rewrite (bool_decide_eq_true_2 (a ∈ a :: ids)) by set_solver. simpl.
    by rewrite !andb_false_r.
  - assert (bool_decide (a ∈ i :: ids) = bool_decide (a ∈ ids)) as ->
      by (apply bool_decide_ext; set_solver).
    f_equal. destruct (t !! i) as [r|]; [|done]. destruct (_ && _); [|done].
    by rewrite lookup_insert_ne.
Qed.

(** ** Reading back *)

Definition linked_ids (m : Z) (d : Database) : list Z :=
  Attachment.id <$> (PgAttachmentRepository.map_row <$>
    merge_sort id_asc (rows (PgAttachmentRepository.linked_to m) (attachments d))).

(** The JSON of a message as clients see it: its row and its attachments. *)
Definition message_json (m : Message.t) (atts : list Z) : json :=
  let r := MessageResponse.from m in
  MessageResponse.to_json (MessageResponse.mk (MessageResponse.id r)
    (MessageResponse.conversation_id r) (MessageResponse.sender_id r) (MessageResponse.type r)
    (MessageResponse.content r) (MessageResponse.deleted r) (MessageResponse.edited r)
    (MessageResponse.created_at r) (MessageResponse.updated_at r) (MessageResponse.edited_at r) atts).

Lemma to_response_ok m w r w' :
  MessageService.to_response m w = (Ok r, w') →
  same w w' ∧ MessageResponse.to_json r = message_json m (linked_ids (Message.id m) (db w)).
Proof.
  unfold MessageService.to_response, AttachmentService.attachment_ids_for. intros H.
  apply bind_ok_inv in H as (ids & w1 & H1 & H). apply bind_ok_inv in H1 as (l & w2 & H2 & H1).
  apply query_ok in H2 as [-> Hs]. apply ret_ok in H1 as [-> ->]. apply ret_ok in H as [-> ->]. done.
Qed.

Lemma create_ok input w m w' :
  PgMessageRepository.create input w = (Ok m, w') →
  let c := PgMessageRepository.nm_conversation_id input in
  let id := seqs w SMessages in
  let row := MessageRow.mk c (PgMessageRepository.nm_sender_id input)
    (MessageType.to_string (PgMessageRepository.nm_type input))
    (PgMessageRepository.nm_content input) (now w) (now w) None None in
  m = PgMessageRepository.map_message (id, row) ∧
  messages (db w') = <[id := row]> (messages (db w)) ∧
  participants (db w') = participants (db w) ∧
  (∃ r, conversations (db w') !! c = Some r ∧ ConversationRow.last_message_at r = Some (now w)) ∧
  seqs w' SMessages = id + 1 ∧ now w' = now w ∧ out w' = out w.
Proof.
  unfold PgMessageRepository.create. intros H. apply with_transaction_ok in H as (w1 & Hs & H).
  run_txn H. use_same Hs.
  match goal with E : (_ && _) = true |- _ => apply andb_true_iff in E as [Hc _] end.
  apply exists_row_true in Hc as [r Hr].
  split; [done|]. split; [done|]. split; [done|]. split; [|done].
  simpl. rewrite lookup_alter_eq, Hr. simpl. eauto.
Qed.

(** ** Sending *)

Lemma silent_query {A} (f : Database → A) : silent (with_transaction (on_db f)).
Proof. apply silent_with_transaction, silent_gets. Qed.

Lemma silent_link o ids m : silent (AttachmentService.link_to_message o ids m).
Proof.
  unfold AttachmentService.link_to_message, PgAttachmentRepository.link_to_message.
  destruct ids as [|i ids]; [apply silent_ret|]. apply silent_with_transaction.
  generalize (i :: ids) as l. induction l as [|x l IH]; cbn [PgAttachmentRepository.link_loop];
    [apply silent_ret|].
  apply silent_bind; [apply silent_gets|intros d]. apply silent_bind; [solve_silent|intros k].
  apply silent_bind; [apply IH|intros n]. apply silent_ret.
Qed.

Lemma silent_to_response m : silent (MessageService.to_response m).
Proof.
  unfold MessageService.to_response, AttachmentService.attachment_ids_for.
  apply silent_bind; [|intros ids; apply silent_ret].
  apply silent_bind; [apply silent_query|intros l; apply silent_ret].
Qed.

Lemma silent_require_participant c u : silent (MessageService.require_participant c u).
Proof. apply silent_bind; [apply silent_query|intros b; by destruct b]. Qed.

Lemma silent_require_message id : silent (MessageService.require_message id).
Proof. apply silent_bind; [apply silent_query|intros o; by destruct o]. Qed.

Lemma silent_create input : silent (PgMessageRepository.create input).
Proof. unfold PgMessageRepository.create. solve_silent. Qed.

Lemma send_late actor req : late (MessageService.send actor req).
Proof.
  unfold MessageService.send.
  apply late_bind; [apply silent_lift|intros content].
  apply late_bind; [apply silent_require_participant|intros ?].
  apply late_bind; [apply silent_create|intros stored].
  apply late_bind; [destruct (SendMessageRequest.attachment_ids req);
    [apply silent_ret|apply silent_link]|intros ?].
  apply late_bind; [apply silent_query|intros ps].
  apply late_bind; [apply silent_to_response|intros r].
  apply late_emit. total_tac.
Qed.

(** What a successful [send] did. *)
Definition sent_message (actor : Z) (req : SendMessageRequest.t) (w w' : World) (m : Message.t)
    : Prop :=
  let c := SendMessageRequest.conversation_id req in
  let id := Message.id m in
  ∃ content row,
    validate_message_content (SendMessageRequest.content req) = Ok content ∧
    row = MessageRow.mk c actor (MessageType.to_string (SendMessageRequest.type req)) content
            (now w) (now w) None None ∧
    m = PgMessageRepository.map_message (id, row) ∧
    messages (db w') = <[id := row]> (messages (db w)) ∧
    (∃ cr, conversations (db w') !! c = Some cr ∧
           ConversationRow.last_message_at cr = Some (now w)) ∧
    actor ∈ member_ids c (db w) ∧
    out w' = (out w ++
      [EBroadcast (member_ids c (db w)) WireEvents.kMessageCreated
         (message_json m (linked_ids id (db w')));
       ENotify (NewMessage actor c id (member_ids c (db w)));
       EPublish (MessageSent id c actor (member_ids c (db w)) (ssize content))])%list.

Lemma send_ok_inv actor req w w' m :
  MessageService.send actor req w = (Ok m, w') → sent_message actor req w w' m.
Proof.
  intros H. unfold MessageService.send in H.
  apply bind_ok_inv in H as (content & w0 & H0 & H). apply lift_ok in H0 as [Hc ->].
  apply bind_ok_inv in H as (? & w1 & H1 & H). apply require_participant_ok in H1 as [Hm Hs1].
  apply bind_ok_inv in H as (stored & w2 & H2 & H).
  apply create_ok in H2 as (Hst & Hms & Hps & Hcr & Hsq & Hnow & Hout).
  cbn [PgMessageRepository.nm_conversation_id PgMessageRepository.nm_sender_id
    PgMessageRepository.nm_content PgMessageRepository.nm_type] in *.
  apply bind_ok_inv in H as (n & w3 & H3 & H).
  assert (db w3 = set_attachments (attachments (db w3)) (db w2) ∧ out w3 = out w2) as [Hd3 Ho3].
  { destruct (SendMessageRequest.attachment_ids req) as [|i ids].
    - injection H3 as _ <-. by rewrite set_attachments_id.
    - apply link_to_message_ok in H3 as (-> & _ & _ & ->). done. }
  apply bind_ok_inv in H as (ids & w4 & H4 & H). apply query_ok in H4 as [-> Hs4].
  apply bind_ok_inv in H as (resp & w5 & H5 & H). apply to_response_ok in H5 as [Hs5 Hj].
  apply bind_ok_inv in H as (? & w6 & H6%emit_ok & H). apply bind_ok_inv in H as (? & w7 & H7%emit_ok & H).
  apply bind_ok_inv in H as (? & w8 & H8%emit_ok & H). apply ret_ok in H as [-> ->].
  assert (db w8 = db w3) as Hd8.
  { subst w8 w7 w6. simpl. destruct Hs5 as [-> _]. by destruct Hs4 as [-> _]. }
  assert (member_ids (SendMessageRequest.conversation_id req) (db w3) =
          member_ids (SendMessageRequest.conversation_id req) (db w)) as Hids.
  { unfold member_ids. rewrite Hd3. simpl. rewrite Hps. by destruct Hs1 as [-> _]. }
  destruct Hs1 as (Ed1 & _ & En1 & Eo1 & _). rewrite Ed1, En1, Eo1 in *.
  set (row := MessageRow.mk _ actor _ content _ _ None None) in *.
  assert (Message.id stored = seqs w1 SMessages) as Hid by (by subst stored).
  exists content, row. split; [done|]. split; [done|].
  split; [by rewrite Hid|].
  split. { rewrite Hd8, Hd3. simpl. by rewrite Hms, Hid. }
  split. { rewrite Hd8, Hd3. done. }
  split.
  { apply any_row_true in Hm as (p & pr & Hp & E). unfold member_ids. apply list_elem_of_fmap.
    exists (p, pr). unfold is_pair in E. apply andb_true_iff in E as [E1 E2].
    split; [simpl; symmetry; by apply Z.eqb_eq|]. by apply elem_of_rows. }
  subst w8 w7 w6. simpl. destruct Hs5 as (Ed5 & _ & _ & -> & _).
  destruct Hs4 as (Ed4 & _ & _ & -> & _). rewrite Ho3, Hout, Hj, Hids, Ed5, Ed4, <- !app_assoc.
  subst stored. done.
Qed.

(** C4. Persist first, broadcast second.  When [send] returns a message, the
    sender is a member of the conversation, the message table has gained exactly
    the row the result describes (validated content, sender, conversation) and
    the conversation's activity time has moved; and the calls made after the
    ones before are, in this order, one broadcast of that stored row with its
    linked attachments to the members of the conversation (the sender among
    them), one notification and one domain event carrying the length of the
    content only.  When [send] throws, nothing at all was announced. *)
Theorem send_persist_then_announce (actor : Z) (req : SendMessageRequest.t) (w w' : World)
    (r : result exn Message.t) :
  MessageService.send actor req w = (r, w') →
  match r with Err _ => out w' = out w | Ok m => sent_message actor req w w' m end.
Proof. intros H. destruct r; [by apply send_ok_inv|by eapply send_late]. Qed.

(** ** Editing and deleting *)

(** A soft change of one live message row: what [UPDATE ... WHERE id = $1 AND
    deleted_at IS NULL] does to the table. *)
Lemma update_content_ok id content w m w' :
  PgMessageRepository.update_content id content w = (Ok m, w') →
  ∃ r, messages (db w) !! id = Some r ∧ MessageRow.deleted_at r = None ∧
    let r' := PgMessageRepository.touch_message content (Some (now w)) None (now w) r in
    m = PgMessageRepository.map_message (id, r') ∧
    db w' = set_messages (<[id := r']> (messages (db w))) (db w) ∧ out w' = out w.
Proof.
  unfold PgMessageRepository.update_content. intros H.
  apply with_transaction_ok in H as (w1 & Hs & H). run_txn H. use_same Hs.
  match goal with E : bool_decide _ = true |- _ => apply bool_decide_eq_true in E as Hdel end.
  eexists. split; [done|]. split; [done|]. by rewrite Hdel.
Qed.

Lemma soft_delete_ok id w m w' :
  PgMessageRepository.soft_delete id w = (Ok m, w') →
  ∃ r, messages (db w) !! id = Some r ∧ MessageRow.deleted_at r = None ∧
    let r' := PgMessageRepository.touch_message (MessageRow.content r) (MessageRow.edited_at r)
                (Some (now w)) (now w) r in
    m = PgMessageRepository.map_message (id, r') ∧
    db w' = set_messages (<[id := r']> (messages (db w))) (db w) ∧ out w' = out w.
Proof.
  unfold PgMessageRepository.soft_delete. intros H.
  apply with_transaction_ok in H as (w1 & Hs & H). run_txn H. use_same Hs.
  match goal with E : bool_decide _ = true |- _ => apply bool_decide_eq_true in E as Hdel end.
  eexists. split; [done|]. split; [done|]. done.
Qed.

Lemma silent_update_content id c : silent (PgMessageRepository.update_content id c).
Proof. unfold PgMessageRepository.update_content. solve_silent. Qed.
Lemma silent_soft_delete id : silent (PgMessageRepository.soft_delete id).
Proof. unfold PgMessageRepository.soft_delete. solve_silent. Qed.

Lemma edit_late actor id req : late (MessageService.edit actor id req).
Proof.
  unfold MessageService.edit. apply late_bind; [apply silent_require_message|intros m].
  destruct (negb _); [by apply late_silent|].
  apply late_bind; [apply silent_lift|intros c].
  apply late_bind; [apply silent_update_content|intros m'].
  apply late_bind; [apply silent_query|intros ps].
  apply late_bind; [apply silent_to_response|intros r]. apply late_emit. total_tac.
Qed.

(** What both operations announce after the change. *)
Lemma announce_ok m type ev w r w' :
  (ids ← list_participant_ids (Message.conversation_id m);
   response ← MessageService.to_response m;
   emit (EBroadcast ids type (MessageResponse.to_json response));;
   emit (EPublish ev);;
   mret m) w = (Ok r, w') →
  r = m ∧ db w' = db w ∧
  out w' = (out w ++
    [EBroadcast (member_ids (Message.conversation_id m) (db w)) type
       (message_json m (linked_ids (Message.id m) (db w))); EPublish ev])%list.
Proof.
  intros H. apply bind_ok_inv in H as (ids & w4 & H4 & H). apply query_ok in H4 as [-> Hs4].
  apply bind_ok_inv in H as (resp & w5 & H5 & H). apply to_response_ok in H5 as [Hs5 Hj].
  apply bind_ok_inv in H as (? & w6 & H6%emit_ok & H).
  apply bind_ok_inv in H as (? & w7 & H7%emit_ok & H). apply ret_ok in H as [-> ->]. subst w7 w6.
  destruct Hs5 as (E5 & _ & _ & O5 & _), Hs4 as (E4 & _ & _ & O4 & _). simpl.
  rewrite E5, E4, O5, O4, Hj, E4, <- app_assoc. done.
Qed.

(** Only the author edits.  When [edit] returns, the actor is the sender of
    the message, the message was not deleted, exactly its row has changed (new
    content and edit time, same sender, conversation, creation time), and the
    members were sent the new row; when it throws, nothing was announced. *)
Theorem edit_author_only (actor id : Z) (req : UpdateMessageRequest.t) (w w' : World)
    (r : result exn Message.t) :
  MessageService.edit actor id req w = (r, w') →
  match r with
  | Err _ => out w' = out w
  | Ok m =>
      ∃ content row,
        messages (db w) !! id = Some row ∧ MessageRow.sender_id row = actor ∧
        MessageRow.deleted_at row = None ∧
        validate_message_content (UpdateMessageRequest.content req) = Ok content ∧
        let row' := PgMessageRepository.touch_message content (Some (now w)) None (now w) row in
        m = PgMessageRepository.map_message (id, row') ∧
        db w' = set_messages (<[id := row']> (messages (db w))) (db w) ∧
        out w' = (out w ++
          [EBroadcast (member_ids (MessageRow.conversation_id row) (db w))
             WireEvents.kMessageUpdated (message_json m (linked_ids id (db w')));
           EPublish (MessageEdited id (MessageRow.conversation_id row) actor)])%list
  end.
Proof.
  intros H. destruct r as [m|e]; [|by eapply edit_late]. unfold MessageService.edit in H.
  apply bind_ok_inv in H as (ex & w1 & H1 & H).
  apply require_message_ok in H1 as [Hs1 (row & Hrow & ->)].
  destruct (Z.eqb_spec (Message.sender_id (PgMessageRepository.map_message (id, row))) actor) as [Ha|];
    [|by apply throw_ok in H].
  cbn [negb] in H.
  apply bind_ok_inv in H as (content & w2 & H2 & H). apply lift_ok in H2 as [Hc ->].
  apply bind_ok_inv in H as (upd & w3 & H3 & H).
  apply update_content_ok in H3 as (row1 & Hr1 & Hdel & Hm & Hdb & Hout).
  apply announce_ok in H as (-> & Hdb' & Hout').
  destruct Hs1 as (Ed1 & _ & En1 & Eo1 & _). rewrite Ed1, En1, Eo1 in *.
  rewrite Hr1 in Hrow. injection Hrow as ->.
  exists content, row. do 4 (split; [done|]). cbv zeta. split; [done|].
  split; [by rewrite Hdb'|]. rewrite Hout', Hout, Hdb', Hdb, Hm. done.
Qed.

Lemma remove_late actor id : late (MessageService.remove actor id).
Proof.
  unfold MessageService.remove. apply late_bind; [apply silent_require_message|intros m].
  apply late_bind; [case_match; [apply silent_ret|apply silent_bind; [apply silent_query|
    intros ?; apply silent_ret]]|intros p].
  destruct (negb _); [by apply late_silent|].
  apply late_bind; [apply silent_soft_delete|intros m'].
  apply late_bind; [apply silent_query|intros ps].
  apply late_bind; [apply silent_to_response|intros r]. apply late_emit. total_tac.
Qed.

(** Deletion is soft and guarded.  When [remove] returns, the actor is the
    sender or the owner of the group the message is in; exactly that row has
    changed, by its deletion time, and it was not deleted before; the members
    were sent the redacted row (empty content), and the domain event says
    whether it was moderation.  When it throws, nothing was announced. *)
Theorem remove_guarded (actor id : Z) (w w' : World) (r : result exn Message.t) :
  MessageService.remove actor id w = (r, w') →
  match r with
  | Err _ => out w' = out w
  | Ok m =>
      ∃ row,
        messages (db w) !! id = Some row ∧ MessageRow.deleted_at row = None ∧
        (MessageRow.sender_id row = actor ∨
         owned (MessageRow.conversation_id row) actor (db w)) ∧
        let row' := PgMessageRepository.touch_message (MessageRow.content row)
                      (MessageRow.edited_at row) (Some (now w)) (now w) row in
        m = PgMessageRepository.map_message (id, row') ∧
        db w' = set_messages (<[id := row']> (messages (db w))) (db w) ∧
        ∃ data,
          find data "content" = Some (JStr "") ∧ find data "deleted" = Some (JBool true) ∧
          out w' = (out w ++
            [EBroadcast (member_ids (MessageRow.conversation_id row) (db w))
               WireEvents.kMessageDeleted data;
             EPublish (MessageDeleted id (MessageRow.conversation_id row) actor
                         (negb (MessageRow.sender_id row =? actor)))])%list
  end.
Proof.
  intros H. destruct r as [m|e]; [|by eapply remove_late]. unfold MessageService.remove in H.
  apply bind_ok_inv in H as (ex & w1 & H1 & H).
  apply require_message_ok in H1 as [Hs1 (row & Hrow & ->)].
  apply bind_ok_inv in H as (permitted & w2 & H2 & H).
  destruct permitted; [|by apply throw_ok in H]. cbn [negb] in H.
  assert (same w w2 ∧ (MessageRow.sender_id row = actor ∨
    owned (MessageRow.conversation_id row) actor (db w))) as [Hs2 Hperm].
  { cbn [Message.sender_id PgMessageRepository.map_message] in H2.
    destruct (Z.eqb_spec (MessageRow.sender_id row) actor) as [Ha|].
    - apply ret_ok in H2 as [_ ->]. auto.
    - apply bind_ok_inv in H2 as (oc & w3 & H3 & H2). apply query_ok in H3 as [-> Hs3].
      apply ret_ok in H2 as [Hp ->]. split; [by etrans|]. right.
      destruct Hs1 as [E1 _]. rewrite E1 in Hp.
      cbn [Message.conversation_id PgMessageRepository.map_message] in Hp.
      destruct (conversations (db w) !! MessageRow.conversation_id row) as [cr|] eqn:Hcr; [|done].
      symmetry in Hp. apply andb_true_iff in Hp as [Hg Ho%bool_decide_eq_true].
      exists cr. split; [done|]. split; [by apply is_group_type in Hg|done]. }
  apply bind_ok_inv in H as (del & w3 & H3 & H).
  apply soft_delete_ok in H3 as (row1 & Hr1 & Hdel & Hm & Hdb & Hout).
  apply announce_ok in H as (-> & Hdb' & Hout').
  destruct Hs2 as (Ed1 & _ & En1 & Eo1 & _). rewrite Ed1, En1, Eo1 in *.
  rewrite Hr1 in Hrow. injection Hrow as ->.
  exists row. do 3 (split; [done|]). cbv zeta. split; [done|]. split; [by rewrite Hdb'|].
  eexists. split; [|split; [|rewrite Hout', Hout, Hdb, Hm; reflexivity]]; done.
Qed.

Lemma send_persist_then_announce_witness :
  ∃ m w', MessageService.send 1 (SendMessageRequest.mk 1 " hi " MessageType.kText []) group_world =
            (Ok m, w') ∧
          messages (db w') !! 4 = Some (MessageRow.mk 1 1 "text" "hi" 1700000000000000
                                          1700000000000000 None None).
Proof.
  destruct (MessageService.send 1 (SendMessageRequest.mk 1 " hi " MessageType.kText []) group_world)
    as [r w'] eqn:E.
  pose proof (send_persist_then_announce _ _ _ _ _ E) as H.
  assert (Message.id <$> r = Ok 4) as Hr by (apply (f_equal fst) in E; cbn [fst] in E; rewrite <- E;
    vm_compute; reflexivity).
  destruct r as [m|e]; [|discriminate]. exists m, w'. split; [reflexivity|].
  destruct H as (content & row & Hc & Hrow & _ & Hm & _).
  injection Hr as Hid. rewrite Hid in Hm. rewrite Hm, lookup_insert_eq, Hrow.
  vm_compute in Hc. injection Hc as <-. vm_compute. reflexivity.
Defined.

Lemma edit_author_only_witness :
  is_ok (MessageService.edit 1 1 (UpdateMessageRequest.mk "changed") group_world).1 = false ∧
  out (MessageService.edit 1 1 (UpdateMessageRequest.mk "changed") group_world).2 = [] ∧
  ∃ m w', MessageService.edit 2 1 (UpdateMessageRequest.mk "changed") group_world = (Ok m, w') ∧
    is_Some (messages (db group_world) !! 1).
Proof.
  split; [vm_compute; reflexivity|]. split.
  - destruct (MessageService.edit 1 1 (UpdateMessageRequest.mk "changed") group_world) as [r w'] eqn:E.
    pose proof (edit_author_only _ _ _ _ _ _ E) as H.
    destruct r as [m|e]; [|exact H]. destruct H as (content & row & Hrow & Ha & _).
    vm_compute in Hrow. injection Hrow as <-. discriminate.
  - destruct (MessageService.edit 2 1 (UpdateMessageRequest.mk "changed") group_world) as [r w'] eqn:E.
    pose proof (edit_author_only _ _ _ _ _ _ E) as H.
    assert (is_ok r = true) as Hr by (apply (f_equal fst) in E; cbn [fst] in E; rewrite <- E;
      vm_compute; reflexivity).
    destruct r as [m|e]; [|discriminate]. exists m, w'. split; [reflexivity|].
    destruct H as (content & row & Hrow & _). exists row. exact Hrow.
Defined.

Lemma remove_guarded_witness :
  ∃ m w', MessageService.remove 1 1 group_world = (Ok m, w') ∧
    ∃ row, messages (db group_world) !! 1 = Some row ∧
      (MessageRow.sender_id row = 1 ∨ owned (MessageRow.conversation_id row) 1 (db group_world)).
Proof.
  destruct (MessageService.remove 1 1 group_world) as [r w'] eqn:E.
  pose proof (remove_guarded _ _ _ _ _ E) as H.
  assert (is_ok r = true) as Hr by (apply (f_equal fst) in E; cbn [fst] in E; rewrite <- E;
    vm_compute; reflexivity).
  destruct r as [m|e]; [|discriminate]. exists m, w'. split; [reflexivity|].
  destruct H as (row & Hrow & _ & Hperm & _). exists row. split; assumption.
Defined.
