(* ===== verification/Paging.v ===== *)
(** * Paging: keyset pagination of message history

    A client pages backwards through a conversation with GET /api/messages and
    [before] set to the last id it has seen.  The theorems show that this
    enumerates every matching message exactly once, newest first, whatever the
    page size, and that messages sent meanwhile do not disturb it. *)

From S2P Require Import Prelude Text Json Errors TimeUtil Models Events Dto Database Samples.
From S2P Require Import Users Conversations Repositories.
Open Scope string_scope.
Open Scope Z_scope.

Section Paging.
Context `{TextSearch} (filter : PgMessageRepository.MessageFilter).

Definition page_before (limit : Z) (before : option Z) : Pagination.t :=
  Pagination.mk limit 0 before None.

(** All matching rows, newest first: the result of an unlimited query. *)
Definition history (d : Database) : list (Z * MessageRow.t) :=
  merge_sort id_desc
    (base.filter (λ kr, PgMessageRepository.in_filter filter (page_before 1 None) kr = true) (map_to_list (messages d))).

(** The client's loop: ask for the page before the last id received, until a
    page is empty.  Each request is answered from the database as it is then:
    one snapshot per request. *)
Fixpoint fetch (limit : Z) (before : option Z) (snapshots : list Database)
    : list (Z * MessageRow.t) :=
  match snapshots with
  | [] => []
  | d :: snapshots =>
      let page := PgMessageRepository.select_messages filter (page_before limit before) d in
      match last page with
      | None => []
      | Some (id, _) => page ++ fetch limit (Some id) snapshots
      end
  end%list.

(** ** Lists sorted by strictly descending id *)

Definition desc (l : list (Z * MessageRow.t)) : Prop := StronglySorted (λ a b, b.1 < a.1) l.

Lemma history_elem d kr :
  kr ∈ history d ↔ messages d !! kr.1 = Some kr.2 ∧ PgMessageRepository.in_filter filter (page_before 1 None) kr = true.
Proof.
  unfold history. rewrite merge_sort_Permutation, list_elem_of_filter, elem_of_map_to_list'. tauto.
Qed.

Lemma desc_of_sorted (l : list (Z * MessageRow.t)) :
  StronglySorted id_desc l → NoDup l.*1 → desc l.
Proof.
  induction l as [|a l IH]; intros Hs Hn; [constructor|].
  apply StronglySorted_inv in Hs as [Hs Ha]. simpl in Hn. apply NoDup_cons in Hn as [Hni Hn].
  constructor; [by apply IH|]. rewrite Forall_forall in *. intros x Hx. specialize (Ha x Hx).
  unfold id_desc in Ha. assert (x.1 ≠ a.1); [|lia]. intros E. apply Hni. rewrite <- E.
  by apply list_elem_of_fmap_2.
Qed.

Global Instance id_desc_trans {V} : Transitive (id_desc (V:=V)).
Proof. unfold id_desc. intros x y z. lia. Qed.
Global Instance id_desc_total {V} : Total (id_desc (V:=V)).
Proof. unfold id_desc. intros x y. lia. Qed.

Lemma NoDup_fst_filter {V} (P : Z * V → Prop) `{∀ x, Decision (P x)} (l : list (Z * V)) :
  NoDup l.*1 → NoDup (base.filter P l).*1.
Proof.
  induction l as [|x l IH]; simpl; [done|]. intros [Hx Hl]%NoDup_cons. rewrite filter_cons.
  case_decide; [|by apply IH]. simpl. apply NoDup_cons. split; [|by apply IH].
  intros (y & E & [_ Hy]%list_elem_of_filter)%list_elem_of_fmap. apply Hx. rewrite E.
  by apply list_elem_of_fmap_2.
Qed.

Lemma sort_desc (P : Z * MessageRow.t → Prop) `{∀ x, Decision (P x)} (t : gmap Z MessageRow.t) :
  desc (merge_sort id_desc (base.filter P (map_to_list t))).
Proof.
  apply desc_of_sorted; [apply StronglySorted_merge_sort; apply _|].
  rewrite merge_sort_Permutation. apply NoDup_fst_filter, NoDup_fst_map_to_list.
Qed.

Lemma desc_NoDup l : desc l → NoDup l.
Proof.
  induction 1 as [|a l Hs IH Ha]; constructor; [|done]. rewrite Forall_forall in Ha.
  intros Hin. specialize (Ha _ Hin). lia.
Qed.

Lemma desc_unique l1 l2 : desc l1 → desc l2 → l1 ≡ₚ l2 → l1 = l2.
Proof.
  intros H1 H2 Hp.
  apply (StronglySorted_unique_strong (λ a b : Z * MessageRow.t, b.1 < a.1)); [|done..].
  intros x y _ _ Hxy Hyx. lia.
Qed.

(** Filtering commutes with sorting when ids are distinct. *)
Lemma desc_filter (P : Z * MessageRow.t → Prop) `{∀ x, Decision (P x)} l :
  desc l → desc (base.filter P l).
Proof.
  intros Hl. induction Hl as [|a l Hs IH Ha]; [constructor|]. rewrite filter_cons.
  case_decide; [|done]. constructor; [done|]. rewrite Forall_forall in *.
  intros x [_ Hx]%list_elem_of_filter. eauto.
Qed.

Lemma select_before limit b d :
  PgMessageRepository.select_messages filter (page_before limit (Some b)) d =
  take (Z.to_nat limit) (base.filter (λ kr, kr.1 < b) (history d)).
Proof.
  unfold PgMessageRepository.select_messages, PgConversationRepository.limit_offset. simpl. rewrite drop_0. f_equal.
  apply desc_unique; [apply sort_desc|apply desc_filter, sort_desc|].
  unfold history. rewrite !merge_sort_Permutation.
  rewrite list_filter_filter. apply Permutation_refl'. apply list_filter_iff. intros [id r].
  unfold PgMessageRepository.in_filter. simpl. rewrite !andb_true_r, !andb_true_iff, Z.ltb_lt. tauto.
Qed.

Lemma select_first limit d :
  PgMessageRepository.select_messages filter (page_before limit None) d = take (Z.to_nat limit) (history d).
Proof. unfold PgMessageRepository.select_messages, PgConversationRepository.limit_offset. simpl. by rewrite drop_0. Qed.

Lemma last_take_elem {A} n (l : list A) x : last (take n l) = Some x → x ∈ l.
Proof. intros E%last_Some_elem_of. eapply elem_of_sublist; [exact E|apply sublist_take]. Qed.

Lemma filter_all {A} (P : A → Prop) `{∀ x, Decision (P x)} (l : list A) :
  (∀ x, x ∈ l → P x) → base.filter P l = l.
Proof.
  induction l as [|x l IH]; intros HP; [done|]. rewrite filter_cons, decide_True by (apply HP; left).
  f_equal. apply IH. intros y Hy. apply HP. by right.
Qed.

(** After a page that ends in [id], the rows below [id] are the rest. *)
Lemma desc_rest n (l : list (Z * MessageRow.t)) id r :
  desc l → last (take n l) = Some (id, r) → base.filter (λ kr, kr.1 < id) l = drop n l.
Proof.
  revert n. induction l as [|a l IH]; intros n Hl Hlast; [by rewrite take_nil in Hlast|].
  destruct n as [|n]; [done|]. apply StronglySorted_inv in Hl as [Hl Ha].
  rewrite Forall_forall in Ha. simpl in *. rewrite last_cons in Hlast. rewrite filter_cons.
  destruct (last (take n l)) as [x|] eqn:E.
  - injection Hlast as ->. assert ((id, r) ∈ l) as Hin by (by eapply last_take_elem).
    specialize (Ha _ Hin). simpl in Ha. rewrite decide_False by lia. by apply IH.
  - injection Hlast as ->. simpl. rewrite decide_False by lia.
    apply last_None in E. assert (drop n l = l) as ->.
    { destruct n; [by rewrite drop_0|]. destruct l; [by rewrite drop_nil|done]. }
    apply filter_all. intros x Hx. by apply Ha.
Qed.

(** The page below [b] only depends on the rows below [b]. *)
Lemma below_stable b d d' :
  (∀ id, id < b → messages d' !! id = messages d !! id) →
  base.filter (λ kr, kr.1 < b) (history d') = base.filter (λ kr, kr.1 < b) (history d).
Proof.
  intros Heq. apply desc_unique; [apply desc_filter, sort_desc..|].
  apply NoDup_Permutation; [by apply NoDup_filter, desc_NoDup, sort_desc..|].
  intros [id r]. rewrite !list_elem_of_filter, !history_elem. simpl.
  split; intros (? & Hr & ?); (split; [done|]; split; [|done]); [by rewrite <- Heq|by rewrite Heq].
Qed.

Lemma fetch_rest limit b k d ds :
  1 <= limit →
  base.filter (λ kr, kr.1 < b) (history d) = drop k (history d) →
  Forall (λ d', ∀ id, id < b → messages d' !! id = messages d !! id) ds →
  (length (drop k (history d)) < length ds)%nat →
  fetch limit (Some b) ds = drop k (history d).
Proof.
  intros Hlim. revert b k. induction ds as [|d' ds IH]; intros b k Hb Hds Hlen; [simpl in Hlen; lia|].
  apply Forall_cons in Hds as [Hd' Hds]. simpl.
  rewrite select_before, (below_stable _ _ _ Hd'), Hb.
  destruct (last (take (Z.to_nat limit) (drop k (history d)))) as [[id r]|] eqn:E; cycle 1.
  { apply last_None in E. destruct (drop k (history d)) as [|x l]; [done|].
    destruct (Z.to_nat limit) eqn:?; [lia|done]. }
  set (n := Z.to_nat limit) in *. set (rest := drop k (history d)) in *.
  assert (desc rest) as Hdesc by (rewrite <- Hb; apply desc_filter, sort_desc).
  pose proof (desc_rest n rest id r Hdesc E) as Hrest.
  assert (id < b) as Hidb.
  { assert ((id, r) ∈ rest) as Hin by (by eapply last_take_elem).
    rewrite <- Hb in Hin. by apply list_elem_of_filter in Hin as [? _]. }
  rewrite (IH id (k + n)%nat).
  - rewrite <- drop_drop. fold rest. by rewrite take_drop.
  - rewrite <- drop_drop. fold rest. rewrite <- Hrest, <- Hb, list_filter_filter.
    apply list_filter_iff. intros x. lia.
  - eapply Forall_impl; [exact Hds|]. simpl. intros x Hx i Hi. apply Hx. lia.
  - rewrite <- drop_drop. fold rest. rewrite length_drop. simpl in Hlen.
    assert (1 <= length rest)%nat; [|lia].
    destruct rest; [by rewrite take_nil in E|simpl; lia].
Qed.

(** C17. Keyset pagination is complete and stable.  Paging backwards with any
    page size from 1 on, each request answered from the database of its moment,
    returns exactly the messages that match the filter when the first page is
    read, each once and newest first, however many messages are sent meanwhile
    (they get ids from [s] on), provided enough requests are made. *)
Theorem paging_complete (limit s : Z) (d : Database) (ds : list Database) :
  1 <= limit →
  (∀ id r, messages d !! id = Some r → id < s) →
  Forall (λ d', ∀ id, id < s → messages d' !! id = messages d !! id) ds →
  (length (history d) < length ds)%nat →
  fetch limit None (d :: ds) = history d ∧
  desc (history d) ∧
  (∀ id r, (id, r) ∈ history d ↔ messages d !! id = Some r ∧
     PgMessageRepository.in_filter filter (page_before 1 None) (id, r) = true).
Proof.
  intros Hlim Hs Hds Hlen. split; [|split; [apply sort_desc|intros id r; apply (history_elem d (id, r))]].
  simpl. rewrite select_first.
  destruct (last (take (Z.to_nat limit) (history d))) as [[id r]|] eqn:E; cycle 1.
  { apply last_None in E. destruct (history d) as [|x l]; [done|].
    destruct (Z.to_nat limit) eqn:?; [lia|done]. }
  assert (id < s) as Hid.
  { assert ((id, r) ∈ history d) as Hin by (by eapply last_take_elem).
    apply history_elem in Hin as [Hin _]. eauto. }
  rewrite (fetch_rest limit id (Z.to_nat limit) d ds); [by rewrite take_drop|done| | |].
  - eapply desc_rest; [apply sort_desc|done].
  - eapply Forall_impl; [exact Hds|]. simpl. intros x Hx i Hi. apply Hx. lia.
  - rewrite length_drop. lia.
Qed.
End Paging.

Lemma paging_complete_witness :
  fst <$> fetch (H:=λ _ _, true) (PgMessageRepository.Build_MessageFilter 1 None None) 2 None
            (replicate 7 five_messages) = [5; 4; 3; 2; 1] ∧
  fetch (H:=λ _ _, true) (PgMessageRepository.Build_MessageFilter 1 None None) 2 None
    (replicate 7 five_messages) =
    history (H:=λ _ _, true) (PgMessageRepository.Build_MessageFilter 1 None None) five_messages.
Proof.
  split; [vm_compute; reflexivity|].
  apply (paging_complete (H:=λ _ _, true) (PgMessageRepository.Build_MessageFilter 1 None None) 2 6
    five_messages (replicate 6 five_messages)).
  - lia.
  - apply map_Forall_lookup. apply (bool_decide_eq_true_1 _). vm_compute. reflexivity.
  - apply Forall_replicate. intros id Hid. reflexivity.
  - vm_compute. lia.
Defined.
