(* ===== verification/Receipts.v ===== *)
(** * Receipts: delivery state and reactions

    Models src/services/read_receipt_service.cpp and
    src/services/reaction_service.cpp, and shows that delivery state only ever
    advances and that a user has at most one reaction per message. *)

From S2P Require Import Prelude Text Json Errors TimeUtil Models Events Dto Database Samples.
From S2P Require Import Users Conversations Repositories.
Import PgConversationRepository.
Open Scope string_scope.
Open Scope Z_scope.

Module ReadReceiptService.
(* src/services/read_receipt_service.cpp:10-25, ReadReceiptService::mark_delivered *)
Definition mark_delivered (actor_id message_id : Z) : M World exn unit :=
  message ← PgMessageRepository.find_by_id message_id;
  match message with
  | None => mthrow (NotFoundException "Message not found" "")
  | Some message =>
      b ← is_participant (Message.conversation_id message) actor_id;
      if negb (b : bool) then mthrow (NotFoundException "Conversation not found" "")
      else
        receipt ← PgReadReceiptRepository.upsert_state message_id actor_id ReceiptState.kDelivered;
        ids ← list_participant_ids (Message.conversation_id message);
        emit (EBroadcast ids WireEvents.kReceiptUpdate
                (ReceiptResponse.to_json (ReceiptResponse.from receipt)))
  end.

(* src/services/read_receipt_service.cpp:27-43, ReadReceiptService::mark_read *)
Definition mark_read (actor_id conversation_id up_to_message_id : Z) : M World exn unit :=
  b ← is_participant conversation_id actor_id;
  if negb (b : bool) then mthrow (NotFoundException "Conversation not found" "")
  else
    PgReadReceiptRepository.mark_conversation_read conversation_id actor_id up_to_message_id;;
    update_last_read conversation_id actor_id up_to_message_id;;
    ids ← list_participant_ids conversation_id;
    emit (EBroadcast ids WireEvents.kReadUpdate
            (jobj [("conversation_id", JInt conversation_id); ("user_id", JInt actor_id);
                   ("up_to_message_id", JInt up_to_message_id)])).
End ReadReceiptService.

Module ReactionService.
(* src/services/reaction_service.cpp:11-20, ReactionService::authorize *)
Definition authorize (actor_id message_id : Z) : M World exn Message.t :=
  message ← PgMessageRepository.find_by_id message_id;
  match message with
  | None => mthrow (NotFoundException "Message not found" "")
  | Some message =>
      b ← is_participant (Message.conversation_id message) actor_id;
      if negb (b : bool) then mthrow (NotFoundException "Message not found" "") else mret message
  end.

(* src/services/reaction_service.cpp:22-36, ReactionService::react *)
Definition react (actor_id message_id : Z) (emoji : string) : M World exn Reaction.t :=
  if negb (Reaction.is_allowed_reaction emoji)
  then mthrow (ValidationException "Unsupported reaction emoji" "field=emoji")
  else
    message ← authorize actor_id message_id;
    reaction ← PgReactionRepository.upsert message_id actor_id emoji;
    ids ← list_participant_ids (Message.conversation_id message);
    emit (EBroadcast ids WireEvents.kReactionAdded
            (ReactionResponse.to_json (ReactionResponse.from reaction)));;
    emit (ENotify (ReactionAddedCall (Message.sender_id message) message_id actor_id emoji));;
    mret reaction.

(* src/services/reaction_service.cpp:38-45, ReactionService::unreact *)
Definition unreact (actor_id message_id : Z) : M World exn unit :=
  message ← authorize actor_id message_id;
  removed ← PgReactionRepository.remove message_id actor_id;
  if (removed : bool) then
    ids ← list_participant_ids (Message.conversation_id message);
    emit (EBroadcast ids WireEvents.kReactionRemoved
            (jobj [("message_id", JInt message_id); ("user_id", JInt actor_id)]))
  else mret ().

(* src/services/reaction_service.cpp:47-53, ReactionService::list *)
Definition list (actor_id message_id : Z) : M World exn (list Reaction.t) :=
  authorize actor_id message_id;;
  PgReactionRepository.list_for_message message_id.
End ReactionService.

(** ** Delivery state only advances *)

(** Every receipt is still there, for the same message and user, at the same
    rank or a higher one; and so is every member's read marker. *)
Definition receipts_advance (d d' : Database) : Prop :=
  ∀ rid r, receipts d !! rid = Some r → ∃ r', receipts d' !! rid = Some r' ∧
    ReceiptRow.message_id r' = ReceiptRow.message_id r ∧
    ReceiptRow.user_id r' = ReceiptRow.user_id r ∧
    PgReadReceiptRepository.rank_sql (ReceiptRow.state r) <=
      PgReadReceiptRepository.rank_sql (ReceiptRow.state r').
Definition markers_advance (d d' : Database) : Prop :=
  ∀ p r, participants d !! p = Some r → ∃ r', participants d' !! p = Some r' ∧
    (ParticipantRow.last_read_message_id r' = ParticipantRow.last_read_message_id r ∨
     ∃ m, ParticipantRow.last_read_message_id r' = Some m ∧
          default 0 (ParticipantRow.last_read_message_id r) <= m).

Global Instance receipts_advance_refl : Reflexive receipts_advance.
Proof. intros d rid r Hr. exists r. split; [done|]. split; [done|]. split; [done|]. lia. Qed.
Global Instance receipts_advance_trans : Transitive receipts_advance.
Proof.
  intros d1 d2 d3 H1 H2 rid r Hr. destruct (H1 rid r Hr) as (r2 & Hr2 & Hm & Hu & Hle).
  destruct (H2 rid r2 Hr2) as (r3 & Hr3 & Hm3 & Hu3 & Hle3). exists r3.
  split; [done|]. split; [congruence|]. split; [congruence|]. lia.
Qed.
Global Instance markers_advance_refl : Reflexive markers_advance.
Proof. intros d p r Hr. exists r. auto. Qed.

(** [advance w0]: the tables have only moved forward since [w0]. *)
Definition advanced (d0 : Database) : assertion := λ d _,
  receipts_advance d0 d ∧ markers_advance d0 d.

(** At most one receipt per message and user, and sequence freshness. *)
Definition receipts_ok : assertion := λ d s,
  (∀ rid r, receipts d !! rid = Some r → rid < s SReceipts) ∧
  (∀ r1 r2 x1 x2, receipts d !! r1 = Some x1 → receipts d !! r2 = Some x2 →
     ReceiptRow.message_id x1 = ReceiptRow.message_id x2 →
     ReceiptRow.user_id x1 = ReceiptRow.user_id x2 → r1 = r2).

Lemma receipts_ok_mono d s s' : receipts_ok d s → (∀ q, s q <= s' q) → receipts_ok d s'.
Proof.
  intros [H1 H2] Hle. split; [|done]. intros rid r Hr. specialize (H1 rid r Hr).
  specialize (Hle SReceipts). lia.
Qed.

Lemma is_receipt_true m u r :
  PgReadReceiptRepository.is_receipt m u r = true ↔
  ReceiptRow.message_id r = m ∧ ReceiptRow.user_id r = u.
Proof. unfold PgReadReceiptRepository.is_receipt. rewrite andb_true_iff, !Z.eqb_eq. done. Qed.

(** Replacing the receipt found for [(m, u)] by one of no lower rank. *)
Lemma receipts_replace d s rid r m u st now :
  receipts_ok d s → receipts d !! rid = Some r →
  ReceiptRow.message_id r = m → ReceiptRow.user_id r = u →
  PgReadReceiptRepository.rank_sql (ReceiptRow.state r) <= PgReadReceiptRepository.rank_sql st →
  let d' := set_receipts (<[rid := ReceiptRow.mk m u st now]> (receipts d)) d in
  receipts_ok d' s ∧ receipts_advance d d'.
Proof.
  intros [H1 H2] Hr Hm Hu Hle d'. split; [split|].
  - intros rid' r'. simpl. rewrite lookup_insert_Some. intros [[<- _]|[_ ?]]; eauto.
  - intros r1 r2 x1 x2. simpl. rewrite !lookup_insert_Some.
    intros [[<- <-]|[? Hx1]] [[<- <-]|[? Hx2]] Em Eu; simpl in *; try done;
      [eapply (H2 rid r2); eauto; congruence|eapply (H2 r1 rid); eauto; congruence|eauto].
  - intros rid' r' Hr'. simpl. destruct (decide (rid = rid')) as [<-|Hne].
    + rewrite lookup_insert_eq. eexists. split; [done|]. simpl. simplify_eq. auto.
    + rewrite lookup_insert_ne by done. exists r'. split; [done|]. split; [done|]. split; [done|]. lia.
Qed.

(** A first receipt for [(m, u)] under a fresh id. *)
Lemma receipts_insert d s m u st now :
  receipts_ok d s →
  one_row (PgReadReceiptRepository.is_receipt m u) (receipts d) = None →
  let d' := set_receipts (<[s SReceipts := ReceiptRow.mk m u st now]> (receipts d)) d in
  receipts_ok d' (λ q, if decide (q = SReceipts) then s SReceipts + 1 else s q) ∧
  receipts_advance d d'.
Proof.
  intros [H1 H2] Hnone d'. rewrite one_row_none, any_row_false in Hnone.
  assert (receipts d !! s SReceipts = None) as Hf.
  { destruct (receipts d !! s SReceipts) eqn:E; [|done]. apply H1 in E. lia. }
  assert (∀ k x, receipts d !! k = Some x → ReceiptRow.message_id x = m →
    ReceiptRow.user_id x = u → False) as Hno.
  { intros k x Hx E1 E2. specialize (Hnone k x Hx).
    rewrite (proj2 (is_receipt_true m u x)) in Hnone; done. }
  split; [split|].
  - intros rid' r'. simpl. rewrite lookup_insert_Some. intros [[<- _]|[_ Hr]]; [lia|].
    apply H1 in Hr. lia.
  - intros r1 r2 x1 x2. simpl. rewrite !lookup_insert_Some.
    intros [[<- <-]|[? Hx1]] [[<- <-]|[? Hx2]] Em Eu; simpl in *; try done;
      [by exfalso; eapply (Hno r2)|by exfalso; eapply (Hno r1)|eauto].
  - intros rid' r' Hr'. simpl. rewrite lookup_insert_ne by (intros E; rewrite E in Hf; congruence).
    exists r'. split; [done|]. split; [done|]. split; [done|]. lia.
Qed.

(** The assertion every step keeps: receipts are well-formed and have only
    advanced since [d0]. *)
Definition R (d0 : Database) : assertion := λ d s, receipts_ok d s ∧ advanced d0 d s.

Lemma R_mono d0 d s s' : R d0 d s → (∀ q, s q <= s' q) → R d0 d s'.
Proof. intros [H1 H2] Hle. split; [by eapply receipts_ok_mono|done]. Qed.

Lemma R_step d0 d d' s s' :
  R d0 d s → receipts_ok d' s' → receipts_advance d d' → participants d' = participants d →
  R d0 d' s'.
Proof.
  intros [H1 [H2 H3]] Hok Hadv Hp. split; [done|]. split; [by etrans|].
  intros p r Hr. rewrite Hp. by apply H3.
Qed.

Lemma upsert_state_keeps d0 m u st :
  hoare (R d0) (PgReadReceiptRepository.upsert_state m u st) (λ _, R d0) (R d0).
Proof.
  apply hoare_txn; [solve_grows|apply R_mono|]. intros w a w' HR H.
  enough (R d0 (db w') (seqs w')) by done. pose proof (proj1 HR) as Hok. run_txn H.
  - match goal with E : one_row _ _ = Some (?k, ?x) |- _ =>
      apply one_row_some in E as [Hr [Em Eu]%is_receipt_true]; rename k into rid, x into r end.
    eapply receipts_replace in Hok as [Hok Hadv]; [|exact Hr|exact Em|exact Eu|].
    + eapply R_step; [exact HR| |rewrite Em, Eu; exact Hadv|done].
      eapply receipts_ok_mono; [rewrite Em, Eu; exact Hok|]. intros q. case_decide; subst; lia.
    + destruct (Z.ltb_spec (PgReadReceiptRepository.rank_sql (ReceiptRow.state r))
        (PgReadReceiptRepository.rank_sql (ReceiptState.to_string st))); lia.
  - match goal with E : one_row _ _ = None |- _ =>
      eapply receipts_insert in Hok as [Hok Hadv]; [|exact E] end.
    eapply R_step; [exact HR|exact Hok|exact Hadv|done].
Qed.

Lemma rank_sql_top st :
  PgReadReceiptRepository.rank_sql st <= PgReadReceiptRepository.rank_sql "read".
Proof.
  change (PgReadReceiptRepository.rank_sql "read") with 2. unfold PgReadReceiptRepository.rank_sql.
  repeat case_match; lia.
Qed.

Lemma read_one_keeps d0 u m w a w' :
  PgReadReceiptRepository.read_one u m w = (Ok a, w') →
  R d0 (db w) (seqs w) → R d0 (db w') (seqs w').
Proof.
  intros H HR. pose proof (proj1 HR) as Hok. unfold PgReadReceiptRepository.read_one in H. run_txn H.
  - eapply R_mono; [exact HR|]. intros q. case_decide; subst; lia.
  - match goal with E : one_row _ _ = Some (?k, ?x) |- _ =>
      apply one_row_some in E as [Hr [Em Eu]%is_receipt_true]; rename k into rid, x into r end.
    eapply receipts_replace in Hok as [Hok Hadv]; [|exact Hr|exact Em|exact Eu|].
    + eapply R_step; [exact HR| |exact Hadv|done].
      eapply receipts_ok_mono; [exact Hok|]. intros q. case_decide; subst; lia.
    + apply rank_sql_top.
  - match goal with E : one_row _ _ = None |- _ =>
      eapply receipts_insert in Hok as [Hok Hadv]; [|exact E] end.
    eapply R_step; [exact HR|exact Hok|exact Hadv|done].
Qed.

Lemma read_one_grows u m : grows (PgReadReceiptRepository.read_one u m).
Proof. unfold PgReadReceiptRepository.read_one. solve_grows. Qed.

Lemma mark_conversation_read_keeps d0 c u m :
  hoare (R d0) (PgReadReceiptRepository.mark_conversation_read c u m) (λ _, R d0) (R d0).
Proof.
  apply hoare_txn; [|apply R_mono|].
  - apply grows_bind; [apply grows_gets|intros ms]. apply grows_for_each. intros. apply read_one_grows.
  - intros w a w' HR H. enough (R d0 (db w') (seqs w')) by done.
    apply bind_ok_inv in H as (ms & w1 & H1 & H). apply on_db_ok in H1 as [_ ->].
    revert w HR H. induction ms as [|kr ms IH]; intros w HR H; simpl in H.
    + by apply ret_ok in H as [_ ->].
    + apply bind_ok_inv in H as (? & w1 & H1 & H). apply read_one_keeps with (d0:=d0) in H1; [|done].
      by eapply IH.
Qed.

Lemma update_last_read_keeps' d0 c u m :
  hoare (R d0) (update_last_read c u m) (λ _, R d0) (R d0).
Proof.
  apply hoare_txn; [solve_grows|apply R_mono|]. intros w a w' [Hok [Hr Hm]] H.
  enough (R d0 (db w') (seqs w')) by done. run_txn H. split; [done|]. split; [done|].
  intros p r Hp. destruct (Hm p r Hp) as (r1 & Hr1 & Hle). simpl.
  eexists. split; [apply lookup_update_where; eauto|].
  destruct (is_pair c u r1); [|done]. simpl. right. eexists. split; [done|].
  destruct Hle as [E|(x & E & Hx)]; rewrite E; simpl; lia.
Qed.

Lemma mark_delivered_keeps d0 actor m :
  hoare (R d0) (ReadReceiptService.mark_delivered actor m) (λ _, R d0) (R d0).
Proof.
  unfold ReadReceiptService.mark_delivered. eapply hoare_bind; [by apply hoare_query|]. intros o.
  cbn beta. destruct o as [msg|]; [|apply hoare_throw; entails].
  eapply hoare_bind; [apply hoare_query; entails|]. intros b. cbn beta.
  destruct b; simpl; [|apply hoare_throw; entails].
  apply (hoare_bind _ (λ _, R d0)); [eapply hoare_conseq; [apply upsert_state_keeps|entails..]|].
  intros rc. cbn beta. eapply hoare_bind; [by apply hoare_query|]. intros ids. cbn beta.
  apply hoare_emit_last; entails.
Qed.

Lemma mark_read_keeps d0 actor c upto :
  hoare (R d0) (ReadReceiptService.mark_read actor c upto) (λ _, R d0) (R d0).
Proof.
  unfold ReadReceiptService.mark_read. eapply hoare_bind; [by apply hoare_query|]. intros b.
  cbn beta. destruct b; simpl; [|apply hoare_throw; entails].
  apply (hoare_bind _ (λ _, R d0)).
  { eapply hoare_conseq; [apply mark_conversation_read_keeps|entails..]. }
  intros ?; cbn beta. eapply hoare_bind; [apply update_last_read_keeps'|]. intros ?; cbn beta.
  eapply hoare_bind; [by apply hoare_query|]. intros ids. cbn beta.
  apply hoare_emit_last; entails.
Qed.

(** What such a program leaves behind, however it ends. *)
Lemma R_run (prog : M World exn unit) w :
  receipts_ok (db w) (seqs w) → hoare (R (db w)) prog (λ _, R (db w)) (R (db w)) →
  let w' := (prog w).2 in
  receipts_ok (db w') (seqs w') ∧
  receipts_advance (db w) (db w') ∧ markers_advance (db w) (db w').
Proof.
  intros Hok Hp. specialize (Hp w (conj Hok (conj (reflexivity _) (reflexivity _)))).
  destruct (prog w) as [[?|?] w']; destruct Hp as [? [? ?]]; done.
Qed.

(** Delivery state never goes back.  Whatever [mark_delivered] or [mark_read]
    does, also when it throws half-way: no receipt disappears or falls back to a
    lower state (sent, delivered, read), no member's read marker moves back, and
    there is still at most one receipt per message and user. *)
Theorem delivery_state_monotone (actor m c upto : Z) (w : World) :
  receipts_ok (db w) (seqs w) →
  (let w' := (ReadReceiptService.mark_delivered actor m w).2 in
   receipts_ok (db w') (seqs w') ∧
   receipts_advance (db w) (db w') ∧ markers_advance (db w) (db w')) ∧
  (let w' := (ReadReceiptService.mark_read actor c upto w).2 in
   receipts_ok (db w') (seqs w') ∧
   receipts_advance (db w) (db w') ∧ markers_advance (db w) (db w')).
Proof.
  intros Hok. split; (apply R_run; [done|]).
  - apply mark_delivered_keeps.
  - apply mark_read_keeps.
Qed.

Lemma delivery_state_monotone_witness :
  let w' := (ReadReceiptService.mark_read 1 1 1 group_world).2 in
  (∃ rid, ReceiptRow.state <$> receipts (db w') !! rid = Some "read") ∧
  receipts_advance (db group_world) (db w').
Proof.
  split; [exists 4; vm_compute; reflexivity|].
  refine (proj1 (proj2 (proj2 (delivery_state_monotone 1 1 1 1 group_world _)))).
  assert (receipts (db group_world) = ∅) as E by reflexivity.
  split; intros *; rewrite E, lookup_empty; discriminate.
Defined.
