(* ===== verification/Notifications.v ===== *)
(** * Notifications: the feed, its delivery and the dispatcher behind it

    Models src/repositories/pg_notification_repository.cpp,
    src/services/notification_service.cpp and
    src/services/notification_dispatcher.cpp.  The dispatcher is what the
    [ENotify] calls of the other services reach.  A payload is kept as the JSON
    value it is: PostgreSQL's [jsonb] gives it back, and what the service stores
    are objects of integers and strings.  External push is a task handed to the
    background executor, the effect [EPush]. *)

From S2P Require Import Prelude Text Json Errors TimeUtil Models Events Dto Database Samples.
From S2P Require Import Users Conversations Repositories.
Open Scope string_scope.
Open Scope Z_scope.

Module PgNotificationRepository.
(** The candidates [map_row] tries, in order. *)
Definition candidates : list NotificationType.t :=
  [NotificationType.kNewMessage; NotificationType.kMention; NotificationType.kAddedToGroup;
   NotificationType.kRemovedFromGroup; NotificationType.kReactionAdded; NotificationType.kProfileUpdated].

(* src/repositories/pg_notification_repository.cpp:23-37, map_row *)
Definition parse_type (type : string) : NotificationType.t :=
  match list_find (λ c, NotificationType.to_string c = type) candidates with
  | Some (_, c) => c
  | None => NotificationType.kNewMessage
  end.

(* src/repositories/pg_notification_repository.cpp:19-47, map_row *)
Definition map_row (kr : Z * NotificationRow.t) : Notification.t :=
  let '(id, r) := kr in
  Notification.mk id (NotificationRow.user_id r) (parse_type (NotificationRow.type r))
    (NotificationRow.payload r) (db_time <$> NotificationRow.read_at r)
    (db_time (NotificationRow.created_at r)).

(* src/repositories/pg_notification_repository.cpp:51-63, PgNotificationRepository::create *)
Definition create (user_id : Z) (type : NotificationType.t) (payload : json) : M World exn Notification.t :=
  with_transaction (
    id ← nextval SNotifications;
    now ← clock;
    d ← on_db (λ d, d);
    foreign_key (exists_row (users d) user_id);;
    let row := NotificationRow.mk user_id (NotificationType.to_string type) payload None now in
    update (λ d, set_notifications (<[id := row]> (notifications d)) d);;
    mret (map_row (id, row))).

(** [WHERE user_id = $1 AND read_at IS NULL]. *)
Definition unread_of (user_id : Z) (r : NotificationRow.t) : bool :=
  (NotificationRow.user_id r =? user_id) && bool_decide (NotificationRow.read_at r = None).

(* src/repositories/pg_notification_repository.cpp:65-80, PgNotificationRepository::list_for_user *)
Definition list_for_user (user_id : Z) (page : Pagination.t) (unread_only : bool)
    : M World exn (list Notification.t) :=
  with_transaction (on_db (λ d,
    map_row <$> PgConversationRepository.limit_offset page
      (merge_sort id_desc
         (rows (λ r, (NotificationRow.user_id r =? user_id)
                     && (negb unread_only || bool_decide (NotificationRow.read_at r = None)))
            (notifications d))))).

(* src/repositories/pg_notification_repository.cpp:82-88, PgNotificationRepository::unread_count *)
Definition unread_count (user_id : Z) : M World exn Z :=
  with_transaction (on_db (λ d, Z.of_nat (length (rows (unread_of user_id) (notifications d))))).

Definition set_read (now : Z) (r : NotificationRow.t) : NotificationRow.t :=
  NotificationRow.mk (NotificationRow.user_id r) (NotificationRow.type r) (NotificationRow.payload r)
    (Some now) (NotificationRow.created_at r).

(* src/repositories/pg_notification_repository.cpp:90-99, PgNotificationRepository::mark_read *)
Definition mark_read (id user_id : Z) : M World exn bool :=
  with_transaction (
    now ← clock;
    d ← on_db (λ d, d);
    match notifications d !! id with
    | Some r =>
        if unread_of user_id r then
          update (λ d, set_notifications (<[id := set_read now r]> (notifications d)) d);; mret true
        else mret false
    | None => mret false
    end).

(* src/repositories/pg_notification_repository.cpp:101-108, PgNotificationRepository::mark_all_read *)
Definition mark_all_read (user_id : Z) : M World exn Z :=
  with_transaction (
    now ← clock;
    d ← on_db (λ d, d);
    update (λ d, set_notifications (update_where (unread_of user_id) (set_read now) (notifications d)) d);;
    mret (Z.of_nat (length (rows (unread_of user_id) (notifications d))))).

(* src/repositories/pg_notification_repository.cpp:110-116, PgNotificationRepository::remove *)
Definition remove (id user_id : Z) : M World exn bool :=
  with_transaction (
    d ← on_db (λ d, d);
    match notifications d !! id with
    | Some r =>
        if NotificationRow.user_id r =? user_id then
          update (λ d, set_notifications (delete id (notifications d)) d);; mret true
        else mret false
    | None => mret false
    end).
End PgNotificationRepository.

Module NotificationService.
(* src/services/notification_service.cpp:12-28, push_text *)
Definition push_text (type : NotificationType.t) : string * string :=
  match type with
  | NotificationType.kNewMessage => ("New message", "You have a new message")
  | NotificationType.kMention => ("You were mentioned", "Someone mentioned you")
  | NotificationType.kAddedToGroup => ("Added to a group", "You were added to a group")
  | NotificationType.kRemovedFromGroup => ("Removed from a group", "You were removed from a group")
  | NotificationType.kReactionAdded => ("New reaction", "Someone reacted to your message")
  | NotificationType.kProfileUpdated => ("Profile updated", "A profile was updated")
  end.

(* src/services/notification_service.cpp:32-48, NotificationService::create *)
Definition create (user_id : Z) (type : NotificationType.t) (payload : json) : M World exn Notification.t :=
  notification ← PgNotificationRepository.create user_id type payload;
  emit (EMetric "rtc_notifications_total");;
  emit (EBroadcast [user_id] WireEvents.kNotification
          (NotificationResponse.to_json (NotificationResponse.from notification)));;
  let '(title, body) := push_text type in
  emit (EPush user_id title body payload);;
  mret notification.

(* src/services/notification_service.cpp:50-54, NotificationService::list *)
Definition list (user_id : Z) (page : Pagination.t) (unread_only : bool) : M World exn (list Notification.t) :=
  PgNotificationRepository.list_for_user user_id page unread_only.

(* src/services/notification_service.cpp:56-58, NotificationService::unread_count *)
Definition unread_count (user_id : Z) : M World exn Z := PgNotificationRepository.unread_count user_id.

(* src/services/notification_service.cpp:60-62, NotificationService::mark_read *)
Definition mark_read (id user_id : Z) : M World exn bool := PgNotificationRepository.mark_read id user_id.

(* src/services/notification_service.cpp:64-66, NotificationService::mark_all_read *)
Definition mark_all_read (user_id : Z) : M World exn Z := PgNotificationRepository.mark_all_read user_id.

(* src/services/notification_service.cpp:68-70, NotificationService::remove *)
Definition remove (id user_id : Z) : M World exn bool := PgNotificationRepository.remove id user_id.
End NotificationService.

Module NotificationDispatcher.
(* src/services/notification_dispatcher.cpp:12-22, guarded *)
Definition guarded (fn : M World exn unit) : M World exn unit := λ w,
  match fn w with (_, w') => (Ok (), w') end.

Definition new_message_payload (sender_id conversation_id message_id : Z) : json :=
  jobj [("conversation_id", JInt conversation_id); ("message_id", JInt message_id);
        ("sender_id", JInt sender_id)].

(* src/services/notification_dispatcher.cpp:26-41, NotificationDispatcher::new_message *)
Definition new_message (sender_id conversation_id message_id : Z) (recipient_ids : list Z)
    : M World exn unit :=
  guarded (
    let payload := new_message_payload sender_id conversation_id message_id in
    for_each (λ recipient,
      if recipient =? sender_id then mret ()
      else NotificationService.create recipient NotificationType.kNewMessage payload;; mret ())
      recipient_ids).

(* src/services/notification_dispatcher.cpp:43-52, NotificationDispatcher::added_to_group *)
Definition added_to_group (conversation_id added_user_id actor_id : Z) : M World exn unit :=
  guarded (NotificationService.create added_user_id NotificationType.kAddedToGroup
             (jobj [("conversation_id", JInt conversation_id); ("actor_id", JInt actor_id)]);; mret ()).

(* src/services/notification_dispatcher.cpp:54-63, NotificationDispatcher::removed_from_group *)
Definition removed_from_group (conversation_id removed_user_id actor_id : Z) : M World exn unit :=
  guarded (NotificationService.create removed_user_id NotificationType.kRemovedFromGroup
             (jobj [("conversation_id", JInt conversation_id); ("actor_id", JInt actor_id)]);; mret ()).

(* src/services/notification_dispatcher.cpp:65-79, NotificationDispatcher::reaction_added *)
Definition reaction_added (message_author_id message_id reactor_id : Z) (emoji : string) : M World exn unit :=
  guarded (
    if message_author_id =? reactor_id then mret ()
    else NotificationService.create message_author_id NotificationType.kReactionAdded
           (jobj [("message_id", JInt message_id); ("reactor_id", JInt reactor_id);
                  ("emoji", JStr emoji)]);; mret ()).

(* src/services/notification_dispatcher.cpp:81-86, NotificationDispatcher::profile_updated *)
Definition profile_updated (user_id : Z) : M World exn unit := mret ().

(** The calls of [INotificationDispatcher]. *)
(* src/services/notification_dispatcher.cpp:26-86, NotificationDispatcher *)
Definition handle (call : NotifyCall) : M World exn unit :=
  match call with
  | NewMessage sender conversation message recipients => new_message sender conversation message recipients
  | AddedToGroup conversation added actor => added_to_group conversation added actor
  | RemovedFromGroup conversation removed actor => removed_from_group conversation removed actor
  | ReactionAddedCall author message reactor emoji => reaction_added author message reactor emoji
  | ProfileUpdatedCall user => profile_updated user
  end.
End NotificationDispatcher.

(** ** Fan-out *)

(** The rows and the effects of notifying [users], with ids from [n] on. *)
Section Feed.
Context (type : NotificationType.t) (payload : json) (now : Z).

Definition note (user : Z) : NotificationRow.t :=
  NotificationRow.mk user (NotificationType.to_string type) payload None now.

Fixpoint feed (n : Z) (users : list Z) (t : gmap Z NotificationRow.t) : gmap Z NotificationRow.t :=
  match users with [] => t | u :: rest => feed (n + 1) rest (<[n := note u]> t) end.

Fixpoint announced (n : Z) (users : list Z) : list Effect :=
  match users with
  | [] => []
  | u :: rest =>
      EMetric "rtc_notifications_total"
      :: EBroadcast [u] WireEvents.kNotification
           (NotificationResponse.to_json
              (NotificationResponse.from (PgNotificationRepository.map_row (n, note u))))
      :: EPush u (NotificationService.push_text type).1 (NotificationService.push_text type).2 payload
      :: announced (n + 1) rest
  end.

(** What the worlds before and after notifying [users] have in common. *)
Record notified (users : list Z) (w w' : World) : Prop := {
  nd_db : db w' = set_notifications (feed (seqs w SNotifications) users (notifications (db w))) (db w);
  nd_out : out w' = (out w ++ announced (seqs w SNotifications) users)%list;
  nd_now : Database.now w' = Database.now w;
  nd_faults : ∃ n, faults w' = drop n (faults w) }.
End Feed.

Lemma set_notifications_id d : set_notifications (notifications d) d = d.
Proof. by destruct d. Qed.

(** [create] either does all of it or, short of a commit in doubt, nothing. *)
Lemma create_cases u type payload w :
  no_doubt w →
  match NotificationService.create u type payload w with
  | (Ok _, w') => notified type payload (now w) [u] w w' ∧
                  seqs w' SNotifications = seqs w SNotifications + 1
  | (Err _, w') => notified type payload (now w) [] w w' ∧
                   (faults w = [] → exists_row (users (db w)) u = false)
  end.
Proof.
  intros Hn. unfold NotificationService.create, PgNotificationRepository.create, with_transaction.
  unfold mbind, M_bind, nextval, clock, gets, on_db, foreign_key, update, modify, emit, mret, M_ret.
  destruct w as [d sq t fs o fi io]. simpl in *.
  assert (Hf : ∃ m, tail fs = drop m fs) by (exists 1%nat; by destruct fs).
  destruct (mjoin (head fs)) as [[what|what|what]|] eqn:Hfault; simpl.
  - split; [split; simpl; [by rewrite set_notifications_id|by rewrite app_nil_r|done|done]|].
    by intros ->.
  - destruct (exists_row (users d) u) eqn:Hu; simpl;
      (split; [split; simpl; [by rewrite set_notifications_id|by rewrite app_nil_r|done|done]|by intros ->]).
  - exfalso. apply (Hn what). destruct fs as [|[f|] fs]; simpl in *; simplify_eq. by apply list_elem_of_here.
  - destruct (exists_row (users d) u) eqn:Hu; simpl.
    + rewrite (surjective_pairing (NotificationService.push_text type)). cbn -[NotificationResponse.to_json].
      split; [split; simpl; [done|by rewrite <- !app_assoc|done|done]|done].
    + split; [split; simpl; [by rewrite set_notifications_id|by rewrite app_nil_r|done|done]|done].
Qed.

Lemma notified_cons type payload t u us w w1 w2 :
  t = now w → notified type payload t [u] w w1 → seqs w1 SNotifications = seqs w SNotifications + 1 →
  notified type payload t us w1 w2 → notified type payload t (u :: us) w w2.
Proof.
  intros -> [Hd Ho Hn [m Hf]] Hs [Hd2 Ho2 Hn2 [m2 Hf2]]. rewrite Hs in *. split; simpl in *.
  - rewrite Hd2, Hd. by destruct (db w).
  - rewrite Ho2, Ho, <- app_assoc. done.
  - congruence.
  - rewrite Hf2, Hf, drop_drop. eauto.
Qed.

Lemma no_doubt_drop w w' n : faults w' = drop n (faults w) → no_doubt w → no_doubt w'.
Proof.
  intros Hf Hn what Hin. apply (Hn what). rewrite Hf in Hin.
  rewrite <- (take_drop n (faults w)). apply elem_of_app. by right.
Qed.

Lemma notified_users type payload t us w w' : notified type payload t us w w' → users (db w') = users (db w).
Proof. intros [Hd _ _ _]. by rewrite Hd. Qed.

(** The recipients of a message are notified in order, up to the first one for
    whom it fails. *)
Lemma fan_out sender type payload rs : ∀ w,
  no_doubt w →
  let us := filter (λ u, u ≠ sender) rs in
  let loop := for_each (λ u, if u =? sender then mret ()
                             else NotificationService.create u type payload;; mret ()) rs in
  match loop w with
  | (Ok _, w') => notified type payload (now w) us w w'
  | (Err _, w') => (∃ k, notified type payload (now w) (take k us) w w') ∧
                   (faults w = [] → ∃ u, u ∈ us ∧ exists_row (users (db w)) u = false)
  end.
Proof.
  induction rs as [|r rs IH]; intros w Hn.
  - split; [symmetry; apply set_notifications_id|symmetry; apply app_nil_r|done|].
    exists 0%nat. by rewrite drop_0.
  - cbn [for_each]. rewrite filter_cons. unfold mbind at 1, M_bind at 1.
    destruct (Z.eqb_spec r sender) as [->|Hne].
    { rewrite decide_False by (intros H; by apply H). cbv beta. unfold mret, M_ret. by apply IH. }
    rewrite decide_True by done. unfold mbind at 1, M_bind at 1.
    pose proof (create_cases r type payload w Hn) as Hc.
    destruct (NotificationService.create r type payload w) as [[a|e] w1].
    + destruct Hc as [Hc Hs]. unfold mret at 1, M_ret at 1.
      assert (Hn1 : no_doubt w1) by (destruct Hc as [_ _ _ [m Hf]]; by eapply no_doubt_drop).
      pose proof (nd_now _ _ _ _ _ _ Hc) as Ht. specialize (IH w1 Hn1). cbv zeta in IH. rewrite Ht in IH.
      destruct (for_each _ rs w1) as [[x|e] w2].
      * by eapply notified_cons.
      * destruct IH as [[k Hk] Hu]. split; [exists (S k); by eapply notified_cons|].
        intros Hf. destruct Hu as (u & Hin & Hx).
        { destruct Hc as [_ _ _ [m Hf1]]. rewrite Hf1, Hf. apply drop_nil. }
        rewrite (notified_users _ _ _ _ _ _ Hc) in Hx. exists u. split; [by right|done].
    + destruct Hc as [Hc Hu]. split; [by exists 0%nat|]. intros Hf. exists r. split; [by left|auto].
Qed.

(** ** The feed of a user *)

Inductive FeedOp := MarkRead (id : Z) | MarkAllRead | Remove (id : Z).

Definition feed_op (op : FeedOp) (user_id : Z) : M World exn Z :=
  match op with
  | MarkRead id => b ← NotificationService.mark_read id user_id; mret (Z.b2z b)
  | MarkAllRead => NotificationService.mark_all_read user_id
  | Remove id => b ← NotificationService.remove id user_id; mret (Z.b2z b)
  end.

(** The only change [user_id]'s operations make to the table: rows of that user
    become read, or disappear. *)
Record feed_change (op : FeedOp) (user_id : Z) (t t' : gmap Z NotificationRow.t) : Prop := {
  fc_others : ∀ nid r, NotificationRow.user_id r ≠ user_id → t' !! nid = Some r ↔ t !! nid = Some r;
  fc_read : ∀ nid r, t !! nid = Some r → NotificationRow.read_at r ≠ None → op ≠ Remove nid →
    t' !! nid = Some r;
  fc_subset : dom t' ⊆ dom t }.

Lemma feed_change_refl op u t : feed_change op u t t.
Proof. by split. Qed.

Lemma unread_of_spec u r :
  PgNotificationRepository.unread_of u r = true ↔
  NotificationRow.user_id r = u ∧ NotificationRow.read_at r = None.
Proof. unfold PgNotificationRepository.unread_of. by rewrite andb_true_iff, Z.eqb_eq, bool_decide_eq_true. Qed.

Lemma mark_read_change id u t now r :
  t !! id = Some r → PgNotificationRepository.unread_of u r = true →
  feed_change (MarkRead id) u t (<[id := PgNotificationRepository.set_read now r]> t).
Proof.
  intros Hr Hu. apply unread_of_spec in Hu as [Hu Hn]. split.
  - intros nid r' Hne. rewrite lookup_insert. case_decide; [subst nid|done].
    split; [intros [= <-]; simpl in Hne; congruence|congruence].
  - intros nid r' Hr' Hread _. rewrite lookup_insert_ne; [done|]. intros <-. congruence.
  - rewrite dom_insert. apply elem_of_dom_2 in Hr. set_solver.
Qed.

Lemma mark_all_change u t now :
  feed_change MarkAllRead u t
    (update_where (PgNotificationRepository.unread_of u) (PgNotificationRepository.set_read now) t).
Proof.
  split.
  - intros nid r Hne. rewrite lookup_update_where. split.
    + intros (r0 & H0 & ->). destruct (PgNotificationRepository.unread_of u r0) eqn:E; [|done].
      apply unread_of_spec in E as [E _]. simpl in Hne. congruence.
    + intros H. exists r. split; [done|].
      destruct (PgNotificationRepository.unread_of u r) eqn:E; [|done].
      apply unread_of_spec in E as [E _]. congruence.
  - intros nid r Hr Hread _. apply lookup_update_where. exists r. split; [done|].
    destruct (PgNotificationRepository.unread_of u r) eqn:E; [|done].
    apply unread_of_spec in E as [_ E]. congruence.
  - unfold update_where. by rewrite dom_fmap.
Qed.

Lemma remove_change id u t r :
  t !! id = Some r → NotificationRow.user_id r = u → feed_change (Remove id) u t (delete id t).
Proof.
  intros Hr Hu. split.
  - intros nid r' Hne. rewrite lookup_delete. case_decide; [subst nid|done].
    split; [done|congruence].
  - intros nid r' Hr' _ Hop. rewrite lookup_delete_ne; [done|]. intros ->. by apply Hop.
  - rewrite dom_delete. set_solver.
Qed.

(** A transaction that may only change the notifications table. *)
Lemma txn_feed {A} op u (fn : M World exn A) w :
  (∀ w1 a w2, db w1 = db w → fn w1 = (Ok a, w2) →
     ∃ t', db w2 = set_notifications t' (db w) ∧ feed_change op u (notifications (db w)) t') →
  ∃ t', db (with_transaction fn w).2 = set_notifications t' (db w) ∧
        feed_change op u (notifications (db w)) t'.
Proof.
  intros Hfn. destruct (with_transaction_db fn w) as [->|(a & w1 & w2 & Hs & Hr & ->)].
  - exists (notifications (db w)). split; [by rewrite set_notifications_id|apply feed_change_refl].
  - destruct Hs as (Hd & _). by apply (Hfn w1 a w2).
Qed.

Lemma feed_op_change op u w :
  ∃ t', db (feed_op op u w).2 = set_notifications t' (db w) ∧
        feed_change op u (notifications (db w)) t'.
Proof.
  assert (Hbind : ∀ (m : M World exn bool), (m ≫= λ b, mret (Z.b2z b)) w
    = (match (m w).1 with Ok b => Ok (Z.b2z b) | Err e => Err e end, (m w).2)).
  { intros m. unfold mbind, M_bind. by destruct (m w) as [[]]. }
  destruct op as [id| |id]; simpl feed_op; rewrite ?Hbind; simpl snd; apply txn_feed;
    intros w1 a w2 Hd H; run_txn H; rewrite Hd in *;
    try (exists (notifications (db w)); rewrite set_notifications_id; by split; [|apply feed_change_refl]).
  - eexists. split; [done|]. by apply mark_read_change.
  - eexists. split; [done|]. apply mark_all_change.
  - eexists. split; [done|]. eapply remove_change; [done|]. by apply Z.eqb_eq.
Qed.

Lemma silent_feed_op op u : silent (feed_op op u).
Proof.
  destruct op; simpl; unfold NotificationService.mark_read, NotificationService.remove,
    NotificationService.mark_all_read, PgNotificationRepository.mark_read,
    PgNotificationRepository.mark_all_read, PgNotificationRepository.remove; solve_silent.
Qed.

Lemma unread_rows_after u now t :
  rows (PgNotificationRepository.unread_of u)
    (update_where (PgNotificationRepository.unread_of u) (PgNotificationRepository.set_read now) t) = [].
Proof.
  apply elem_of_nil_inv. intros [k r] H. apply elem_of_rows in H as [H Hu].
  apply lookup_update_where in H as (r0 & _ & ->).
  destruct (PgNotificationRepository.unread_of u r0) eqn:E; [|congruence].
  apply unread_of_spec in Hu as [_ Hu]. done.
Qed.

(** When a message is announced, each recipient other than the sender gets
    one unread notification, one frame on their live connections and one push,
    in the order of the recipients and with nothing else changed.  The call
    never fails, whatever the database does.  A failure, short of a commit in
    doubt, costs the notifications of the recipients from there on, none of
    those before; and without faults nobody is left out. *)
Theorem message_notifications (sender conversation message : Z) (recipients : list Z) (w : World) :
  no_doubt w →
  let us := filter (λ u, u ≠ sender) recipients in
  let payload := NotificationDispatcher.new_message_payload sender conversation message in
  ∃ k w', NotificationDispatcher.handle (NewMessage sender conversation message recipients) w = (Ok (), w') ∧
    notified NotificationType.kNewMessage payload (now w) (take k us) w w' ∧
    (faults w = [] → (∀ u, u ∈ us → is_Some (users (db w) !! u)) → take k us = us).
Proof.
  intros Hn us payload. simpl. unfold NotificationDispatcher.new_message, NotificationDispatcher.guarded.
  pose proof (fan_out sender NotificationType.kNewMessage payload recipients w Hn) as H.
  cbv zeta in H. fold us in H. fold payload. cbv zeta.
  destruct (for_each _ recipients w) as [[x|e] w1].
  - exists (length us), w1. rewrite take_ge by done. done.
  - destruct H as [[k Hk] Hu]. exists k, w1. split_and!; [done..|]. intros Hf Hex.
    destruct (Hu Hf) as (u & Hin & Hx). apply Hex in Hin.
    unfold exists_row in Hx. by rewrite bool_decide_true in Hx.
Qed.

(** A user's feed is the user's own.  Marking as read, marking all as read
    and deleting touch no other table and no row of another user, announce
    nothing, never change when a notification was read, and never add one,
    whatever faults occur; and when marking all as read succeeds, it reports
    how many were unread, and none is. *)
Theorem feed_private (op : FeedOp) (u : Z) (w : World) :
  let '(res, w') := feed_op op u w in
  (∃ t', db w' = set_notifications t' (db w) ∧ feed_change op u (notifications (db w)) t') ∧
  out w' = out w ∧
  (∀ n, op = MarkAllRead → res = Ok n →
     n = Z.of_nat (length (rows (PgNotificationRepository.unread_of u) (notifications (db w)))) ∧
     rows (PgNotificationRepository.unread_of u) (notifications (db w')) = []).
Proof.
  pose proof (feed_op_change op u w) as Hc. pose proof (silent_feed_op op u w) as Ho.
  destruct (feed_op op u w) as [res w'] eqn:E. simpl in *. split_and!; [done..|].
  intros n -> ->. simpl in E. apply with_transaction_ok in E as (w1 & (Hd & _) & E).
  run_txn E. subst. rewrite Hd. split; [done|]. apply unread_rows_after.
Qed.

(** Message 1 of the sample group: its two other members are notified. *)
Lemma message_notifications_witness :
  ∃ w', NotificationDispatcher.handle (NewMessage 2 1 1 [1; 2; 3]) group_world = (Ok (), w') ∧
    notified NotificationType.kNewMessage (NotificationDispatcher.new_message_payload 2 1 1)
      (now group_world) [1; 3] group_world w'.
Proof.
  assert (Hn : no_doubt group_world) by (intros what H; inversion H).
  destruct (message_notifications 2 1 1 [1; 2; 3] group_world Hn) as (k & w' & Hr & Hd & Hall).
  exists w'. split; [exact Hr|].
  assert (Hu : ∀ u, u ∈ filter (λ u, u ≠ 2) [1; 2; 3] → is_Some (users (db group_world) !! u)).
  { intros u Hin. change (filter (λ u, u ≠ 2) [1; 2; 3]) with [1; 3] in Hin.
    apply elem_of_cons in Hin as [->|Hin]; [eexists; reflexivity|].
    apply list_elem_of_singleton in Hin as ->. eexists; reflexivity. }
  rewrite (Hall eq_refl Hu) in Hd. exact Hd.
Defined.
