(* ===== verification/Tokens.v ===== *)
(** * Tokens: access and refresh tokens

    Models include/rtc/security/token.hpp, the interface
    include/rtc/security/token_service.hpp and its implementation
    src/security/jwt_token_service.cpp.  Printing, signing, parsing and checking
    a JWT belong to jwt-cpp: [JwtCpp] is what the source calls and [JwtCppLaws]
    what the library documents.  The clock and the random token ids are
    arguments.  [TokenService] is the interface the session and
    authentication services are written against, [TokenServiceLaws] what they
    may rely on; the JWT implementation discharges it. *)

From stdpp Require Import countable.
From S2P Require Import Prelude Text Json Errors TimeUtil Models Dto.
Open Scope string_scope.
Open Scope Z_scope.

Module TokenType.
(* include/rtc/security/token.hpp:14-17, TokenType *)
Inductive t := kAccess | kRefresh.

Global Instance t_eq_dec : EqDecision t.
Proof. solve_decision. Defined.

(* include/rtc/security/token.hpp:19-27, to_string *)
Definition to_string (type : t) : string :=
  match type with kAccess => "access" | kRefresh => "refresh" end.

Lemma to_string_type_inj a b : to_string a = to_string b → a = b.
Proof. by destruct a, b. Qed.
End TokenType.

Module TokenClaims.
(* include/rtc/security/token.hpp:30-36, TokenClaims *)
Record t := mk {
  user_id : Z; username : string; type : TokenType.t;
  issued_at : TimePoint; expires_at : TimePoint }.
End TokenClaims.

(** ** The interface *)

(* include/rtc/security/token_service.hpp:13-32, ITokenService *)
Class TokenService := {
  issue_pair : string → string → TimePoint → Z → string → TokenPair.t;
  token_verify : TimePoint → string → TokenType.t → result exn TokenClaims.t
}.

(** What its clients rely on: only authentication errors are raised; the two
    tokens of a pair name their user while they are valid, each only as what it
    is; two refresh tokens with different ids differ. *)
Class TokenServiceLaws (T : TokenService) := {
  pair_lifetime : TokenType.t → Z;
  verify_raises : ∀ t tok ty e,
    token_verify t tok ty = Err e → ∃ message details, e = AuthenticationException message details;
  pair_verifies : ∀ a r t0 t u name ty ty',
    in_int64 u = true → 0 <= t0 <= t →
    let p := issue_pair a r t0 u name in
    let tok := match ty with TokenType.kAccess => TokenPair.access_token p
                           | TokenType.kRefresh => TokenPair.refresh_token p end in
    (∀ c, token_verify t tok ty' = Ok c → ty' = ty ∧ TokenClaims.user_id c = u ∧
                                          TokenClaims.username c = name) ∧
    (t <= t0 + (pair_lifetime ty - 1) * 1000000000 → is_ok (token_verify t tok ty) = true);
  refresh_unique : ∀ a r a' r' t0 t0' u u' name name',
    r ≠ r' → TokenPair.refresh_token (issue_pair a r t0 u name) ≠
             TokenPair.refresh_token (issue_pair a' r' t0' u' name')
}.

(** ** jwt-cpp *)

(** The claims set on the builder, in the order of the source. *)
Record Created := {
  c_issuer : string; c_subject : string; c_id : string; c_username : string; c_type : string;
  c_issued_at : TimePoint; c_expires_at : TimePoint }.

(** The accessors of a decoded token, each with the exception it may raise. *)
Record Decoded := {
  d_type : option (result string string);
  d_subject : result string string;
  d_username : option (result string string);
  d_issued_at : result string TimePoint;
  d_expires_at : result string TimePoint }.

(** [sign]: the builder chain with an HS256 secret.  [checked]: [jwt::decode]
    followed by [verify] for a secret and an issuer at a point in time. *)
Class JwtCpp := {
  sign : string → Created → string;
  checked : string → string → TimePoint → string → result string Decoded
}.

(** Dates are kept in whole seconds. *)
Definition date (tp : TimePoint) : TimePoint := from_time_t (to_unix_seconds tp).

Definition read_back (c : Created) : Decoded :=
  {| d_type := Some (Ok (c_type c)); d_subject := Ok (c_subject c);
     d_username := Some (Ok (c_username c)); d_issued_at := Ok (date (c_issued_at c));
     d_expires_at := Ok (date (c_expires_at c)) |}.

Class JwtCppLaws (J : JwtCpp) := {
  jwt_accepts : ∀ secret c t,
    date (c_issued_at c) <= t <= date (c_expires_at c) →
    checked secret (c_issuer c) t (sign secret c) = Ok (read_back c);
  jwt_reads : ∀ secret issuer t c d, checked secret issuer t (sign secret c) = Ok d → d = read_back c;
  jwt_expires : ∀ secret issuer t c,
    date (c_expires_at c) < t → is_ok (checked secret issuer t (sign secret c)) = false;
  jwt_issuer : ∀ secret secret' issuer t c,
    issuer ≠ c_issuer c → is_ok (checked secret issuer t (sign secret' c)) = false;
  jwt_secret : ∀ secret secret' issuer t c,
    secret ≠ secret' → is_ok (checked secret issuer t (sign secret' c)) = false;
  jwt_id : ∀ secret c c', sign secret c = sign secret c' → c_id c = c_id c'
}.

(** ** The implementation *)

(* src/security/jwt_token_service.cpp:18-27, parse_subject *)
Definition parse_subject (subject : string) : result exn Z :=
  match parse_int64 subject with
  | None => Err (AuthenticationException "Malformed token subject" "")
  | Some value => Ok value
  end.

Module JwtTokenService.
(* include/rtc/security/jwt_token_service.hpp:18-23, JwtTokenService::Options *)
Record Options := {
  secret : string; issuer : string; access_ttl_seconds : Z; refresh_ttl_seconds : Z }.

(* src/security/jwt_token_service.cpp:31-35, JwtTokenService::JwtTokenService *)
Definition construct (options : Options) : result exn Options :=
  if String.eqb (secret options) ""
  then Err (ConfigException "JwtTokenService requires a non-empty secret" "")
  else Ok options.

Section Service.
Context `{J : JwtCpp} (options : Options).

(* src/security/jwt_token_service.cpp:37-39, JwtTokenService::ttl_for *)
Definition ttl_for (type : TokenType.t) : Z :=
  match type with
  | TokenType.kAccess => access_ttl_seconds options
  | TokenType.kRefresh => refresh_ttl_seconds options
  end.

(** The claims of a token. *)
Definition claims_for (jti : string) (now : TimePoint) (user_id : Z) (username : string)
    (type : TokenType.t) : Created :=
  {| c_issuer := issuer options; c_subject := to_string user_id; c_id := jti;
     c_username := username; c_type := TokenType.to_string type;
     c_issued_at := now; c_expires_at := now + ttl_for type * 1000000000 |}.

(* src/security/jwt_token_service.cpp:41-70, JwtTokenService::issue *)
Definition issue (jti : string) (now : TimePoint) (user_id : Z) (username : string)
    (type : TokenType.t) : string :=
  sign (secret options) (claims_for jti now user_id username type).

(* src/security/jwt_token_service.cpp:72-79, JwtTokenService::issue_pair *)
Definition issue_pair (jti_access jti_refresh : string) (now : TimePoint) (user_id : Z)
    (username : string) : TokenPair.t :=
  TokenPair.mk (issue jti_access now user_id username TokenType.kAccess)
    (issue jti_refresh now user_id username TokenType.kRefresh)
    (access_ttl_seconds options) (refresh_ttl_seconds options).

(** An accessor that may raise. *)
Definition accessor {A} (r : result string A) : result exn A :=
  match r with Ok a => Ok a | Err what => Err (Std what) end.

(* src/security/jwt_token_service.cpp:83-106, JwtTokenService::verify (try block) *)
Definition verify_body (now : TimePoint) (token : string) (expected_type : TokenType.t)
    : result exn TokenClaims.t :=
  decoded ← accessor (checked (secret options) (issuer options) now token);
  match d_type decoded with
  | None => Err (AuthenticationException "Token missing type claim" "")
  | Some type =>
      type ← accessor type;
      if negb (String.eqb type (TokenType.to_string expected_type))
      then Err (AuthenticationException "Token has unexpected type" "")
      else
        subject ← accessor (d_subject decoded);
        user_id ← parse_subject subject;
        username ← match d_username decoded with
                   | Some username => accessor username
                   | None => Ok ""
                   end;
        issued_at ← accessor (d_issued_at decoded);
        expires_at ← accessor (d_expires_at decoded);
        Ok (TokenClaims.mk user_id username expected_type issued_at expires_at)
  end.

(* src/security/jwt_token_service.cpp:81-115, JwtTokenService::verify *)
Definition verify (now : TimePoint) (token : string) (expected_type : TokenType.t)
    : result exn TokenClaims.t :=
  match verify_body now token expected_type with
  | Ok claims => Ok claims
  | Err (App ex) =>
      if decide (ex_type ex = kAuthentication) then Err (App ex)
      else Err (AuthenticationException "Invalid or expired token" (ex_message ex))
  | Err (Std what) => Err (AuthenticationException "Invalid or expired token" what)
  end.
End Service.
End JwtTokenService.

(** ** Correctness of the implementation *)

Lemma date_le tp : 0 <= tp → tp - 1000000000 < date tp <= tp.
Proof.
  intros H. unfold date, from_time_t, to_unix_seconds. rewrite Z.quot_div_nonneg by lia.
  pose proof (Z.div_mod tp 1000000000). pose proof (Z.mod_pos_bound tp 1000000000). lia.
Qed.

Module JwtFacts.
Import JwtTokenService.
Section Facts.
Context `{J : JwtCpp} `{!JwtCppLaws J} (options : Options).

Lemma verify_raises_auth t tok ty e :
  verify options t tok ty = Err e → ∃ message details, e = AuthenticationException message details.
Proof.
  unfold verify. destruct (verify_body _ _ _ _) as [c|[[ty' m d]|what]]; [done| |]; simpl.
  - case_decide as E; intros [= <-]; simpl in E; [|by eexists _, _].
    subst ty'. by eexists _, _.
  - intros [= <-]. by eexists _, _.
Qed.

Lemma verify_rejected t tok ty :
  is_ok (checked (secret options) (issuer options) t tok) = false →
  ∃ what, verify options t tok ty = Err (AuthenticationException "Invalid or expired token" what).
Proof.
  intros H. unfold verify, verify_body.
  destruct (checked _ _ t tok) as [d|what]; [done|]. exists what. done.
Qed.

Lemma verify_body_issued jti t0 t u name ty ty' d :
  in_int64 u = true →
  checked (secret options) (issuer options) t (issue options jti t0 u name ty) = Ok d →
  verify options t (issue options jti t0 u name ty) ty' =
    if decide (ty' = ty)
    then Ok (TokenClaims.mk u name ty (date t0) (date (t0 + ttl_for options ty * 1000000000)))
    else Err (AuthenticationException "Token has unexpected type" "").
Proof.
  intros Hu Hd. unfold verify, verify_body. rewrite Hd. cbn [accessor mbind result_bind].
  apply jwt_reads in Hd as ->. cbn [read_back d_type d_subject d_username d_issued_at d_expires_at
    accessor mbind result_bind claims_for c_type c_subject c_username c_issued_at c_expires_at].
  destruct (decide (ty' = ty)) as [->|Hne].
  - rewrite String.eqb_refl. cbn [negb]. unfold parse_subject.
    rewrite parse_int64_to_string by (by apply in_range_spec). done.
  - rewrite (proj2 (String.eqb_neq _ _)); [done|]. intros Heq.
    by apply TokenType.to_string_type_inj in Heq.
Qed.

(** The verdict on a token of this service, at any later time. *)
Lemma issued_verdict jti t0 t u name ty ty' :
  in_int64 u = true → 0 <= t0 <= t →
  let tok := issue options jti t0 u name ty in
  let expiry := date (t0 + ttl_for options ty * 1000000000) in
  if decide (t <= expiry)
  then verify options t tok ty' =
    if decide (ty' = ty) then Ok (TokenClaims.mk u name ty (date t0) expiry)
    else Err (AuthenticationException "Token has unexpected type" "")
  else ∃ what, verify options t tok ty' = Err (AuthenticationException "Invalid or expired token" what).
Proof.
  intros Hu Ht tok expiry. case_decide as Hexp.
  - eapply verify_body_issued; [done|]. 
    apply (jwt_accepts (secret options) (claims_for options jti t0 u name ty)). cbn.
    pose proof (date_le t0). fold expiry. lia.
  - apply verify_rejected. apply jwt_expires. cbn. fold expiry. lia.
Qed.

Definition jti_of (ty : TokenType.t) (a r : string) : string :=
  match ty with TokenType.kAccess => a | TokenType.kRefresh => r end.
Lemma pair_token a r t0 u name ty :
  match ty with
  | TokenType.kAccess => TokenPair.access_token (issue_pair options a r t0 u name)
  | TokenType.kRefresh => TokenPair.refresh_token (issue_pair options a r t0 u name)
  end = issue options (jti_of ty a r) t0 u name ty.
Proof. by destruct ty. Qed.
End Facts.

Global Instance jwt_token_service `{JwtCpp} (options : Options) : TokenService := {|
  Tokens.issue_pair := issue_pair options;
  token_verify := verify options |}.

Global Instance jwt_token_service_laws `{J : JwtCpp} `{!JwtCppLaws J} options :
  TokenServiceLaws (jwt_token_service options).
Proof.
  refine {| pair_lifetime := ttl_for options |}; cbn [token_verify Tokens.issue_pair jwt_token_service].
  - intros. by eapply verify_raises_auth.
  - intros a r t0 t u name ty ty' Hu Ht. cbn zeta. rewrite pair_token. split.
    + intros c Hc. pose proof (issued_verdict options (jti_of ty a r) t0 t u name ty ty' Hu Ht) as V.
      cbn zeta in V. case_decide; [|destruct V as [what V]; congruence].
      rewrite V in Hc. case_decide; [|done]. by injection Hc as <-.
    + intros Hlt. pose proof (issued_verdict options (jti_of ty a r) t0 t u name ty ty Hu Ht) as V.
      cbn zeta in V. rewrite decide_True in V; [by rewrite V, decide_True|].
      pose proof (date_le (t0 + ttl_for options ty * 1000000000)). lia.
  - intros a r a' r' t0 t0' u u' name name' Hne Heq. by apply jwt_id in Heq.
Defined.
End JwtFacts.

(** C39. A token issued to a user is accepted, by a service with the same secret and
    issuer, exactly until its expiry and exactly as the type it was issued for,
    and then yields the user's id and name; a service with another secret or
    issuer rejects it.  Every rejection is an authentication error. *)
Theorem token_verdict `{J : JwtCpp} `{!JwtCppLaws J} (options options' : JwtTokenService.Options)
    (jti name : string) (t0 t u : Z) (ty ty' : TokenType.t) :
  in_int64 u = true → 0 <= t0 <= t →
  let tok := JwtTokenService.issue options jti t0 u name ty in
  let expiry := date (t0 + JwtTokenService.ttl_for options ty * 1000000000) in
  (if decide (t <= expiry)
   then JwtTokenService.verify options t tok ty' =
     if decide (ty' = ty) then Ok (TokenClaims.mk u name ty (date t0) expiry)
     else Err (AuthenticationException "Token has unexpected type" "")
   else ∃ what, JwtTokenService.verify options t tok ty' =
     Err (AuthenticationException "Invalid or expired token" what)) ∧
  (JwtTokenService.secret options' ≠ JwtTokenService.secret options ∨
   JwtTokenService.issuer options' ≠ JwtTokenService.issuer options →
   ∃ what, JwtTokenService.verify options' t tok ty' =
     Err (AuthenticationException "Invalid or expired token" what)).
Proof.
  intros Hu Ht tok expiry. split; [by apply JwtFacts.issued_verdict|].
  intros Hdiff. apply JwtFacts.verify_rejected.
  destruct Hdiff; [by apply jwt_secret|by apply jwt_issuer].
Qed.

(** ** A concrete token library

    It signs by writing the secret into the token: enough to evaluate the model
    and to show that the documented behaviour can be had. *)
Module PlainJwt.
Fixpoint bits (p : positive) : string :=
  match p with xH => "" | xO p => String "0" (bits p) | xI p => String "1" (bits p) end.
Fixpoint unbits (s : string) : positive :=
  match s with
  | "" => xH
  | String c s => if Ascii.eqb c "0" then xO (unbits s) else xI (unbits s)
  end.
Lemma unbits_bits p : unbits (bits p) = p.
Proof. induction p; simpl; congruence. Qed.

Definition tuple : Type := string * (string * string * string * string * string * Z * Z).
Definition pack (secret : string) (c : Created) : tuple :=
  (secret, (c_issuer c, c_subject c, c_id c, c_username c, c_type c, c_issued_at c, c_expires_at c)).

Definition check (secret issuer : string) (t : TimePoint) (tok : string) : result string Decoded :=
  match decode (unbits tok) : option tuple with
  | Some (s, (iss, sub, jti, name, type, iat, exp)) =>
      if String.eqb s secret && String.eqb iss issuer && (date iat <=? t) && (t <=? date exp)
      then Ok (read_back (Build_Created iss sub jti name type iat exp))
      else Err "token verification failed"
  | None => Err "invalid token supplied"
  end.

Global Instance plain_jwt : JwtCpp := {|
  sign := λ secret c, bits (encode (pack secret c));
  checked := check |}.

Lemma check_sign secret issuer t secret' c :
  check secret issuer t (sign secret' c) =
    if String.eqb secret' secret && String.eqb (c_issuer c) issuer &&
       (date (c_issued_at c) <=? t) && (t <=? date (c_expires_at c))
    then Ok (read_back c) else Err "token verification failed".
Proof. unfold check, sign, plain_jwt. rewrite unbits_bits, decode_encode. by destruct c. Qed.

Global Instance plain_jwt_laws : JwtCppLaws plain_jwt.
Proof.
  split; cbn [checked plain_jwt]; intros *; rewrite ?check_sign.
  - intros Ht. rewrite !String.eqb_refl. cbn [andb].
    by rewrite (proj2 (Z.leb_le _ _)), (proj2 (Z.leb_le _ _)) by lia.
  - case_match; congruence.
  - intros Hlt. rewrite (proj2 (Z.leb_gt t _)) by done. by rewrite andb_false_r.
  - intros Hne. rewrite (proj2 (String.eqb_neq (c_issuer c) _)) by congruence.
    by rewrite andb_false_r.
  - intros Hne. by rewrite (proj2 (String.eqb_neq secret' _)) by congruence.
  - cbn [sign plain_jwt]. intros H. apply (f_equal unbits) in H. rewrite !unbits_bits in H.
    apply encode_inj in H. destruct c, c'; unfold pack in H; simpl in *; congruence.
Qed.

Definition options : JwtTokenService.Options :=
  JwtTokenService.Build_Options "s3cret" "realtime-chat" 900 1209600.
End PlainJwt.

Lemma token_verdict_witness :
  JwtTokenService.verify (J:=PlainJwt.plain_jwt) PlainJwt.options 600000000000
    (JwtTokenService.issue PlainJwt.options "a1" 1000 7 "ann" TokenType.kAccess) TokenType.kAccess =
    Ok (TokenClaims.mk 7 "ann" TokenType.kAccess 0 900000000000).
Proof.
  pose proof (token_verdict (J:=PlainJwt.plain_jwt) PlainJwt.options PlainJwt.options "a1" "ann" 1000
    600000000000 7 TokenType.kAccess TokenType.kAccess) as H.
  destruct H as [H _]; [reflexivity | lia |].
  cbn zeta in H. rewrite decide_True in H by (vm_compute; congruence).
  rewrite H, decide_True by done. reflexivity.
Defined.
