(* ===== verification/Sessions.v ===== *)
(** * Sessions: refresh-token sessions and sign-in

    Models src/repositories/pg_session_repository.cpp,
    src/services/session_service.cpp and src/services/auth_service.cpp.  The
    services are written against the [TokenService] interface.  Random ids and
    salts are arguments; [utils::now()] reads the clock of the world, which
    counts microseconds. *)

From stdpp Require Import sorting.
From S2P Require Import Prelude Text Json Errors Validation TimeUtil Models Dto Database Users.
From S2P Require Import Tokens.
Open Scope string_scope.
Open Scope Z_scope.

(** [utils::now()]. *)
Definition utils_now (micros : Z) : TimePoint := micros * 1000.

Module PgSessionRepository.
(* include/rtc/repositories/session_repository.hpp:14-21, NewSession *)
Record NewSession := {
  ns_id : string; ns_user_id : Z; ns_refresh_token_hash : string;
  ns_user_agent : option string; ns_ip : option string; ns_ttl_seconds : Z }.

(* src/repositories/pg_session_repository.cpp:25-39, map_row *)
Definition map_row (kr : string * SessionRow.t) : Session.t :=
  let '(id, r) := kr in
  Session.mk id (SessionRow.user_id r) (SessionRow.refresh_token_hash r) (SessionRow.user_agent r)
    (SessionRow.ip r) (db_time (SessionRow.created_at r)) (db_time (SessionRow.last_used_at r))
    (db_time (SessionRow.expires_at r)) (db_time <$> SessionRow.revoked_at r).

(** [SET refresh_token_hash, last_used_at] and [SET revoked_at]. *)
Definition set_hash (hash : string) (now : Z) (r : SessionRow.t) : SessionRow.t :=
  SessionRow.mk (SessionRow.user_id r) hash (SessionRow.user_agent r) (SessionRow.ip r)
    (SessionRow.created_at r) now (SessionRow.expires_at r) (SessionRow.revoked_at r).
Definition set_revoked (now : Z) (r : SessionRow.t) : SessionRow.t :=
  SessionRow.mk (SessionRow.user_id r) (SessionRow.refresh_token_hash r) (SessionRow.user_agent r)
    (SessionRow.ip r) (SessionRow.created_at r) (SessionRow.last_used_at r)
    (SessionRow.expires_at r) (Some now).

(** [revoked_at IS NULL]. *)
Definition unrevoked (r : SessionRow.t) : bool := bool_decide (SessionRow.revoked_at r = None).

(* src/repositories/pg_session_repository.cpp:43-60, PgSessionRepository::create *)
Definition create (input : NewSession) : M World exn Session.t :=
  with_transaction (
    now ← clock;
    d ← on_db (λ d, d);
    let row := SessionRow.mk (ns_user_id input) (ns_refresh_token_hash input)
      (ns_user_agent input) (ns_ip input) now now (now + ns_ttl_seconds input * 1000000) None in
    if exists_row (sessions d) (ns_id input)
    then mthrow (Std "duplicate key value violates unique constraint")
    else
      foreign_key (exists_row (users d) (ns_user_id input));;
      update (λ d, set_sessions (<[ns_id input := row]> (sessions d)) d);;
      mret (map_row (ns_id input, row))).

(* src/repositories/pg_session_repository.cpp:62-70, PgSessionRepository::find_by_id *)
Definition find_by_id (id : string) : M World exn (option Session.t) :=
  with_transaction (on_db (λ d, (λ r, map_row (id, r)) <$> sessions d !! id)).

(** [ORDER BY last_used_at DESC]. *)
Definition recent_first (a b : string * SessionRow.t) : Prop :=
  SessionRow.last_used_at b.2 <= SessionRow.last_used_at a.2.
Global Instance recent_first_dec a b : Decision (recent_first a b).
Proof. unfold recent_first. apply _. Defined.

(* src/repositories/pg_session_repository.cpp:72-86, PgSessionRepository::list_active_for_user *)
Definition list_active_for_user (user_id : Z) : M World exn (list Session.t) :=
  with_transaction (
    now ← clock;
    on_db (λ d, map_row <$> merge_sort recent_first
      (filter (λ kr, (SessionRow.user_id kr.2 =? user_id) && unrevoked kr.2 &&
                     (now <? SessionRow.expires_at kr.2) = true)
         (map_to_list (sessions d))))).

(* src/repositories/pg_session_repository.cpp:88-95, PgSessionRepository::rotate *)
Definition rotate (id new_hash : string) : M World exn unit :=
  with_transaction (
    now ← clock;
    update (λ d, set_sessions (alter (set_hash new_hash now) id (sessions d)) d)).

(** [UPDATE sessions SET revoked_at = now() WHERE P AND revoked_at IS NULL], with
    the number of affected rows. *)
Definition revoke_where (P : string → SessionRow.t → bool) : M World exn Z :=
  with_transaction (
    now ← clock;
    hit ← on_db (λ d, filter (λ kr, P kr.1 kr.2 && unrevoked kr.2 = true) (map_to_list (sessions d)));
    update (λ d, set_sessions
      (map_imap (λ id r, Some (if P id r && unrevoked r then set_revoked now r else r))
         (sessions d)) d);;
    mret (Z.of_nat (length hit))).

(* src/repositories/pg_session_repository.cpp:97-106, PgSessionRepository::revoke *)
Definition revoke (id : string) (user_id : Z) : M World exn bool :=
  n ← revoke_where (λ id' r, String.eqb id' id && (SessionRow.user_id r =? user_id));
  mret (0 <? n).

(* src/repositories/pg_session_repository.cpp:108-116, PgSessionRepository::revoke_all *)
Definition revoke_all (user_id : Z) : M World exn Z :=
  revoke_where (λ _ r, SessionRow.user_id r =? user_id).

(* src/repositories/pg_session_repository.cpp:118-128, PgSessionRepository::revoke_all_except *)
Definition revoke_all_except (user_id : Z) (keep_id : string) : M World exn Z :=
  revoke_where (λ id r, (SessionRow.user_id r =? user_id) && negb (String.eqb id keep_id)).

(** [expires_at < now() OR revoked_at IS NOT NULL]. *)
Definition stale (now : Z) (r : SessionRow.t) : bool :=
  (SessionRow.expires_at r <? now) || negb (unrevoked r).

(* src/repositories/pg_session_repository.cpp:130-136, PgSessionRepository::delete_expired *)
Definition delete_expired : M World exn Z :=
  with_transaction (
    now ← clock;
    gone ← on_db (λ d, filter (λ kr, stale now kr.2 = true) (map_to_list (sessions d)));
    update (λ d, set_sessions (filter (λ kr, stale now kr.2 = false) (sessions d)) d);;
    mret (Z.of_nat (length gone))).
End PgSessionRepository.

Module SessionService.
Section Service.
Context `{Sha256} `{T : TokenService} (refresh_ttl_seconds : Z).

(* src/services/session_service.cpp:11-24, SessionService::record *)
Definition record (id : string) (user_id : Z) (refresh_token : string)
    (user_agent ip : option string) : M World exn string :=
  PgSessionRepository.create {|
    PgSessionRepository.ns_id := id;
    PgSessionRepository.ns_user_id := user_id;
    PgSessionRepository.ns_refresh_token_hash := sha256_hex refresh_token;
    PgSessionRepository.ns_user_agent := user_agent;
    PgSessionRepository.ns_ip := ip;
    PgSessionRepository.ns_ttl_seconds := refresh_ttl_seconds |};;
  mret id.

(** The part of [rotate] that reads and checks. *)
(* src/services/session_service.cpp:28-42, SessionService::rotate (checks) *)
Definition rotate_check (refresh_token session_id : string) : M World exn TokenClaims.t :=
  micros ← clock;
  claims ← lift (token_verify (utils_now micros) refresh_token TokenType.kRefresh);
  session ← PgSessionRepository.find_by_id session_id;
  match session with
  | None => mthrow (AuthenticationException "Session is invalid or expired" "")
  | Some session =>
      if negb (Session.is_active (utils_now micros) session)
      then mthrow (AuthenticationException "Session is invalid or expired" "")
      else if negb (Session.user_id session =? TokenClaims.user_id claims)
      then mthrow (AuthenticationException "Session does not match token" "")
      else if negb (String.eqb (Session.refresh_token_hash session) (sha256_hex refresh_token))
      then mthrow (AuthenticationException "Refresh token has been rotated" "")
      else mret claims
  end.

(** The part of [rotate] that issues and stores. *)
(* src/services/session_service.cpp:44-46, SessionService::rotate (issue) *)
Definition rotate_issue (jti_access jti_refresh session_id : string) (claims : TokenClaims.t)
    : M World exn TokenPair.t :=
  micros ← clock;
  let pair := issue_pair jti_access jti_refresh (utils_now micros)
                (TokenClaims.user_id claims) (TokenClaims.username claims) in
  PgSessionRepository.rotate session_id (sha256_hex (TokenPair.refresh_token pair));;
  mret pair.

(* src/services/session_service.cpp:26-47, SessionService::rotate *)
Definition rotate (jti_access jti_refresh refresh_token session_id : string)
    : M World exn TokenPair.t :=
  claims ← rotate_check refresh_token session_id;
  rotate_issue jti_access jti_refresh session_id claims.

(* src/services/session_service.cpp:49-51, SessionService::list *)
Definition list (user_id : Z) : M World exn (list Session.t) :=
  PgSessionRepository.list_active_for_user user_id.

(* src/services/session_service.cpp:53-55, SessionService::revoke *)
Definition revoke (user_id : Z) (session_id : string) : M World exn bool :=
  PgSessionRepository.revoke session_id user_id.

(* src/services/session_service.cpp:57-59, SessionService::revoke_all *)
Definition revoke_all (user_id : Z) : M World exn Z := PgSessionRepository.revoke_all user_id.

(* src/services/session_service.cpp:61-64, SessionService::revoke_others *)
Definition revoke_others (user_id : Z) (keep_session_id : string) : M World exn Z :=
  PgSessionRepository.revoke_all_except user_id keep_session_id.

(* src/services/session_service.cpp:66-68, SessionService::cleanup_expired *)
Definition cleanup_expired : M World exn Z := PgSessionRepository.delete_expired.
End Service.
End SessionService.

Module AuthService.
Section Service.
Context `{PasswordHasher, ViolationText, TokenService}.

(* src/services/auth_service.cpp:22-27, AuthService::build_response *)
Definition build_response (jti_access jti_refresh : string) (user : User.t)
    : M World exn AuthResponse.t :=
  micros ← clock;
  mret (AuthResponse.mk (UserResponse.from user)
          (issue_pair jti_access jti_refresh (utils_now micros) (User.id user) (User.username user))).

(* src/services/auth_service.cpp:10-14, AuthService::register_user *)
Definition register_user (salt jti_access jti_refresh : string) (request : RegisterRequest)
    : M World exn AuthResponse.t :=
  request ← lift (validate_and_normalize_register request);
  user ← UserService.register_user salt request;
  build_response jti_access jti_refresh user.

(* src/services/auth_service.cpp:16-20, AuthService::login *)
Definition login (jti_access jti_refresh : string) (request : LoginRequest)
    : M World exn AuthResponse.t :=
  request ← lift (validate_and_normalize_login request);
  user ← UserService.authenticate request;
  build_response jti_access jti_refresh user.
End Service.
End AuthService.
