(* ===== verification/SessionProps.v ===== *)
(** * SessionProps: what sessions guarantee

    Sequences of session calls, with the clock and the faults chosen freely
    between them: a refresh token is accepted at most once, a revoked session
    stays dead, and a rotation replaces the hash of its own session only. *)

From S2P Require Import Prelude Text Json Errors Validation TimeUtil Models Dto Database Users.
From S2P Require Import Tokens Sessions.
Open Scope string_scope.
Open Scope Z_scope.

Section Calls.
Context `{Sha256} `{T : TokenService} (ttl : Z).

(** A call of the service, or the environment: a new time and new faults. *)
Inductive SessionCall :=
  | Record_ (id : string) (user_id : Z) (refresh_token : string) (user_agent ip : option string)
  | Rotate (jti_access jti_refresh refresh_token session_id : string)
  | Revoke (user_id : Z) (session_id : string)
  | RevokeAll (user_id : Z)
  | RevokeOthers (user_id : Z) (keep_session_id : string)
  | Cleanup
  | Environment (now : Z) (faults : list (option Fault)).

Definition exec (c : SessionCall) (w : World) : World :=
  match c with
  | Record_ id u tok ua ip => (SessionService.record ttl id u tok ua ip w).2
  | Rotate a r tok sid => (SessionService.rotate a r tok sid w).2
  | Revoke u sid => (SessionService.revoke u sid w).2
  | RevokeAll u => (SessionService.revoke_all u w).2
  | RevokeOthers u sid => (SessionService.revoke_others u sid w).2
  | Cleanup => (SessionService.cleanup_expired w).2
  | Environment n f =>
      mkWorld (db w) (seqs w) n f (out w) (files w) (io_faults w)
  end.

Fixpoint run (cs : list SessionCall) (w : World) : World :=
  match cs with [] => w | c :: cs => run cs (exec c w) end.

(** The hash of the token presented, if call [c] is a successful rotation of
    [sid]. *)
Definition accepted (sid : string) (c : SessionCall) (w : World) : list string :=
  match c with
  | Rotate a r tok sid' =>
      if String.eqb sid' sid && is_ok (SessionService.rotate a r tok sid' w).1
      then [sha256_hex tok] else []
  | _ => []
  end.

(** The hash of the refresh token that call [c] mints for [sid], also when the
    call fails later. *)
Definition minted (sid : string) (c : SessionCall) (w : World) : list string :=
  match c with
  | Rotate a r tok sid' =>
      match SessionService.rotate_check tok sid' w with
      | (Ok claims, _) =>
          if String.eqb sid' sid
          then [sha256_hex (TokenPair.refresh_token
                 (issue_pair a r (utils_now (now w)) (TokenClaims.user_id claims)
                    (TokenClaims.username claims)))]
          else []
      | _ => []
      end
  | _ => []
  end.

Fixpoint along (f : SessionCall → World → list string) (cs : list SessionCall) (w : World)
    : list string :=
  match cs with [] => [] | c :: cs => (f c w ++ along f cs (exec c w))%list end.

(** The session id is used for one session only. *)
Definition id_fresh (sid : string) (cs : list SessionCall) : Prop :=
  ∀ id u tok ua ip, Record_ id u tok ua ip ∈ cs → id ≠ sid.

(** The hash stored for a session. *)
Definition stored (sid : string) (w : World) : option string :=
  SessionRow.refresh_token_hash <$> sessions (db w) !! sid.
Definition revoked (sid : string) (w : World) : Prop :=
  ∀ r, sessions (db w) !! sid = Some r → is_Some (SessionRow.revoked_at r).

(** ** One call *)

Lemma rotate_check_reader tok sid : reader (SessionService.rotate_check tok sid).
Proof.
  unfold SessionService.rotate_check, PgSessionRepository.find_by_id.
  apply reader_bind; [done|intros]. apply reader_bind; [apply reader_lift|intros].
  apply reader_bind; [apply reader_query|intros].
  repeat case_match; apply reader_ret || apply reader_throw.
Qed.

(** What the checks of a rotation establish. *)
Definition rotatable (tok sid : string) (w : World) (claims : TokenClaims.t) : Prop :=
  ∃ r, sessions (db w) !! sid = Some r ∧
    token_verify (utils_now (now w)) tok TokenType.kRefresh = Ok claims ∧
    Session.is_active (utils_now (now w)) (PgSessionRepository.map_row (sid, r)) = true ∧
    SessionRow.user_id r = TokenClaims.user_id claims ∧
    SessionRow.refresh_token_hash r = sha256_hex tok.

Lemma rotate_check_ok tok sid w claims w' :
  SessionService.rotate_check tok sid w = (Ok claims, w') → rotatable tok sid w claims.
Proof.
  unfold SessionService.rotate_check. intros R.
  apply bind_ok_inv in R as (t & w1 & Hc & R). apply clock_ok in Hc as [-> ->].
  apply bind_ok_inv in R as (c & w1 & Hc & R). apply lift_ok in Hc as [Hc ->].
  apply bind_ok_inv in R as (s & w1 & Hq & R). apply query_ok in Hq as [-> Hs].
  destruct (sessions (db w) !! sid) as [r|] eqn:Hr; [|by apply throw_ok in R].
  cbn [fmap option_fmap option_map] in R.
  destruct (Session.is_active _ _) eqn:E1 in R; [|by apply throw_ok in R]. cbn [negb] in R.
  destruct (Session.user_id _ =? _) eqn:E2 in R; [|by apply throw_ok in R]. cbn [negb] in R.
  destruct (String.eqb _ _) eqn:E3 in R; [|by apply throw_ok in R]. cbn [negb] in R.
  apply ret_ok in R as [-> _]. exists r.
  apply Z.eqb_eq in E2. apply String.eqb_eq in E3. done.
Qed.

Lemma rotate_check_pass tok sid w claims :
  faults w = [] → rotatable tok sid w claims →
  SessionService.rotate_check tok sid w = (Ok claims, w).
Proof.
  intros Hf (r & Hr & Hv & Ha & Hu & Hh). unfold SessionService.rotate_check.
  rewrite (bind_ok _ _ w (now w) w) by done.
  rewrite (bind_ok _ _ w claims w) by (unfold lift; by rewrite Hv).
  rewrite (bind_ok _ _ w (Some (PgSessionRepository.map_row (sid, r))) w).
  2:{ apply with_transaction_run; [done|]. unfold on_db, gets. by rewrite Hr. }
  rewrite Ha. cbn [negb PgSessionRepository.map_row Session.user_id Session.refresh_token_hash].
  by rewrite Hu, Hh, Z.eqb_refl, String.eqb_refl.
Qed.

(** What a rotation does to the sessions: nothing, or it passed the checks and
    the hash of its session is the minted one. *)
Lemma rotate_db a r tok sid w :
  db (SessionService.rotate a r tok sid w).2 = db w ∧
    is_ok (SessionService.rotate a r tok sid w).1 = false ∨
  ∃ claims h, rotatable tok sid w claims ∧ minted sid (Rotate a r tok sid) w = [h] ∧
    db (SessionService.rotate a r tok sid w).2 =
      set_sessions (alter (PgSessionRepository.set_hash h (now w)) sid (sessions (db w))) (db w).
Proof.
  pose proof (rotate_check_reader tok sid w) as Hr.
  unfold SessionService.rotate, minted. rewrite String.eqb_refl.
  destruct (SessionService.rotate_check tok sid w) as [[claims|e] w1] eqn:E;
    [|rewrite (bind_err _ _ _ _ _ E); left; by destruct Hr].
  rewrite (bind_ok _ _ _ _ _ E). destruct Hr as (Hd & _ & Hn & _). simpl in Hd, Hn.
  unfold SessionService.rotate_issue. rewrite (bind_ok _ _ w1 (now w1) w1) by done.
  rewrite Hn. cbn zeta. set (h := sha256_hex _). unfold PgSessionRepository.rotate.
  match goal with |- context [with_transaction ?f] => set (fn := f) end.
  destruct (with_transaction fn w1) as [[u|e] w2] eqn:Et.
  - rewrite (bind_ok _ _ _ _ _ Et). right. exists claims, h.
    split; [by eapply rotate_check_ok|]. split; [done|].
    apply with_transaction_ok in Et as (w3 & (Hd3 & _ & Hn3 & _) & Et). unfold fn in Et. run_txn Et.
    cbn [fst snd mret M_ret db set_db]. by rewrite Hd3, Hn3, Hd, Hn.
  - rewrite (bind_err _ _ _ _ _ Et). destruct (with_transaction_db fn w1) as [Hdb|(b & w3 & w4 & Hs & Hf & Hdb)];
      rewrite Et in Hdb; simpl in Hdb.
    + left. simpl. split; [congruence|done].
    + right. exists claims, h. split; [by eapply rotate_check_ok|]. split; [done|].
      destruct Hs as (Hd3 & _ & Hn3 & _). unfold fn in Hf. run_txn Hf. simpl. rewrite Hdb.
      by rewrite Hd3, Hn3, Hd, Hn.
Qed.

(** How the row of a session can change by a call. *)
Definition row_step (sid : string) (c : SessionCall) (w : World) (r r' : SessionRow.t) : Prop :=
  SessionRow.user_id r' = SessionRow.user_id r ∧
  SessionRow.expires_at r' = SessionRow.expires_at r ∧
  (is_Some (SessionRow.revoked_at r) → is_Some (SessionRow.revoked_at r')) ∧
  (SessionRow.refresh_token_hash r' = SessionRow.refresh_token_hash r ∨
   minted sid c w = [SessionRow.refresh_token_hash r']).

Lemma row_step_refl sid c w r : row_step sid c w r r.
Proof. repeat split; auto. Qed.

Lemma revoke_where_row P sid c w r' :
  sessions (db (PgSessionRepository.revoke_where P w).2) !! sid = Some r' →
  ∃ r, sessions (db w) !! sid = Some r ∧ row_step sid c w r r'.
Proof.
  unfold PgSessionRepository.revoke_where. match goal with |- context [with_transaction ?f] => set (fn := f) end.
  intros Hr. destruct (with_transaction_db fn w) as [Hd|(n & w1 & w2 & (Hd1 & _) & Hf & Hd)];
    rewrite Hd in Hr; [exists r'; split; [done|apply row_step_refl]|].
  unfold fn in Hf. run_txn Hf. cbn [sessions set_sessions] in Hr.
  rewrite map_lookup_imap, Hd1 in Hr. destruct (sessions (db w) !! sid) as [r|]; [|done].
  simpl in Hr. exists r. split; [done|]. injection Hr as <-.
  case_match; [repeat split; eauto|apply row_step_refl].
Qed.

Lemma revoke_is_where u sid w :
  (SessionService.revoke u sid w).2 =
    (PgSessionRepository.revoke_where
       (λ id' r, String.eqb id' sid && (SessionRow.user_id r =? u)) w).2.
Proof.
  unfold SessionService.revoke, PgSessionRepository.revoke, mbind, M_bind.
  by destruct (PgSessionRepository.revoke_where _ w) as [[] ?].
Qed.

Lemma record_row sid id u tok ua ip w r' :
  id ≠ sid →
  sessions (db (SessionService.record ttl id u tok ua ip w).2) !! sid = Some r' →
  sessions (db w) !! sid = Some r'.
Proof.
  intros Hne. unfold SessionService.record. set (m := PgSessionRepository.create _).
  assert ((m ≫= λ _, mret id) w = ((λ _, id) <$> (m w).1, (m w).2)) as ->.
  { unfold mbind, M_bind. by destruct (m w) as [[] ?]. }
  cbn [snd]. subst m. unfold PgSessionRepository.create.
  match goal with |- context [with_transaction ?f] => set (fn := f) end.
  destruct (with_transaction_db fn w) as [Hd|(n & w1 & w2 & (Hd1 & _) & Hf & Hd)]; rewrite Hd; [done|].
  unfold fn in Hf. run_txn Hf. cbn [sessions set_sessions]. rewrite Hd1.
  cbn [PgSessionRepository.ns_id]. by rewrite lookup_insert_ne.
Qed.

Lemma cleanup_row sid w r' :
  sessions (db (SessionService.cleanup_expired w).2) !! sid = Some r' →
  sessions (db w) !! sid = Some r'.
Proof.
  unfold SessionService.cleanup_expired, PgSessionRepository.delete_expired.
  match goal with |- context [with_transaction ?f] => set (fn := f) end.
  destruct (with_transaction_db fn w) as [Hd|(n & w1 & w2 & (Hd1 & _) & Hf & Hd)]; rewrite Hd; [done|].
  unfold fn in Hf. run_txn Hf. cbn [sessions set_sessions]. rewrite Hd1.
  rewrite map_lookup_filter_Some. tauto.
Qed.

Lemma exec_row sid c w r' :
  id_fresh sid [c] → sessions (db (exec c w)) !! sid = Some r' →
  ∃ r, sessions (db w) !! sid = Some r ∧ row_step sid c w r r'.
Proof.
  intros Hid. destruct c as [id u tok ua ip|a j tok sid'|u sid'|u|u sid'| |n f]; cbn [exec].
  - intros Hr. apply record_row in Hr; [|by eapply Hid, list_elem_of_here]. eauto using row_step_refl.
  - destruct (rotate_db a j tok sid' w) as [[-> _]|(claims & h & Hrot & Hm & ->)];
      [eauto using row_step_refl|].
    cbn [sessions set_sessions]. rewrite lookup_alter.
    case_decide as E; [subst sid'|eauto using row_step_refl].
    destruct (sessions (db w) !! sid) as [r|]; [|done]. simpl. intros [= <-].
    exists r. split; [done|]. repeat split; auto.
  - rewrite revoke_is_where. apply revoke_where_row.
  - apply revoke_where_row.
  - apply revoke_where_row.
  - intros Hr. apply cleanup_row in Hr. eauto using row_step_refl.
  - eauto using row_step_refl.
Qed.

(** A successful rotation was made with the token whose hash is stored, and
    stores the hash of the token it mints. *)
Lemma accepted_row sid c w h :
  h ∈ accepted sid c w →
  accepted sid c w = [h] ∧ stored sid w = Some h ∧
  ∃ m, minted sid c w = [m] ∧ stored sid (exec c w) = Some m.
Proof.
  destruct c as [|a j tok sid'| | | | |]; cbn [accepted]; try set_solver.
  destruct (String.eqb sid' sid) eqn:E; [apply String.eqb_eq in E as ->|set_solver].
  cbn [andb]. destruct (rotate_db a j tok sid w) as [[_ ->]|(claims & m & Hrot & Hm & Hd)]; [set_solver|].
  case_match; [|set_solver]. intros Hh%list_elem_of_singleton. subst h.
  destruct Hrot as (r & Hr & _ & _ & _ & Hh). unfold stored. cbn [exec]. rewrite Hd.
  cbn [sessions set_sessions]. rewrite lookup_alter_eq, Hr. simpl. split_and!; [done|by rewrite Hh|].
  by exists m.
Qed.

(** ** Sequences of calls *)

Lemma id_fresh_cons sid c cs : id_fresh sid (c :: cs) → id_fresh sid [c] ∧ id_fresh sid cs.
Proof. intros Hf. split; intros id u tok ua ip Hin; apply (Hf id u tok ua ip); set_solver. Qed.

Lemma stored_sublist sid c w :
  id_fresh sid [c] →
  option_list (stored sid (exec c w)) `sublist_of` (option_list (stored sid w) ++ minted sid c w)%list.
Proof.
  intros Hid. unfold stored at 1. destruct (sessions (db (exec c w)) !! sid) as [r'|] eqn:E; simpl;
    [|apply sublist_nil_l].
  apply exec_row in E as (r & Hr & _ & _ & _ & Hh); [|done]. unfold stored. rewrite Hr. simpl.
  destruct Hh as [->| ->].
  - apply sublist_skip, sublist_nil_l.
  - by apply sublist_inserts_l with (k := [_]).
Qed.

Lemma along_accepted sid cs : ∀ w (used : list string),
  id_fresh sid cs →
  NoDup (option_list (stored sid w) ++ along (minted sid) cs w)%list →
  (∀ h, h ∈ used → h ∉ (option_list (stored sid w) ++ along (minted sid) cs w)%list) →
  NoDup (along (accepted sid) cs w) ∧ (∀ h, h ∈ used → h ∉ along (accepted sid) cs w).
Proof.
  induction cs as [|c cs IH]; intros w used Hid Hnd Hused; simpl in *.
  { split; [constructor|set_solver]. }
  apply id_fresh_cons in Hid as [Hc Hcs]. rewrite (assoc_L (++)) in Hnd, Hused.
  set (before := (option_list (stored sid w) ++ minted sid c w)%list) in *.
  set (rest := along (minted sid) cs (exec c w)) in *.
  assert (option_list (stored sid (exec c w)) ++ rest `sublist_of` before ++ rest)%list as Hsub.
  { apply sublist_app; [by apply stored_sublist|done]. }
  assert (NoDup (option_list (stored sid (exec c w)) ++ rest)%list) as Hnd'
    by (by eapply sublist_NoDup).
  assert (∀ h, h ∉ (before ++ rest)%list →
               h ∉ (option_list (stored sid (exec c w)) ++ rest)%list) as Hnin.
  { intros h Hn Hin. apply Hn. by eapply elem_of_sublist. }
  destruct (accepted sid c w) as [|h l] eqn:Ha; simpl.
  { apply IH; auto. }
  destruct (accepted_row sid c w h) as (Ha' & Hst & m & Hm & Hst'); [rewrite Ha; apply list_elem_of_here|].
  rewrite Ha in Ha'. injection Ha' as ->. simpl.
  destruct (IH (exec c w) (h :: used) Hcs Hnd') as [IH1 IH2].
  { intros h' [->|Hin]%elem_of_cons; [|by apply Hnin, Hused].
    rewrite Hst'. subst before. rewrite Hst, Hm in Hnd. simpl in *.
    by apply NoDup_cons in Hnd as [? _]. }
  split.
  - constructor; [apply IH2, list_elem_of_here|done].
  - intros h' Hin [->|Hin']%elem_of_cons.
    + apply (Hused h Hin). subst before. rewrite Hst. simpl. apply list_elem_of_here.
    + by apply (IH2 h'); [apply list_elem_of_further|].
Qed.
End Calls.

Section Theorems.
Context `{Sha256} `{T : TokenService} (ttl : Z).

Lemma revoked_exec sid c w :
  id_fresh sid [c] → revoked sid w → revoked sid (exec ttl c w).
Proof.
  intros Hid Hrev r' Hr'. destruct (exec_row ttl sid c w r' Hid Hr') as (r & Hr & _ & _ & Hk & _).
  apply Hk, Hrev, Hr.
Qed.

Lemma revoked_run sid cs : ∀ w, id_fresh sid cs → revoked sid w → revoked sid (run ttl cs w).
Proof.
  induction cs as [|c cs IH]; intros w Hid Hrev; simpl; [done|].
  apply id_fresh_cons in Hid as [Hc Hcs]. by apply IH, revoked_exec.
Qed.

Lemma revoked_no_rotate a j tok sid w :
  revoked sid w → is_ok (SessionService.rotate a j tok sid w).1 = false.
Proof.
  intros Hrev. destruct (rotate_db a j tok sid w) as [[_ ->]|(claims & h & Hrot & _)]; [done|].
  destruct Hrot as (r & Hr & _ & Hact & _). destruct (Hrev r Hr) as [t Ht].
  unfold Session.is_active, Session.is_revoked in Hact. simpl in Hact. rewrite Ht in Hact.
  done.
Qed.

Lemma rotate_issue_run a j sid claims w :
  faults w = [] →
  let pair := issue_pair a j (utils_now (now w)) (TokenClaims.user_id claims)
                (TokenClaims.username claims) in
  let h := sha256_hex (TokenPair.refresh_token pair) in
  SessionService.rotate_issue a j sid claims w =
    (Ok pair, set_db (set_sessions (alter (PgSessionRepository.set_hash h (now w)) sid
                                      (sessions (db w))) (db w)) w).
Proof.
  intros Hf pair h. unfold SessionService.rotate_issue.
  rewrite (bind_ok _ _ w (now w) w) by done. fold pair. cbn zeta.
  erewrite bind_ok; [|apply with_transaction_run; [done|reflexivity]]. done.
Qed.

Lemma revoke_where_ok P w n w' :
  PgSessionRepository.revoke_where P w = (Ok n, w') →
  (∀ sid r, sessions (db w) !! sid = Some r → P sid r = true → revoked sid w') ∧
  (∀ sid r, sessions (db w) !! sid = Some r → P sid r = false → sessions (db w') !! sid = Some r) ∧
  (∀ sid, sessions (db w) !! sid = None → sessions (db w') !! sid = None).
Proof.
  unfold PgSessionRepository.revoke_where. intros R.
  apply with_transaction_ok in R as (w1 & (Hd & _) & R). run_txn R. cbn [sessions set_sessions db].
  split_and!.
  - intros sid r Hr HP r'.
    cbn [db set_db sessions set_sessions]. rewrite map_lookup_imap, Hd, Hr. simpl. rewrite HP.
    intros [= <-].
    unfold PgSessionRepository.unrevoked.
    destruct (SessionRow.revoked_at r) eqn:E; simpl; rewrite ?E; eauto.
  - intros sid r Hr HP. rewrite map_lookup_imap, Hd, Hr. simpl. by rewrite HP.
  - intros sid Hr. rewrite map_lookup_imap, Hd, Hr. done.
Qed.
End Theorems.

(** C5. Replay protection: in any sequence of session calls, under any clock and any
    injected faults, no refresh token is accepted twice for a session, provided
    the hashes of the tokens minted along the way and of the initial token are
    distinct and the session id is not given out again. *)
Theorem refresh_token_single_use `{Sha256} `{T : TokenService} (ttl : Z) (sid : string)
    (cs : list SessionCall) (w : World) :
  id_fresh sid cs →
  NoDup (option_list (stored sid w) ++ along ttl (minted sid) cs w)%list →
  NoDup (along ttl (accepted sid) cs w).
Proof.
  intros Hid Hnd. apply (along_accepted ttl sid cs w []); [done..|].
  intros h Hh. by apply not_elem_of_nil in Hh.
Qed.

(** Signing out everywhere: after [revoke_all] none of the user's sessions can be
    rotated again, whatever calls follow; the sessions of other users are
    untouched. *)
Theorem revoke_all_final `{Sha256} `{T : TokenService} (ttl u n : Z) (w w' : World) :
  SessionService.revoke_all u w = (Ok n, w') →
  ∀ sid r, sessions (db w) !! sid = Some r →
  if decide (SessionRow.user_id r = u)
  then ∀ cs a j tok, id_fresh sid cs →
       is_ok (SessionService.rotate a j tok sid (run ttl cs w')).1 = false
  else sessions (db w') !! sid = Some r.
Proof.
  intros R sid r Hr. apply revoke_where_ok in R as (Hrev & Hkeep & _). case_decide as E.
  - intros cs a j tok Hid. apply revoked_no_rotate, revoked_run; [done|].
    apply (Hrev sid r Hr). by apply Z.eqb_eq.
  - apply Hkeep; [done|]. by apply Z.eqb_neq.
Qed.

(** The two halves of a rotation are separate transactions: two requests that
    present the same valid token and both pass the checks before either stores
    its new hash are both answered with a fresh pair, and the pair of the first
    one is dead on arrival. *)
Theorem rotation_race `{Sha256} `{T : TokenService} (tok sid a1 r1 a2 r2 : string) (w : World)
    (claims : TokenClaims.t) :
  faults w = [] → rotatable tok sid w claims →
  ∃ p1 w1 p2 w2,
    SessionService.rotate_check tok sid w = (Ok claims, w) ∧
    SessionService.rotate_issue a1 r1 sid claims w = (Ok p1, w1) ∧
    SessionService.rotate_issue a2 r2 sid claims w1 = (Ok p2, w2) ∧
    stored sid w2 = Some (sha256_hex (TokenPair.refresh_token p2)).
Proof.
  intros Hf Hrot. pose proof (rotate_check_pass tok sid w claims Hf Hrot) as Hc.
  destruct Hrot as (r & Hr & _). do 4 eexists. split; [exact Hc|].
  split; [by apply rotate_issue_run|]. split; [by apply rotate_issue_run|].
  unfold stored. cbn. by rewrite !lookup_alter_eq, Hr.
Qed.

(** ** A session to evaluate *)
Module SessionSample.
Definition sha : Sha256 := λ s, s.
Definition tokens : TokenService := JwtFacts.jwt_token_service (H:=PlainJwt.plain_jwt) PlainJwt.options.
Definition first : TokenPair.t := issue_pair (TokenService:=tokens) "a0" "r0" 0 7 "ann".
Definition start : World :=
  mkWorld (set_sessions {["s" := SessionRow.mk 7 (TokenPair.refresh_token first) None None 0 0
                           1209600000000 None]} empty_db)
    (λ _, 1) 0 [] [] ∅ [].
Definition second : TokenPair.t := issue_pair (TokenService:=tokens) "a1" "r1" 60000000000 7 "ann".
Definition replay : list SessionCall :=
  [Environment 60000000 []; Rotate "a1" "r1" (TokenPair.refresh_token first) "s";
   Rotate "a2" "r2" (TokenPair.refresh_token first) "s";
   Rotate "a3" "r3" (TokenPair.refresh_token second) "s"].
Lemma id_fresh_replay : id_fresh "s" replay.
Proof.
  intros ????? Hin. unfold replay in Hin. rewrite !elem_of_cons in Hin.
  repeat (destruct Hin as [Hin|Hin]; [discriminate|]). by apply not_elem_of_nil in Hin.
Qed.
End SessionSample.

Lemma refresh_token_single_use_witness :
  along (H:=SessionSample.sha) (T:=SessionSample.tokens) 1209600
    (accepted (H:=SessionSample.sha) (T:=SessionSample.tokens) "s")
    SessionSample.replay SessionSample.start =
    [TokenPair.refresh_token SessionSample.first; TokenPair.refresh_token SessionSample.second] ∧
  NoDup (along (H:=SessionSample.sha) (T:=SessionSample.tokens) 1209600
    (accepted (H:=SessionSample.sha) (T:=SessionSample.tokens) "s")
    SessionSample.replay SessionSample.start).
Proof.
  split; [vm_compute; reflexivity|].
  apply (refresh_token_single_use (H:=SessionSample.sha) (T:=SessionSample.tokens) 1209600 "s").
  - apply SessionSample.id_fresh_replay.
  - apply (bool_decide_unpack _). vm_compute. exact I.
Defined.

Lemma revoke_all_final_witness :
  ∃ w', SessionService.revoke_all 7 SessionSample.start = (Ok 1, w') ∧
  is_ok (SessionService.rotate (H:=SessionSample.sha) (T:=SessionSample.tokens) "a1" "r1"
    (TokenPair.refresh_token SessionSample.first) "s" w').1 = false.
Proof.
  destruct (SessionService.revoke_all 7 SessionSample.start) as [[n|e] w'] eqn:E;
    [|vm_compute in E; discriminate].
  assert (n = 1) as -> by (vm_compute in E; congruence).
  exists w'. split; [reflexivity|].
  pose proof (revoke_all_final (H:=SessionSample.sha) (T:=SessionSample.tokens) 1209600 7 1
    SessionSample.start w' E "s" (SessionRow.mk 7 (TokenPair.refresh_token SessionSample.first) None
      None 0 0 1209600000000 None)) as F.
  rewrite decide_True in F by reflexivity.
  apply (F (lookup_singleton_eq _ _) []). intros ????? Hin. by apply not_elem_of_nil in Hin.
Defined.

Lemma rotation_race_witness :
  ∃ p1 w1 p2 w2,
    SessionService.rotate_issue (H:=SessionSample.sha) (T:=SessionSample.tokens) "a1" "r1" "s"
      (TokenClaims.mk 7 "ann" TokenType.kRefresh 0 1209600000000000) SessionSample.start =
      (Ok p1, w1) ∧
    SessionService.rotate_issue (H:=SessionSample.sha) (T:=SessionSample.tokens) "a2" "r2" "s"
      (TokenClaims.mk 7 "ann" TokenType.kRefresh 0 1209600000000000) w1 = (Ok p2, w2).
Proof.
  destruct (rotation_race (H:=SessionSample.sha) (T:=SessionSample.tokens)
    (TokenPair.refresh_token SessionSample.first) "s" "a1" "r1" "a2" "r2" SessionSample.start
    (TokenClaims.mk 7 "ann" TokenType.kRefresh 0 1209600000000000))
    as (p1 & w1 & p2 & w2 & _ & H1 & H2 & _).
  - reflexivity.
  - exists (SessionRow.mk 7 (TokenPair.refresh_token SessionSample.first) None None 0 0
      1209600000000 None). split_and!; vm_compute; reflexivity.
  - exists p1, w1, p2, w2. split; assumption.
Defined.
