(* ===== verification/UserProps.v ===== *)
(** * UserProps: what accounts guarantee

    Usernames and e-mail addresses are unique up to letter case and never mix,
    so that an identifier at sign-in names at most one account; what was
    registered can sign in. *)

From S2P Require Import Prelude Text Json Errors Regex Validation TimeUtil Models Dto Database.
From S2P Require Import Samples Users Tokens Sessions.
Open Scope string_scope.
Open Scope Z_scope.

(** ** Usernames and addresses do not mix *)

Definition not_at (c : ascii) : bool := negb (Ascii.eqb c "@").
Definition no_at (s : string) : bool := all_of not_at s.

Lemma no_at_LOWER s : no_at (LOWER s) = no_at s.
Proof.
  unfold no_at, LOWER. induction s as [|c s IH]; simpl; [done|]. rewrite IH. f_equal.
  apply Bool.eqb_prop. revert c. apply forall_bytes_spec. by vm_compute.
Qed.

Lemma username_no_at u : validate_username u = Ok () → no_at u = true.
Proof.
  intros H. apply validate_username_ok in H as (_ & H & _). revert H. apply all_of_impl.
  intros c. assert (negb (is_valid_username_char c) || not_at c = true) as E.
  { revert c. apply forall_bytes_spec. by vm_compute. }
  intros Hc. by rewrite Hc in E.
Qed.

Lemma email_at e : validate_email e = Ok () → no_at e = false.
Proof.
  unfold validate_email. destruct (_ || _); [done|]. destruct (regex_match _ _) eqn:E; [|done].
  intros _. apply regex_match_spec in E. unfold kEmailPattern in E.
  apply matches_seq in E as (l & s & -> & _ & (a & t & -> & Ha & _)%matches_seq).
  apply matches_lit in Ha as ->. unfold no_at. rewrite !all_of_app. simpl. by rewrite andb_false_r.
Qed.

(** ** The invariant of the users table *)

Definition accounts_ok : assertion := λ d s,
  (∀ i j r r', users d !! i = Some r → users d !! j = Some r' →
     LOWER (UserRow.username r) = LOWER (UserRow.username r') → i = j) ∧
  (∀ i j r r', users d !! i = Some r → users d !! j = Some r' →
     LOWER (UserRow.email r) = LOWER (UserRow.email r') → i = j) ∧
  (∀ i r, users d !! i = Some r →
     no_at (UserRow.username r) = true ∧ no_at (UserRow.email r) = false) ∧
  (∀ i r, users d !! i = Some r → i < s SUsers).

Lemma accounts_mono d s s' : accounts_ok d s → (∀ q, s q <= s' q) → accounts_ok d s'.
Proof.
  intros (?&?&?&Hs) Hle. split_and!; try done. intros i r Hr. specialize (Hs i r Hr).
  specialize (Hle SUsers). lia.
Qed.

(** Sign-in names at most one account. *)
Lemma identifier_unique d s ident i j r r' :
  accounts_ok d s → users d !! i = Some r → users d !! j = Some r' →
  let P r := PgUserRepository.has_username ident r || PgUserRepository.has_email ident r in
  P r = true → P r' = true → i = j.
Proof.
  intros (Hun & Hem & Hat & _) Hi Hj. cbn zeta.
  unfold PgUserRepository.has_username, PgUserRepository.has_email.
  rewrite !orb_true_iff, !String.eqb_eq. destruct (Hat i r Hi) as [Hu1 He1], (Hat j r' Hj) as [Hu2 He2].
  assert (∀ a b, LOWER a = LOWER b → no_at a = no_at b) as Hlow.
  { intros a b Hab. by rewrite <- no_at_LOWER, Hab, no_at_LOWER. }
  intros [H1|H1] [H2|H2].
  - apply (Hun i j r r'); congruence.
  - rewrite <- H2 in H1. apply Hlow in H1. congruence.
  - rewrite <- H2 in H1. apply Hlow in H1. congruence.
  - apply (Hem i j r r'); congruence.
Qed.

Section Accounts.
Context `{ViolationText}.

(** What a successful insert did. *)
Lemma user_create_ok input w u w' :
  PgUserRepository.create input w = (Ok u, w') →
  ∃ id row, u = PgUserRepository.map_row (id, row) ∧ id = seqs w SUsers ∧
    any_row (PgUserRepository.has_username (PgUserRepository.nu_username input)) (users (db w)) = false ∧
    any_row (PgUserRepository.has_email (PgUserRepository.nu_email input)) (users (db w)) = false ∧
    UserRow.username row = PgUserRepository.nu_username input ∧
    UserRow.email row = PgUserRepository.nu_email input ∧
    UserRow.password_hash row = PgUserRepository.nu_password_hash input ∧
    db w' = set_users (<[id := row]> (users (db w))) (db w) ∧
    seqs w' = (λ q, if decide (q = SUsers) then id + 1 else seqs w q).
Proof.
  intros R. apply with_transaction_ok in R as (w1 & (Hd & Hq & Hn & _) & R). run_txn R.
  rewrite Hd, Hq in *. do 2 eexists. repeat split; done.
Qed.

Lemma accounts_insert d s id row :
  accounts_ok d s → s SUsers <= id →
  any_row (PgUserRepository.has_username (UserRow.username row)) (users d) = false →
  any_row (PgUserRepository.has_email (UserRow.email row)) (users d) = false →
  no_at (UserRow.username row) = true → no_at (UserRow.email row) = false →
  accounts_ok (set_users (<[id := row]> (users d)) d) (λ q, if decide (q = SUsers) then id + 1 else s q).
Proof.
  intros (Hun & Hem & Hat & Hs) Hid Hnu Hne Hu He.
  rewrite any_row_false in Hnu, Hne.
  unfold PgUserRepository.has_username in Hnu. unfold PgUserRepository.has_email in Hne.
  setoid_rewrite String.eqb_neq in Hnu. setoid_rewrite String.eqb_neq in Hne.
  unfold accounts_ok. cbn [users set_users]. split_and!; intros i; intros *;
    rewrite ?lookup_insert_Some.
  - intros [[<- <-]|[? Hi]] [[<- <-]|[? Hj]]; eauto; intros Heq.
    + by destruct (Hnu _ _ Hj).
    + by destruct (Hnu _ _ Hi).
  - intros [[<- <-]|[? Hi]] [[<- <-]|[? Hj]]; eauto; intros Heq.
    + by destruct (Hne _ _ Hj).
    + by destruct (Hne _ _ Hi).
  - intros [[<- <-]|[? Hi]]; eauto.
  - rewrite decide_True by done. intros [[<- <-]|[? Hi]]; [lia|]. specialize (Hs _ _ Hi). lia.
Qed.
End Accounts.

(** A row that keeps its names. *)
Lemma accounts_replace d s id r row' :
  accounts_ok d s → users d !! id = Some r →
  UserRow.username row' = UserRow.username r → UserRow.email row' = UserRow.email r →
  accounts_ok (set_users (<[id := row']> (users d)) d) s.
Proof.
  intros (Hun & Hem & Hat & Hs) Hr Eu Ee. unfold accounts_ok.
  cbn [users set_users]. split_and!; intros i; intros *; rewrite ?lookup_insert_Some.
  - intros [[<- <-]|[? Hi]] [[<- <-]|[? Hj]]; rewrite ?Eu; eauto.
  - intros [[<- <-]|[? Hi]] [[<- <-]|[? Hj]]; rewrite ?Ee; eauto.
  - intros [[<- <-]|[? Hi]]; rewrite ?Eu, ?Ee; eauto.
  - intros [[<- <-]|[? Hi]]; eauto.
Qed.

Lemma validated_names req req' :
  validate_and_normalize_register req = Ok req' →
  no_at (reg_username req') = true ∧ no_at (reg_email req') = false ∧
  reg_username req' = trim (reg_username req) ∧ reg_email req' = to_lower (trim (reg_email req)) ∧
  reg_password req' = reg_password req ∧ reg_password req ≠ "".
Proof.
  unfold validate_and_normalize_register. simpl.
  destruct (validate_username _) as [[]|] eqn:Hu; [|done]. simpl.
  destruct (validate_email _) as [[]|] eqn:He; [|done]. simpl.
  destruct (validate_password _) as [[]|] eqn:Hp; [|done]. simpl.
  intros [= <-]. simpl. apply username_no_at in Hu. apply email_at in He.
  apply validate_password_ok in Hp. split_and!; try done. intros E. rewrite E in Hp.
  change (ssize "") with 0 in Hp. lia.
Qed.

Section Calls.
Context `{PasswordHasher, ViolationText, T : TokenService}.

Inductive AccountCall :=
  | Register (salt jti_access jti_refresh : string) (request : RegisterRequest)
  | Login (jti_access jti_refresh : string) (request : LoginRequest)
  | GetById (id : Z)
  | UpdateProfile (id : Z) (request : UpdateProfileRequest).

Definition account_call (c : AccountCall) : M World exn unit :=
  match c with
  | Register salt ja jr req => AuthService.register_user salt ja jr req;; mret ()
  | Login ja jr req => AuthService.login ja jr req;; mret ()
  | GetById id => UserService.get_by_id id;; mret ()
  | UpdateProfile id req => UserService.update_profile id req;; mret ()
  end.

Lemma hoare_discard {A} (I : assertion) (m : M World exn A) :
  hoare I m (λ _, I) I → hoare I (m;; mret ()) (λ _, I) I.
Proof. intros Hm. apply (hoare_bind _ (λ _, I)); [done|]. intros ?. by apply hoare_ret. Qed.

Lemma build_response_keeps (I : assertion) ja jr u :
  hoare I (AuthService.build_response ja jr u) (λ _, I) I.
Proof. intros w HI. done. Qed.

Lemma register_keeps salt ja jr req :
  hoare accounts_ok (AuthService.register_user salt ja jr req) (λ _, accounts_ok) accounts_ok.
Proof.
  unfold AuthService.register_user.
  apply (hoare_bind _ (λ req' d s, accounts_ok d s ∧ no_at (reg_username req') = true ∧
                                   no_at (reg_email req') = false)).
  { apply hoare_lift; [done|]. intros req' d s Hv Hok.
    apply validated_names in Hv as (? & ? & _). done. }
  intros req'. apply (hoare_bind _ (λ _, accounts_ok)); [|intros; apply build_response_keeps].
  apply hoare_txn.
  - solve_grows.
  - intros d s s' [Hok _]. by apply accounts_mono.
  - intros w u w' (Hok & Hu & He) R. run_txn R.
    split; apply accounts_insert; done.
Qed.

Lemma update_profile_keeps id req :
  hoare accounts_ok (UserService.update_profile id req) (λ _, accounts_ok) accounts_ok.
Proof.
  unfold UserService.update_profile. apply (hoare_bind _ (λ _, accounts_ok)); [by apply hoare_lift|].
  intros req'. apply hoare_txn; [solve_grows|intros d s s' Hok; by apply accounts_mono|].
  intros w u w' Hok R. run_txn R; [done|]. split; by eapply accounts_replace.
Qed.

Lemma account_call_keeps c :
  hoare accounts_ok (account_call c) (λ _, accounts_ok) accounts_ok.
Proof.
  destruct c; apply hoare_discard.
  - apply register_keeps.
  - apply (hoare_bind _ (λ _, accounts_ok)); [by apply hoare_lift|]. intros req.
    apply (hoare_bind _ (λ _, accounts_ok)); [|intros; apply build_response_keeps].
    apply (hoare_bind _ (λ _, accounts_ok)); [eapply hoare_conseq; [by apply hoare_query|entails..]|].
    intros [u|]; [|by apply hoare_throw]. case_match; [by apply hoare_ret|by apply hoare_throw].
  - apply (hoare_bind _ (λ _, accounts_ok)); [eapply hoare_conseq; [by apply hoare_query|entails..]|].
    intros [u|]; [by apply hoare_ret|by apply hoare_throw].
  - apply update_profile_keeps.
Qed.
End Calls.

(** Account calls in sequence, each under a time and faults of its own. *)
Fixpoint run_accounts `{PasswordHasher, ViolationText, T : TokenService}
    (cs : list (AccountCall * Z * list (option Fault))) (w : World) : World :=
  match cs with
  | [] => w
  | (c, t, f) :: cs =>
      run_accounts cs
        (account_call c (mkWorld (db w) (seqs w) t f (out w) (files w) (io_faults w))).2
  end.

(** Identity: whatever sequence of registrations, sign-ins and profile updates
    runs on an empty users table, under any faults, no two accounts share a
    username or an e-mail address up to letter case, and no account's username
    is another one's address: an identifier names at most one account. *)
Theorem identifiers_name_one_account `{PasswordHasher, ViolationText, T : TokenService} cs w
    (ident : string) (i j : Z) (r r' : UserRow.t) :
  users (db w) = ∅ →
  users (db (run_accounts cs w)) !! i = Some r →
  users (db (run_accounts cs w)) !! j = Some r' →
  PgUserRepository.has_username ident r || PgUserRepository.has_email ident r = true →
  PgUserRepository.has_username ident r' || PgUserRepository.has_email ident r' = true →
  i = j.
Proof.
  intros Hempty. assert (accounts_ok (db w) (seqs w)) as Hok.
  { unfold accounts_ok. rewrite Hempty. split_and!; intros *; rewrite lookup_empty; done. }
  clear Hempty. revert w Hok. induction cs as [|[[c t] f] cs IH]; intros w Hok; simpl.
  - intros Hi Hj. by apply (identifier_unique (db w) (seqs w)).
  - apply IH. set (w1 := mkWorld _ _ _ _ _ _ _). pose proof (account_call_keeps c w1 Hok) as Hc.
    by destruct (account_call c w1) as [[] w2].
Qed.

Section SignIn.
Context `{PasswordHasher, ViolationText, T : TokenService}.

Lemma find_by_identifier_run d s ident w id row :
  d = db w → s = seqs w → faults w = [] → accounts_ok d s → users d !! id = Some row →
  PgUserRepository.has_username ident row || PgUserRepository.has_email ident row = true →
  PgUserRepository.find_by_identifier ident w = (Ok (Some (PgUserRepository.map_row (id, row))), w).
Proof.
  intros -> -> Hf Hok Hrow Hp. apply with_transaction_run; [done|]. unfold on_db, gets.
  rewrite (one_row_unique _ _ id row); [done| |done|done].
  intros k1 k2 r1 r2 H1 H2. by apply (identifier_unique _ _ ident k1 k2 r1 r2 Hok).
Qed.

Lemma login_run ja jr ident pw w id row :
  faults w = [] → accounts_ok (db w) (seqs w) → users (db w) !! id = Some row →
  LOWER (trim ident) = LOWER (UserRow.username row) ∨ LOWER (trim ident) = LOWER (UserRow.email row) →
  trim ident ≠ "" → pw ≠ "" →
  AuthService.login ja jr {| login_identifier := ident; login_password := pw |} w =
    if verify pw (UserRow.password_hash row)
    then (Ok (AuthResponse.mk (UserResponse.from (PgUserRepository.map_row (id, row)))
                (issue_pair ja jr (utils_now (now w)) id (UserRow.username row))), w)
    else (Err (AuthenticationException "Invalid credentials" ""), w).
Proof.
  intros Hf Hok Hrow Hid Hne Hpw. unfold AuthService.login, validate_and_normalize_login.
  cbn [login_identifier login_password].
  rewrite (proj2 (String.eqb_neq _ _) Hne), (proj2 (String.eqb_neq _ _) Hpw).
  erewrite bind_ok by reflexivity. unfold UserService.authenticate. cbn [login_identifier login_password].
  assert (PgUserRepository.find_by_identifier (trim ident) w =
    (Ok (Some (PgUserRepository.map_row (id, row))), w)) as Hfind.
  { apply (find_by_identifier_run (db w) (seqs w)); try done.
    unfold PgUserRepository.has_username, PgUserRepository.has_email.
    rewrite orb_true_iff, !String.eqb_eq. destruct Hid; auto. }
  destruct (verify pw (UserRow.password_hash row)) eqn:Hv.
  - erewrite bind_ok; [|erewrite bind_ok by exact Hfind; cbn [PgUserRepository.map_row User.password_hash];
      rewrite Hv; reflexivity]. done.
  - erewrite bind_err; [|erewrite bind_ok by exact Hfind; cbn [PgUserRepository.map_row User.password_hash];
      rewrite Hv; reflexivity]. done.
Qed.

Lemma register_ok salt ja jr req resp w w' :
  AuthService.register_user salt ja jr req w = (Ok resp, w') →
  accounts_ok (db w) (seqs w) →
  accounts_ok (db w') (seqs w') ∧
  ∃ id row, users (db w') !! id = Some row ∧
    AuthResponse.user resp = UserResponse.from (PgUserRepository.map_row (id, row)) ∧
    UserRow.username row = trim (reg_username req) ∧
    UserRow.email row = to_lower (trim (reg_email req)) ∧
    UserRow.password_hash row = hash salt (reg_password req) ∧
    no_at (UserRow.username row) = true ∧ reg_password req ≠ "".
Proof.
  intros R Hok. pose proof (register_keeps salt ja jr req w Hok) as Hk. rewrite R in Hk.
  split; [done|]. unfold AuthService.register_user in R.
  apply bind_ok_inv in R as (req' & w1 & Hl & R). apply lift_ok in Hl as [Hv ->].
  apply validated_names in Hv as (Hu & He & Eu & Ee & Ep & Hp).
  apply bind_ok_inv in R as (u & w2 & Hc & R).
  apply user_create_ok in Hc as (id & row & -> & _ & _ & _ & Ru & Re & Rp & Hd & _).
  unfold AuthService.build_response in R. apply bind_ok_inv in R as (t & w3 & Ht & R).
  apply clock_ok in Ht as [-> ->]. apply ret_ok in R as [-> ->].
  cbn [PgUserRepository.nu_username PgUserRepository.nu_email PgUserRepository.nu_password_hash] in *.
  exists id, row. rewrite Hd. cbn [users set_users]. rewrite lookup_insert_eq.
  split_and!; done || congruence.
Qed.

Lemma transform_nil f s : transform f s = "" → s = "".
Proof. by destruct s. Qed.

(** Neither name of a registration is empty. *)
Lemma register_names salt ja jr req resp w w' :
  AuthService.register_user salt ja jr req w = (Ok resp, w') →
  trim (reg_username req) ≠ "" ∧ to_lower (trim (reg_email req)) ≠ "".
Proof.
  unfold AuthService.register_user. intros R. apply bind_ok_inv in R as (req' & w1 & Hl & _).
  apply lift_ok in Hl as [Hv _]. unfold validate_and_normalize_register in Hv. simpl in Hv.
  destruct (validate_username _) as [[]|] eqn:Hu; [|done]. simpl in Hv.
  destruct (validate_email _) as [[]|] eqn:He; [|done].
  split; intros E; [by rewrite E in Hu|by rewrite E in He].
Qed.
End SignIn.

(** C40. What was registered can sign in: with the username or the e-mail address, in
    any letter case and with surrounding spaces, the account of the registration
    is the one signed in, if the password is right; another password that the
    hasher tells apart is rejected.  The hasher is assumed to accept what it
    hashed. *)
Theorem register_then_login `{PasswordHasher, ViolationText, T : TokenService}
    (hash_verifies : ∀ salt pw, verify pw (hash salt pw) = true)
    (salt ja jr ja' jr' ident pw : string) (req : RegisterRequest) (resp : AuthResponse.t)
    (w w' : World) :
  accounts_ok (db w) (seqs w) →
  AuthService.register_user salt ja jr req w = (Ok resp, w') →
  faults w' = [] →
  to_lower (trim ident) = to_lower (trim (reg_username req)) ∨
  to_lower (trim ident) = to_lower (trim (reg_email req)) →
  (∃ resp', AuthService.login ja' jr' {| login_identifier := ident;
                                         login_password := reg_password req |} w' = (Ok resp', w') ∧
            AuthResponse.user resp' = AuthResponse.user resp) ∧
  (pw ≠ "" → verify pw (hash salt (reg_password req)) = false →
   AuthService.login ja' jr' {| login_identifier := ident; login_password := pw |} w' =
     (Err (AuthenticationException "Invalid credentials" ""), w')).
Proof.
  intros Hok R Hf Hid.
  destruct (register_ok _ _ _ _ _ _ _ R Hok) as (Hok' & id & row & Hrow & Hu & Eu & Ee & Eh & Hat & Hp).
  assert (LOWER (trim ident) = LOWER (UserRow.username row) ∨
          LOWER (trim ident) = LOWER (UserRow.email row)) as Hid'.
  { rewrite Eu, Ee. unfold LOWER. unfold to_lower in *.
    rewrite (transform_idem tolower (trim (reg_email req))) by apply tolower_idem. done. }
  assert (trim ident ≠ "") as Hne.
  { intros E. rewrite E in Hid'. destruct (register_names _ _ _ _ _ _ _ R) as [Hn1 Hn2].
    rewrite <- Eu in Hn1. rewrite <- Ee in Hn2. unfold LOWER in Hid'. simpl in Hid'.
    destruct Hid' as [Hid'|Hid']; symmetry in Hid'; by apply transform_nil in Hid'. }
  split.
  - eexists. rewrite (login_run _ _ _ _ _ id row) by done. rewrite Eh, hash_verifies. by split.
  - intros Hpw Hv. rewrite (login_run _ _ _ _ _ id row) by done. by rewrite Eh, Hv.
Qed.

(** ** Signing in, evaluated *)
Module AccountSample.
Definition hasher : PasswordHasher := {| hash := λ salt pw, salt +:+ pw; verify := λ pw h, contains pw h |}.
Definition violations : ViolationText := λ index key, index +:+ key.
Definition tokens : TokenService := JwtFacts.jwt_token_service (H:=PlainJwt.plain_jwt) PlainJwt.options.
Definition ada : RegisterRequest :=
  {| reg_username := " Ada"; reg_email := "Ada@Example.com"; reg_password := "correct-horse" |}.
End AccountSample.

Lemma contains_append s t : contains t (s +:+ t) = true.
Proof.
  induction s as [|c s IH]; simpl; [|by rewrite IH, orb_true_r].
  assert (starts_with t t = true) as E by (apply starts_with_spec; exists ""; by rewrite append_nil_r).
  destruct t; simpl in *; [done|by rewrite E].
Qed.

Lemma accounts_ok_sample : accounts_ok (db accounts_only) (seqs accounts_only).
Proof.
  assert (∀ i r, users (db accounts_only) !! i = Some r →
    (i, r) ∈ [(1, sample_user "ann"); (2, sample_user "bob"); (3, sample_user "cyd")]) as Hin.
  { intros i r Hr. apply (elem_of_list_to_map_2 (M:=gmap Z)). exact Hr. }
  assert (∀ i r, users (db accounts_only) !! i = Some r →
    (i = 1 ∧ r = sample_user "ann") ∨ (i = 2 ∧ r = sample_user "bob") ∨
    (i = 3 ∧ r = sample_user "cyd")) as Hcase.
  { intros i r Hr. apply Hin in Hr. rewrite !elem_of_cons, elem_of_nil in Hr. naive_solver. }
  split_and!; intros i; intros *;
    intros Hi; destruct (Hcase _ _ Hi) as [[-> ->]|[[-> ->]|[-> ->]]]; try (by split); try done;
    intros Hj; destruct (Hcase _ _ Hj) as [[-> ->]|[[-> ->]|[-> ->]]]; done.
Qed.

Lemma identifiers_name_one_account_witness :
  ∃ r, users (db (run_accounts (H:=AccountSample.hasher) (H0:=AccountSample.violations)
                    (T:=AccountSample.tokens)
                    [(Register "salt" "a" "r" AccountSample.ada, 5, [])] (mkWorld empty_db (λ _, 1) 0 [] [] ∅ [])))
         !! 1 = Some r ∧ PgUserRepository.has_username "ADA" r = true ∧ 1 = 1.
Proof.
  eexists. split; [vm_compute; reflexivity|]. split; [reflexivity|].
  eapply (identifiers_name_one_account (H:=AccountSample.hasher) (H0:=AccountSample.violations)
    (T:=AccountSample.tokens) [(Register "salt" "a" "r" AccountSample.ada, 5, [])]
    (mkWorld empty_db (λ _, 1) 0 [] [] ∅ []) "ADA").
  - reflexivity.
  - vm_compute; reflexivity.
  - vm_compute; reflexivity.
  - reflexivity.
  - reflexivity.
Defined.

Lemma register_then_login_witness :
  ∃ resp w', AuthService.register_user (H:=AccountSample.hasher) (H0:=AccountSample.violations)
               (H1:=AccountSample.tokens) "salt" "a" "r" AccountSample.ada accounts_only = (Ok resp, w') ∧
    ∃ resp', AuthService.login (H:=AccountSample.hasher) (H1:=AccountSample.tokens) "a2" "r2"
               {| login_identifier := "ADA@example.com "; login_password := "correct-horse" |} w' =
               (Ok resp', w') ∧
             AuthResponse.user resp' = AuthResponse.user resp.
Proof.
  destruct (AuthService.register_user (H:=AccountSample.hasher) (H0:=AccountSample.violations)
    (H1:=AccountSample.tokens) "salt" "a" "r" AccountSample.ada accounts_only) as [x w'] eqn:E.
  assert (is_ok x = true) as Hr by (apply (f_equal fst) in E; cbn [fst] in E; rewrite <- E;
    vm_compute; reflexivity).
  assert (faults w' = []) as Hf by (apply (f_equal snd) in E; cbn [snd] in E; rewrite <- E;
    vm_compute; reflexivity).
  destruct x as [resp|e]; [|discriminate]. exists resp, w'. split; [reflexivity|].
  refine (proj1 (register_then_login (H:=AccountSample.hasher) (H0:=AccountSample.violations)
    (T:=AccountSample.tokens) _ "salt" "a" "r" "a2" "r2" "ADA@example.com " "" AccountSample.ada resp
    accounts_only w' accounts_ok_sample E Hf _)).
  - intros salt pw. apply contains_append.
  - right. vm_compute. reflexivity.
Defined.
