(* ===== verification/Protocol.v ===== *)
(** * Protocol: feature flags and the WebSocket wire protocol

    Models include/rtc/features/feature_flags.hpp with its source, and
    include/rtc/realtime/protocol.hpp with its source: version negotiation,
    frame encoding in the two versions and decoding of either.  A frame is built
    as a JSON value; printing and parsing it belong to the library. *)

From S2P Require Import Prelude Text Json Errors TimeUtil Models Dto.
Open Scope string_scope.
Open Scope Z_scope.

(** ** Feature flags *)

Module Features.
(* include/rtc/features/feature_flags.hpp:20-30, Feature *)
Inductive t := kReactions | kUploads | kNotifications | kTyping | kSearch | kReadReceipts
  | kPresence | kAuditLog.

Global Instance t_eq_dec : EqDecision t.
Proof. solve_decision. Defined.

(* include/rtc/features/feature_flags.hpp:36-42, FeatureDescriptor *)
Record Descriptor := {
  feature : t; name : string; env_var : string; default_enabled : bool; description : string }.

(* include/rtc/features/feature_flags.hpp:46-71, kFeatureRegistry *)
Definition kFeatureRegistry : list Descriptor :=
  [Build_Descriptor kReactions "reactions" "ENABLE_REACTIONS" true
     "Message reactions (add/remove emoji)";
   Build_Descriptor kUploads "uploads" "ENABLE_UPLOADS" true "Attachment upload and download";
   Build_Descriptor kNotifications "notifications" "ENABLE_NOTIFICATIONS" true
     "Notification creation, listing and push delivery";
   Build_Descriptor kTyping "typing" "ENABLE_TYPING" true "Typing indicators over WebSocket";
   Build_Descriptor kSearch "search" "ENABLE_SEARCH" true "Full-text message and user search";
   Build_Descriptor kReadReceipts "read_receipts" "ENABLE_READ_RECEIPTS" true
     "Delivery and read receipts";
   Build_Descriptor kPresence "presence" "ENABLE_PRESENCE" true "Online/offline presence tracking";
   Build_Descriptor kAuditLog "audit_log" "ENABLE_AUDIT_LOG" true
     "Persisting audit records for security-relevant actions"].

(* src/features/feature_flags.cpp:27-34, parse_feature *)
Definition parse_feature (nm : string) : option t :=
  feature <$> List.find (λ entry, String.eqb (name entry) nm) kFeatureRegistry.

(* src/features/feature_flags.cpp:13-23, parse_bool *)
Definition parse_bool (raw : string) (fallback : bool) : bool :=
  if String.eqb raw "" then fallback
  else
    let lowered := transform tolower raw in
    String.eqb lowered "1" || String.eqb lowered "true" || String.eqb lowered "yes" ||
    String.eqb lowered "on".

(** The array of atomic flags. *)
Definition flags : Type := t → bool.

(* include/rtc/features/feature_flags.hpp:125-128, FeatureFlags::set *)
Definition set (f : t) (enabled : bool) (fl : flags) : flags :=
  λ g, if decide (g = f) then enabled else fl g.

(* src/features/feature_flags.cpp:36-41, FeatureFlags::FeatureFlags *)
Definition initial (garbage : flags) : flags :=
  foldl (λ fl entry, set (feature entry) (default_enabled entry) fl) garbage kFeatureRegistry.

(* src/features/feature_flags.cpp:43-49, FeatureFlags::load_from_env *)
Definition load_from_env (env : string → option string) (fl : flags) : flags :=
  foldl (λ fl entry,
    let raw := default "" (env (env_var entry)) in
    set (feature entry) (parse_bool raw (default_enabled entry)) fl) fl kFeatureRegistry.

(* include/rtc/features/feature_flags.hpp:73-75, descriptor *)
Definition descriptor (f : t) : Descriptor :=
  default (Build_Descriptor f "" "" true "")
    (List.find (λ entry, bool_decide (feature entry = f)) kFeatureRegistry).

(* include/rtc/features/feature_flags.hpp:87-93, FeatureDisabledException *)
Definition FeatureDisabledException (feature_name : string) : exn :=
  NotFoundException ("Feature is disabled: " +:+ feature_name) ("feature=" +:+ feature_name).

(* include/rtc/features/feature_flags.hpp:132-136, FeatureFlags::require *)
Definition require (f : t) (fl : flags) : result exn unit :=
  if fl f then Ok () else Err (FeatureDisabledException (name (descriptor f))).

(* src/features/feature_flags.cpp:51-63, FeatureFlags::to_json *)
Definition to_json (fl : flags) : json :=
  JArr ((λ entry, jobj [("name", JStr (name entry)); ("enabled", JBool (fl (feature entry)));
           ("env", JStr (env_var entry)); ("default", JBool (default_enabled entry));
           ("description", JStr (description entry))]) <$> kFeatureRegistry).

(* src/features/feature_flags.cpp:65-74, FeatureFlags::enabled_names *)
Definition enabled_names (fl : flags) : list string :=
  name <$> filter (λ entry, fl (feature entry) = true) kFeatureRegistry.

(** The registry is a bijection between flags and names, so that every flag can
    be read and set by name. *)
Lemma parse_feature_name f : parse_feature (name (descriptor f)) = Some f.
Proof. by destruct f. Qed.

(** Loading the environment sets every flag from its own variable, whatever the
    flags were before. *)
Lemma load_from_env_spec env fl f :
  load_from_env env fl f =
    match env (env_var (descriptor f)) with
    | Some raw => parse_bool raw (default_enabled (descriptor f))
    | None => default_enabled (descriptor f)
    end.
Proof. destruct f; lazy -[parse_bool]; by destruct (env _). Qed.
End Features.

(** ** Wire protocol *)

Module Protocol.
(* include/rtc/realtime/protocol.hpp:42-45, Version *)
Inductive Version := kV1 | kV2.
Global Instance Version_eq_dec : EqDecision Version.
Proof. solve_decision. Defined.

(* include/rtc/realtime/protocol.hpp:49-49, kDefaultVersion *)
Definition kDefaultVersion : Version := kV1.

(* include/rtc/realtime/protocol.hpp:52-52, kCurrentVersion *)
Definition kCurrentVersion : Version := kV2.

(* include/rtc/realtime/protocol.hpp:57-59, to_number *)
Definition to_number (v : Version) : Z := match v with kV1 => 1 | kV2 => 2 end.

(* include/rtc/realtime/protocol.hpp:64-76, negotiate *)
Definition negotiate (requested : option Z) : Version :=
  match requested with
  | None => kDefaultVersion
  | Some n => if n =? 1 then kV1 else if n =? 2 then kV2 else kDefaultVersion
  end.

(* include/rtc/realtime/protocol.hpp:81-84, Envelope *)
Record Envelope := { env_request_id : string; env_correlation_id : string }.
Definition no_envelope : Envelope := {| env_request_id := ""; env_correlation_id := "" |}.

(* include/rtc/realtime/protocol.hpp:101-109, InboundFrame *)
Record InboundFrame := mkFrame {
  event : string; payload : json; request_id : string; correlation_id : string; version : Version }.

(** A string or null. *)
Definition opt_string (s : string) : json := if String.eqb s "" then JNull else JStr s.

(** The frame before it is printed; [now] is the clock of the v2 timestamp. *)
(* src/realtime/protocol.cpp:19-43, encode *)
Definition encode (v : Version) (now : TimePoint) (ev : string) (pl : json) (envelope : Envelope)
    : json :=
  match v with
  | kV1 => jobj [("type", JStr ev); ("data", pl)]
  | kV2 =>
      jset "correlation_id" (opt_string (env_correlation_id envelope))
        (jset "request_id" (opt_string (env_request_id envelope))
          (jobj [("event", JStr ev); ("version", JInt (to_number v));
                 ("timestamp", JStr (to_iso8601 now)); ("payload", pl)]))
  end.

(* src/realtime/protocol.cpp:9-15, read_string *)
Definition read_string (j : json) (key : string) : string :=
  match find j key with Some (JStr s) => s | _ => "" end.

(** The member [key] if it is an object, the empty object otherwise. *)
Definition object_member (j : json) (key : string) : json :=
  match find j key with Some (JObj m) => JObj m | _ => jobj [] end.

(* src/realtime/protocol.cpp:45-75, decode *)
Definition decode `{JsonText} (text : string) : option InboundFrame :=
  match json_parse text with
  | Some (JObj _ as parsed) =>
      let rid := read_string parsed "request_id" in
      let cid := read_string parsed "correlation_id" in
      let ev := read_string parsed "event" in
      let ty := read_string parsed "type" in
      if negb (String.eqb ev "") then
        Some (mkFrame ev (object_member parsed "payload") rid cid kV2)
      else if negb (String.eqb ty "") then
        Some (mkFrame ty (object_member parsed "data") rid cid kV1)
      else None
  | _ => None
  end.
End Protocol.

Lemma decode_object `{JsonText} text j :
  json_parse text = Some j → is_object j = true →
  Protocol.decode text =
    let rid := Protocol.read_string j "request_id" in
    let cid := Protocol.read_string j "correlation_id" in
    let ev := Protocol.read_string j "event" in
    let ty := Protocol.read_string j "type" in
    if negb (String.eqb ev "")
    then Some (Protocol.mkFrame ev (Protocol.object_member j "payload") rid cid Protocol.kV2)
    else if negb (String.eqb ty "")
    then Some (Protocol.mkFrame ty (Protocol.object_member j "data") rid cid Protocol.kV1)
    else None.
Proof. intros Hj Ho. unfold Protocol.decode. rewrite Hj. by destruct j. Qed.

Lemma opt_string_read s : match Protocol.opt_string s with JStr s => s | _ => "" end = s.
Proof. unfold Protocol.opt_string. by destruct (String.eqb_spec s "") as [->|]. Qed.

(** Wire round trip: a frame printed in either version is read back as the event,
    the payload object, the version and, in version 2, the correlation ids it
    was made of, if the library parses the text it printed. *)
Theorem frame_roundtrip `{JsonText} (v : Protocol.Version) (t : TimePoint) (ev : string)
    (pl : gmap string json) (env : Protocol.Envelope) :
  (let j := Protocol.encode v t ev (JObj pl) env in json_parse (json_dump j) = Some j) → ev ≠ "" →
  Protocol.decode (json_dump (Protocol.encode v t ev (JObj pl) env)) =
    Some (Protocol.mkFrame ev (JObj pl)
      (match v with Protocol.kV1 => "" | Protocol.kV2 => Protocol.env_request_id env end)
      (match v with Protocol.kV1 => "" | Protocol.kV2 => Protocol.env_correlation_id env end) v).
Proof.
  intros Hlib Hev. rewrite (decode_object _ _ Hlib) by (by destruct v).
  destruct v; unfold Protocol.read_string, Protocol.object_member.
  - set (j := Protocol.encode _ _ _ _ _).
    change (find j "request_id") with (@None json). change (find j "correlation_id") with (@None json).
    change (find j "event") with (@None json). change (find j "type") with (Some (JStr ev)).
    change (find j "data") with (Some (JObj pl)). cbn iota zeta.
    by rewrite (proj2 (String.eqb_neq _ _) Hev).
  - set (j := Protocol.encode _ _ _ _ _).
    change (find j "request_id") with (Some (Protocol.opt_string (Protocol.env_request_id env))).
    change (find j "correlation_id")
      with (Some (Protocol.opt_string (Protocol.env_correlation_id env))).
    change (find j "event") with (Some (JStr ev)). change (find j "payload") with (Some (JObj pl)).
    cbn iota zeta. rewrite (proj2 (String.eqb_neq _ _) Hev).
    by rewrite !opt_string_read.
Qed.

(** A library that can print and parse one value. *)
Definition one_value (j : json) : JsonText :=
  {| json_parse := λ s, if String.eqb s "{}" then Some j else None; json_dump := λ _, "{}" |}.

Lemma frame_roundtrip_witness :
  let frame := Protocol.encode Protocol.kV2 0 "typing.start" (JObj ∅)
                 (Protocol.Build_Envelope "r1" "") in
  Protocol.decode (H:=one_value frame) (json_dump (JsonText:=one_value frame) frame) =
    Some (Protocol.mkFrame "typing.start" (JObj ∅) "r1" "" Protocol.kV2).
Proof.
  exact (frame_roundtrip (H:=one_value (Protocol.encode Protocol.kV2 0 "typing.start" (JObj ∅)
      (Protocol.Build_Envelope "r1" ""))) Protocol.kV2 0 "typing.start" ∅
    (Protocol.Build_Envelope "r1" "") eq_refl ltac:(discriminate)).
Defined.
