(* ===== verification/Connections.v ===== *)
(** * Connections: live WebSocket sessions, rooms and fan-out

    Models src/realtime/session_manager.cpp, src/realtime/room_manager.cpp and
    src/realtime/connection_manager.cpp.  A connection is the address of Crow's
    object, 0 the null pointer.  A hash set is iterated in some order.  The
    state keeps what was sent to each connection and what was published on the
    cluster bus. *)

From S2P Require Import Prelude Text Json Errors TimeUtil Models Dto Protocol.
Open Scope string_scope.
Open Scope Z_scope.

Definition Conn : Type := Z.
Definition nullptr : Conn := 0.

(* include/rtc/realtime/session.hpp:31-48, Session *)
Record WsSession := mkSession {
  connection : Conn; user_id : Z; username : string; protocol_version : Protocol.Version;
  last_activity_ms : Z }.

Definition set_activity (t : Z) (s : WsSession) : WsSession :=
  mkSession (connection s) (user_id s) (username s) (protocol_version s) t.

(** [map[k].insert(x)] and "erase [x], and [k] too if its set is empty". *)
Definition insert_in {K X} `{Countable K, Countable X} (k : K) (x : X) (m : gmap K (gset X))
    : gmap K (gset X) := <[k := {[x]} ∪ default ∅ (m !! k)]> m.
Definition erase_in {K X} `{Countable K, Countable X} (k : K) (x : X) (m : gmap K (gset X))
    : gmap K (gset X) :=
  match m !! k with
  | None => m
  | Some s => let s' := s ∖ {[x]} in if decide (s' = ∅) then delete k m else <[k := s']> m
  end.

Module SessionManager.
(* include/rtc/realtime/session_manager.hpp:22-64, SessionManager *)
Record t := mk { by_connection : gmap Conn WsSession; by_user : gmap Z (gset Conn) }.

Definition empty : t := mk ∅ ∅.

(* src/realtime/session_manager.cpp:7-16, SessionManager::add *)
Definition add (conn : Conn) (uid : Z) (uname : string) (version : Protocol.Version) (m : t) : t :=
  mk (<[conn := mkSession conn uid uname version 0]> (by_connection m))
     (insert_in uid conn (by_user m)).

(* src/realtime/session_manager.cpp:18-35, SessionManager::remove *)
Definition remove (conn : Conn) (m : t) : option WsSession * t :=
  match by_connection m !! conn with
  | None => (None, m)
  | Some session =>
      (Some session, mk (delete conn (by_connection m)) (erase_in (user_id session) conn (by_user m)))
  end.

(* src/realtime/session_manager.cpp:37-41, SessionManager::get *)
Definition get (conn : Conn) (m : t) : option WsSession := by_connection m !! conn.

(* src/realtime/session_manager.cpp:43-55, SessionManager::connections_for_user *)
Definition connections_for_user (uid : Z) (m : t) : list Conn :=
  match by_user m !! uid with Some s => elements s | None => [] end.

(* src/realtime/session_manager.cpp:75-87, SessionManager::sessions_for *)
Definition sessions_for (connections : list Conn) (m : t) : list WsSession :=
  omap (λ conn, by_connection m !! conn) connections.

(* src/realtime/session_manager.cpp:57-73, SessionManager::sessions_for_user *)
Definition sessions_for_user (uid : Z) (m : t) : list WsSession :=
  match by_user m !! uid with
  | None => []
  | Some s => omap (λ conn, by_connection m !! conn) (elements s)
  end.

(* src/realtime/session_manager.cpp:89-97, SessionManager::snapshot *)
Definition snapshot (m : t) : list WsSession := (map_to_list (by_connection m)).*2.

(* src/realtime/session_manager.cpp:99-105, SessionManager::touch *)
Definition touch (conn : Conn) (now_ms : Z) (m : t) : t :=
  mk (alter (set_activity now_ms) conn (by_connection m)) (by_user m).

(* src/realtime/session_manager.cpp:107-110, SessionManager::session_count *)
Definition session_count (m : t) : nat := size (by_connection m).
End SessionManager.

Module RoomManager.
(* include/rtc/realtime/room_manager.hpp:21-40, RoomManager *)
Record t := mk { rooms : gmap Z (gset Conn); membership : gmap Conn (gset Z) }.

Definition empty : t := mk ∅ ∅.

(* src/realtime/room_manager.cpp:5-9, RoomManager::join *)
Definition join (conversation_id : Z) (conn : Conn) (m : t) : t :=
  mk (insert_in conversation_id conn (rooms m)) (insert_in conn conversation_id (membership m)).

(* src/realtime/room_manager.cpp:11-19, RoomManager::join_many *)
Definition join_many (conversation_ids : list Z) (conn : Conn) (m : t) : t :=
  let joined := default ∅ (membership m !! conn) in
  mk (foldl (λ r id, insert_in id conn r) (rooms m) conversation_ids)
     (<[conn := foldl (λ s id, {[id]} ∪ s) joined conversation_ids]> (membership m)).

(* src/realtime/room_manager.cpp:21-35, RoomManager::leave *)
Definition leave (conversation_id : Z) (conn : Conn) (m : t) : t :=
  mk (erase_in conversation_id conn (rooms m)) (erase_in conn conversation_id (membership m)).

(* src/realtime/room_manager.cpp:37-52, RoomManager::leave_all *)
Definition leave_all (conn : Conn) (m : t) : t :=
  match membership m !! conn with
  | None => m
  | Some ids =>
      mk (foldl (λ r id, erase_in id conn r) (rooms m) (elements ids)) (delete conn (membership m))
  end.

(* src/realtime/room_manager.cpp:54-65, RoomManager::connections_in_room *)
Definition connections_in_room (conversation_id : Z) (m : t) : list Conn :=
  match rooms m !! conversation_id with Some s => elements s | None => [] end.

(* src/realtime/room_manager.cpp:67-70, RoomManager::room_count *)
Definition room_count (m : t) : nat := size (rooms m).
End RoomManager.

Module ClusterChannels.
(* include/rtc/realtime/cluster_bus.hpp:14-27, cluster_channels *)
Definition kUserBroadcast := "rtc:cluster:user".
Definition kRoomBroadcast := "rtc:cluster:room".
Definition kPresence := "rtc:cluster:presence".
Definition kNotification := "rtc:cluster:notification".
Definition kCacheInvalidate := "rtc:cluster:cache".
End ClusterChannels.

Module ConnectionManager.
(* include/rtc/realtime/connection_manager.hpp:126-128, ConnectionManager *)
Record t := mk {
  sessions : SessionManager.t; rooms : RoomManager.t; cluster : bool;
  sent : list (Conn * string); published : list (string * json) }.

Definition set_sessions s m := mk s (rooms m) (cluster m) (sent m) (published m).
Definition set_rooms r m := mk (sessions m) r (cluster m) (sent m) (published m).
Definition add_sent l m := mk (sessions m) (rooms m) (cluster m) (sent m ++ l) (published m).
Definition add_published p m := mk (sessions m) (rooms m) (cluster m) (sent m) (published m ++ [p]).

Section Delivery.
Context `{JsonText} (now : TimePoint).

(** [FrameCache]: the frames made so far. *)
Record FrameCache := { v1 : option string; v2 : option string }.

(* src/realtime/connection_manager.cpp:20-33, FrameCache::for_version *)
Definition for_version (type : string) (data : json) (envelope : Protocol.Envelope)
    (version : Protocol.Version) (c : FrameCache) : string * FrameCache :=
  match version with
  | Protocol.kV2 =>
      match v2 c with
      | Some f => (f, c)
      | None => let f := json_dump (Protocol.encode Protocol.kV2 now type data envelope) in
                (f, {| v1 := v1 c; v2 := Some f |})
      end
  | Protocol.kV1 =>
      match v1 c with
      | Some f => (f, c)
      | None => let f := json_dump (Protocol.encode Protocol.kV1 now type data envelope) in
                (f, {| v1 := Some f; v2 := v2 c |})
      end
  end.

(* src/realtime/connection_manager.cpp:35-37, ConnectionManager::make_envelope *)
Definition make_envelope (type : string) (data : json) : string :=
  json_dump (Protocol.encode Protocol.kV1 now type data Protocol.no_envelope).

(* src/realtime/connection_manager.cpp:39-46, ConnectionManager::send_raw *)
Definition send_raw (conn : Conn) (payload : string) : list (Conn * string) :=
  if conn =? nullptr then [] else [(conn, payload)].

(* src/realtime/connection_manager.cpp:48-53, ConnectionManager::register_session *)
Definition register_session (conn : Conn) (uid : Z) (uname : string) (version : Protocol.Version)
    (m : t) : t := set_sessions (SessionManager.add conn uid uname version (sessions m)) m.

(* src/realtime/connection_manager.cpp:55-58, ConnectionManager::unregister_session *)
Definition unregister_session (conn : Conn) (m : t) : option WsSession * t :=
  let m := set_rooms (RoomManager.leave_all conn (rooms m)) m in
  let '(session, sm) := SessionManager.remove conn (sessions m) in
  (session, set_sessions sm m).

(** The loop of [send_to_sessions]. *)
Fixpoint send_loop (type : string) (data : json) (envelope : Protocol.Envelope) (exclude : Conn)
    (frames : FrameCache) (l : list WsSession) : list (Conn * string) :=
  match l with
  | [] => []
  | session :: l =>
      if (connection session =? nullptr) || (connection session =? exclude)
      then send_loop type data envelope exclude frames l
      else
        let '(f, frames) := for_version type data envelope (protocol_version session) frames in
        (send_raw (connection session) f ++ send_loop type data envelope exclude frames l)%list
  end.

(* src/realtime/connection_manager.cpp:99-113, ConnectionManager::send_to_sessions *)
Definition send_to_sessions (l : list WsSession) (type : string) (data : json)
    (envelope : Protocol.Envelope) (exclude : Conn) : list (Conn * string) :=
  send_loop type data envelope exclude {| v1 := None; v2 := None |} l.

(* src/realtime/connection_manager.cpp:115-126, ConnectionManager::deliver_local *)
Definition deliver_local (user_ids : list Z) (type : string) (data : json) (m : t) : t :=
  foldl (λ m uid, add_sent (send_to_sessions (SessionManager.sessions_for_user uid (sessions m))
                              type data Protocol.no_envelope nullptr) m) m user_ids.

(* src/realtime/connection_manager.cpp:128-141, ConnectionManager::publish *)
Definition publish (user_ids : list Z) (type : string) (data : json) (m : t) : t :=
  let m := deliver_local user_ids type data m in
  if cluster m
  then add_published (ClusterChannels.kUserBroadcast,
         jobj [("event", JStr type); ("user_ids", JArr (JInt <$> user_ids)); ("data", data)]) m
  else m.

(* src/realtime/connection_manager.cpp:143-153, ConnectionManager::send_event *)
Definition send_event (conn : Conn) (type : string) (data : json) (envelope : Protocol.Envelope)
    (m : t) : t :=
  let version := match SessionManager.get conn (sessions m) with
                 | Some s => protocol_version s
                 | None => Protocol.kDefaultVersion
                 end in
  add_sent (send_raw conn (json_dump (Protocol.encode version now type data envelope))) m.

(* src/realtime/connection_manager.cpp:155-164, ConnectionManager::deliver_local_to_room *)
Definition deliver_local_to_room (conversation_id : Z) (type : string) (data : json)
    (exclude : Conn) (m : t) : t :=
  add_sent (send_to_sessions
    (SessionManager.sessions_for (RoomManager.connections_in_room conversation_id (rooms m)) (sessions m))
    type data Protocol.no_envelope exclude) m.

(* src/realtime/connection_manager.cpp:166-178, ConnectionManager::broadcast_to_room *)
Definition broadcast_to_room (conversation_id : Z) (type : string) (data : json) (exclude : Conn)
    (m : t) : t :=
  let m := deliver_local_to_room conversation_id type data exclude m in
  if cluster m
  then add_published (ClusterChannels.kRoomBroadcast,
         jobj [("event", JStr type); ("conversation_id", JInt conversation_id); ("data", data)]) m
  else m.

(** [get<std::vector<std::int64_t>>()]; [None] for an exception.  A number with a
    fraction is truncated. *)
Definition int_vector (l : list json) : option (list Z) :=
  mapM (λ j, match j with
             | JInt z => Some (get_int64 z)
             | JFloat m e => Some (if 0 <=? e then m * 10 ^ e else Z.quot m (10 ^ (- e)))
             | _ => None
             end) l.

(** The handler of user broadcasts from other instances. *)
(* src/realtime/connection_manager.cpp:65-77, ConnectionManager::set_cluster_bus (user broadcast) *)
Definition on_user_broadcast (body : json) (m : t) : t :=
  match find body "event", find body "user_ids" with
  | Some (JStr event), Some (JArr users) =>
      match int_vector users with
      | Some ids => deliver_local ids event (default (jobj []) (find body "data")) m
      | None => m
      end
  | _, _ => m
  end.

(** The handler of room broadcasts from other instances. *)
(* src/realtime/connection_manager.cpp:79-94, ConnectionManager::set_cluster_bus (room broadcast) *)
Definition on_room_broadcast (body : json) (m : t) : t :=
  match find body "event", find body "conversation_id" with
  | Some (JStr event), Some (JInt room) =>
      deliver_local_to_room (get_int64 room) event (default (jobj []) (find body "data")) nullptr m
  | _, _ => m
  end.
End Delivery.
End ConnectionManager.
