(* ===== verification/ConnectionProps.v ===== *)
(** * ConnectionProps: what the connection registry guarantees

    The two indexes of sessions and the two of rooms stay mirror images, a
    closed connection is in none of them, and a fan-out reaches exactly the
    sessions it names, each once and in its own protocol version. *)

From S2P Require Import Prelude Text Json Errors TimeUtil Models Dto Protocol Connections.
Open Scope string_scope.
Open Scope Z_scope.

(** ** Maps of sets *)

Section Sets.
Context {K X} `{Countable K, Countable X}.
Implicit Types m : gmap K (gset X).

(** [x] is in the set of [k]. *)
Definition mem m (k : K) (x : X) : Prop := x ∈ default ∅ (m !! k).
Global Instance mem_dec m k x : Decision (mem m k x).
Proof. unfold mem. apply _. Defined.
Definition no_empty m : Prop := ∀ k s, m !! k = Some s → s ≠ ∅.

Lemma mem_insert_in m k x k' x' :
  mem (insert_in k x m) k' x' ↔ (k' = k ∧ x' = x) ∨ mem m k' x'.
Proof.
  unfold mem, insert_in. destruct (decide (k = k')) as [->|Hne].
  - rewrite lookup_insert_eq. simpl. rewrite elem_of_union, elem_of_singleton. naive_solver.
  - rewrite lookup_insert_ne by done. naive_solver.
Qed.

Lemma mem_erase_in m k x k' x' :
  mem (erase_in k x m) k' x' ↔ mem m k' x' ∧ ¬ (k' = k ∧ x' = x).
Proof.
  unfold mem, erase_in. destruct (m !! k) as [s|] eqn:E.
  - case_decide as Hs; destruct (decide (k = k')) as [->|Hne];
      rewrite ?lookup_delete_eq, ?lookup_insert_eq, ?lookup_delete_ne, ?lookup_insert_ne, ?E by done;
      simpl; set_solver.
  - split; [|tauto]. intros Hm. split; [done|]. intros [-> ->]. by rewrite E in Hm.
Qed.

Lemma no_empty_insert_in m k x : no_empty m → no_empty (insert_in k x m).
Proof.
  intros Hm k' s. unfold insert_in. rewrite lookup_insert_Some.
  intros [[<- <-]|[_ Hs]]; [set_solver|by eapply Hm].
Qed.

Lemma no_empty_erase_in m k x : no_empty m → no_empty (erase_in k x m).
Proof.
  intros Hm k' s. unfold erase_in. destruct (m !! k) as [s0|] eqn:E; [|by apply Hm].
  case_decide as Hs; [rewrite lookup_delete_Some; intros [_ Hk]; by eapply Hm|].
  rewrite lookup_insert_Some. intros [[_ <-]|[_ Hk]]; [done|by eapply Hm].
Qed.

Lemma mem_elements m k x : x ∈ match m !! k with Some s => elements s | None => [] end ↔ mem m k x.
Proof. unfold mem. destruct (m !! k); simpl; [apply elem_of_elements|set_solver]. Qed.

Lemma NoDup_elements_in m k : NoDup (match m !! k with Some s => elements s | None => [] end).
Proof. destruct (m !! k); [apply NoDup_elements|constructor]. Qed.
End Sets.

(** ** The invariant *)

Definition sessions_ok (m : SessionManager.t) : Prop :=
  (∀ conn s, SessionManager.by_connection m !! conn = Some s →
     connection s = conn ∧ conn ≠ nullptr) ∧
  (∀ uid conn, mem (SessionManager.by_user m) uid conn ↔
     ∃ s, SessionManager.by_connection m !! conn = Some s ∧ user_id s = uid) ∧
  no_empty (SessionManager.by_user m).

Definition rooms_ok (m : RoomManager.t) : Prop :=
  (∀ c conn, mem (RoomManager.rooms m) c conn ↔ mem (RoomManager.membership m) conn c) ∧
  no_empty (RoomManager.rooms m).

Definition hub_ok (m : ConnectionManager.t) : Prop :=
  sessions_ok (ConnectionManager.sessions m) ∧ rooms_ok (ConnectionManager.rooms m) ∧
  (∀ c conn, mem (RoomManager.rooms (ConnectionManager.rooms m)) c conn →
     is_Some (SessionManager.get conn (ConnectionManager.sessions m))).

Lemma add_sessions_ok conn uid name v m :
  SessionManager.get conn m = None → conn ≠ nullptr →
  sessions_ok m → sessions_ok (SessionManager.add conn uid name v m).
Proof.
  unfold SessionManager.get. intros Hnew Hnull (Hc & Hu & He).
  split_and!; cbn [SessionManager.add SessionManager.by_connection SessionManager.by_user].
  - intros conn' s. rewrite lookup_insert_Some. intros [[<- <-]|[_ Hs]]; [done|by apply Hc].
  - intros uid' conn'. rewrite mem_insert_in, Hu.
    destruct (decide (conn' = conn)) as [->|Hne].
    + rewrite lookup_insert_eq, Hnew. naive_solver.
    + rewrite lookup_insert_ne by done. naive_solver.
  - by apply no_empty_insert_in.
Qed.

Lemma remove_sessions_ok conn m : sessions_ok m → sessions_ok (SessionManager.remove conn m).2.
Proof.
  unfold SessionManager.remove. intros (Hc & Hu & He).
  destruct (SessionManager.by_connection m !! conn) as [s|] eqn:E; [|done].
  split_and!; cbn [snd SessionManager.by_connection SessionManager.by_user].
  - intros conn' s'. rewrite lookup_delete_Some. intros [_ Hs]. by apply Hc.
  - intros uid conn'. rewrite mem_erase_in, Hu. setoid_rewrite lookup_delete_Some. naive_solver.
  - by apply no_empty_erase_in.
Qed.

Lemma touch_sessions_ok conn t m : sessions_ok m → sessions_ok (SessionManager.touch conn t m).
Proof.
  intros (Hc & Hu & He).
  split_and!; cbn [SessionManager.touch SessionManager.by_connection SessionManager.by_user]; try done.
  - intros conn' s. rewrite lookup_alter_Some. intros [(<- & s0 & Hs & ->)|[_ Hs]]; by apply Hc in Hs.
  - intros uid conn'. rewrite Hu. setoid_rewrite lookup_alter_Some.
    destruct (decide (conn = conn')) as [->|Hne]; [|naive_solver].
    split; [intros (s & Hs & <-); exists (set_activity t s); naive_solver|naive_solver].
Qed.

Lemma get_touch conn' conn t m :
  is_Some (SessionManager.get conn' (SessionManager.touch conn t m)) ↔
  is_Some (SessionManager.get conn' m).
Proof.
  unfold SessionManager.get, SessionManager.touch. simpl. rewrite lookup_alter.
  case_decide; [subst; by rewrite fmap_is_Some|done].
Qed.

Lemma mem_foldl_insert (ids : list Z) (conn : Conn) r c conn' :
  mem (foldl (λ r id, insert_in id conn r) r ids) c conn' ↔ (conn' = conn ∧ c ∈ ids) ∨ mem r c conn'.
Proof.
  revert r. induction ids as [|id ids IH]; intros r; simpl; [set_solver|].
  rewrite IH, mem_insert_in, elem_of_cons. tauto.
Qed.

Lemma mem_foldl_erase (ids : list Z) (conn : Conn) r c conn' :
  mem (foldl (λ r id, erase_in id conn r) r ids) c conn' ↔ mem r c conn' ∧ ¬ (conn' = conn ∧ c ∈ ids).
Proof.
  revert r. induction ids as [|id ids IH]; intros r; simpl; [set_solver|].
  rewrite IH, mem_erase_in, elem_of_cons. tauto.
Qed.

Lemma foldl_no_empty (f : Z → gmap Z (gset Conn) → gmap Z (gset Conn)) ids r :
  (∀ id r, no_empty r → no_empty (f id r)) → no_empty r → no_empty (foldl (λ r id, f id r) r ids).
Proof. intros Hf. revert r. induction ids; simpl; eauto. Qed.

Lemma elem_of_foldl_insert (ids : list Z) (s : gset Z) c :
  c ∈ foldl (λ s id, {[id]} ∪ s) s ids ↔ c ∈ ids ∨ c ∈ s.
Proof.
  revert s. induction ids as [|id ids IH]; intros s; simpl; [set_solver|].
  rewrite IH, elem_of_cons. set_solver.
Qed.

Lemma join_rooms_ok c conn m : rooms_ok m → rooms_ok (RoomManager.join c conn m).
Proof.
  intros [Hm He]. split; cbn [RoomManager.join RoomManager.rooms RoomManager.membership].
  - intros c' conn'. rewrite !mem_insert_in, Hm. tauto.
  - by apply no_empty_insert_in.
Qed.

Lemma join_many_rooms_ok ids conn m : rooms_ok m → rooms_ok (RoomManager.join_many ids conn m).
Proof.
  intros [Hm He]. split; cbn [RoomManager.join_many RoomManager.rooms RoomManager.membership].
  - intros c conn'. rewrite mem_foldl_insert, Hm. unfold mem.
    destruct (decide (conn = conn')) as [->|Hne].
    + rewrite lookup_insert_eq. simpl. rewrite elem_of_foldl_insert. tauto.
    + rewrite lookup_insert_ne by done. split; [intros [[<- _]|]; done|auto].
  - apply foldl_no_empty; [|done]. intros. by apply no_empty_insert_in.
Qed.

Lemma leave_rooms_ok c conn m : rooms_ok m → rooms_ok (RoomManager.leave c conn m).
Proof.
  intros [Hm He]. split; cbn [RoomManager.leave RoomManager.rooms RoomManager.membership].
  - intros c' conn'. rewrite !mem_erase_in, Hm. tauto.
  - by apply no_empty_erase_in.
Qed.

(** A connection that leaves all rooms is in none, and nobody else is affected. *)
Lemma mem_leave_all conn m c conn' :
  rooms_ok m →
  mem (RoomManager.rooms (RoomManager.leave_all conn m)) c conn' ↔
  mem (RoomManager.rooms m) c conn' ∧ conn' ≠ conn.
Proof.
  intros [Hm _]. unfold RoomManager.leave_all.
  destruct (RoomManager.membership m !! conn) as [ids|] eqn:E.
  - cbn [RoomManager.rooms]. rewrite mem_foldl_erase, elem_of_elements. split.
    + intros [Hr Hn]. split; [done|]. intros ->. apply Hn. split; [done|].
      apply Hm in Hr. unfold mem in Hr. by rewrite E in Hr.
    + intros [Hr Hne]. split; [done|]. by intros [-> _].
  - split; [|tauto]. intros Hr. split; [done|]. intros ->. apply Hm in Hr.
    unfold mem in Hr. by rewrite E in Hr.
Qed.

Lemma leave_all_rooms_ok conn m : rooms_ok m → rooms_ok (RoomManager.leave_all conn m).
Proof.
  intros Hok. split.
  - intros c conn'. rewrite (mem_leave_all _ _ _ _ Hok). destruct Hok as [Hm _]. rewrite Hm.
    unfold RoomManager.leave_all, mem. destruct (RoomManager.membership m !! conn) as [ids|] eqn:E.
    + cbn [RoomManager.membership]. destruct (decide (conn = conn')) as [->|Hne].
      * rewrite lookup_delete_eq. simpl. set_solver.
      * rewrite lookup_delete_ne by done. naive_solver.
    + split; [tauto|]. intros Hc. split; [done|]. intros ->. by rewrite E in Hc.
  - unfold RoomManager.leave_all. destruct (RoomManager.membership m !! conn); [|apply Hok].
    cbn [RoomManager.rooms]. apply foldl_no_empty; [|apply Hok]. intros. by apply no_empty_erase_in.
Qed.

(** ** The registry as a transition system *)

Inductive HubOp :=
  | OpOpen (conn : Conn) (uid : Z) (name : string) (v : Protocol.Version)
  | OpJoin (conversation_id : Z) (conn : Conn)
  | OpJoinMany (conversation_ids : list Z) (conn : Conn)
  | OpLeave (conversation_id : Z) (conn : Conn)
  | OpTouch (conn : Conn) (now_ms : Z)
  | OpClose (conn : Conn)
  | OpOutput (frames : list (Conn * string)) (messages : list (string * json)).

(** Crow opens a connection under an address that is not in use, and joins are
    made for open connections. *)
Definition op_guard (o : HubOp) (m : ConnectionManager.t) : Prop :=
  match o with
  | OpOpen conn _ _ _ => conn ≠ nullptr ∧ SessionManager.get conn (ConnectionManager.sessions m) = None
  | OpJoin _ conn | OpJoinMany _ conn =>
      is_Some (SessionManager.get conn (ConnectionManager.sessions m))
  | _ => True
  end.

Definition hub_op (o : HubOp) (m : ConnectionManager.t) : ConnectionManager.t :=
  match o with
  | OpOpen conn uid name v => ConnectionManager.register_session conn uid name v m
  | OpJoin c conn =>
      ConnectionManager.set_rooms (RoomManager.join c conn (ConnectionManager.rooms m)) m
  | OpJoinMany cs conn =>
      ConnectionManager.set_rooms (RoomManager.join_many cs conn (ConnectionManager.rooms m)) m
  | OpLeave c conn =>
      ConnectionManager.set_rooms (RoomManager.leave c conn (ConnectionManager.rooms m)) m
  | OpTouch conn t =>
      ConnectionManager.set_sessions (SessionManager.touch conn t (ConnectionManager.sessions m)) m
  | OpClose conn => (ConnectionManager.unregister_session conn m).2
  | OpOutput l ps => ConnectionManager.mk (ConnectionManager.sessions m) (ConnectionManager.rooms m)
      (ConnectionManager.cluster m) (ConnectionManager.sent m ++ l) (ConnectionManager.published m ++ ps)
  end.

Inductive hub_reachable : ConnectionManager.t → Prop :=
  | hub_start cl : hub_reachable (ConnectionManager.mk SessionManager.empty RoomManager.empty cl [] [])
  | hub_step o m : hub_reachable m → op_guard o m → hub_reachable (hub_op o m).

Lemma unregister_eq conn m :
  ConnectionManager.unregister_session conn m =
    let r := SessionManager.remove conn (ConnectionManager.sessions m) in
    (r.1, ConnectionManager.set_sessions r.2
       (ConnectionManager.set_rooms (RoomManager.leave_all conn (ConnectionManager.rooms m)) m)).
Proof.
  unfold ConnectionManager.unregister_session. cbn [ConnectionManager.sessions ConnectionManager.set_rooms].
  by destruct (SessionManager.remove _ _).
Qed.

Lemma get_remove conn conn' m :
  SessionManager.get conn' (SessionManager.remove conn m).2 =
    if decide (conn' = conn) then None else SessionManager.get conn' m.
Proof.
  unfold SessionManager.get, SessionManager.remove.
  destruct (SessionManager.by_connection m !! conn) eqn:E; cbn [snd SessionManager.by_connection];
    case_decide; subst; rewrite ?lookup_delete_eq, ?lookup_delete_ne by done; done.
Qed.

Lemma hub_op_ok o m : op_guard o m → hub_ok m → hub_ok (hub_op o m).
Proof.
  intros Hg (Hs & Hr & Hl). destruct o as [conn uid name v|c conn|cs conn|c conn|conn t|conn|l ps];
    cbn [hub_op op_guard] in *; unfold hub_ok; rewrite ?unregister_eq;
    cbn [snd ConnectionManager.register_session ConnectionManager.sessions ConnectionManager.rooms
         ConnectionManager.set_sessions ConnectionManager.set_rooms].
  - destruct Hg as [Hnull Hnew]. split_and!; [by apply add_sessions_ok|done|].
    intros c conn' Hm. specialize (Hl _ _ Hm). unfold SessionManager.get, SessionManager.add in *.
    cbn. rewrite lookup_insert. by case_decide.
  - split_and!; [done|by apply join_rooms_ok|]. intros c' conn'.
    cbn [RoomManager.join RoomManager.rooms]. rewrite mem_insert_in.
    intros [[_ ->]|Hm]; [done|by eapply Hl].
  - split_and!; [done|by apply join_many_rooms_ok|]. intros c' conn'.
    cbn [RoomManager.join_many RoomManager.rooms]. rewrite mem_foldl_insert.
    intros [[-> _]|Hm]; [done|by eapply Hl].
  - split_and!; [done|by apply leave_rooms_ok|]. intros c' conn'.
    cbn [RoomManager.leave RoomManager.rooms]. rewrite mem_erase_in. intros [Hm _]. by eapply Hl.
  - split_and!; [by apply touch_sessions_ok|done|]. intros c conn' Hm. rewrite get_touch. by eapply Hl.
  - split_and!; [by apply remove_sessions_ok|by apply leave_all_rooms_ok|]. intros c conn'.
    rewrite (mem_leave_all _ _ _ _ Hr), get_remove. intros [Hm Hne].
    rewrite decide_False by done. by eapply Hl.
  - done.
Qed.

Lemma hub_reachable_ok m : hub_reachable m → hub_ok m.
Proof.
  induction 1 as [cl|o m Hm IH Hg]; [|by apply hub_op_ok].
  unfold hub_ok, sessions_ok, rooms_ok, mem, no_empty. cbn. setoid_rewrite lookup_empty. cbn.
  set_solver.
Qed.

(** ** Fan-out *)

Section FanOut.
Context `{JsonText} (now : TimePoint).
Implicit Types m : ConnectionManager.t.

(** The frame a session should get. *)
Definition frame_for (type : string) (data : json) (envelope : Protocol.Envelope) (s : WsSession)
    : string := json_dump (Protocol.encode (protocol_version s) now type data envelope).

(** The cache holds the frames it should. *)
Definition cache_ok (type : string) (data : json) (envelope : Protocol.Envelope)
    (c : ConnectionManager.FrameCache) : Prop :=
  (∀ f, ConnectionManager.v1 c = Some f →
     f = json_dump (Protocol.encode Protocol.kV1 now type data envelope)) ∧
  (∀ f, ConnectionManager.v2 c = Some f →
     f = json_dump (Protocol.encode Protocol.kV2 now type data envelope)).

Lemma for_version_ok type data envelope v c :
  cache_ok type data envelope c →
  let r := ConnectionManager.for_version now type data envelope v c in
  r.1 = json_dump (Protocol.encode v now type data envelope) ∧ cache_ok type data envelope r.2.
Proof.
  intros [H1 H2]. unfold ConnectionManager.for_version, cache_ok.
  destruct v; [destruct (ConnectionManager.v1 c) eqn:E|destruct (ConnectionManager.v2 c) eqn:E];
    cbn [fst snd ConnectionManager.v1 ConnectionManager.v2]; rewrite ?E.
  - split; [by apply H1|]. split; intros f Hf; [apply H1|apply H2]; congruence.
  - split; [done|]. split; intros f Hf; [congruence|by apply H2].
  - split; [by apply H2|]. split; intros f Hf; [apply H1|apply H2]; congruence.
  - split; [done|]. split; intros f Hf; [by apply H1|congruence].
Qed.

(** Caching frames changes nothing: every session gets the frame encoded for
    it. *)
Lemma send_loop_ok type data envelope exclude l : ∀ c,
  cache_ok type data envelope c →
  ConnectionManager.send_loop now type data envelope exclude c l =
    (λ s, (connection s, frame_for type data envelope s)) <$>
      filter (λ s, connection s ≠ nullptr ∧ connection s ≠ exclude) l.
Proof.
  induction l as [|s l IH]; intros c Hc; cbn [ConnectionManager.send_loop]; [done|].
  rewrite filter_cons. destruct (Z.eqb_spec (connection s) nullptr) as [En|En]; cbn [orb].
  { rewrite decide_False by tauto. by apply IH. }
  destruct (Z.eqb_spec (connection s) exclude) as [Ee|Ee].
  { rewrite decide_False by tauto. by apply IH. }
  rewrite decide_True by done.
  destruct (for_version_ok type data envelope (protocol_version s) c Hc) as [Hf Hc'].
  destruct (ConnectionManager.for_version _ _ _ _ _ _) as [f c']. cbn in Hf, Hc'.
  rewrite (IH c' Hc'). unfold ConnectionManager.send_raw.
  rewrite (proj2 (Z.eqb_neq _ _) En). cbn. by rewrite Hf.
Qed.

Lemma send_to_sessions_ok l type data envelope exclude :
  ConnectionManager.send_to_sessions now l type data envelope exclude =
    (λ s, (connection s, frame_for type data envelope s)) <$>
      filter (λ s, connection s ≠ nullptr ∧ connection s ≠ exclude) l.
Proof. apply send_loop_ok. split; intros f Hf; discriminate. Qed.

Lemma filtered_sublist (sm : SessionManager.t) (P : WsSession → Prop) `{∀ s, Decision (P s)} conns :
  (∀ conn s, SessionManager.by_connection sm !! conn = Some s → connection s = conn ∧ conn ≠ nullptr) →
  connection <$> filter P (SessionManager.sessions_for conns sm) `sublist_of` conns.
Proof.
  intros Hc. unfold SessionManager.sessions_for. induction conns as [|conn conns IH]; [constructor|].
  cbn. destruct (SessionManager.by_connection sm !! conn) as [s|] eqn:E; [|by apply sublist_cons].
  rewrite filter_cons. case_decide; [|by apply sublist_cons]. cbn.
  destruct (Hc _ _ E) as [-> _]. by apply sublist_skip.
Qed.

(** Sending to the sessions of a duplicate-free list of registered connections. *)
Lemma send_conns_ok (sm : SessionManager.t) type data exclude (conns : list Conn) :
  sessions_ok sm → NoDup conns →
  let l := ConnectionManager.send_to_sessions now (SessionManager.sessions_for conns sm) type data
             Protocol.no_envelope exclude in
  NoDup l.*1 ∧
  ∀ conn f, (conn, f) ∈ l ↔
    conn ∈ conns ∧ ∃ s, SessionManager.get conn sm = Some s ∧ conn ≠ exclude ∧
      f = frame_for type data Protocol.no_envelope s.
Proof.
  intros (Hc & _ & _) Hnd. cbn zeta. rewrite send_to_sessions_ok. split.
  - rewrite <- list_fmap_compose. eapply sublist_NoDup; [exact Hnd|]. by apply filtered_sublist.
  - intros conn f. rewrite list_elem_of_fmap. split.
    + intros (s & [= -> ->] & Hs). apply list_elem_of_filter in Hs as [[_ Hex] Hs].
      apply list_elem_of_omap in Hs as (conn & Hin & Hs). destruct (Hc _ _ Hs) as [Heq _].
      rewrite Heq in Hex |- *. split; [done|]. exists s. done.
    + intros (Hin & s & Hs & Hex & ->). destruct (Hc _ _ Hs) as [Hs1 Hs2]. exists s. rewrite Hs1.
      split; [done|]. apply list_elem_of_filter. rewrite Hs1. split; [done|].
      apply list_elem_of_omap. by exists conn.
Qed.

Lemma sessions_for_user_eq uid sm :
  SessionManager.sessions_for_user uid sm =
    SessionManager.sessions_for (SessionManager.connections_for_user uid sm) sm.
Proof.
  unfold SessionManager.sessions_for_user, SessionManager.connections_for_user.
  by destruct (SessionManager.by_user sm !! uid).
Qed.

(** The frames of a local delivery. *)
Definition local_frames (ids : list Z) (type : string) (data : json) (sm : SessionManager.t)
    : list (Conn * string) :=
  ids ≫= λ uid, ConnectionManager.send_to_sessions now (SessionManager.sessions_for_user uid sm)
                  type data Protocol.no_envelope nullptr.

Lemma add_sent_app l1 l2 m :
  ConnectionManager.add_sent l2 (ConnectionManager.add_sent l1 m) =
    ConnectionManager.add_sent (l1 ++ l2) m.
Proof. unfold ConnectionManager.add_sent. cbn. by rewrite (assoc_L (++)). Qed.

Lemma add_sent_nil m : ConnectionManager.add_sent [] m = m.
Proof. destruct m. unfold ConnectionManager.add_sent. cbn. by rewrite app_nil_r. Qed.

Lemma deliver_local_eq ids type data : ∀ m,
  ConnectionManager.deliver_local now ids type data m =
    ConnectionManager.add_sent (local_frames ids type data (ConnectionManager.sessions m)) m.
Proof.
  unfold ConnectionManager.deliver_local, local_frames.
  induction ids as [|uid ids IH]; intros m; cbn [foldl mbind list_bind]; [by rewrite add_sent_nil|].
  rewrite IH, add_sent_app. done.
Qed.

Lemma local_frames_ok ids type data sm :
  sessions_ok sm → NoDup ids →
  NoDup (local_frames ids type data sm).*1 ∧
  ∀ conn f, (conn, f) ∈ local_frames ids type data sm ↔
    ∃ s, SessionManager.get conn sm = Some s ∧ user_id s ∈ ids ∧
         f = frame_for type data Protocol.no_envelope s.
Proof.
  intros Hok. unfold local_frames. induction ids as [|uid ids IH]; intros Hnd; cbn [mbind list_bind].
  { split; [constructor|]. intros conn f. rewrite elem_of_nil. split; [done|].
    intros (s & _ & Hs & _). by apply elem_of_nil in Hs. }
  apply NoDup_cons in Hnd as [Hn Hnd]. destruct (IH Hnd) as [IH1 IH2]. clear IH.
  rewrite sessions_for_user_eq.
  destruct (send_conns_ok sm type data nullptr (SessionManager.connections_for_user uid sm) Hok)
    as [S1 S2]; [apply NoDup_elements_in|].
  set (l1 := ConnectionManager.send_to_sessions _ _ _ _ _ _) in *. set (l2 := ids ≫= _) in *.
  assert (∀ conn f, (conn, f) ∈ l1 ↔ ∃ s, SessionManager.get conn sm = Some s ∧ user_id s = uid ∧
            f = frame_for type data Protocol.no_envelope s) as S2'.
  { intros conn f. rewrite S2. unfold SessionManager.connections_for_user. rewrite mem_elements.
    destruct Hok as (Hc & Hu & _). rewrite Hu. unfold SessionManager.get. split.
    - intros [(s' & Hs' & Hus) (s & Hs & _ & ->)]. exists s. split_and!; congruence.
    - intros (s & Hs & Hus & ->). split; [by exists s|]. exists s. destruct (Hc _ _ Hs). done. }
  split.
  - rewrite fmap_app. apply NoDup_app. split_and!; [done| |done].
    intros conn H1 H2. apply list_elem_of_fmap in H1 as ([? f1] & -> & H1).
    apply list_elem_of_fmap in H2 as ([? f2] & Heq & H2). cbn in Heq. subst.
    apply S2' in H1 as (s1 & Hs1 & Hu1 & _). apply IH2 in H2 as (s2 & Hs2 & Hu2 & _).
    rewrite Hs1 in Hs2. injection Hs2 as <-. congruence.
  - intros conn f. rewrite elem_of_app, S2', IH2. setoid_rewrite elem_of_cons. naive_solver.
Qed.

(** Only registered connections are sent to. *)
Lemma send_registered sm conns type data exclude conn f :
  sessions_ok sm →
  (conn, f) ∈ ConnectionManager.send_to_sessions now (SessionManager.sessions_for conns sm) type data
                Protocol.no_envelope exclude →
  is_Some (SessionManager.get conn sm).
Proof.
  intros (Hc & _). rewrite send_to_sessions_ok, list_elem_of_fmap.
  intros (s & [= -> ->] & Hs). apply list_elem_of_filter in Hs as [_ Hs].
  apply list_elem_of_omap in Hs as (conn & _ & Hs). destruct (Hc _ _ Hs) as [-> _]. by exists s.
Qed.

Lemma local_frames_registered sm ids type data conn f :
  sessions_ok sm → (conn, f) ∈ local_frames ids type data sm → is_Some (SessionManager.get conn sm).
Proof.
  intros Hok. unfold local_frames. rewrite list_elem_of_bind. intros (uid & Hin & _).
  rewrite sessions_for_user_eq in Hin. by eapply send_registered.
Qed.

Lemma publish_eq ids type data m :
  ConnectionManager.publish now ids type data m =
    let m' := ConnectionManager.add_sent
                (local_frames ids type data (ConnectionManager.sessions m)) m in
    if ConnectionManager.cluster m
    then ConnectionManager.add_published (ClusterChannels.kUserBroadcast,
           jobj [("event", JStr type); ("user_ids", JArr (JInt <$> ids)); ("data", data)]) m'
    else m'.
Proof. unfold ConnectionManager.publish. by rewrite deliver_local_eq. Qed.
End FanOut.

(** C18. A published event reaches exactly the live sessions of the users it names:
    one frame each, in the protocol version the session negotiated, and nothing
    for anybody else; the registry is unchanged, and with a cluster bus attached
    one message goes out on it. *)
Theorem publish_exact `{JsonText} (now : TimePoint) (ids : list Z) (type : string) (data : json)
    (m : ConnectionManager.t) :
  hub_reachable m → NoDup ids →
  let m' := ConnectionManager.publish now ids type data m in
  ConnectionManager.sessions m' = ConnectionManager.sessions m ∧
  ConnectionManager.rooms m' = ConnectionManager.rooms m ∧
  length (ConnectionManager.published m') =
    (length (ConnectionManager.published m) + if ConnectionManager.cluster m then 1 else 0)%nat ∧
  ∃ l, ConnectionManager.sent m' = (ConnectionManager.sent m ++ l)%list ∧
    NoDup l.*1 ∧
    ∀ conn f, (conn, f) ∈ l ↔
      ∃ s, SessionManager.get conn (ConnectionManager.sessions m) = Some s ∧ user_id s ∈ ids ∧
           f = json_dump (Protocol.encode (protocol_version s) now type data Protocol.no_envelope).
Proof.
  intros Hr Hnd. apply hub_reachable_ok in Hr as (Hs & _). cbn zeta.
  rewrite publish_eq. split; [by destruct (ConnectionManager.cluster m)|].
  split; [by destruct (ConnectionManager.cluster m)|].
  split; [destruct (ConnectionManager.cluster m); cbn; rewrite ?length_app; cbn; lia|].
  exists (local_frames now ids type data (ConnectionManager.sessions m)).
  split; [by destruct (ConnectionManager.cluster m)|]. by apply local_frames_ok.
Qed.

(** Steps of the registry, each enabled. *)
Fixpoint enabled (ops : list HubOp) (m : ConnectionManager.t) : Prop :=
  match ops with
  | [] => True
  | o :: ops => op_guard o m ∧ enabled ops (hub_op o m)
  end.
Definition hub_ops (ops : list HubOp) (m : ConnectionManager.t) : ConnectionManager.t :=
  foldl (λ m o, hub_op o m) m ops.

Lemma hub_ops_reachable ops : ∀ m, hub_reachable m → enabled ops m → hub_reachable (hub_ops ops m).
Proof.
  induction ops as [|o ops IH]; intros m Hm; cbn; [done|]. intros [Hg He].
  apply IH; [by constructor|done].
Qed.

(** A step that does not open [conn] does not register it. *)
Lemma get_hub_op conn o m :
  (∀ uid name v, o ≠ OpOpen conn uid name v) →
  SessionManager.get conn (ConnectionManager.sessions m) = None →
  SessionManager.get conn (ConnectionManager.sessions (hub_op o m)) = None.
Proof.
  intros Hne Hn. destruct o as [conn' uid name v|c conn'|cs conn'|c conn'|conn' t|conn'|l ps];
    cbn [hub_op]; try done.
  - cbn. unfold SessionManager.get. cbn. rewrite lookup_insert_ne; [done|].
    intros ->. by apply (Hne uid name v).
  - apply eq_None_not_Some. cbn. rewrite get_touch. rewrite Hn. by apply is_Some_None.
  - rewrite unregister_eq. cbn [snd ConnectionManager.sessions ConnectionManager.set_sessions].
    rewrite get_remove. by case_decide.
Qed.

Lemma get_hub_ops conn ops : ∀ m,
  Forall (λ o, ∀ uid name v, o ≠ OpOpen conn uid name v) ops →
  SessionManager.get conn (ConnectionManager.sessions m) = None →
  SessionManager.get conn (ConnectionManager.sessions (hub_ops ops m)) = None.
Proof.
  induction ops as [|o ops IH]; intros m Hf Hn; cbn; [done|].
  apply Forall_cons in Hf as [Ho Hf]. apply IH; [done|]. by apply get_hub_op.
Qed.


(** ** A registry to evaluate *)

Definition sample_hub : ConnectionManager.t :=
  hub_ops [OpOpen 10 1 "ann" Protocol.kV1; OpOpen 11 1 "ann" Protocol.kV2; OpOpen 20 2 "bob" Protocol.kV1;
           OpJoinMany [1] 10; OpJoinMany [1] 20]
    (ConnectionManager.mk SessionManager.empty RoomManager.empty true [] []).

Lemma sample_hub_reachable : hub_reachable sample_hub.
Proof.
  apply hub_ops_reachable; [constructor|]. cbn [enabled op_guard]. unfold nullptr.
  split_and!; try lia; try done; vm_compute; eauto.
Qed.

Lemma publish_exact_witness :
  let lib := one_value JNull in
  (ConnectionManager.sent (ConnectionManager.publish (H:=lib) 0 [1] "pong" JNull sample_hub)).*1 =
    [11; 10] ∧
  ∃ l, ConnectionManager.sent (ConnectionManager.publish (H:=lib) 0 [1] "pong" JNull sample_hub) =
         (ConnectionManager.sent sample_hub ++ l)%list ∧ NoDup l.*1.
Proof.
  split; [vm_compute; reflexivity|].
  destruct (publish_exact (H:=one_value JNull) 0 [1] "pong" JNull sample_hub sample_hub_reachable)
    as (_ & _ & _ & l & Hl & Hnd & _).
  - apply NoDup_singleton.
  - exists l. split; assumption.
Defined.

