(* ===== verification/Presence.v ===== *)
(** * Presence: who is online, across instances

    Models src/services/presence_service.cpp, the deltas of
    include/rtc/services/presence_publisher.hpp and the adapters of
    include/rtc/realtime/cluster_presence.hpp.  A cluster is a set of instances
    with an ordered channel from each to each other one, as the bus keeps the
    order of one publisher. *)

From S2P Require Import Prelude Text Json Errors TimeUtil Models Dto Protocol Connections.
From S2P Require Import ConnectionProps.
Open Scope string_scope.
Open Scope Z_scope.

Module PresenceDelta.
(* include/rtc/services/presence_publisher.hpp:22-29, PresenceDelta *)
Record t := mk { user_id : Z; online : bool; at_ms : Z }.

(* include/rtc/services/presence_publisher.hpp:31-33, PresenceDelta::to_json *)
Definition to_json (d : t) : json :=
  jobj [("user_id", JInt (user_id d)); ("online", JBool (online d)); ("at_ms", JInt (at_ms d))].

(* include/rtc/services/presence_publisher.hpp:35-47, PresenceDelta::from_json *)
Definition from_json (body : json) : t :=
  mk (match find body "user_id" with Some (JInt z) => get_int64 z | _ => 0 end)
     (match find body "online" with Some (JBool b) => b | _ => false end)
     (match find body "at_ms" with Some (JInt z) => get_int64 z | _ => 0 end).

Lemma delta_json_roundtrip d :
  in_int64 (user_id d) = true → in_int64 (at_ms d) = true → from_json (to_json d) = d.
Proof.
  unfold in_int64. rewrite !in_range_spec. intros Hu Ha. destruct d as [u o a]. unfold from_json.
  cbn in Hu, Ha. change (find (to_json (mk u o a)) "user_id") with (Some (JInt u)).
  change (find (to_json (mk u o a)) "online") with (Some (JBool o)).
  change (find (to_json (mk u o a)) "at_ms") with (Some (JInt a)).
  cbn iota. by rewrite (get_int64_id u Hu), (get_int64_id a Ha).
Qed.
End PresenceDelta.

Module PresenceService.
(* include/rtc/services/presence_service.hpp:98-104, PresenceService *)
Record t := mk {
  sessions : gmap Z Z; last_seen_ : gmap Z TimePoint; remote : gmap string (gset Z) }.

Definition empty : t := mk ∅ ∅ ∅.

(** [now_ms()] of a clock in nanoseconds. *)
Definition now_ms (now : TimePoint) : Z := Z.quot now 1000000.

(* src/services/presence_service.cpp:17-24, PresenceService::online_remotely_locked *)
Definition online_remotely_locked (user_id : Z) (p : t) : bool :=
  existsb (λ nu : string * gset Z, bool_decide (user_id ∈ nu.2)) (map_to_list (remote p)).

(** [sessions_.find(user_id)] with a positive count. *)
(* src/services/presence_service.cpp:133-137, PresenceService::is_online_locally *)
Definition is_online_locally (user_id : Z) (p : t) : bool :=
  match sessions p !! user_id with Some n => 0 <? n | None => false end.

(* src/services/presence_service.cpp:26-32, PresenceService::online_anywhere_locked *)
Definition online_anywhere_locked (user_id : Z) (p : t) : bool :=
  is_online_locally user_id p || online_remotely_locked user_id p.

(* src/services/presence_service.cpp:34-61, PresenceService::on_connect *)
Definition on_connect (now : TimePoint) (user_id : Z) (p : t) : bool * option PresenceDelta.t * t :=
  let was_online := online_anywhere_locked user_id p in
  let previous := default 0 (sessions p !! user_id) in
  (negb was_online,
   (if previous =? 0 then Some (PresenceDelta.mk user_id true (now_ms now)) else None),
   mk (<[user_id := previous + 1]> (sessions p)) (last_seen_ p) (remote p)).

(* src/services/presence_service.cpp:63-95, PresenceService::on_disconnect *)
Definition on_disconnect (now : TimePoint) (user_id : Z) (p : t)
    : bool * option PresenceDelta.t * t :=
  match sessions p !! user_id with
  | None => (false, None, p)
  | Some n =>
      if n =? 0 then (false, None, p)
      else if 0 <? n - 1 then
        (false, None, mk (<[user_id := n - 1]> (sessions p)) (last_seen_ p) (remote p))
      else
        let became_offline := negb (online_remotely_locked user_id p) in
        (became_offline, Some (PresenceDelta.mk user_id false (now_ms now)),
         mk (delete user_id (sessions p))
            (if became_offline then <[user_id := now]> (last_seen_ p) else last_seen_ p) (remote p))
  end.

(* src/services/presence_service.cpp:97-121, PresenceService::apply_remote *)
Definition apply_remote (now : TimePoint) (node : string) (delta : PresenceDelta.t) (p : t) : t :=
  let u := PresenceDelta.user_id delta in
  if PresenceDelta.online delta
  then mk (sessions p) (last_seen_ p) (insert_in node u (remote p))
  else
    match remote p !! node with
    | None => p
    | Some _ =>
        let p := mk (sessions p) (last_seen_ p) (erase_in node u (remote p)) in
        if online_anywhere_locked u p then p
        else mk (sessions p) (<[u := now]> (last_seen_ p)) (remote p)
    end.

(* src/services/presence_service.cpp:123-126, PresenceService::forget_node *)
Definition forget_node (node : string) (p : t) : t :=
  mk (sessions p) (last_seen_ p) (delete node (remote p)).

(* src/services/presence_service.cpp:128-131, PresenceService::is_online *)
Definition is_online (user_id : Z) (p : t) : bool := online_anywhere_locked user_id p.

(* src/services/presence_service.cpp:139-146, PresenceService::last_seen *)
Definition last_seen (user_id : Z) (p : t) : option TimePoint := last_seen_ p !! user_id.

(* src/services/presence_service.cpp:148-166, PresenceService::online_count *)
Definition online_count (p : t) : nat :=
  if decide (remote p = ∅) then size (sessions p)
  else size (dom (filter (λ kn, 0 < kn.2) (sessions p)) ∪ ⋃ (map_to_list (remote p)).*2).

(* src/services/presence_service.cpp:168-171, PresenceService::local_online_count *)
Definition local_online_count (p : t) : nat := size (sessions p).

(* src/services/presence_service.cpp:173-176, PresenceService::known_peer_count *)
Definition known_peer_count (p : t) : nat := size (remote p).
End PresenceService.

(** ** One instance *)

Module PresenceFacts.
Import PresenceService.

Lemma online_remotely_spec u p :
  online_remotely_locked u p = true ↔ ∃ node, mem (remote p) node u.
Proof.
  unfold online_remotely_locked. rewrite existsb_exists. setoid_rewrite <- list_elem_of_In.
  split.
  - intros ([node s] & Hin & Hu). exists node. apply elem_of_map_to_list in Hin.
    apply bool_decide_eq_true in Hu. unfold mem. by rewrite Hin.
  - intros (node & Hm). unfold mem in Hm. destruct (remote p !! node) as [s|] eqn:E; [|done].
    exists (node, s). split; [by apply elem_of_map_to_list|]. by apply bool_decide_eq_true.
Qed.

(** Counts are positive. *)
Definition counts_ok (p : t) : Prop := ∀ u n, sessions p !! u = Some n → 0 < n.

Lemma online_locally_spec u p :
  counts_ok p → is_online_locally u p = true ↔ is_Some (sessions p !! u).
Proof.
  intros Hok. unfold is_online_locally. destruct (sessions p !! u) as [n|] eqn:E.
  - specialize (Hok _ _ E). rewrite Z.ltb_lt. split; [eauto|done].
  - split; [done|]. intros [? ?]; done.
Qed.

(** What connecting does: the count goes up by one, and the delta reports the
    local transition. *)
Lemma on_connect_spec now u p :
  counts_ok p →
  let '(became, delta, p') := on_connect now u p in
  became = negb (is_online u p) ∧
  delta = (if is_online_locally u p then None else Some (PresenceDelta.mk u true (now_ms now))) ∧
  (∀ v, default 0 (sessions p' !! v) = default 0 (sessions p !! v) + if decide (v = u) then 1 else 0) ∧
  counts_ok p' ∧ remote p' = remote p ∧ is_online_locally u p' = true ∧
  (∀ v, v ≠ u → is_online_locally v p' = is_online_locally v p).
Proof.
  intros Hok. unfold on_connect. split_and!; cbn [sessions remote].
  - done.
  - unfold is_online_locally. destruct (sessions p !! u) as [n|] eqn:E; simpl; [|done].
    specialize (Hok _ _ E). rewrite (proj2 (Z.eqb_neq n 0)), (proj2 (Z.ltb_lt 0 n)) by lia. done.
  - intros v. case_decide; [subst; rewrite lookup_insert_eq; simpl; lia|].
    rewrite lookup_insert_ne by done. lia.
  - intros v n. cbn [sessions]. rewrite lookup_insert_Some. intros [[<- <-]|[_ Hn]]; [|by eapply Hok].
    destruct (sessions p !! u) eqn:E; simpl; [specialize (Hok _ _ E)|]; lia.
  - done.
  - unfold is_online_locally. cbn [sessions]. rewrite lookup_insert_eq. apply Z.ltb_lt.
    destruct (sessions p !! u) eqn:E; simpl; [specialize (Hok _ _ E)|]; lia.
  - intros v Hv. unfold is_online_locally. cbn [sessions]. by rewrite lookup_insert_ne.
Qed.

(** What disconnecting a live session does. *)
Lemma on_disconnect_spec now u p :
  counts_ok p →
  let '(became, delta, p') := on_disconnect now u p in
  became = is_online_locally u p && negb (is_online u p') ∧
  delta = (if is_online_locally u p && negb (is_online_locally u p')
           then Some (PresenceDelta.mk u false (now_ms now)) else None) ∧
  (∀ v, default 0 (sessions p' !! v) =
        default 0 (sessions p !! v) - if decide (v = u ∧ is_online_locally u p = true) then 1 else 0) ∧
  counts_ok p' ∧ remote p' = remote p ∧
  (∀ v, v ≠ u → is_online_locally v p' = is_online_locally v p).
Proof.
  intros Hok. unfold on_disconnect. destruct (sessions p !! u) as [n|] eqn:E; cycle 1.
  { assert (is_online_locally u p = false) as Hl by (unfold is_online_locally; by rewrite E).
    rewrite Hl. split_and!; try done. intros v. rewrite decide_False by naive_solver. lia. }
  specialize (Hok _ _ E) as Hn. rewrite (proj2 (Z.eqb_neq n 0)) by lia.
  assert (is_online_locally u p = true) as Hl.
  { unfold is_online_locally. rewrite E. by apply Z.ltb_lt. }
  rewrite Hl. destruct (Z.ltb_spec 0 (n - 1)) as [Hm|Hm]; cbn [sessions remote andb].
  - assert (∀ l r, is_online_locally u (mk (<[u := n - 1]> (sessions p)) l r) = true) as Hl'.
    { intros l r. unfold is_online_locally. cbn [sessions]. rewrite lookup_insert_eq. by apply Z.ltb_lt. }
    unfold is_online, online_anywhere_locked. rewrite Hl'. split_and!; try done.
    + intros v. case_decide as Hd; [destruct Hd as [-> _]; rewrite lookup_insert_eq, E; simpl; lia|].
      rewrite lookup_insert_ne by naive_solver. lia.
    + intros v k. cbn [sessions]. rewrite lookup_insert_Some. intros [[<- <-]|[_ Hk]]; [lia|by eapply Hok].
    + intros v Hv. unfold is_online_locally. cbn [sessions]. by rewrite lookup_insert_ne.
  - assert (∀ l r, is_online_locally u (mk (delete u (sessions p)) l r) = false) as Hl'.
    { intros l r. unfold is_online_locally. cbn [sessions]. by rewrite lookup_delete_eq. }
    unfold is_online, online_anywhere_locked. rewrite Hl'. split_and!; try done.
    + intros v. case_decide as Hd; [destruct Hd as [-> _]; rewrite lookup_delete_eq, E; simpl; lia|].
      rewrite lookup_delete_ne by naive_solver. lia.
    + intros v k. cbn [sessions]. rewrite lookup_delete_Some. intros [_ Hk]. by eapply Hok.
    + intros v Hv. unfold is_online_locally. cbn [sessions]. by rewrite lookup_delete_ne.
Qed.

(** What another instance's delta does. *)
Lemma apply_remote_spec now node d p :
  sessions (apply_remote now node d p) = sessions p ∧
  ∀ node' u, mem (remote (apply_remote now node d p)) node' u ↔
    if decide (node' = node ∧ u = PresenceDelta.user_id d)
    then PresenceDelta.online d = true else mem (remote p) node' u.
Proof.
  unfold apply_remote. destruct (PresenceDelta.online d) eqn:Ho.
  { split; [done|]. intros node' u. cbn [remote]. rewrite mem_insert_in. case_decide; naive_solver. }
  destruct (remote p !! node) as [s|] eqn:E; cycle 1.
  { split; [done|]. intros node' u. case_decide as Hd; [|done]. destruct Hd as [-> ->].
    unfold mem. rewrite E. simpl. set_solver. }
  split; [by case_match|]. intros node' u.
  match goal with |- mem (remote (if ?b then ?x else ?y)) _ _ ↔ _ =>
    assert (remote (if b then x else y) = erase_in node (PresenceDelta.user_id d) (remote p)) as ->
      by (by destruct b) end.
  rewrite mem_erase_in. case_decide; naive_solver.
Qed.
End PresenceFacts.

(** ** A cluster of instances *)

Module PresenceCluster.
Import PresenceService PresenceFacts.

(** [live n u] counts the sockets of user [u] on instance [n]; [chan n n'] are the
    deltas published by [n] that [n'] has not handled yet, oldest first. *)
Record st := mkC {
  node : string → PresenceService.t; chan : string → string → list PresenceDelta.t;
  live : string → Z → Z }.

Definition init : st := mkC (λ _, PresenceService.empty) (λ _ _, []) (λ _ _, 0).

Inductive COp :=
  | CConnect (n : string) (u : Z) (now : TimePoint)
  | CDisconnect (n : string) (u : Z) (now : TimePoint)
  | CDeliver (src dst : string) (now : TimePoint).

(** What the caller of [on_connect] or [on_disconnect] is told. *)
Definition told (o : COp) (c : st) : bool :=
  match o with
  | CConnect n u now => (on_connect now u (node c n)).1.1
  | CDisconnect n u now => (on_disconnect now u (node c n)).1.1
  | CDeliver _ _ _ => false
  end.

Definition set_node n p (f : string → PresenceService.t) : string → PresenceService.t :=
  λ n', if decide (n' = n) then p else f n'.
(** The bus carries a published delta to every other instance. *)
Definition broadcast n (d : option PresenceDelta.t) (ch : string → string → list PresenceDelta.t) :=
  λ src dst, if decide (src = n ∧ dst ≠ n) then (ch src dst ++ option_list d)%list else ch src dst.

Definition cstep (o : COp) (c : st) : st :=
  match o with
  | CConnect n u now =>
      let '(_, d, p) := on_connect now u (node c n) in
      mkC (set_node n p (node c)) (broadcast n d (chan c))
        (λ n' u', if decide (n' = n ∧ u' = u) then live c n u + 1 else live c n' u')
  | CDisconnect n u now =>
      let '(_, d, p) := on_disconnect now u (node c n) in
      mkC (set_node n p (node c)) (broadcast n d (chan c))
        (λ n' u', if decide (n' = n ∧ u' = u) then Z.max 0 (live c n u - 1) else live c n' u')
  | CDeliver src dst now =>
      match chan c src dst with
      | [] => c
      | d :: rest =>
          mkC (set_node dst (apply_remote now src d (node c dst)) (node c))
            (λ s t, if decide (s = src ∧ t = dst) then rest else chan c s t) (live c)
      end
  end.

Definition crun (os : list COp) (c : st) : st := foldl (λ c o, cstep o c) c os.

Fixpoint tolds (os : list COp) (c : st) : list bool :=
  match os with [] => [] | o :: os => told o c :: tolds os (cstep o c) end.

(** The view of user [u] once the pending deltas are applied to [b]. *)
Definition settle (q : list PresenceDelta.t) (u : Z) (b : bool) : bool :=
  foldl (λ b d, if decide (PresenceDelta.user_id d = u) then PresenceDelta.online d else b) b q.

Definition believes (c : st) (dst src : string) (u : Z) : bool :=
  bool_decide (mem (remote (node c dst)) src u).

Definition cluster_ok (c : st) : Prop :=
  (∀ n, counts_ok (node c n)) ∧
  (∀ n u, default 0 (sessions (node c n) !! u) = live c n u) ∧
  (∀ src dst u, src ≠ dst →
     settle (chan c src dst) u (believes c dst src u) = is_online_locally u (node c src)) ∧
  (∀ n u, ¬ mem (remote (node c n)) n u) ∧
  (∀ n, chan c n n = []).

Lemma settle_app q q' u b : settle (q ++ q') u b = settle q' u (settle q u b).
Proof. apply foldl_app. Qed.

Lemma settle_one d u b :
  settle [d] u b = if decide (PresenceDelta.user_id d = u) then PresenceDelta.online d else b.
Proof. done. Qed.

Lemma init_ok : cluster_ok init.
Proof. split_and!; done. Qed.

Lemma set_node_eq n p f : set_node n p f n = p.
Proof. unfold set_node. by rewrite decide_True. Qed.
Lemma set_node_ne n p f n' : n' ≠ n → set_node n p f n' = f n'.
Proof. intros. unfold set_node. by rewrite decide_False. Qed.

(** A local transition that is reported faithfully keeps the invariant. *)
Lemma local_step_ok (c : st) n u d p lv :
  cluster_ok c → counts_ok p → remote p = remote (node c n) →
  (∀ v, v ≠ u → is_online_locally v p = is_online_locally v (node c n)) →
  match d with
  | Some d => PresenceDelta.user_id d = u ∧ PresenceDelta.online d = is_online_locally u p
  | None => is_online_locally u p = is_online_locally u (node c n)
  end →
  (∀ v, default 0 (sessions p !! v) = lv n v) → (∀ n' v, n' ≠ n → lv n' v = live c n' v) →
  cluster_ok (mkC (set_node n p (node c)) (broadcast n d (chan c)) lv).
Proof.
  intros (Hc & Hl & Hs & Hm & Hch) Hp Hr Hv Hd Hlv Hlv'. unfold cluster_ok, believes.
  cbn [node chan live].
  assert (∀ dst, remote (set_node n p (node c) dst) = remote (node c dst)) as Hrem.
  { intros dst. destruct (decide (dst = n)) as [->|]; [by rewrite set_node_eq|by rewrite set_node_ne]. }
  split_and!.
  - intros n'. destruct (decide (n' = n)) as [->|]; [by rewrite set_node_eq|by rewrite set_node_ne].
  - intros n' v. destruct (decide (n' = n)) as [->|]; [by rewrite set_node_eq|].
    rewrite set_node_ne by done. rewrite Hl. by rewrite Hlv'.
  - intros src dst v Hne. specialize (Hs src dst v Hne). unfold believes in Hs. rewrite Hrem.
    unfold broadcast. destruct (decide (src = n)) as [->|Hsn]; cycle 1.
    { rewrite decide_False by tauto. by rewrite set_node_ne. }
    rewrite decide_True by (split; congruence). rewrite set_node_eq, settle_app, Hs.
    destruct d as [d|]; [change (option_list (Some d)) with [d]; rewrite settle_one|].
    + destruct Hd as [<- Hon]. case_decide as E; [by rewrite <- E|]. by rewrite Hv.
    + change (is_online_locally v (node c n) = is_online_locally v p).
      destruct (decide (v = u)) as [->|]; [done|]. by rewrite Hv.
  - intros n' v. rewrite Hrem. apply Hm.
  - intros n'. unfold broadcast. case_decide as E; [destruct E as [-> E]; contradiction|apply Hch].
Qed.

Lemma cstep_ok o c : cluster_ok c → cluster_ok (cstep o c).
Proof.
  intros Hok. pose proof Hok as (Hc & Hl & Hs & Hm & Hch).
  destruct o as [n u now|n u now|src dst now]; cbn [cstep].
  - pose proof (on_connect_spec now u (node c n) (Hc n)) as Hsp.
    destruct (on_connect now u (node c n)) as [[b d] p].
    destruct Hsp as (_ & -> & Hcnt & Hp & Hr & Hon & Hother).
    apply (local_step_ok c n u); try done.
    + destruct (is_online_locally u (node c n)); cbn; [congruence|by rewrite Hon].
    + intros v. rewrite Hcnt, Hl. repeat case_decide; naive_solver lia.
    + intros n' v Hne. by rewrite decide_False by tauto.
  - pose proof (on_disconnect_spec now u (node c n) (Hc n)) as Hsp.
    destruct (on_disconnect now u (node c n)) as [[b d] p].
    destruct Hsp as (_ & -> & Hcnt & Hp & Hr & Hother).
    assert (is_online_locally u (node c n) = true ↔ 0 < live c n u) as Hlive.
    { rewrite online_locally_spec by done. rewrite <- Hl. split; [intros [k Hk]; rewrite Hk; by eapply Hc|].
      destruct (sessions (node c n) !! u); simpl; [eauto|lia]. }
    assert (is_online_locally u p = true → is_online_locally u (node c n) = true) as Hmono.
    { rewrite (online_locally_spec u p Hp). intros [k Hk]. specialize (Hcnt u). rewrite Hk in Hcnt.
      apply Hp in Hk. apply Hlive. rewrite <- Hl. simpl in Hcnt. case_decide; lia. }
    assert (0 <= live c n u) as Hpos.
    { rewrite <- Hl. destruct (sessions (node c n) !! u) eqn:E; simpl; [|lia]. apply Hc in E. lia. }
    apply (local_step_ok c n u); try done.
    + destruct (is_online_locally u (node c n)) eqn:E1, (is_online_locally u p) eqn:E2; cbn; try done.
      by specialize (Hmono eq_refl).
    + intros v. rewrite Hcnt, Hl.
      destruct (decide (v = u)) as [->|Hv]; [|rewrite !decide_False by tauto; lia].
      rewrite (decide_True (P := n = n ∧ u = u)) by done.
      destruct (is_online_locally u (node c n)) eqn:E.
      * rewrite decide_True by done. assert (0 < live c n u) by (by apply Hlive). lia.
      * rewrite decide_False by (intros [_ ?]; done).
        assert (¬ 0 < live c n u) by (intros Hx; apply Hlive in Hx; done). lia.
    + intros n' v Hne. by rewrite decide_False by tauto.
  - destruct (chan c src dst) as [|d rest] eqn:E; [done|].
    assert (src ≠ dst) as Hsd by (intros ->; by rewrite Hch in E).
    destruct (apply_remote_spec now src d (node c dst)) as [Hses Hmem].
    set (p := apply_remote now src d (node c dst)) in *. unfold cluster_ok, believes.
    cbn [node chan live]. split_and!.
    + intros n. destruct (decide (n = dst)) as [->|]; [|by rewrite set_node_ne].
      rewrite set_node_eq. unfold counts_ok. rewrite Hses. apply Hc.
    + intros n u. rewrite <- Hl. destruct (decide (n = dst)) as [->|]; [|by rewrite set_node_ne].
      by rewrite set_node_eq, Hses.
    + intros s t u Hne. specialize (Hs s t u Hne). unfold believes in Hs.
      assert (is_online_locally u (set_node dst p (node c) s) = is_online_locally u (node c s)) as ->.
      { unfold is_online_locally. destruct (decide (s = dst)) as [->|]; [|by rewrite set_node_ne].
        by rewrite set_node_eq, Hses. }
      rewrite <- Hs. destruct (decide (t = dst)) as [->|Ht]; cycle 1.
      { rewrite decide_False by tauto. by rewrite set_node_ne. }
      rewrite set_node_eq. destruct (decide (s = src)) as [->|Hss].
      * rewrite decide_True by done. rewrite E. unfold settle. cbn [foldl]. f_equal.
        case_decide as Eu.
        -- destruct (PresenceDelta.online d) eqn:Eo;
             [apply bool_decide_eq_true|apply bool_decide_eq_false]; rewrite Hmem, decide_True; done.
        -- apply bool_decide_ext. rewrite Hmem, decide_False; [done|]. naive_solver.
      * rewrite decide_False by tauto. f_equal. apply bool_decide_ext.
        rewrite Hmem, decide_False; [done|]. tauto.
    + intros n u. destruct (decide (n = dst)) as [->|]; [|by rewrite set_node_ne].
      rewrite set_node_eq, Hmem, decide_False by naive_solver. apply Hm.
    + intros n. case_decide; [naive_solver|apply Hch].
Qed.

Lemma crun_ok os : ∀ c, cluster_ok c → cluster_ok (crun os c).
Proof. induction os as [|o os IH]; intros c Hc; cbn; [done|]. by apply IH, cstep_ok. Qed.
End PresenceCluster.


(** Going offline can go unannounced: with one session each on two instances,
    both sockets closing before either instance has heard of the other one's
    delta, neither caller is told that the user went offline, and no later
    delivery tells anyone, although the user is then offline everywhere. *)
Theorem simultaneous_sign_off_unannounced :
  let open := [PresenceCluster.CConnect "A" 7 1; PresenceCluster.CDeliver "A" "B" 2;
               PresenceCluster.CConnect "B" 7 3; PresenceCluster.CDeliver "B" "A" 4] in
  let close := [PresenceCluster.CDisconnect "A" 7 5; PresenceCluster.CDisconnect "B" 7 5;
                PresenceCluster.CDeliver "A" "B" 6; PresenceCluster.CDeliver "B" "A" 6] in
  let c := PresenceCluster.crun open PresenceCluster.init in
  PresenceService.is_online 7 (PresenceCluster.node c "A") = true ∧
  PresenceCluster.tolds close c = [false; false; false; false] ∧
  PresenceService.is_online 7 (PresenceCluster.node (PresenceCluster.crun close c) "A") = false ∧
  PresenceService.is_online 7 (PresenceCluster.node (PresenceCluster.crun close c) "B") = false.
Proof.
  cbn zeta. split_and!; vm_compute; reflexivity.
Qed.

