(* ===== verification/Dispatcher.v ===== *)
(** * Dispatcher: WebSocket lifecycle and frames

    Models src/realtime/event_dispatcher.cpp, the handshake of
    src/controllers/websocket_controller.cpp with the bearer token of
    src/middlewares/auth_middleware.cpp, and the sweep of
    src/realtime/heartbeat_monitor.cpp.  The state joins the connection
    registry, presence and the world of the services; what a service broadcasts
    goes to the connection manager at once.  The steady clock is an argument;
    spans and log lines are left out. *)

From S2P Require Import Prelude Text Json Errors Validation TimeUtil Models Events Dto Database.
From S2P Require Import Users Conversations Repositories Attachments Messages Receipts Tokens.
From S2P Require Import Sessions Protocol Connections ConnectionProps Presence.
Open Scope string_scope.
Open Scope Z_scope.

Module ClientEvents.
(* include/rtc/realtime/events.hpp:35-41, rtc::realtime::events (client to server) *)
Definition kClientPing := "ping".
Definition kClientSendMessage := "message.send".
Definition kClientTypingStart := "typing.start".
Definition kClientTypingStop := "typing.stop".
Definition kClientMarkRead := "mark_read".
Definition kClientMarkDelivered := "mark_delivered".
End ClientEvents.

(** One instance: the hub, presence with the deltas it published, and the
    services' world. *)
Record Hub := mkHub {
  conns : ConnectionManager.t; presence : PresenceService.t; deltas : list PresenceDelta.t;
  world : World }.

Definition on_conns (f : ConnectionManager.t → ConnectionManager.t) (h : Hub) : Hub :=
  mkHub (f (conns h)) (presence h) (deltas h) (world h).
Definition hub_time (h : Hub) : TimePoint := utils_now (now (world h)).

(* include/rtc/realtime/event_dispatcher.hpp:92-93, EventDispatcher *)
Record Dispatcher := { flags : option Features.flags; publisher : bool }.

Section Dispatcher.
Context `{JsonText} (self : Dispatcher).

(** The broadcasts among the effects of a service call, as they reach the
    connection manager. *)
Definition deliver_effects (t : TimePoint) (es : list Effect) (m : ConnectionManager.t)
    : ConnectionManager.t :=
  foldl (λ m e, match e with
                | EBroadcast ids type data => ConnectionManager.publish t ids type data m
                | _ => m
                end) m es.

(** A call of a service from the hub. *)
Definition call {A} (svc : M World exn A) : M Hub exn A := λ h,
  let '(r, w') := svc (world h) in
  (r, mkHub (deliver_effects (hub_time h) (drop (length (out (world h))) (out w')) (conns h))
        (presence h) (deltas h) w').

(* src/realtime/event_dispatcher.cpp:34-38, EventDispatcher::enabled *)
Definition enabled (f : Features.t) : bool :=
  match flags self with None => true | Some fl => fl f end.

(* src/realtime/event_dispatcher.cpp:24-30, require_int *)
Definition require_int (data : json) (field : string) : result exn Z :=
  match find data field with
  | Some (JInt z) => Ok (get_int64 z)
  | _ => Err (ValidationException ("Missing integer field: " +:+ field) "")
  end.

(* src/realtime/event_dispatcher.cpp:199-207, EventDispatcher::send_error *)
Definition send_error (conn : Conn) (code message : string) (envelope : Protocol.Envelope) (h : Hub)
    : Hub :=
  on_conns (ConnectionManager.send_event (hub_time h) conn WireEvents.kError
              (jobj [("code", JStr code); ("message", JStr message)]) envelope) h.

(** A domain event handed to the publisher, if there is one. *)
Definition publish_domain (e : EventDraft) : M Hub exn unit :=
  if publisher self then call (emit (EPublish e)) else mret ().

(** [presence_.on_connect] and [on_disconnect], with the delta they publish. *)
Definition presence_step (f : PresenceService.t → bool * option PresenceDelta.t * PresenceService.t)
    : M Hub exn bool := λ h,
  let '(b, d, p) := f (presence h) in
  (Ok b, mkHub (conns h) p (deltas h ++ option_list d) (world h)).

Definition announce (ids : list Z) (uid : Z) (status : string) : M Hub exn unit :=
  modify (λ h, on_conns (ConnectionManager.publish (hub_time h) ids WireEvents.kPresenceUpdate
    (jobj [("user_id", JInt uid); ("status", JStr status)])) h).

(** The part of [on_open] inside [try]. *)
(* src/realtime/event_dispatcher.cpp:47-65, EventDispatcher::on_open (side effects) *)
Definition open_effects (conn : Conn) (uid : Z) (uname : string) : M Hub exn unit :=
  ids ← call (ConversationService.conversation_ids uid);
  modify (on_conns (λ m, ConnectionManager.set_rooms
            (RoomManager.join_many ids conn (ConnectionManager.rooms m)) m));;
  if enabled Features.kPresence then
    t ← gets hub_time;
    first ← presence_step (PresenceService.on_connect t uid);
    if (first : bool) then
      peers ← call (ConversationService.peer_ids uid);
      announce peers uid "online";;
      count ← gets (λ h, length (SessionManager.sessions_for_user uid
                                   (ConnectionManager.sessions (conns h))));
      publish_domain (UserOnline uid uname (Z.of_nat count))
    else mret ()
  else mret ().

(* src/realtime/event_dispatcher.cpp:40-77, EventDispatcher::on_open *)
Definition on_open (steady_ms : Z) (conn : Conn) (uid : Z) (uname : string)
    (version : Protocol.Version) (h : Hub) : Hub :=
  let h := on_conns (ConnectionManager.register_session conn uid uname version) h in
  let h := on_conns (λ m, ConnectionManager.set_sessions
             (SessionManager.touch conn steady_ms (ConnectionManager.sessions m)) m) h in
  let h := (open_effects conn uid uname h).2 in
  on_conns (ConnectionManager.send_event (hub_time h) conn WireEvents.kReady
    (jobj [("user_id", JInt uid); ("username", JStr uname);
           ("protocol_version", JInt (Protocol.to_number version))]) Protocol.no_envelope) h.

(* src/realtime/event_dispatcher.cpp:167-171, EventDispatcher::handle_send_message *)
Definition handle_send_message (uid : Z) (data : json) : M Hub exn unit :=
  request ← lift (SendMessageRequest.from_json data);
  call (MessageService.send uid request);;
  mret ().

(* src/realtime/event_dispatcher.cpp:173-188, EventDispatcher::handle_typing *)
Definition handle_typing (conn : Conn) (uid : Z) (uname : string) (data : json) (starting : bool)
    : M Hub exn unit :=
  conversation_id ← lift (require_int data "conversation_id");
  call (ConversationService.get uid conversation_id);;
  modify (λ h, on_conns (ConnectionManager.broadcast_to_room (hub_time h) conversation_id
    (if starting then WireEvents.kTypingStart else WireEvents.kTypingStop)
    (jobj [("conversation_id", JInt conversation_id); ("user_id", JInt uid);
           ("username", JStr uname)]) conn) h).

(* src/realtime/event_dispatcher.cpp:190-192, EventDispatcher::handle_mark_delivered *)
Definition handle_mark_delivered (uid : Z) (data : json) : M Hub exn unit :=
  message_id ← lift (require_int data "message_id");
  call (ReadReceiptService.mark_delivered uid message_id).

(* src/realtime/event_dispatcher.cpp:194-197, EventDispatcher::handle_mark_read *)
Definition handle_mark_read (uid : Z) (data : json) : M Hub exn unit :=
  conversation_id ← lift (require_int data "conversation_id");
  up_to_message_id ← lift (require_int data "up_to_message_id");
  call (ReadReceiptService.mark_read uid conversation_id up_to_message_id).

(** The cascade of [on_message], inside [try]. *)
(* src/realtime/event_dispatcher.cpp:107-131, EventDispatcher::on_message (dispatch) *)
Definition dispatch (conn : Conn) (session : WsSession) (type : string) (payload : json)
    (envelope : Protocol.Envelope) : M Hub exn unit :=
  let uid := Connections.user_id session in
  let uname := Connections.username session in
  if String.eqb type ClientEvents.kClientPing then
    modify (λ h, on_conns (ConnectionManager.send_event (hub_time h) conn WireEvents.kPong (jobj [])
                             envelope) h)
  else if String.eqb type ClientEvents.kClientSendMessage then handle_send_message uid payload
  else if String.eqb type ClientEvents.kClientTypingStart then
    if enabled Features.kTyping then handle_typing conn uid uname payload true else mret ()
  else if String.eqb type ClientEvents.kClientTypingStop then
    if enabled Features.kTyping then handle_typing conn uid uname payload false else mret ()
  else if String.eqb type ClientEvents.kClientMarkDelivered then
    if enabled Features.kReadReceipts then handle_mark_delivered uid payload else mret ()
  else if String.eqb type ClientEvents.kClientMarkRead then
    if enabled Features.kReadReceipts then handle_mark_read uid payload else mret ()
  else modify (send_error conn "validation_error" "Unknown event type" envelope).

(* src/realtime/event_dispatcher.cpp:79-140, EventDispatcher::on_message *)
Definition on_message (steady_ms : Z) (conn : Conn) (data : string) (h : Hub) : Hub :=
  let h := on_conns (λ m, ConnectionManager.set_sessions
             (SessionManager.touch conn steady_ms (ConnectionManager.sessions m)) m) h in
  match SessionManager.get conn (ConnectionManager.sessions (conns h)) with
  | None => h
  | Some session =>
      match Protocol.decode data with
      | None => send_error conn "validation_error" "Malformed event envelope" Protocol.no_envelope h
      | Some frame =>
          let envelope := {| Protocol.env_request_id := Protocol.request_id frame;
                             Protocol.env_correlation_id := Protocol.correlation_id frame |} in
          match dispatch conn session (Protocol.event frame) (Protocol.payload frame) envelope h with
          | (Ok _, h') => h'
          | (Err (App ex), h') => send_error conn (ex_code ex) (ex_message ex) envelope h'
          | (Err (Std _), h') =>
              send_error conn "internal_error" "Failed to process event" envelope h'
          end
      end
  end.

(** The part of [on_close] inside [try]. *)
(* src/realtime/event_dispatcher.cpp:147-160, EventDispatcher::on_close (side effects) *)
Definition close_effects (session : WsSession) : M Hub exn unit :=
  let uid := Connections.user_id session in
  if enabled Features.kPresence then
    t ← gets hub_time;
    last ← presence_step (PresenceService.on_disconnect t uid);
    if (last : bool) then
      peers ← call (ConversationService.peer_ids uid);
      announce peers uid "offline";;
      publish_domain (UserOffline uid (Connections.username session))
    else mret ()
  else mret ().

(* src/realtime/event_dispatcher.cpp:142-165, EventDispatcher::on_close *)
Definition on_close (conn : Conn) (h : Hub) : Hub :=
  let '(session, m) := ConnectionManager.unregister_session conn (conns h) in
  let h := mkHub m (presence h) (deltas h) (world h) in
  match session with
  | None => h
  | Some session => (close_effects session h).2
  end.
End Dispatcher.

Module HeartbeatMonitor.
Section Sweep.
Context `{JsonText}.

(** One pass over the sessions: the connections it closes, and the hub with the
    pings it sends. *)
(* src/realtime/heartbeat_monitor.cpp:61-75, HeartbeatMonitor::run (sweep) *)
Definition sweep (t : TimePoint) (timeout_seconds steady_ms : Z) (m : ConnectionManager.t)
    : list Conn * ConnectionManager.t :=
  let timeout_ms := timeout_seconds * 1000 in
  foldl (λ cm session,
    let '(closed, m) := cm in
    let idle := steady_ms - last_activity_ms session in
    if timeout_ms <? idle then
      if connection session =? nullptr then (closed, m)
      else ((closed ++ [connection session])%list, m)
    else (closed, ConnectionManager.send_event t (connection session) ClientEvents.kClientPing
                    (jobj []) Protocol.no_envelope m))
    ([], m) (SessionManager.snapshot (ConnectionManager.sessions m)).
End Sweep.
End HeartbeatMonitor.

Module WebSocketController.
(* include/rtc/realtime/session.hpp:16-22, AuthContext *)
Record AuthContext := {
  ctx_user_id : Z; ctx_username : string; ctx_protocol_version : Protocol.Version }.

(* src/middlewares/auth_middleware.cpp:16-19, ltrim *)
Definition ltrim (s : string) : string :=
  drop_while (λ c, Ascii.eqb c " " || Ascii.eqb c "009") s.

(** [Bearer ] without its last character matches the beginning, in any case. *)
Fixpoint scheme_matches (scheme view : string) : bool :=
  match scheme, view with
  | "", _ => true
  | String a scheme, String b view => Ascii.eqb (tolower a) (tolower b) && scheme_matches scheme view
  | _, "" => false
  end.

(* src/middlewares/auth_middleware.cpp:23-46, AuthMiddleware::extract_bearer_token *)
Definition extract_bearer_token (header : string) : option string :=
  if String.eqb header "" then None
  else
    let view := ltrim header in
    if ssize view <=? 7 then None
    else if negb (scheme_matches "Bearer" view)
            || negb (bool_decide (String.get 6 view = Some " "%char)) then None
    else
      let token := ltrim (String.substring 7 (String.length view - 7) view) in
      if String.eqb token "" then None else Some token.

(* src/controllers/websocket_controller.cpp:24-36, requested_protocol *)
Definition requested_protocol (param : option string) : option Z :=
  match param with None => None | Some text => parse_whole true int32_min int32_max text end.

(* src/controllers/websocket_controller.cpp:40-62, WebSocketController::authenticate *)
Definition authenticate `{TokenService} (t : TimePoint) (token_param : option string)
    (authorization : string) (protocol_param : option string) : option AuthContext :=
  let token := match token_param with
               | Some q => Some q
               | None => extract_bearer_token authorization
               end in
  match token with
  | None => None
  | Some token =>
      match token_verify t token TokenType.kAccess with
      | Ok claims =>
          Some {| ctx_user_id := TokenClaims.user_id claims;
                  ctx_username := TokenClaims.username claims;
                  ctx_protocol_version := Protocol.negotiate (requested_protocol protocol_param) |}
      | Err _ => None
      end
  end.
End WebSocketController.
