(* ===== verification/DispatcherProps.v ===== *)
(** * DispatcherProps: what a WebSocket client can rely on

    From a frame on the wire to the frames of everybody concerned: a message
    sent over a WebSocket reaches the live sessions of the members of its
    conversation and nobody else. *)

From S2P Require Import Prelude Text Json Errors Validation TimeUtil Models Events Dto Database.
From S2P Require Import Samples Users Conversations ConversationInv ConversationProps.
From S2P Require Import Repositories Attachments Messages MessageProps Receipts Tokens Sessions.
From S2P Require Import Protocol Connections ConnectionProps Presence Dispatcher.
Import PgConversationRepository.
Open Scope string_scope.
Open Scope Z_scope.

(** Nobody is twice in a conversation. *)
Lemma member_ids_NoDup c d s : conv_inv d s → NoDup (member_ids c d).
Proof.
  intros Hinv. unfold member_ids, rows. apply NoDup_fmap_2_strong.
  - intros [p1 r1] [p2 r2] H1 H2 Heq.
    apply list_elem_of_filter in H1 as [Hc1 H1%elem_of_map_to_list].
    apply list_elem_of_filter in H2 as [Hc2 H2%elem_of_map_to_list]. cbn in Heq, Hc1, Hc2.
    unfold in_conversation in Hc1, Hc2. apply Z.eqb_eq in Hc1, Hc2.
    assert (p1 = p2) as ->; [|congruence].
    apply (p_unique _ _ _ _ _ _ Hinv p1 p2 c (ParticipantRow.user_id r1) (ParticipantRow.role r1)
             (ParticipantRow.role r2)); rewrite lookup_fmap, ?H1, ?H2; cbn; unfold pview; congruence.
  - apply NoDup_filter, NoDup_map_to_list.
Qed.

Section Delivery.
Context `{JsonText}.

Lemma get_touch_eq conn conn' t sm :
  SessionManager.get conn' (SessionManager.touch conn t sm) =
    (if decide (conn' = conn) then set_activity t else id) <$> SessionManager.get conn' sm.
Proof.
  unfold SessionManager.get, SessionManager.touch. cbn. case_decide as E.
  - subst. by rewrite lookup_alter_eq.
  - rewrite lookup_alter_ne by done. by rewrite option_fmap_id.
Qed.

(** The registry that [on_message] dispatches in. *)
Definition touched (steady : Z) (conn : Conn) (h : Hub) : Hub :=
  on_conns (λ m, ConnectionManager.set_sessions
    (SessionManager.touch conn steady (ConnectionManager.sessions m)) m) h.

(** A frame of a service's broadcast, in terms of the sessions before the
    activity time was updated. *)
Lemma frames_touched steady conn sm t ids type data :
  sessions_ok sm → NoDup ids →
  let l := local_frames t ids type data (SessionManager.touch conn steady sm) in
  NoDup l.*1 ∧
  ∀ conn' f, (conn', f) ∈ l ↔
    ∃ s, SessionManager.get conn' sm = Some s ∧ Connections.user_id s ∈ ids ∧
         f = json_dump (Protocol.encode (protocol_version s) t type data Protocol.no_envelope).
Proof.
  intros Hs Hnd. cbn zeta.
  destruct (local_frames_ok t ids type data (SessionManager.touch conn steady sm)) as [H1 H2];
    [by apply touch_sessions_ok|done|].
  split; [done|]. intros conn' f. rewrite H2. setoid_rewrite get_touch_eq. unfold frame_for. split.
  - intros (s & Hg & Hu & ->). destruct (SessionManager.get conn' sm) as [s0|]; [|done].
    exists s0. cbn in Hg. injection Hg as <-. by case_decide.
  - intros (s & Hg & Hu & ->). rewrite Hg. cbn. eexists. split; [reflexivity|]. by case_decide.
Qed.

(** The dispatch of a "message.send" frame with a well-formed body. *)
Lemma dispatch_send self conn s payload envelope req h :
  SendMessageRequest.from_json payload = Ok req →
  dispatch self conn s ClientEvents.kClientSendMessage payload envelope h =
    let r := call (MessageService.send (Connections.user_id s) req) h in
    ((λ _, ()) <$> r.1, r.2).
Proof.
  intros Hreq. unfold dispatch. cbn [String.eqb Ascii.eqb Bool.eqb ClientEvents.kClientSendMessage
    ClientEvents.kClientPing]. cbn iota.
  change (String.eqb ClientEvents.kClientSendMessage ClientEvents.kClientPing) with false.
  change (String.eqb ClientEvents.kClientSendMessage ClientEvents.kClientSendMessage) with true.
  unfold handle_send_message. rewrite Hreq. unfold mbind, M_bind, lift. cbn beta iota.
  by destruct (call _ h) as [[] ?].
Qed.

Lemma call_send_ok actor req h m w' :
  MessageService.send actor req (world h) = (Ok m, w') →
  call (MessageService.send actor req) h =
    (Ok m, mkHub (ConnectionManager.publish (hub_time h)
                    (member_ids (SendMessageRequest.conversation_id req) (db (world h)))
                    WireEvents.kMessageCreated
                    (message_json m (linked_ids (Message.id m) (db w'))) (conns h))
             (presence h) (deltas h) w').
Proof.
  intros Hs. unfold call. rewrite Hs.
  apply send_ok_inv in Hs as (content & row & _ & _ & _ & _ & _ & _ & Hout).
  rewrite Hout, drop_app_length. done.
Qed.

Lemma call_send_err actor req h e w' :
  MessageService.send actor req (world h) = (Err e, w') →
  call (MessageService.send actor req) h =
    (Err e, mkHub (conns h) (presence h) (deltas h) w').
Proof.
  intros Hs. unfold call. rewrite Hs. rewrite (send_late _ _ _ _ _ Hs), drop_all. done.
Qed.

Lemma send_error_sent conn code message envelope h s :
  SessionManager.get conn (ConnectionManager.sessions (conns h)) = Some s → conn ≠ nullptr →
  ConnectionManager.sent (conns (send_error conn code message envelope h)) =
    (ConnectionManager.sent (conns h) ++
     [(conn, json_dump (Protocol.encode (protocol_version s) (hub_time h) WireEvents.kError
               (jobj [("code", JStr code); ("message", JStr message)]) envelope))])%list.
Proof.
  intros Hg Hn. unfold send_error, on_conns, ConnectionManager.send_event. cbn [conns]. rewrite Hg.
  cbn [ConnectionManager.sent ConnectionManager.add_sent]. unfold ConnectionManager.send_raw.
  by rewrite (proj2 (Z.eqb_neq conn nullptr) Hn).
Qed.
End Delivery.

(** C1. From frame to frames: a "message.send" frame of a registered session runs
    the message service for that session's user.  If the service accepts it, the
    user is a member of the conversation, and exactly the live sessions of the
    members get one "message.created" frame each, in their own protocol version,
    carrying the stored message; if not, the sender alone gets one error frame
    that echoes the ids of its request. *)
Theorem ws_message_delivery `{JsonText} (self : Dispatcher) (steady : Z) (conn : Conn)
    (s : WsSession) (data : string) (frame : Protocol.InboundFrame) (req : SendMessageRequest.t)
    (h : Hub) :
  hub_ok (conns h) → conv_inv (db (world h)) (seqs (world h)) →
  SessionManager.get conn (ConnectionManager.sessions (conns h)) = Some s →
  Protocol.decode data = Some frame → Protocol.event frame = ClientEvents.kClientSendMessage →
  SendMessageRequest.from_json (Protocol.payload frame) = Ok req →
  let h' := on_message self steady conn data h in
  let r := MessageService.send (Connections.user_id s) req (world h) in
  let members := member_ids (SendMessageRequest.conversation_id req) (db (world h)) in
  world h' = r.2 ∧
  ∃ l, ConnectionManager.sent (conns h') = (ConnectionManager.sent (conns h) ++ l)%list ∧
  match r.1 with
  | Ok m =>
      Connections.user_id s ∈ members ∧ NoDup l.*1 ∧
      ∀ conn' f, (conn', f) ∈ l ↔
        ∃ s', SessionManager.get conn' (ConnectionManager.sessions (conns h)) = Some s' ∧
          Connections.user_id s' ∈ members ∧
          f = json_dump (Protocol.encode (protocol_version s') (hub_time h) WireEvents.kMessageCreated
                (message_json m (linked_ids (Message.id m) (db (world h')))) Protocol.no_envelope)
  | Err _ =>
      ∃ code message,
        l = [(conn, json_dump (Protocol.encode (protocol_version s) (hub_time h') WireEvents.kError
               (jobj [("code", JStr code); ("message", JStr message)])
               (Protocol.Build_Envelope (Protocol.request_id frame) (Protocol.correlation_id frame))))]
  end.
Proof.
  intros (Hs & _) Hinv Hget Hdec Hev Hreq h' r members. subst h' r.
  unfold on_message. fold (touched steady conn h).
  assert (SessionManager.get conn (ConnectionManager.sessions (conns (touched steady conn h))) =
          Some (set_activity steady s)) as Hget'.
  { cbn. rewrite get_touch_eq, decide_True, Hget by done. done. }
  rewrite Hget', Hdec, Hev, (dispatch_send _ _ _ _ _ _ _ Hreq). cbn zeta.
  destruct (MessageService.send (Connections.user_id s) req (world h)) as [[m|e] w'] eqn:Hsend.
  - rewrite (call_send_ok _ _ (touched steady conn h) _ _ Hsend), publish_eq.
    cbn [fst snd fmap result_fmap]. split; [done|].
    destruct (frames_touched steady conn (ConnectionManager.sessions (conns h)) (hub_time h) members
      WireEvents.kMessageCreated (message_json m (linked_ids (Message.id m) (db w')))) as [Hnd Hl];
      [done|by eapply member_ids_NoDup|].
    exists (local_frames (hub_time h) members WireEvents.kMessageCreated
              (message_json m (linked_ids (Message.id m) (db w')))
              (SessionManager.touch conn steady (ConnectionManager.sessions (conns h)))).
    split; [cbn zeta; by case_match|].
    apply send_ok_inv in Hsend as (content & row & _ & _ & _ & _ & _ & Hin & _). done.
  - rewrite (call_send_err _ _ (touched steady conn h) _ _ Hsend). cbn [fst snd fmap result_fmap].
    assert (conn ≠ nullptr) as Hnull by (destruct Hs as (Hc & _); by apply Hc in Hget as [_ ?]).
    destruct e as [ex|what]; (split; [done|]); eexists; (split; [|eexists _, _; reflexivity]);
      rewrite (send_error_sent conn _ _ _ _ (set_activity steady s)) by done; reflexivity.
Qed.

(** ** An instance to evaluate *)

Definition sample_instance : Hub := mkHub sample_hub PresenceService.empty [] sample_group.
Definition no_flags : Dispatcher := {| flags := None; publisher := true |}.
Definition v1_frame (type : string) (data : list (string * json)) : json :=
  jobj [("type", JStr type); ("data", jobj data)].

Lemma ws_message_delivery_witness :
  let lib := one_value (v1_frame "message.send" [("conversation_id", JInt 1); ("content", JStr "hi")]) in
  ∃ l, ConnectionManager.sent (conns (on_message (H:=lib) no_flags 5 20 "{}" sample_instance)) =
         (ConnectionManager.sent (conns sample_instance) ++ l)%list ∧ NoDup l.*1 ∧ length l = 3%nat.
Proof.
  intros lib.
  destruct (ws_message_delivery (H:=lib) no_flags 5 20 (mkSession 20 2 "bob" Protocol.kV1 0) "{}"
    (Protocol.mkFrame "message.send" (jobj [("conversation_id", JInt 1); ("content", JStr "hi")])
       "" "" Protocol.kV1) (SendMessageRequest.mk 1 "hi" MessageType.kText []) sample_instance)
    as (_ & l & Hl & Hr).
  - apply hub_reachable_ok, sample_hub_reachable.
  - exact sample_group_inv.
  - vm_compute. reflexivity.
  - vm_compute. reflexivity.
  - reflexivity.
  - vm_compute. reflexivity.
  - exists l. split; [exact Hl|].
    assert (length (ConnectionManager.sent (conns (on_message (H:=lib) no_flags 5 20 "{}"
      sample_instance))) = 3%nat) as Hlen by (vm_compute; reflexivity).
    rewrite Hl in Hlen. cbn in Hlen. split; [|exact Hlen].
    destruct (MessageService.send _ _ _).1 as [m|e]; [by destruct Hr as (_ & ? & _)|].
    destruct Hr as (code & message & Hr). rewrite Hr in Hlen. discriminate.
Defined.

(** The connection of user 2 and then the one of user 1 are opened on an instance
    whose conversation 1 has both as members. *)
Definition both_open (lib : JsonText) : Hub :=
  on_open no_flags 0 10 1 "ann" Protocol.kV1
    (on_open no_flags 0 20 2 "bob" Protocol.kV1
      (mkHub (ConnectionManager.mk SessionManager.empty RoomManager.empty false [] [])
         PresenceService.empty [] sample_group)).

(** Rooms are filled when a connection opens and never revised: a member who is
    removed from a group while connected keeps receiving its typing
    indicators. *)
Theorem removed_member_hears_typing :
  let lib := one_value (v1_frame "typing.start" [("conversation_id", JInt 1)]) in
  let h := both_open lib in
  let '(r, h1) := call (ConversationService.remove_member 1 1 2) h in
  let h2 := on_message no_flags 5 10 "{}" h1 in
  r = Ok () ∧ is_member 1 2 (db (world h2)) = false ∧
  (drop (length (ConnectionManager.sent (conns h1))) (ConnectionManager.sent (conns h2))).*1 = [20].
Proof. vm_compute. split_and!; reflexivity. Qed.

(** A database failure while a second connection opens makes presence drift: the
    session is registered but not counted, so that closing it counts the user
    as offline, and announces it, while the first connection is still open. *)
Theorem failed_open_false_offline :
  let lib := one_value JNull in
  let h := both_open lib in
  let down := mkHub (conns h) (presence h) (deltas h)
                (set_faults [Some (FAcquire "connection refused")] (world h)) in
  let h1 := on_open no_flags 0 11 1 "ann" Protocol.kV1 down in
  let h2 := on_close no_flags 11 h1 in
  SessionManager.connections_for_user 1 (ConnectionManager.sessions (conns h2)) = [10] ∧
  PresenceService.is_online 1 (presence h1) = true ∧
  PresenceService.is_online 1 (presence h2) = false ∧
  (drop (length (ConnectionManager.sent (conns h1))) (ConnectionManager.sent (conns h2))).*1 = [20].
Proof. vm_compute. split_and!; reflexivity. Qed.
