(* ===== verification/Gateway.v ===== *)
(** * Gateway: the socket endpoint as the server runs it

    Models the handlers src/controllers/websocket_controller.cpp installs on its
    routes, with the identity they keep on the connection, and the thread of
    src/realtime/heartbeat_monitor.cpp; the hub they act on is the one of
    Dispatcher.  Crow's part is the order in which it calls the handlers: an
    upgrade it accepted gets a connection of its own, which is opened at most
    once.  [sockets_identified] says whose frames a session's frames are. *)

From S2P Require Import Prelude Text Json Errors TimeUtil Models Dto Database Tokens.
From S2P Require Import ConversationProps UserProps Protocol Connections ConnectionProps Presence Dispatcher DispatcherProps.
Open Scope string_scope.
Open Scope Z_scope.

(** ** The heartbeat thread *)

Module Heartbeat.
(** Where the thread is: waiting in [wait_for], or out of its loop. *)
Inductive Phase := Waiting | Ended.

(* include/rtc/realtime/heartbeat_monitor.hpp:36-42, HeartbeatMonitor *)
Record t := mk { timeout : Z; running : bool; thread : option Phase }.

(* src/realtime/heartbeat_monitor.cpp:19-22, HeartbeatMonitor::HeartbeatMonitor *)
Definition make (timeout_seconds : Z) : t := mk timeout_seconds false None.

(* src/realtime/heartbeat_monitor.cpp:28-37, HeartbeatMonitor::start *)
Definition start (m : t) : t := if running m then m else mk (timeout m) true (Some Waiting).

(** The flag and the notification; [stop_join] is the join after them, which
    returns when the thread has ended. *)
(* src/realtime/heartbeat_monitor.cpp:39-43, HeartbeatMonitor::stop *)
Definition stop (m : t) : t := mk (timeout m) false (thread m).
(* src/realtime/heartbeat_monitor.cpp:44-46, HeartbeatMonitor::stop (join) *)
Definition stop_join (m : t) : option t :=
  match thread m with Some Waiting => None | _ => Some (mk (timeout m) (running m) None) end.

Section Wake.
Context `{JsonText}.

(** One return of [wait_for], for whatever reason, up to the next wait: the
    connections that are closed, the hub's connections after the pings, and the
    monitor. *)
(* src/realtime/heartbeat_monitor.cpp:49-78, HeartbeatMonitor::run *)
Definition wake (now : TimePoint) (steady_ms : Z) (m : t) (c : ConnectionManager.t)
    : list Conn * ConnectionManager.t * t :=
  match thread m with
  | Some Waiting =>
      if running m then (HeartbeatMonitor.sweep now (timeout m) steady_ms c, m)
      else ([], c, mk (timeout m) false (Some Ended))
  | _ => ([], c, m)
  end.
End Wake.
End Heartbeat.

(** ** The routes *)

(** The instance with what the connections carry as user data, the connections
    the server has asked to close, and the monitor. *)
Record Gateway := mkGateway {
  hub : Hub; userdata : gmap Conn WebSocketController.AuthContext; closing : list Conn;
  monitor : Heartbeat.t }.

Definition set_hub (h : Hub) (g : Gateway) : Gateway := mkGateway h (userdata g) (closing g) (monitor g).
Definition close (conns : list Conn) (g : Gateway) : Gateway :=
  mkGateway (hub g) (userdata g) (closing g ++ conns) (monitor g).

Module SocketRule.
Section Rule.
Context `{JsonText} `{TokenService} (self : Dispatcher).

(** What the upgrade request carries. *)
Record Upgrade := mkUpgrade {
  token_param : option string; authorization : string; protocol_param : option string }.

(* src/controllers/websocket_controller.cpp:80-82, WebSocketController::configure_route (onaccept) *)
Definition onaccept (now : TimePoint) (req : Upgrade) (conn : Conn) (g : Gateway) : bool * Gateway :=
  match WebSocketController.authenticate now (token_param req) (authorization req) (protocol_param req) with
  | Some ctx => (true, mkGateway (hub g) (<[conn := ctx]> (userdata g)) (closing g) (monitor g))
  | None => (false, g)
  end.

(* src/controllers/websocket_controller.cpp:83-90, WebSocketController::configure_route (onopen) *)
Definition onopen (steady_ms : Z) (conn : Conn) (g : Gateway) : Gateway :=
  match userdata g !! conn with
  | None => close [conn] g
  | Some ctx =>
      set_hub (on_open self steady_ms conn (WebSocketController.ctx_user_id ctx)
                 (WebSocketController.ctx_username ctx) (WebSocketController.ctx_protocol_version ctx) (hub g)) g
  end.

(* src/controllers/websocket_controller.cpp:91-97, WebSocketController::configure_route (onmessage) *)
Definition onmessage (steady_ms : Z) (conn : Conn) (data : string) (is_binary : bool) (g : Gateway) : Gateway :=
  if is_binary then g else set_hub (on_message self steady_ms conn data (hub g)) g.

(* src/controllers/websocket_controller.cpp:98-104, WebSocketController::configure_route (onclose) *)
Definition onclose (conn : Conn) (g : Gateway) : Gateway :=
  mkGateway (on_close self conn (hub g)) (delete conn (userdata g)) (closing g) (monitor g).

(** The heartbeat thread runs beside them. *)
Definition wake (steady_ms : Z) (g : Gateway) : Gateway :=
  let h := hub g in
  let '(closed, c, m) := Heartbeat.wake (hub_time h) steady_ms (monitor g) (conns h) in
  mkGateway (mkHub c (presence h) (deltas h) (world h)) (userdata g) (closing g ++ closed) m.

(** What happens to an instance: the calls of Crow, the heartbeat thread, its
    start and stop, and the calls of services by other requests. *)
Inductive Event :=
  | Accept (now : TimePoint) (req : Upgrade) (conn : Conn)
  | Open (steady_ms : Z) (conn : Conn)
  | Message (steady_ms : Z) (conn : Conn) (data : string) (is_binary : bool)
  | Close (conn : Conn)
  | Wake (steady_ms : Z)
  | StartMonitor
  | StopMonitor
  | Serve (svc : M World exn unit).

Definition happen (e : Event) (g : Gateway) : Gateway :=
  match e with
  | Accept now req conn => (onaccept now req conn g).2
  | Open steady_ms conn => onopen steady_ms conn g
  | Message steady_ms conn data is_binary => onmessage steady_ms conn data is_binary g
  | Close conn => onclose conn g
  | Wake steady_ms => wake steady_ms g
  | StartMonitor => mkGateway (hub g) (userdata g) (closing g) (Heartbeat.start (monitor g))
  | StopMonitor => mkGateway (hub g) (userdata g) (closing g) (Heartbeat.stop (monitor g))
  | Serve svc => set_hub (call svc (hub g)).2 g
  end.

(** The connection objects are Crow's: a new one is none of those in use, and
    each is opened once. *)
Definition crow (e : Event) (g : Gateway) : Prop :=
  let registered conn := SessionManager.get conn (ConnectionManager.sessions (conns (hub g))) in
  match e with
  | Accept _ _ conn => conn ≠ nullptr ∧ userdata g !! conn = None
  | Open _ conn => conn ≠ nullptr ∧ registered conn = None
  | _ => True
  end.

Definition initial (cluster : bool) (timeout : Z) (w : World) : Gateway :=
  mkGateway (mkHub (ConnectionManager.mk SessionManager.empty RoomManager.empty cluster [] []) PresenceService.empty [] w)
    ∅ [] (Heartbeat.make timeout).

Inductive reachable : Gateway → Prop :=
  | reachable_initial cluster timeout w : reachable (initial cluster timeout w)
  | reachable_happen e g : reachable g → crow e g → reachable (happen e g).
End Rule.
End SocketRule.

(** ** The registry under the handlers *)

Section Registry.
Context `{JsonText} (self : Dispatcher).
Implicit Types (h : Hub) (sm : SessionManager.t).

Definition registry (h : Hub) : SessionManager.t := ConnectionManager.sessions (conns h).

Lemma publish_registry now ids type data m :
  ConnectionManager.sessions (ConnectionManager.publish now ids type data m) = ConnectionManager.sessions m.
Proof. rewrite publish_eq. simpl. by destruct (ConnectionManager.cluster m). Qed.

Lemma call_registry {A} sm (svc : M World exn A) : keeps (λ h, registry h = sm) (call svc).
Proof.
  intros h <-. unfold call. destruct (svc (world h)) as [r w']. unfold registry. cbn.
  generalize (drop (length (out (world h))) (out w')). intros es. unfold deliver_effects. generalize (conns h).
  induction es as [|e es IH]; intros m; [done|]. cbn. rewrite IH. destruct e; try done. apply publish_registry.
Qed.

Lemma modify_registry sm (f : Hub → Hub) :
  (∀ h, registry (f h) = registry h) → keeps (E:=exn) (λ h, registry h = sm) (modify f).
Proof. intros Hf h <-. apply Hf. Qed.

Lemma presence_registry sm f : keeps (λ h, registry h = sm) (presence_step f).
Proof. intros h <-. unfold presence_step. by destruct (f (presence h)) as [[b d] p]. Qed.

Lemma domain_registry sm e : keeps (λ h, registry h = sm) (publish_domain self e).
Proof. unfold publish_domain. destruct (publisher self); [apply call_registry|apply keeps_ret]. Qed.

Lemma announce_registry sm ids uid status : keeps (λ h, registry h = sm) (announce ids uid status).
Proof. apply modify_registry. intros h. apply publish_registry. Qed.

Lemma lift_registry {A} sm (r : result exn A) : keeps (λ h, registry h = sm) (lift r).
Proof. by intros h. Qed.

#[local] Hint Resolve @call_registry presence_registry domain_registry announce_registry @lift_registry : keeps.

Ltac keep_registry :=
  repeat first [ case_match | apply keeps_bind; [|intros ?] | solve [eauto with keeps]
               | apply modify_registry; intros ?; done ].

Lemma open_effects_registry sm conn uid uname : keeps (λ h, registry h = sm) (open_effects self conn uid uname).
Proof. unfold open_effects. keep_registry. Qed.

Lemma close_effects_registry sm session : keeps (λ h, registry h = sm) (close_effects self session).
Proof. unfold close_effects. keep_registry. Qed.

Lemma room_registry now c type data conn m :
  ConnectionManager.sessions (ConnectionManager.broadcast_to_room now c type data conn m) = ConnectionManager.sessions m.
Proof. unfold ConnectionManager.broadcast_to_room. by destruct (ConnectionManager.cluster _). Qed.

Lemma dispatch_registry sm conn session type payload envelope :
  keeps (λ h, registry h = sm) (dispatch self conn session type payload envelope).
Proof.
  unfold dispatch, handle_send_message, handle_typing, handle_mark_delivered, handle_mark_read. keep_registry;
    apply modify_registry; intros h; apply room_registry.
Qed.

(** Opening registers the connection, a frame at most moves the time of its last
    activity, closing removes it; the others stay as they are. *)
Lemma on_open_registry steady conn uid uname v h conn' :
  SessionManager.get conn' (registry (on_open self steady conn uid uname v h)) =
    if decide (conn' = conn) then Some (mkSession conn uid uname v steady) else SessionManager.get conn' (registry h).
Proof.
  unfold on_open. cbn zeta.
  match goal with |- context [open_effects self conn uid uname ?h1] =>
    pose proof (open_effects_registry _ conn uid uname h1 eq_refl) as Ho end.
  unfold registry in *. cbn in *. rewrite Ho. unfold SessionManager.get, SessionManager.touch. cbn. case_decide as Hc.
  - subst. by rewrite lookup_alter_eq, lookup_insert_eq.
  - by rewrite lookup_alter_ne, lookup_insert_ne.
Qed.

Lemma on_message_registry steady conn data h :
  registry (on_message self steady conn data h) = SessionManager.touch conn steady (registry h).
Proof.
  unfold on_message. cbn zeta. destruct (SessionManager.get conn _) as [s|]; [|done].
  destruct (Protocol.decode data) as [frame|]; [|done].
  match goal with |- context [dispatch self conn s ?e ?p ?env ?h1] =>
    pose proof (dispatch_registry _ conn s e p env h1 eq_refl) as Hd; destruct (dispatch self conn s e p env h1) as [[?|[]] h2] end;
    exact Hd.
Qed.

Lemma on_close_registry conn h conn' :
  SessionManager.get conn' (registry (on_close self conn h)) =
    if decide (conn' = conn) then None else SessionManager.get conn' (registry h).
Proof.
  unfold on_close. rewrite unregister_eq. cbn. rewrite <- get_remove.
  destruct (SessionManager.remove conn _) as [[s|] sm] eqn:Hr; cbn; [|done].
  by rewrite (close_effects_registry _ s _ eq_refl).
Qed.

(** The two outcomes of a sweep for the sessions it meets. *)
Definition quiet (timeout steady : Z) (s : WsSession) : Prop := timeout * 1000 < steady - last_activity_ms s.
#[global] Instance quiet_dec timeout steady s : Decision (quiet timeout steady s).
Proof. unfold quiet. apply _. Defined.

Definition ping (now : TimePoint) (sm : SessionManager.t) (s : WsSession) : list (Conn * string) :=
  let version := match SessionManager.get (connection s) sm with
                 | Some s => protocol_version s | None => Protocol.kDefaultVersion end in
  ConnectionManager.send_raw (connection s)
    (json_dump (Protocol.encode version now ClientEvents.kClientPing (jobj []) Protocol.no_envelope)).

Lemma sweep_eq now timeout steady m :
  let sm := ConnectionManager.sessions m in
  HeartbeatMonitor.sweep now timeout steady m =
    (connection <$> filter (λ s, quiet timeout steady s ∧ connection s ≠ nullptr) (SessionManager.snapshot sm),
     ConnectionManager.add_sent (filter (λ s, ¬ quiet timeout steady s) (SessionManager.snapshot sm) ≫= ping now sm) m).
Proof.
  intros sm. unfold HeartbeatMonitor.sweep. change (ConnectionManager.sessions m) with sm.
  generalize (SessionManager.snapshot sm). intros ss.
  rewrite <- (app_nil_l (connection <$> _)). generalize (@nil Conn) at 2 3. intros l.
  assert (Hsm : ConnectionManager.sessions m = sm) by done. clearbody sm. revert l m Hsm.
  induction ss as [|s ss IH]; intros l m Hsm; [by cbn; rewrite app_nil_r, add_sent_nil|].
  cbn [foldl]. rewrite !filter_cons. destruct (Z.ltb_spec (timeout * 1000) (steady - last_activity_ms s)) as [Hq|Hq].
  - rewrite (decide_False (P:=¬ quiet timeout steady s)) by (unfold quiet; tauto).
    destruct (Z.eqb_spec (connection s) nullptr) as [Hn|Hn].
    + rewrite decide_False by tauto. by apply IH.
    + rewrite decide_True by (split; done). rewrite IH by done. cbn. by rewrite <- app_assoc.
  - rewrite (decide_True (P:=¬ quiet timeout steady s)) by (unfold quiet; lia).
    rewrite decide_False by (unfold quiet; lia). rewrite IH by done. cbn.
    unfold ConnectionManager.send_event. rewrite add_sent_app, Hsm. done.
Qed.
End Registry.

(** ** Whose frames they are *)

Section Identity.
Context `{JsonText} `{T : TokenService} (self : Dispatcher).

(** The session carries the identity of the context. *)
Definition identified (s : WsSession) (ctx : WebSocketController.AuthContext) : Prop :=
  user_id s = WebSocketController.ctx_user_id ctx ∧ username s = WebSocketController.ctx_username ctx ∧
  protocol_version s = WebSocketController.ctx_protocol_version ctx.

(** A context is one the handshake made of a verified access token. *)
Definition verified (ctx : WebSocketController.AuthContext) : Prop :=
  ∃ now token claims requested, token_verify now token TokenType.kAccess = Ok claims ∧
    WebSocketController.ctx_user_id ctx = TokenClaims.user_id claims ∧
    WebSocketController.ctx_username ctx = TokenClaims.username claims ∧
    WebSocketController.ctx_protocol_version ctx = Protocol.negotiate requested.

Record sound (g : Gateway) : Prop := {
  so_session : ∀ conn s, SessionManager.get conn (registry (hub g)) = Some s →
    connection s = conn ∧ conn ≠ nullptr ∧ ∃ ctx, userdata g !! conn = Some ctx ∧ identified s ctx;
  so_context : ∀ conn ctx, userdata g !! conn = Some ctx → verified ctx
}.

Lemma authenticate_verified now p a q ctx : WebSocketController.authenticate now p a q = Some ctx → verified ctx.
Proof.
  unfold WebSocketController.authenticate. case_match; [|done].
  destruct (token_verify now _ TokenType.kAccess) as [claims|] eqn:Hv; [|done]. intros [= <-].
  eexists now, _, claims, _. split; [exact Hv|]. done.
Qed.

Lemma wake_registry steady g : registry (hub (SocketRule.wake steady g)) = registry (hub g).
Proof.
  unfold SocketRule.wake, Heartbeat.wake, registry. destruct (Heartbeat.thread (monitor g)) as [[]|]; try done.
  destruct (Heartbeat.running (monitor g)); [|done]. by rewrite sweep_eq.
Qed.

Lemma wake_userdata steady g : userdata (SocketRule.wake steady g) = userdata g.
Proof. unfold SocketRule.wake. by destruct (Heartbeat.wake _ _ _ _) as [[? ?] ?]. Qed.

(** The session of a connection is made by opening it, changed by its frames in
    its last activity only, and removed by closing it. *)
Lemma happen_session e g conn s' :
  SessionManager.get conn (registry (hub (SocketRule.happen self e g))) = Some s' →
  (∃ steady ctx, e = SocketRule.Open steady conn ∧ userdata g !! conn = Some ctx ∧
     identified s' ctx ∧ connection s' = conn) ∨
  (∃ s, SessionManager.get conn (registry (hub g)) = Some s ∧ e ≠ SocketRule.Close conn ∧
     connection s' = connection s ∧ ∀ ctx, identified s ctx → identified s' ctx).
Proof.
  destruct e as [now req c|steady c|steady c data b|c|steady| | |svc]; cbn [SocketRule.happen SocketRule.onclose hub userdata set_hub close snd].
  - unfold SocketRule.onaccept. case_match; cbn [SocketRule.happen SocketRule.onclose hub userdata set_hub close snd]; intros Hs; right; by exists s'.
  - unfold SocketRule.onopen. destruct (userdata g !! c) as [ctx|] eqn:Hc; cbn [SocketRule.happen SocketRule.onclose hub userdata set_hub close snd]; [|intros Hs; right; by exists s'].
    rewrite on_open_registry. case_decide as Hd; [subst|intros Hs; right; by exists s'].
    intros [= <-]. left. by exists steady, ctx.
  - unfold SocketRule.onmessage. destruct b; cbn [SocketRule.happen SocketRule.onclose hub userdata set_hub close snd]; [intros Hs; right; by exists s'|].
    rewrite on_message_registry, get_touch_eq. intros Hs. right.
    apply fmap_Some in Hs as (s & Hs & ->). exists s. split_and!; [done|done|by case_decide|]. by case_decide.
  - rewrite on_close_registry. case_decide as Hd; [done|]. intros Hs. right. exists s'. split_and!; try done. congruence.
  - rewrite wake_registry. intros Hs. right. by exists s'.
  - intros Hs. right. by exists s'.
  - intros Hs. right. by exists s'.
  - rewrite (call_registry _ svc _ eq_refl). intros Hs. right. by exists s'.
Qed.

(** What a connection carries is put there by an accepted upgrade and freed when
    it closes. *)
Lemma happen_userdata e g conn ctx :
  userdata (SocketRule.happen self e g) !! conn = Some ctx →
  userdata g !! conn = Some ctx ∨ ((∃ now req, e = SocketRule.Accept now req conn) ∧ verified ctx).
Proof.
  destruct e as [now req c|steady c|steady c data b|c|steady| | |svc]; cbn [SocketRule.happen SocketRule.onclose hub userdata set_hub close snd]; auto.
  - unfold SocketRule.onaccept. destruct (WebSocketController.authenticate _ _ _ _) as [ctx'|] eqn:Ha; cbn [SocketRule.happen SocketRule.onclose hub userdata set_hub close snd]; [|auto].
    rewrite lookup_insert_Some. intros [[-> ->]|[_ ?]]; [|by left].
    right. split; [by eexists _, _|]. by eapply authenticate_verified.
  - unfold SocketRule.onopen. case_match; auto.
  - unfold SocketRule.onmessage. case_match; auto.
  - rewrite lookup_delete_Some. intros [_ ?]. by left.
  - rewrite wake_userdata. auto.
Qed.

Lemma userdata_kept e g conn ctx :
  SocketRule.crow e g → e ≠ SocketRule.Close conn → userdata g !! conn = Some ctx →
  userdata (SocketRule.happen self e g) !! conn = Some ctx.
Proof.
  destruct e as [now req c|steady c|steady c data b|c|steady| | |svc]; cbn [SocketRule.happen SocketRule.onclose SocketRule.crow hub userdata set_hub close snd]; intros Hcrow Hne Hc; try done.
  - unfold SocketRule.onaccept. case_match; cbn [SocketRule.happen SocketRule.onclose hub userdata set_hub close snd]; [|done]. destruct Hcrow as [_ Hn].
    rewrite lookup_insert_ne; [done|]. intros ->. congruence.
  - unfold SocketRule.onopen. by case_match.
  - unfold SocketRule.onmessage. by case_match.
  - rewrite lookup_delete_ne; [done|]. intros ->. done.
  - by rewrite wake_userdata.
Qed.

Lemma reachable_sound g : SocketRule.reachable self g → sound g.
Proof.
  induction 1 as [cluster timeout w|e g Hg [Hs Hc] Hcrow]; [by split|]. split.
  - intros conn s Hget. apply happen_session in Hget as [(steady & ctx & -> & Hu & Hi & Hconn)|(s0 & H0 & Hne & Hconn & Hi)].
    + split_and!; [done|by destruct Hcrow|]. exists ctx. split; [by apply userdata_kept|done].
    + destruct (Hs _ _ H0) as (<- & Hn & ctx & Hu & H1). split_and!; [done|done|].
      exists ctx. split; [by apply userdata_kept|by apply Hi].
  - intros conn ctx [Hu|[_ Hv]]%happen_userdata; [by eapply Hc|done].
Qed.

(** A session stays, with its identity, under everything but its closing. *)
Lemma happen_kept e g s :
  let conn := connection s in
  SocketRule.crow e g → e ≠ SocketRule.Close conn → SessionManager.get conn (registry (hub g)) = Some s →
  ∃ s', SessionManager.get conn (registry (hub (SocketRule.happen self e g))) = Some s' ∧
    connection s' = conn ∧ user_id s' = user_id s ∧ username s' = username s ∧
    protocol_version s' = protocol_version s.
Proof.
  intros conn Hcrow Hne Hs. subst conn.
  destruct e as [now req c|steady c|steady c data b|c|steady| | |svc];
    cbn [SocketRule.happen SocketRule.onclose SocketRule.crow hub userdata set_hub close snd] in *; try (by exists s).
  - unfold SocketRule.onaccept. case_match; by exists s.
  - unfold SocketRule.onopen. case_match; [|by exists s]. cbn [hub set_hub]. rewrite on_open_registry.
    case_decide; [|by exists s]. destruct Hcrow as [_ Hnone]. unfold registry in Hs. congruence.
  - unfold SocketRule.onmessage. destruct b; [by exists s|]. cbn [hub set_hub].
    rewrite on_message_registry, get_touch_eq, Hs. cbn. eexists. split; [done|]. by case_decide.
  - rewrite on_close_registry. case_decide; [congruence|]. by exists s.
  - rewrite wake_registry. by exists s.
  - rewrite (call_registry _ svc _ eq_refl). by exists s.
Qed.
End Identity.

(** ** What a sweep meets *)

Section Snapshot.
Context `{JsonText} (sm : SessionManager.t)
  (Hc : ∀ conn s, SessionManager.get conn sm = Some s → connection s = conn ∧ conn ≠ nullptr).

Lemma snapshot_get s : s ∈ SessionManager.snapshot sm ↔ SessionManager.get (connection s) sm = Some s.
Proof.
  unfold SessionManager.snapshot. rewrite list_elem_of_fmap. split.
  - intros ([conn s'] & -> & Hin%elem_of_map_to_list). cbn. by destruct (Hc _ _ Hin) as [-> _].
  - intros Hs. exists (connection s, s). split; [done|]. by apply elem_of_map_to_list.
Qed.

Lemma snapshot_conns : NoDup (connection <$> SessionManager.snapshot sm).
Proof.
  unfold SessionManager.snapshot. rewrite <- list_fmap_compose.
  rewrite (Forall_fmap_ext_1 _ fst); [apply NoDup_fst_map_to_list|].
  apply Forall_forall. intros [conn s] Hin%elem_of_map_to_list. by destruct (Hc _ _ Hin).
Qed.

Lemma snapshot_NoDup (P : WsSession → Prop) `{∀ s, Decision (P s)} :
  NoDup (connection <$> filter P (SessionManager.snapshot sm)).
Proof. eapply sublist_NoDup; [apply snapshot_conns|]. apply fmap_sublist, sublist_filter. Qed.

Lemma snapshot_elem (P : WsSession → Prop) `{∀ s, Decision (P s)} conn :
  conn ∈ connection <$> filter P (SessionManager.snapshot sm) ↔ ∃ s, SessionManager.get conn sm = Some s ∧ P s.
Proof.
  rewrite list_elem_of_fmap. split.
  - intros (s & -> & [HP Hs]%list_elem_of_filter). rewrite snapshot_get in Hs. by exists s.
  - intros (s & Hs & HP). exists s. destruct (Hc _ _ Hs) as [<- _]. split; [done|].
    by rewrite list_elem_of_filter, snapshot_get.
Qed.

Lemma pings_conns now l :
  Forall (λ s, connection s ≠ nullptr) l → (l ≫= ping now sm).*1 = connection <$> l.
Proof.
  induction 1 as [|s l Hn _ IH]; [done|]. cbn. rewrite fmap_app, IH.
  unfold ping, ConnectionManager.send_raw. by rewrite (proj2 (Z.eqb_neq _ _) Hn).
Qed.

Lemma snapshot_live (P : WsSession → Prop) `{∀ s, Decision (P s)} :
  Forall (λ s, connection s ≠ nullptr) (filter P (SessionManager.snapshot sm)).
Proof.
  apply Forall_forall. intros s [_ Hs]%list_elem_of_filter. rewrite snapshot_get in Hs. by destruct (Hc _ _ Hs).
Qed.
End Snapshot.


(** The heartbeat asks exactly the connections to close whose last text frame is
    longer ago than the timeout, and pings each of the others once. *)
Theorem heartbeat_exact `{JsonText} `{T : TokenService} (self : Dispatcher) (g : Gateway) (steady : Z) :
  SocketRule.reachable self g → Heartbeat.running (monitor g) = true →
  Heartbeat.thread (monitor g) = Some Heartbeat.Waiting →
  let timeout := Heartbeat.timeout (monitor g) in
  let g' := SocketRule.happen self (SocketRule.Wake steady) g in
  ∃ l p, closing g' = (closing g ++ l)%list ∧ NoDup l ∧
    (∀ conn, conn ∈ l ↔ ∃ s, SessionManager.get conn (registry (hub g)) = Some s ∧ quiet timeout steady s) ∧
    ConnectionManager.sent (conns (hub g')) = (ConnectionManager.sent (conns (hub g)) ++ p)%list ∧ NoDup p.*1 ∧
    (∀ conn, conn ∈ p.*1 ↔ ∃ s, SessionManager.get conn (registry (hub g)) = Some s ∧ ¬ quiet timeout steady s) ∧
    registry (hub g') = registry (hub g) ∧ userdata g' = userdata g.
Proof.
  intros Hg Hr Ht timeout g'. pose proof (so_session g (reachable_sound self g Hg)) as Hses.
  assert (Hc : ∀ conn s, SessionManager.get conn (registry (hub g)) = Some s → connection s = conn ∧ conn ≠ nullptr)
    by (intros conn s Hs; destruct (Hses _ _ Hs) as (? & ? & _); done).
  assert (Hg' : g' = SocketRule.wake steady g) by done.
  unfold SocketRule.wake, Heartbeat.wake in Hg'. rewrite Ht, Hr, sweep_eq in Hg'. rewrite Hg'.
  eexists _, _. split_and!; [reflexivity| | |reflexivity| | |reflexivity..].
  - by apply snapshot_NoDup.
  - intros conn. rewrite snapshot_elem by done. split; [naive_solver|]. intros (s & Hs & Hq).
    exists s. destruct (Hc _ _ Hs). subst. done.
  - rewrite pings_conns by (by apply snapshot_live). by apply snapshot_NoDup.
  - intros conn. rewrite pings_conns by (by apply snapshot_live). by rewrite snapshot_elem.
Qed.

(** ** An instance with one connection *)

Module GatewaySample.
Definition lib : JsonText := one_value JNull.
Definition access : string := TokenPair.access_token (issue_pair (TokenService:=AccountSample.tokens) "a" "r" 0 1 "ann").
Definition upgrade : SocketRule.Upgrade := SocketRule.mkUpgrade (Some access) "" None.
Definition events : list SocketRule.Event :=
  [SocketRule.StartMonitor; SocketRule.Accept 0 upgrade 10; SocketRule.Open 100 10].
Definition gateway : Gateway :=
  foldl (λ g e, SocketRule.happen (H:=lib) (H0:=AccountSample.tokens) no_flags e g)
    (SocketRule.initial false 60 sample_group) events.

Lemma gateway_reachable : SocketRule.reachable (H:=lib) (H0:=AccountSample.tokens) no_flags gateway.
Proof.
  unfold gateway, events. cbn [foldl].
  repeat (constructor; [|first [exact I|split; [done|vm_compute; reflexivity]]]). constructor.
Qed.
End GatewaySample.


Lemma heartbeat_exact_witness :
  let g := GatewaySample.gateway in
  ∃ l, closing (SocketRule.happen (H:=GatewaySample.lib) (H0:=AccountSample.tokens) no_flags (SocketRule.Wake 60101) g)
       = (closing g ++ l)%list ∧ 10 ∈ l.
Proof.
  destruct (heartbeat_exact (H:=GatewaySample.lib) (T:=AccountSample.tokens) no_flags GatewaySample.gateway 60101)
    as (l & p & Hl & _ & Hm & _).
  - exact GatewaySample.gateway_reachable.
  - vm_compute. reflexivity.
  - vm_compute. reflexivity.
  - exists l. split; [exact Hl|]. apply Hm. eexists. split; [vm_compute; reflexivity|]. vm_compute. reflexivity.
Defined.
