(* ===== verification/System.v ===== *)
(** * System: the services together

    Every call that changes the database, in any order, under any clock and any
    injected faults.  The table invariants of the components hold throughout:
    each is kept by its own component by the lemmas there, and by the others
    because they do not touch the tables it speaks about. *)

From S2P Require Import Prelude Text Json Errors Validation TimeUtil Models Events Dto Database.
From S2P Require Import Samples Users Conversations ConversationInv ConversationProps Repositories.
From S2P Require Import Attachments Messages MessageProps Receipts Tokens Sessions SessionProps.
From S2P Require Import UserProps.
Import PgConversationRepository.
Open Scope string_scope.
Open Scope Z_scope.

(** ** What a program may do to the tables *)

Section Evolves.
Context (R : Database → Database → Prop) `{!PreOrder R}.

(** Whatever its result, the program relates the tables before and after by
    [R], and only advances the sequences. *)
Definition evolves {A} (m : M World exn A) : Prop := ∀ w,
  R (db w) (db (m w).2) ∧ seqs_le w (m w).2.

Lemma evolves_ret {A} (a : A) : evolves (mret a).
Proof. intros w. split; [reflexivity|intros q; simpl; lia]. Qed.
Lemma evolves_throw {A} (e : exn) : evolves (A:=A) (mthrow e).
Proof. intros w. split; [reflexivity|intros q; simpl; lia]. Qed.
Lemma evolves_lift {A} (r : result exn A) : evolves (lift r).
Proof. intros w. split; [reflexivity|intros q; simpl; lia]. Qed.
Lemma evolves_gets {A} (f : World → A) : evolves (gets f).
Proof. intros w. split; [reflexivity|intros q; simpl; lia]. Qed.
Lemma evolves_emit e : evolves (emit e).
Proof. intros w. split; [reflexivity|intros q; simpl; lia]. Qed.
Lemma evolves_modify_files (f : World → gmap string string) (g : World → list bool) :
  evolves (modify (λ w, set_files (f w) (g w) w)).
Proof. intros w. split; [reflexivity|intros q; simpl; lia]. Qed.
Lemma evolves_write_file path bytes : evolves (LocalFileStorage.write_file path bytes).
Proof.
  intros w. unfold LocalFileStorage.write_file. destruct (default _ _);
    (split; [reflexivity|intros q; simpl; lia]).
Qed.
Lemma evolves_nextval s : evolves (nextval s).
Proof. intros w. split; [reflexivity|apply grows_nextval]. Qed.
Lemma evolves_foreign_key b : evolves (foreign_key b).
Proof. destruct b; [apply evolves_ret|apply evolves_throw]. Qed.
Lemma evolves_update f : (∀ d, R d (f d)) → evolves (update f).
Proof. intros Hf w. split; [apply Hf|intros q; simpl; lia]. Qed.
Lemma evolves_bind {A B} (m : M World exn A) (f : A → M World exn B) :
  evolves m → (∀ a, evolves (f a)) → evolves (m ≫= f).
Proof.
  intros Hm Hf w. unfold mbind, M_bind. destruct (Hm w) as [Hr Hs].
  destruct (m w) as [[a|e] w1]; simpl in *; [|done]. destruct (Hf a w1) as [Hr' Hs'].
  split; [by etrans|]. intros q. specialize (Hs q). specialize (Hs' q). lia.
Qed.
Lemma evolves_for_each {A} (f : A → M World exn unit) l :
  (∀ a, evolves (f a)) → evolves (for_each f l).
Proof. intros Hf. induction l; simpl; [apply evolves_ret|by apply evolves_bind]. Qed.
Lemma evolves_with_transaction {A} (fn : M World exn A) :
  evolves fn → evolves (with_transaction fn).
Proof.
  intros Hf w. split; [|apply grows_with_transaction; intros w'; apply Hf].
  unfold with_transaction. destruct (Hf (set_faults (tail (faults w)) w)) as [Hr _].
  destruct (mjoin _) as [[]|], (fn _) as [[?|[]] ?]; simpl in *; done || reflexivity.
Qed.

(** An assertion that [R] keeps is kept by a program that evolves by [R]. *)
Lemma evolves_keeps {A} (I : assertion) (m : M World exn A) :
  (∀ d d' s s', I d s → R d d' → (∀ q, s q <= s' q) → I d' s') →
  evolves m → hoare I m (λ _, I) I.
Proof.
  intros HI Hm w Hw. destruct (Hm w) as [Hr Hs].
  destruct (m w) as [[a|e] w']; simpl in *; by eapply HI.
Qed.
End Evolves.

(** Tables that a component leaves alone, or only deletes from. *)
Definition same_users (d d' : Database) : Prop := users d' = users d.
Definition fewer_receipts (d d' : Database) : Prop := receipts d' ⊆ receipts d.
Definition fewer_reactions (d d' : Database) : Prop := reactions d' ⊆ reactions d.
Definition same_views (d d' : Database) : Prop :=
  dom (users d) ⊆ dom (users d') ∧
  cview <$> conversations d' = cview <$> conversations d ∧
  pview <$> participants d' = pview <$> participants d.

Global Instance same_users_preorder : PreOrder same_users.
Proof. split; [done|]. intros a b c. unfold same_users. congruence. Qed.
Global Instance fewer_receipts_preorder : PreOrder fewer_receipts.
Proof.
  split; [intros a; unfold fewer_receipts; reflexivity|].
  intros a b c. unfold fewer_receipts. intros. by etrans.
Qed.
Global Instance fewer_reactions_preorder : PreOrder fewer_reactions.
Proof.
  split; [intros a; unfold fewer_reactions; reflexivity|].
  intros a b c. unfold fewer_reactions. intros. by etrans.
Qed.
Global Instance same_views_preorder : PreOrder same_views.
Proof.
  split; [done|]. intros a b c (H1 & H2 & H3) (H4 & H5 & H6). unfold same_views.
  split_and!; [set_solver|congruence..].
Qed.

(** The conversation views do not depend on activity times and read markers. *)
Lemma update_views_c d c f now :
  (∀ r, cview (f r) = cview r) → same_views d (update_conversation c f now d).
Proof. intros Hf. split_and!; try done. simpl. apply alter_views. intros r. apply Hf. Qed.
Lemma update_views_p d P f :
  (∀ r, pview (f r) = pview r) →
  same_views d (set_participants (update_where P f (participants d)) d).
Proof. intros Hf. split_and!; try done. simpl. by apply update_where_views. Qed.
Lemma insert_views_u d i r : same_views d (set_users (<[i := r]> (users d)) d).
Proof. split_and!; try done. simpl. rewrite dom_insert_L. set_solver. Qed.

Create HintDb tables.
#[export] Hint Resolve update_views_c update_views_p insert_views_u : tables.

Ltac solve_tables :=
  first [ done
        | split_and!; done
        | auto with tables; done
        | unfold fewer_receipts, fewer_reactions; cbn; first [reflexivity | apply map_filter_subseteq] ].

Ltac evolve_step :=
  first
    [ progress cbn beta iota zeta
    | apply evolves_ret; apply _ | apply evolves_throw; apply _ | apply evolves_lift; apply _
    | apply evolves_gets; apply _ | apply evolves_emit; apply _ | apply evolves_nextval; apply _
    | apply evolves_modify_files; apply _ | apply evolves_write_file; apply _
    | apply evolves_foreign_key; apply _
    | apply evolves_with_transaction; [apply _|] | apply evolves_for_each; [apply _|intros ?]
    | apply evolves_bind; [apply _| |intros ?]
    | apply evolves_update; intros ?; solve_tables
    | case_match | progress unfold on_db, clock ].
Ltac solve_evolves := repeat evolve_step.

(** ** The calls *)

Section System.
Context `{PasswordHasher, ViolationText, Sha256, ImageProcessor, T : TokenService}.
Context (root : string) (options : AttachmentService.Options) (ttl : Z).

(** The operations of the services that write. *)
Inductive Call :=
  | CAccount (c : AccountCall)
  | CSession (c : SessionCall)
  | CCreate (actor : Z) (request : CreateConversationRequest.t)
  | CDelete (actor conversation : Z)
  | CRename (actor conversation : Z) (request : RenameGroupRequest.t)
  | CAddMember (actor conversation user : Z)
  | CRemoveMember (actor conversation user : Z)
  | CLeave (actor conversation : Z)
  | CSend (actor : Z) (request : SendMessageRequest.t)
  | CEdit (actor message : Z) (request : UpdateMessageRequest.t)
  | CRemoveMessage (actor message : Z)
  | CDelivered (actor message : Z)
  | CRead (actor conversation message : Z)
  | CReact (actor message : Z) (emoji : string)
  | CUnreact (actor message : Z)
  | CUpload (token : string) (input : AttachmentService.UploadInput)
  | CImageJob (attachment : Z) (bytes content_type base_key : string)
  | CRemoveAttachment (actor attachment : Z).

(** A sign of life of the environment between calls is the [Environment] case
    of [CSession]: another time, other faults. *)
Definition perform (c : Call) (w : World) : World :=
  match c with
  | CAccount c => (account_call c w).2
  | CSession c => exec ttl c w
  | CCreate a r => (ConversationService.create a r w).2
  | CDelete a c => (ConversationService.remove a c w).2
  | CRename a c r => (ConversationService.rename_group a c r w).2
  | CAddMember a c u => (ConversationService.add_member a c u w).2
  | CRemoveMember a c u => (ConversationService.remove_member a c u w).2
  | CLeave a c => (ConversationService.leave a c w).2
  | CSend a r => (MessageService.send a r w).2
  | CEdit a m r => (MessageService.edit a m r w).2
  | CRemoveMessage a m => (MessageService.remove a m w).2
  | CDelivered a m => (ReadReceiptService.mark_delivered a m w).2
  | CRead a c m => (ReadReceiptService.mark_read a c m w).2
  | CReact a m e => (ReactionService.react a m e w).2
  | CUnreact a m => (ReactionService.unreact a m w).2
  | CUpload t i => (AttachmentService.upload root options t i w).2
  | CImageJob a b t k => (AttachmentService.image_job root options a b t k w).2
  | CRemoveAttachment a i => (AttachmentService.remove root a i w).2
  end.

Fixpoint perform_all (cs : list Call) (w : World) : World :=
  match cs with [] => w | c :: cs => perform_all cs (perform c w) end.

Ltac unfold_calls :=
  unfold MessageService.send, MessageService.edit, MessageService.remove,
    MessageService.require_message, MessageService.require_participant, MessageService.to_response,
    AttachmentService.link_to_message, AttachmentService.attachment_ids_for,
    AttachmentService.upload, AttachmentService.image_job, AttachmentService.remove,
    AttachmentService.require_attachment, AttachmentService.schedule_image_processing,
    LocalFileStorage.put, LocalFileStorage.remove,
    ReactionService.react, ReactionService.unreact, ReactionService.authorize,
    ReadReceiptService.mark_delivered, ReadReceiptService.mark_read,
    PgMessageRepository.create, PgMessageRepository.find_by_id, PgMessageRepository.update_content,
    PgMessageRepository.soft_delete, PgAttachmentRepository.create,
    PgAttachmentRepository.find_by_id, PgAttachmentRepository.list_for_message,
    PgAttachmentRepository.update_media_meta, PgAttachmentRepository.remove,
    PgAttachmentRepository.link_to_message,
    PgReactionRepository.upsert, PgReactionRepository.remove,
    PgReadReceiptRepository.upsert_state, PgReadReceiptRepository.mark_conversation_read,
    PgReadReceiptRepository.read_one, list_participant_ids, is_participant, find_by_id,
    update_last_read,
    ConversationService.create, ConversationService.remove, ConversationService.rename_group,
    ConversationService.add_member, ConversationService.remove_member, ConversationService.leave,
    ConversationService.require_conversation, ConversationService.require_participant,
    ConversationService.require_owner, ConversationService.require_user_exists,
    create_or_get_direct, create_group, insert_ignore, add_participant, remove_participant,
    rename, transfer_ownership, PgConversationRepository.remove, list_participants.

Ltac unfold_accounts :=
  unfold account_call, AuthService.register_user, AuthService.login, AuthService.build_response,
    UserService.get_by_id, UserService.update_profile,
    SessionService.record, SessionService.rotate, SessionService.rotate_check,
    SessionService.rotate_issue, SessionService.revoke, SessionService.revoke_all,
    SessionService.revoke_others, SessionService.cleanup_expired.

Lemma evolves_link_loop R `{!PreOrder R} ids m o :
  (∀ d t, R d (set_attachments t d)) → evolves R (PgAttachmentRepository.link_loop ids m o).
Proof. intros HR. induction ids as [|i ids IH]; simpl; solve_evolves; auto. Qed.


Lemma evolves_run R {A} (m : M World exn A) w :
  evolves R m → R (db w) (db (m w).2) ∧ seqs_le w (m w).2.
Proof. intros Hm. apply Hm. Qed.

Ltac solve_call :=
  match goal with
  | |- ?R (db ?w) (db (?m ?w).2) ∧ _ =>
      apply (evolves_run R m w); unfold_calls; unfold_accounts;
      repeat first
        [ apply evolves_link_loop; [apply _|intros ? ?; solve_tables] | evolve_step ]
  | |- _ => split; [reflexivity|intros q; simpl; lia]
  end.

Ltac each_call :=
  let Hc := fresh in
  intros Hc;
  match goal with c : Call |- _ => destruct c; try discriminate Hc end;
  repeat match goal with c : AccountCall |- _ => destruct c | c : SessionCall |- _ => destruct c end;
  cbn [perform exec account_call]; solve_call.

Definition writes_conversations (c : Call) : bool :=
  match c with
  | CCreate _ _ | CDelete _ _ | CRename _ _ _ | CAddMember _ _ _ | CRemoveMember _ _ _
  | CLeave _ _ => true
  | _ => false
  end.
Definition writes_receipts (c : Call) : bool :=
  match c with CDelivered _ _ | CRead _ _ _ => true | _ => false end.
Definition writes_reactions (c : Call) : bool :=
  match c with CReact _ _ _ => true | _ => false end.
Definition writes_accounts (c : Call) : bool :=
  match c with CAccount _ => true | _ => false end.

Lemma perform_views c w :
  writes_conversations c = false →
  same_views (db w) (db (perform c w)) ∧ seqs_le w (perform c w).
Proof. each_call. Qed.

Lemma perform_users c w :
  writes_accounts c = false →
  same_users (db w) (db (perform c w)) ∧ seqs_le w (perform c w).
Proof. each_call. Qed.

Lemma perform_receipts c w :
  writes_receipts c = false →
  fewer_receipts (db w) (db (perform c w)) ∧ seqs_le w (perform c w).
Proof. each_call. Qed.

Lemma perform_reactions c w :
  writes_reactions c = false →
  fewer_reactions (db w) (db (perform c w)) ∧ seqs_le w (perform c w).
Proof. each_call. Qed.
End System.

(** ** The invariant *)

(** At most one reaction per message and user, and an allowed one. *)
Definition reactions_ok : assertion := λ d s,
  (∀ i r, reactions d !! i = Some r →
     i < s SReactions ∧ Reaction.is_allowed_reaction (ReactionRow.emoji r) = true) ∧
  (∀ i j r r', reactions d !! i = Some r → reactions d !! j = Some r' →
     ReactionRow.message_id r = ReactionRow.message_id r' →
     ReactionRow.user_id r = ReactionRow.user_id r' → i = j).

Lemma reactions_fewer d d' s s' :
  reactions_ok d s → fewer_reactions d d' → (∀ q, s q <= s' q) → reactions_ok d' s'.
Proof.
  intros [H1 H2] Hsub Hle. split.
  - intros i r Hr. destruct (H1 i r) as [? ?]; [by eapply lookup_weaken|]. split; [|done].
    specialize (Hle SReactions). lia.
  - intros i j r r' Hi Hj. apply H2; by eapply lookup_weaken.
Qed.

Lemma receipts_fewer d d' s s' :
  receipts_ok d s → fewer_receipts d d' → (∀ q, s q <= s' q) → receipts_ok d' s'.
Proof.
  intros [H1 H2] Hsub Hle. split.
  - intros i r Hr. assert (i < s SReceipts) by (eapply H1, lookup_weaken; done).
    specialize (Hle SReceipts). lia.
  - intros i j r r' Hi Hj. apply H2; by eapply lookup_weaken.
Qed.

Lemma conv_inv_views {strict} d d' s s' :
  members_inv strict d s → same_views d d' → (∀ q, s q <= s' q) → members_inv strict d' s'.
Proof.
  intros [Hc Hp Hu Hr Hk Ho] (Hus & Ec & Ep) Hle. apply (conv_inv_mono _ s); [|done].
  unfold members_inv. rewrite Ec, Ep. split; try done.
  - intros p c u role Hv. destruct (Hr p c u role Hv). split; [done|]. by apply Hus.
  - intros c v Hv. destruct (Ho c v Hv) as [(o & ? & Hin & ?)|?]; [left|by right].
    exists o. split; [done|]. split; [by apply Hus|done].
Qed.

Lemma reactions_put d s s' i x :
  reactions_ok d s → (∀ q, s q <= s' q) → i < s' SReactions →
  Reaction.is_allowed_reaction (ReactionRow.emoji x) = true →
  (∀ j r, reactions d !! j = Some r → ReactionRow.message_id r = ReactionRow.message_id x →
     ReactionRow.user_id r = ReactionRow.user_id x → j = i) →
  reactions_ok (set_reactions (<[i := x]> (reactions d)) d) s'.
Proof.
  intros [H1 H2] Hle Hi He Hx. split; cbn [reactions set_reactions].
  - intros k r. rewrite lookup_insert_Some. intros [[<- <-]|[_ Hr]]; [done|].
    destruct (H1 k r Hr). specialize (Hle SReactions). split; [lia|done].
  - intros k1 k2 r1 r2. rewrite !lookup_insert_Some.
    intros [[<- <-]|[? Hr1]] [[<- <-]|[? Hr2]] Hm Hu; [done| | |by eapply H2].
    + symmetry. by eapply Hx.
    + by eapply Hx.
Qed.

Lemma is_reaction_true m u r :
  PgReactionRepository.is_reaction m u r = true ↔
  ReactionRow.message_id r = m ∧ ReactionRow.user_id r = u.
Proof. unfold PgReactionRepository.is_reaction. rewrite andb_true_iff, !Z.eqb_eq. done. Qed.

Lemma upsert_reaction_keeps m u e :
  Reaction.is_allowed_reaction e = true →
  hoare reactions_ok (PgReactionRepository.upsert m u e) (λ _, reactions_ok) reactions_ok.
Proof.
  intros He. apply hoare_txn; [solve_grows| |].
  { intros d s s' Hok Hle. eapply reactions_fewer; [done|unfold fewer_reactions; reflexivity|done]. }
  intros w a w' Hok R. pose proof (proj1 Hok) as H1. pose proof (proj2 Hok) as H2. run_txn R.
  - match goal with E : one_row _ _ = Some (?k, ?x) |- _ =>
      apply one_row_some in E as [Hr [<- <-]%is_reaction_true] end.
    split; (eapply reactions_put; [exact Hok|intros q; case_decide; subst; lia| |done|]);
      first [by intros j r Hj ? ?; eapply H2 | simpl; apply H1 in Hr as [? _]; lia].
  - match goal with E : one_row _ _ = None |- _ => apply one_row_none in E; rename E into Hn end.
    split; (eapply reactions_put; [exact Hok|intros q; case_decide; subst; lia|simpl; lia|done|]);
      intros j r Hj Em Eu; rewrite any_row_false in Hn; specialize (Hn j r Hj);
      by rewrite (proj2 (is_reaction_true m u r)) in Hn.
Qed.

Lemma react_keeps a m e :
  hoare reactions_ok (ReactionService.react a m e) (λ _, reactions_ok) reactions_ok.
Proof.
  unfold ReactionService.react. destruct (Reaction.is_allowed_reaction e) eqn:He; simpl;
    [|by apply hoare_throw].
  apply (hoare_bind _ (λ _, reactions_ok)).
  { apply (evolves_keeps fewer_reactions); [apply reactions_fewer|].
    unfold ReactionService.authorize. solve_evolves. }
  intros msg. apply (hoare_bind _ (λ _, reactions_ok)); [by apply upsert_reaction_keeps|].
  intros r. apply (evolves_keeps fewer_reactions); [apply reactions_fewer|]. solve_evolves.
Qed.

Definition system_ok : assertion := λ d s,
  conv_inv d s ∧ accounts_ok d s ∧ receipts_ok d s ∧ reactions_ok d s.

Lemma hoare_run {A} (I : assertion) (m : M World exn A) w :
  hoare I m (λ _, I) I → I (db w) (seqs w) → I (db (m w).2) (seqs (m w).2).
Proof. intros Hm Hw. specialize (Hm w Hw). by destruct (m w) as [[]]. Qed.

Section Preservation.
Context `{PasswordHasher, ViolationText, Sha256, ImageProcessor, T : TokenService}.
Context (root : string) (options : AttachmentService.Options) (ttl : Z).
Abbreviation step := (perform root options ttl).

Lemma perform_conv c w :
  conv_inv (db w) (seqs w) → conv_inv (db (step c w)) (seqs (step c w)).
Proof.
  intros Hok. destruct (writes_conversations c) eqn:Hc.
  - destruct c; try discriminate Hc; cbn [perform]; (apply hoare_run; [|done]).
    + apply ConversationServiceInv.create_keeps.
    + apply ConversationServiceInv.remove_keeps'.
    + apply ConversationServiceInv.rename_group_keeps.
    + apply ConversationServiceInv.add_member_keeps.
    + apply ConversationServiceInv.remove_member_keeps.
    + apply ConversationServiceInv.leave_keeps.
  - destruct (perform_views root options ttl c w Hc) as [Hv Hs]. by eapply conv_inv_views.
Qed.

Lemma perform_accounts c w :
  accounts_ok (db w) (seqs w) → accounts_ok (db (step c w)) (seqs (step c w)).
Proof.
  intros Hok. destruct (writes_accounts c) eqn:Hc.
  - destruct c; try discriminate Hc. cbn [perform]. apply hoare_run; [apply account_call_keeps|done].
  - destruct (perform_users root options ttl c w Hc) as [Hv Hs].
    eapply accounts_mono; [|exact Hs]. unfold accounts_ok. by rewrite Hv.
Qed.

Lemma perform_receipts_ok c w :
  receipts_ok (db w) (seqs w) → receipts_ok (db (step c w)) (seqs (step c w)).
Proof.
  intros Hok. destruct (writes_receipts c) eqn:Hc.
  - destruct c; try discriminate Hc; cbn [perform]; (apply R_run; [done|]).
    + apply mark_delivered_keeps.
    + apply mark_read_keeps.
  - destruct (perform_receipts root options ttl c w Hc) as [Hv Hs]. by eapply receipts_fewer.
Qed.

Lemma perform_reactions_ok c w :
  reactions_ok (db w) (seqs w) → reactions_ok (db (step c w)) (seqs (step c w)).
Proof.
  intros Hok. destruct (writes_reactions c) eqn:Hc.
  - destruct c; try discriminate Hc. cbn [perform]. apply hoare_run; [apply react_keeps|done].
  - destruct (perform_reactions root options ttl c w Hc) as [Hv Hs]. by eapply reactions_fewer.
Qed.

Lemma perform_ok c w :
  system_ok (db w) (seqs w) → system_ok (db (step c w)) (seqs (step c w)).
Proof.
  intros (H1' & H2' & H3' & H4'). split_and!.
  - by apply perform_conv.
  - by apply perform_accounts.
  - by apply perform_receipts_ok.
  - by apply perform_reactions_ok.
Qed.
End Preservation.

(** C2. The tables as the services leave them.  Start from an empty database and
    let the services perform any calls in any order, at any times and under any
    database and file faults: in every state, each group has exactly one owner,
    who is a member and the only one with that role; a direct conversation is
    the only one of its two users and has no other member; nobody is in a
    conversation twice; no two accounts share a name or an address; and there is
    at most one receipt and at most one reaction, an allowed one, per message and
    user. *)
Theorem tables_invariant `{PasswordHasher, ViolationText, Sha256, ImageProcessor, T : TokenService}
    root options ttl (cs : list Call) (w : World) :
  db w = empty_db →
  let w' := perform_all root options ttl cs w in system_ok (db w') (seqs w').
Proof.
  intros Hdb. assert (system_ok (db w) (seqs w)) as Hok.
  { rewrite Hdb. split_and!; [|split_and!; done..].
    split; intros *; simpl; rewrite ?fmap_empty, lookup_empty; done. }
  clear Hdb. revert w Hok. induction cs as [|c cs IH]; intros w Hok; simpl; [done|].
  apply IH. by apply perform_ok.
Qed.

(** Two registrations, a direct conversation (the first attempt loses its
    commit), a message, a reaction to it, and its receipt. *)
Module SystemSample.
Definition start : World := mkWorld empty_db (λ _, 1) 1700000000000000 [] [] ∅ [].
Definition images : ImageProcessor := NoopImageProcessor.
Definition bob : RegisterRequest :=
  {| reg_username := "bob"; reg_email := "bob@example.com"; reg_password := "correct-horse" |}.
Definition calls : list Call := [
  CAccount (Register "salt" "a" "r" AccountSample.ada);
  CAccount (Register "salt" "b" "s" bob);
  CSession (Environment 1700000001000000 [None; Some (FCommit "lost")]);
  CCreate 1 (CreateConversationRequest.mk ConversationType.kDirect None [2]);
  CCreate 1 (CreateConversationRequest.mk ConversationType.kDirect None [2]);
  CSend 2 (SendMessageRequest.mk 2 "hello" MessageType.kText []);
  CReact 1 1 "👍"; CRead 1 2 1].
Definition options : AttachmentService.Options :=
  {| AttachmentService.max_upload_bytes := 1024; AttachmentService.thumbnail_max_dimension := 64 |}.
Definition finish : World :=
  perform_all (H:=AccountSample.hasher) (H0:=AccountSample.violations) (H1:=SessionSample.sha)
    (H2:=images) (T:=AccountSample.tokens) "/data" options 60 calls start.
End SystemSample.

Lemma tables_invariant_witness :
  (size (users (db SystemSample.finish)), size (conversations (db SystemSample.finish)),
   size (reactions (db SystemSample.finish)), size (receipts (db SystemSample.finish)))
    = (2, 1, 1, 1)%nat ∧
  system_ok (db SystemSample.finish) (seqs SystemSample.finish).
Proof.
  split; [vm_compute; reflexivity|].
  exact (tables_invariant (H:=AccountSample.hasher) (H0:=AccountSample.violations)
    (H1:=SessionSample.sha) (H2:=SystemSample.images) (T:=AccountSample.tokens)
    "/data" SystemSample.options 60 SystemSample.calls SystemSample.start eq_refl).
Defined.
