(* ===== verification/Cache.v ===== *)
(** * Cache: the key/value store, the cache facade and the rate limiter

    Models include/rtc/cache/cache_store.hpp (the interface [CacheStore] and what
    it promises, [CacheStoreLaws]), src/cache/in_memory_cache_store.cpp (the
    implementation that discharges it), src/cache/cache_service.cpp,
    src/cache/presence_cache.cpp and src/ratelimit/rate_limiter.cpp.  The steady
    clock is an argument in nanoseconds.  Each operation holds the store's mutex
    throughout and is one step. *)

From S2P Require Import Prelude Text Json Errors Dto.
Open Scope string_scope.
Open Scope Z_scope.

(** [std::chrono::seconds] as a count, and its conversion to the clock. *)
Definition nanos (seconds : Z) : Z := seconds * 1000000000.

(** ** The interface *)

(* include/rtc/cache/cache_store.hpp:20-54, ICacheStore *)
Class CacheStore (S : Type) := {
  store_set : Z → string → string → Z → S → S;
  store_get : Z → string → S → option string * S;
  store_del : Z → string → S → bool * S;
  store_exists : Z → string → S → bool * S;
  store_expire : Z → string → Z → S → S;
  store_incr : Z → string → Z → S → Z * S;
  store_sadd : Z → string → string → S → S;
  store_srem : Z → string → string → S → S;
  store_sismember : Z → string → string → S → bool;
  store_smembers : Z → string → S → list string;
  store_scard : Z → string → S → Z;
  store_purge : Z → S → Z * S
}.

Module InMemoryCacheStore.
(* include/rtc/cache/in_memory_cache_store.hpp:51-54, InMemoryCacheStore::StringEntry *)
Record StringEntry := mkString { value : string; s_expires_at : option Z }.
(* include/rtc/cache/in_memory_cache_store.hpp:55-58, InMemoryCacheStore::SetEntry *)
Record SetEntry := mkSet { members : gset string; expires_at : option Z }.

(* include/rtc/cache/in_memory_cache_store.hpp:65-66, InMemoryCacheStore *)
Record t := mk { strings : gmap string StringEntry; sets : gmap string SetEntry }.
Definition empty : t := mk ∅ ∅.
Definition set_strings x s := mk x (sets s).
Definition set_sets x s := mk (strings s) x.

(* src/cache/in_memory_cache_store.cpp:8-10, InMemoryCacheStore::is_expired *)
Definition is_expired (now : Z) (expiry : option Z) : bool :=
  match expiry with None => false | Some e => e <=? now end.

(* src/cache/in_memory_cache_store.cpp:12-17, InMemoryCacheStore::deadline *)
Definition deadline (now ttl : Z) : option Z := if ttl <=? 0 then None else Some (now + nanos ttl).

(* src/cache/in_memory_cache_store.cpp:19-22, InMemoryCacheStore::set *)
Definition set (now : Z) (key v : string) (ttl : Z) (s : t) : t :=
  set_strings (<[key := mkString v (deadline now ttl)]> (strings s)) s.

(* src/cache/in_memory_cache_store.cpp:24-35, InMemoryCacheStore::get *)
Definition get (now : Z) (key : string) (s : t) : option string * t :=
  match strings s !! key with
  | None => (None, s)
  | Some e =>
      if is_expired now (s_expires_at e) then (None, set_strings (delete key (strings s)) s)
      else (Some (value e), s)
  end.

(* src/cache/in_memory_cache_store.cpp:37-41, InMemoryCacheStore::del *)
Definition del (now : Z) (key : string) (s : t) : bool * t :=
  (bool_decide (is_Some (strings s !! key)) || bool_decide (is_Some (sets s !! key)),
   mk (delete key (strings s)) (delete key (sets s))).

(* src/cache/in_memory_cache_store.cpp:43-54, InMemoryCacheStore::exists *)
Definition exists_ (now : Z) (key : string) (s : t) : bool * t :=
  match strings s !! key with
  | None => (false, s)
  | Some e =>
      if is_expired now (s_expires_at e) then (false, set_strings (delete key (strings s)) s)
      else (true, s)
  end.

(* src/cache/in_memory_cache_store.cpp:56-65, InMemoryCacheStore::expire *)
Definition expire (now : Z) (key : string) (ttl : Z) (s : t) : t :=
  mk (alter (λ e, mkString (value e) (deadline now ttl)) key (strings s))
     (alter (λ e, mkSet (members e) (deadline now ttl)) key (sets s)).

(** What [std::from_chars] leaves in a variable that was 0. *)
Definition to_int (s : string) : Z := default 0 (fst <$> from_chars_int64 s).

(* src/cache/in_memory_cache_store.cpp:67-86, InMemoryCacheStore::incr *)
Definition incr (now : Z) (key : string) (ttl_on_create : Z) (s : t) : Z * t :=
  let create :=
    (1, set_strings (<[key := mkString "1" (deadline now ttl_on_create)]> (strings s)) s) in
  match strings s !! key with
  | None => create
  | Some e =>
      if is_expired now (s_expires_at e) then create
      else
        let current := to_int (value e) + 1 in
        (current, set_strings (<[key := mkString (to_string current) (s_expires_at e)]> (strings s)) s)
  end.

(* src/cache/in_memory_cache_store.cpp:88-91, InMemoryCacheStore::sadd *)
Definition sadd (now : Z) (key member : string) (s : t) : t :=
  let e := default (mkSet ∅ None) (sets s !! key) in
  set_sets (<[key := mkSet ({[member]} ∪ members e) (expires_at e)]> (sets s)) s.

(* src/cache/in_memory_cache_store.cpp:93-98, InMemoryCacheStore::srem *)
Definition srem (now : Z) (key member : string) (s : t) : t :=
  set_sets (alter (λ e, mkSet (members e ∖ {[member]}) (expires_at e)) key (sets s)) s.

(** The set a key stands for: empty when missing or expired. *)
Definition live_set (now : Z) (key : string) (s : t) : gset string :=
  match sets s !! key with
  | Some e => if is_expired now (expires_at e) then ∅ else members e
  | None => ∅
  end.

(* src/cache/in_memory_cache_store.cpp:100-107, InMemoryCacheStore::sismember *)
Definition sismember (now : Z) (key member : string) (s : t) : bool :=
  bool_decide (member ∈ live_set now key s).
(* src/cache/in_memory_cache_store.cpp:109-120, InMemoryCacheStore::smembers *)
Definition smembers (now : Z) (key : string) (s : t) : list string := elements (live_set now key s).
(* src/cache/in_memory_cache_store.cpp:122-129, InMemoryCacheStore::scard *)
Definition scard (now : Z) (key : string) (s : t) : Z := Z.of_nat (size (live_set now key s)).

(* src/cache/in_memory_cache_store.cpp:131-151, InMemoryCacheStore::purge_expired *)
Definition purge_expired (now : Z) (s : t) : Z * t :=
  let strings' := filter (λ ke : string * StringEntry, is_expired now (s_expires_at ke.2) = false)
                    (strings s) in
  let sets' := filter (λ ke : string * SetEntry, is_expired now (expires_at ke.2) = false) (sets s) in
  (Z.of_nat (size (strings s)) - Z.of_nat (size strings')
   + (Z.of_nat (size (sets s)) - Z.of_nat (size sets')),
   mk strings' sets').
End InMemoryCacheStore.

Global Instance in_memory_store : CacheStore InMemoryCacheStore.t := {|
  store_set := InMemoryCacheStore.set; store_get := InMemoryCacheStore.get;
  store_del := InMemoryCacheStore.del; store_exists := InMemoryCacheStore.exists_;
  store_expire := InMemoryCacheStore.expire; store_incr := InMemoryCacheStore.incr;
  store_sadd := InMemoryCacheStore.sadd; store_srem := InMemoryCacheStore.srem;
  store_sismember := InMemoryCacheStore.sismember; store_smembers := InMemoryCacheStore.smembers;
  store_scard := InMemoryCacheStore.scard; store_purge := InMemoryCacheStore.purge_expired |}.

(** ** What the interface promises

    [peek s t k]: the string a reader would find under [k] at time [t] if nobody
    wrote in between.  Reading and purging change nothing that can be observed;
    the others change one key. *)

(** A value stored at [now] with this time to live is still there at [t]. *)
Definition alive (now ttl t : Z) : bool := (ttl <=? 0) || (t <? now + nanos ttl).

Class CacheStoreLaws (S : Type) `{CacheStore S} := {
  peek : S → Z → string → option string;
  get_result : ∀ s now k, (store_get now k s).1 = peek s now k;
  get_peek : ∀ s now k t k', now <= t → peek (store_get now k s).2 t k' = peek s t k';
  set_peek : ∀ s now k v ttl t k', now <= t →
    peek (store_set now k v ttl s) t k' =
      if decide (k' = k) then (if alive now ttl t then Some v else None) else peek s t k';
  del_peek : ∀ s now k t k', now <= t →
    peek (store_del now k s).2 t k' = if decide (k' = k) then None else peek s t k';
  exists_result : ∀ s now k, (store_exists now k s).1 = bool_decide (is_Some (peek s now k));
  exists_peek : ∀ s now k t k', now <= t → peek (store_exists now k s).2 t k' = peek s t k';
  incr_new : ∀ s now k ttl, peek s now k = None →
    (store_incr now k ttl s).1 = 1 ∧
    ∀ t k', now <= t → peek (store_incr now k ttl s).2 t k' =
      if decide (k' = k) then (if alive now ttl t then Some "1" else None) else peek s t k';
  incr_old : ∀ s now k ttl n, 0 < n < int64_max → peek s now k = Some (to_string n) →
    (store_incr now k ttl s).1 = n + 1 ∧
    ∀ t k', now <= t → peek (store_incr now k ttl s).2 t k' =
      if decide (k' = k) then (λ _, to_string (n + 1)) <$> peek s t k else peek s t k';
  incr_other : ∀ s now k ttl t k', now <= t → k' ≠ k →
    peek (store_incr now k ttl s).2 t k' = peek s t k';
  purge_peek : ∀ s now t k', now <= t → peek (store_purge now s).2 t k' = peek s t k';
  peek_expired : ∀ s t t' k, t <= t' → peek s t k = None → peek s t' k = None;
  peek_stable : ∀ s t t' k v, t <= t' → peek s t' k = Some v → peek s t k = Some v
}.

Module InMemoryFacts.
Import InMemoryCacheStore.

Definition view (s : t) (now : Z) (k : string) : option string :=
  match strings s !! k with
  | Some e => if is_expired now (s_expires_at e) then None else Some (value e)
  | None => None
  end.

Lemma is_expired_mono now now' e : now <= now' → is_expired now e = true → is_expired now' e = true.
Proof. destruct e as [e|]; simpl; [|done]. intros ? ?%Z.leb_le. apply Z.leb_le. lia. Qed.

Lemma deadline_alive now ttl now' : is_expired now' (deadline now ttl) = negb (alive now ttl now').
Proof.
  unfold deadline, alive. destruct (Z.leb_spec ttl 0); simpl; [done|].
  by rewrite Z.leb_antisym.
Qed.

Lemma view_insert s k v e now k' :
  view (set_strings (<[k := mkString v e]> (strings s)) s) now k' =
  if decide (k' = k) then (if is_expired now e then None else Some v) else view s now k'.
Proof.
  unfold view. simpl. destruct (decide (k' = k)) as [->|Hne].
  - by rewrite lookup_insert_eq.
  - by rewrite lookup_insert_ne.
Qed.

Lemma view_delete s k sts now k' :
  view (mk (delete k (strings s)) sts) now k' = if decide (k' = k) then None else view s now k'.
Proof.
  unfold view. simpl. destruct (decide (k' = k)) as [->|Hne].
  - by rewrite lookup_delete_eq.
  - by rewrite lookup_delete_ne.
Qed.

(** Dropping an expired entry is not observable afterwards. *)
Lemma view_drop s k e now now' k' :
  strings s !! k = Some e → is_expired now (s_expires_at e) = true → now <= now' →
  view (set_strings (delete k (strings s)) s) now' k' = view s now' k'.
Proof.
  intros Hk He Hle. unfold set_strings. rewrite view_delete. case_decide as E; [|done]. subst.
  unfold view. rewrite Hk. by rewrite (is_expired_mono now).
Qed.

Lemma view_get s now k now' k' : now <= now' → view (get now k s).2 now' k' = view s now' k'.
Proof.
  intros Hle. unfold get. destruct (strings s !! k) as [e|] eqn:Hk; [|done].
  destruct (is_expired now _) eqn:He; [|done]. simpl. by eapply view_drop.
Qed.

Lemma view_incr_new s now k ttl :
  view s now k = None →
  incr now k ttl s = (1, set_strings (<[k := mkString "1" (deadline now ttl)]> (strings s)) s).
Proof.
  unfold view, incr. destruct (strings s !! k) as [e|]; [|done]. by destruct (is_expired now _).
Qed.

Lemma to_int_to_string n : int64_min <= n <= int64_max → to_int (to_string n) = n.
Proof.
  intros Hn. unfold to_int, from_chars_int64. rewrite <- (append_nil_r (to_string n)).
  by rewrite from_chars_to_string.
Qed.

Lemma view_incr_old s now k ttl v :
  view s now k = Some v →
  ∃ e, strings s !! k = Some e ∧ is_expired now (s_expires_at e) = false ∧ value e = v ∧
    incr now k ttl s = (to_int v + 1,
      set_strings (<[k := mkString (to_string (to_int v + 1)) (s_expires_at e)]> (strings s)) s).
Proof.
  unfold view, incr. destruct (strings s !! k) as [e|]; [|done].
  destruct (is_expired now _) eqn:He; [done|]. intros [= <-]. by exists e.
Qed.

Lemma view_purge s now now' k' : now <= now' → view (purge_expired now s).2 now' k' = view s now' k'.
Proof.
  intros Hle. unfold view. simpl. rewrite map_lookup_filter.
  destruct (strings s !! k') as [e|]; simpl; [|done].
  case_guard as Hg; simpl in *; [done|]. destruct (is_expired now _) eqn:He; [|done].
  by rewrite (is_expired_mono now).
Qed.

Global Instance in_memory_laws : CacheStoreLaws InMemoryCacheStore.t.
Proof.
  refine {| peek := view |}.
  - intros s now k. simpl. unfold get, view. destruct (strings s !! k); [|done]. by case_match.
  - intros. by apply view_get.
  - intros. simpl. unfold set. rewrite view_insert, deadline_alive. by destruct (alive _ _ _).
  - intros. apply view_delete.
  - intros s now k. simpl. unfold exists_, view. destruct (strings s !! k); [|done].
    by destruct (is_expired _ _).
  - intros s now k t k' Hle. rewrite <- (view_get s now k) by done. simpl. unfold exists_, get.
    destruct (strings s !! k); [|done]. by destruct (is_expired _ _).
  - intros s now k ttl Hn. simpl. rewrite (view_incr_new _ _ _ _ Hn). split; [done|].
    intros t k' _. simpl. rewrite view_insert, deadline_alive. by destruct (alive _ _ _).
  - intros s now k ttl n Hn Hv. simpl.
    destruct (view_incr_old s now k ttl _ Hv) as (e & Hk & He & Hve & ->). simpl.
    rewrite to_int_to_string by (unfold int64_min; lia). split; [done|]. intros t k' _. rewrite view_insert.
    case_decide; [|done]. subst. unfold view. rewrite Hk. by destruct (is_expired t _).
  - intros s now k ttl t k' _ Hne. simpl. destruct (view s now k) as [v|] eqn:Hv.
    + destruct (view_incr_old s now k ttl _ Hv) as (e & _ & _ & _ & ->). simpl.
      by rewrite view_insert, decide_False.
    + rewrite (view_incr_new _ _ _ _ Hv). simpl. by rewrite view_insert, decide_False.
  - intros. by apply view_purge.
  - intros s t t' k Hle. unfold view. destruct (strings s !! k) as [e|]; [|done].
    destruct (is_expired t _) eqn:He; [|done]. by rewrite (is_expired_mono t).
  - intros s t t' k v Hle. unfold view. destruct (strings s !! k) as [e|]; [|done].
    destruct (is_expired t _) eqn:He; [by rewrite (is_expired_mono t)|]. by destruct (is_expired t' _).
Defined.
End InMemoryFacts.

(** ** Invalidation notices, the cache facade and the presence cache *)

Module InvalidationEvent.
(* include/rtc/cache/invalidation.hpp:26-34, InvalidationEvent *)
Record t := mk { scope : string; key : string; sub_key : string }.

(* include/rtc/cache/invalidation.hpp:36-42, InvalidationEvent::to_json *)
Definition to_json (e : t) : json :=
  let out := jobj [("scope", JStr (scope e)); ("key", JStr (key e))] in
  if negb (String.eqb (sub_key e) "") then jset "sub_key" (JStr (sub_key e)) out else out.

(** A member that is a string, or the empty default. *)
Definition text_member (body : json) (name : string) : string :=
  match find body name with Some (JStr s) => s | _ => "" end.

(* include/rtc/cache/invalidation.hpp:44-56, InvalidationEvent::from_json *)
Definition from_json (body : json) : t :=
  mk (text_member body "scope") (text_member body "key") (text_member body "sub_key").

(* include/rtc/cache/invalidation.hpp:64-64, invalidation_scopes::kAuthorization *)
Definition kAuthorization := "authorization".
(* include/rtc/cache/invalidation.hpp:66-66, invalidation_scopes::kNamespacedKey *)
Definition kNamespacedKey := "cache".

Lemma from_to_json e : from_json (to_json e) = e.
Proof.
  destruct e as [s k sk]. unfold to_json, from_json, text_member. simpl.
  destruct (String.eqb_spec sk "") as [->|Hne]; simpl; [done|].
  reflexivity.
Qed.
End InvalidationEvent.

Module CacheService.
Section Service.
Context {S : Type} `{CacheStore S, JsonText}.

(* include/rtc/cache/cache_service.hpp:79-82, CacheService *)
Record t := mk { store : S; published : list InvalidationEvent.t; hits : Z; misses : Z }.

(* src/cache/cache_service.cpp:7-15, CacheService::make_key *)
Definition make_key (ns key : string) : string := "rtc:" +:+ ns +:+ ":" +:+ key.

(* src/cache/cache_service.cpp:17-33, CacheService::get *)
Definition get (now : Z) (ns key : string) (c : t) : option json * t :=
  let full := make_key ns key in
  let '(raw, st) := store_get now full (store c) in
  match raw with
  | None => (None, mk st (published c) (hits c) (misses c + 1))
  | Some text =>
      match json_parse text with
      | None => (None, mk (store_del now full st).2 (published c) (hits c) (misses c + 1))
      | Some parsed => (Some parsed, mk st (published c) (hits c + 1) (misses c))
      end
  end.

(* src/cache/cache_service.cpp:35-40, CacheService::put *)
Definition put (now : Z) (ns key : string) (value : json) (ttl : Z) (c : t) : t :=
  mk (store_set now (make_key ns key) (json_dump value) ttl (store c)) (published c) (hits c)
    (misses c).

(* src/cache/cache_service.cpp:42-44, CacheService::invalidate_local *)
Definition invalidate_local (now : Z) (ns key : string) (c : t) : t :=
  mk (store_del now (make_key ns key) (store c)).2 (published c) (hits c) (misses c).

(* src/cache/cache_service.cpp:46-52, CacheService::invalidate *)
Definition invalidate (now : Z) (ns key : string) (c : t) : t :=
  let c := invalidate_local now ns key c in
  mk (store c) (published c ++ [InvalidationEvent.mk InvalidationEvent.kNamespacedKey ns key])
    (hits c) (misses c).

(* include/rtc/cache/cache_service.hpp:54-65, CacheService::remember *)
Definition remember (now : Z) (ns key : string) (ttl : Z) (loader : result exn json)
    : M t exn json := λ c,
  match get now ns key c with
  | (Some cached, c) => (Ok cached, c)
  | (None, c) =>
      match loader with
      | Ok value => (Ok value, put now ns key value ttl c)
      | Err e => (Err e, c)
      end
  end.
End Service.
End CacheService.

Module PresenceCache.
Section Cache.
Context {S : Type} `{CacheStore S}.

(* src/cache/presence_cache.cpp:9-9, kOnlineSet *)
Definition kOnlineSet := "presence:online".
(* src/cache/presence_cache.cpp:11-13, conn_key *)
Definition conn_key (user_id : Z) : string := "presence:conn:" +:+ to_string user_id.
(* src/cache/presence_cache.cpp:15-19, to_int *)
Definition to_int (s : string) : Z := default 0 (fst <$> from_chars_int64 s).

(* src/cache/presence_cache.cpp:23-30, PresenceCache::add_connection *)
Definition add_connection (now user_id : Z) (s : S) : bool * S :=
  let '(count, s) := store_incr now (conn_key user_id) 0 s in
  (count =? 1, store_sadd now kOnlineSet (to_string user_id) s).

(* src/cache/presence_cache.cpp:32-44, PresenceCache::remove_connection *)
Definition remove_connection (now user_id : Z) (s : S) : bool * S :=
  let '(current, s) := store_get now (conn_key user_id) s in
  let remaining := match current with Some c => to_int c - 1 | None => 0 end in
  if remaining <=? 0
  then (true, store_srem now kOnlineSet (to_string user_id)
                (store_del now (conn_key user_id) s).2)
  else (false, store_set now (conn_key user_id) (to_string remaining) 0 s).

(* src/cache/presence_cache.cpp:46-48, PresenceCache::is_online *)
Definition is_online (now user_id : Z) (s : S) : bool :=
  store_sismember now kOnlineSet (to_string user_id) s.

(* src/cache/presence_cache.cpp:50-56, PresenceCache::online_user_ids *)
Definition online_user_ids (now : Z) (s : S) : list Z := to_int <$> store_smembers now kOnlineSet s.

(* src/cache/presence_cache.cpp:58-60, PresenceCache::online_count *)
Definition online_count (now : Z) (s : S) : Z := store_scard now kOnlineSet s.
End Cache.
End PresenceCache.

(** ** The rate limiter *)

Module RateLimiter.
(* include/rtc/ratelimit/rate_limiter.hpp:19-24, RateLimiter::Result *)
Record Result := { allowed : bool; limit : Z; remaining : Z; retry_after_seconds : Z }.

Section Limiter.
Context {S : Type} `{CacheStore S} (enabled : bool).

Definition rate_key (bucket identity : string) : string :=
  "ratelimit:" +:+ bucket +:+ ":" +:+ identity.

(* src/ratelimit/rate_limiter.cpp:10-33, RateLimiter::check *)
Definition check (now : Z) (bucket identity : string) (max window : Z) (s : S) : Result * S :=
  if negb enabled || (max <=? 0)
  then ({| allowed := true; limit := max; remaining := max; retry_after_seconds := 0 |}, s)
  else
    let '(count, s') := store_incr now (rate_key bucket identity) window s in
    let ok := count <=? max in
    ({| allowed := ok; limit := max; remaining := Z.max 0 (max - count);
        retry_after_seconds := if ok then 0 else window |}, s').

(* src/ratelimit/rate_limiter.cpp:35-46, RateLimiter::enforce *)
Definition enforce (now : Z) (bucket identity : string) (max window : Z) : M S exn Result := λ s,
  let '(r, s') := check now bucket identity max window s in
  if negb (allowed r)
  then (Err (RateLimitException "Rate limit exceeded, please retry later"
               ("retry_after=" +:+ to_string (retry_after_seconds r))), s')
  else (Ok r, s').

(** Traffic on the store: hits of one identity on one bucket, among other uses
    of the store. *)
Inductive Traffic :=
  | Hit (t : Z)
  | Get (t : Z) (k : string)
  | Set_ (t : Z) (k v : string) (ttl : Z)
  | Del (t : Z) (k : string)
  | Incr (t : Z) (k : string) (ttl : Z)
  | Purge (t : Z).

Definition time (x : Traffic) : Z :=
  match x with
  | Hit t | Get t _ | Set_ t _ _ _ | Del t _ | Incr t _ _ | Purge t => t
  end.
Fixpoint in_order (t0 : Z) (xs : list Traffic) : Prop :=
  match xs with [] => True | x :: xs => t0 <= time x ∧ in_order (time x) xs end.
Definition hits (xs : list Traffic) : list Z :=
  omap (λ x, match x with Hit t => Some t | _ => None end) xs.
(** Nobody else writes under the key of this bucket and identity. *)
Definition foreign (key : string) (x : Traffic) : Prop :=
  match x with Set_ _ k _ _ | Del _ k | Incr _ k _ => k ≠ key | _ => True end.

Context (bucket identity : string) (max window : Z).

(** The decisions on the hits, in order. *)
Fixpoint decisions (xs : list Traffic) (s : S) : list bool :=
  match xs with
  | [] => []
  | Hit t :: xs =>
      let '(r, s') := check t bucket identity max window s in allowed r :: decisions xs s'
  | Get t k :: xs => decisions xs (store_get t k s).2
  | Set_ t k v ttl :: xs => decisions xs (store_set t k v ttl s)
  | Del t k :: xs => decisions xs (store_del t k s).2
  | Incr t k ttl :: xs => decisions xs (store_incr t k ttl s).2
  | Purge t :: xs => decisions xs (store_purge t s).2
  end.

(** Fixed windows: a hit outside the current window opens one; of the hits of a
    window, the first [max] are allowed. *)
Fixpoint windows (cur : option (Z * Z)) (ts : list Z) : list bool :=
  match ts with
  | [] => []
  | t :: ts =>
      match cur with
      | Some (start, n) =>
          if t <? start + nanos window
          then (n + 1 <=? max) :: windows (Some (start, n + 1)) ts
          else (1 <=? max) :: windows (Some (t, 1)) ts
      | None => (1 <=? max) :: windows (Some (t, 1)) ts
      end
  end.

(** How many hits between [a] and [b] were allowed. *)
Definition allowed_in (a b : Z) (ts : list Z) (ds : list bool) : Z :=
  Z.of_nat (length (filter (λ td : Z * bool, a <= td.1 < b ∧ td.2 = true) (zip ts ds))).
End Limiter.
End RateLimiter.

Module LimiterFacts.
Import RateLimiter.

Section Facts.
Context {S : Type} `{CacheStoreLaws S} (bucket identity : string) (max window : Z).
Context (Hmax : 0 < max) (Hwindow : 0 < window).
Abbreviation key := (rate_key bucket identity).

(** The store holds the count of the current window, and will drop it at its
    end. *)
Definition tracks (now : Z) (cur : option (Z * Z)) (s : S) : Prop :=
  ∀ t, now <= t → peek s t key =
    match cur with
    | Some (start, n) => if t <? start + nanos window then Some (to_string n) else None
    | None => None
    end.

Lemma tracks_other now now' cur s s' :
  tracks now cur s → now <= now' →
  (∀ t, now' <= t → peek s' t key = peek s t key) → tracks now' cur s'.
Proof. intros Ht Hle Hs t Hle'. rewrite Hs by done. apply Ht. lia. Qed.

Lemma tracks_hit now cur s t :
  tracks now cur s → now <= t →
  (match cur with Some (_, n) => 0 < n < int64_max | None => True end) →
  let '(r, s') := check true t bucket identity max window s in
  match cur with
  | Some (start, n) =>
      if t <? start + nanos window
      then allowed r = (n + 1 <=? max) ∧ tracks t (Some (start, n + 1)) s'
      else allowed r = (1 <=? max) ∧ tracks t (Some (t, 1)) s'
  | None => allowed r = (1 <=? max) ∧ tracks t (Some (t, 1)) s'
  end.
Proof.
  intros Ht Hle Hn. unfold check. rewrite (proj2 (Z.leb_gt max 0)) by done. simpl.
  destruct (store_incr t key window s) as [count s'] eqn:Hi. simpl.
  assert (peek s t key = None → (count <=? max) = (1 <=? max) ∧ tracks t (Some (t, 1)) s') as Hnew.
  { intros Hp. destruct (incr_new s t key window Hp) as [Hc Hs]. rewrite Hi in Hc, Hs. simpl in *.
    subst. split; [done|]. intros t' Ht'. rewrite Hs, decide_True by done. unfold alive.
    rewrite (proj2 (Z.leb_gt window 0)) by done. simpl. by case_match. }
  pose proof (Ht t Hle) as Hp. destruct cur as [[start n]|]; [|by apply Hnew].
  destruct (t <? start + nanos window) eqn:Hin; [|by apply Hnew].
  destruct (incr_old s t key window n) as [Hc Hs]; [done..|].
  rewrite Hi in Hc, Hs. simpl in *. subst. split; [done|]. intros t' Ht'.
  rewrite Hs, decide_True, Ht by (done || lia). by destruct (t' <? start + nanos window).
Qed.

(** A step of other traffic. *)
Lemma tracks_foreign now cur s x xs :
  tracks now cur s → now <= time x → foreign key x → (∀ t, x ≠ Hit t) →
  ∃ s', decisions true bucket identity max window (x :: xs) s =
          decisions true bucket identity max window xs s' ∧ tracks (time x) cur s'.
Proof.
  intros Ht Hle Hf Hh.
  destruct x; simpl in *; try (by destruct (Hh t)); eexists; (split; [reflexivity|]);
    (eapply tracks_other; [exact Ht|done|]); intros t' Ht'.
  - by rewrite get_peek.
  - by rewrite set_peek, decide_False.
  - by rewrite del_peek, decide_False.
  - by rewrite incr_other.
  - by rewrite purge_peek.
Qed.

Lemma decisions_windows xs : ∀ now cur s,
  tracks now cur s → in_order now xs → Forall (foreign key) xs →
  (match cur with Some (_, n) => 0 < n | None => True end) →
  default 0 (snd <$> cur) + Z.of_nat (length xs) <= int64_max →
  decisions true bucket identity max window xs s = windows max window cur (hits xs).
Proof.
  induction xs as [|x xs IH]; intros now cur s Ht Ho Hf Hn Hlen; [done|].
  destruct Ho as [Hle Ho]. inversion_clear Hf as [|?? Hx Hf']. rewrite length_cons in Hlen.
  assert ((∃ t, x = Hit t) ∨ ∀ t, x ≠ Hit t) as [[t ->]|Hno] by (destruct x; eauto).
  - pose proof (tracks_hit now cur s t Ht Hle) as Hh. cbn [decisions hits omap list_omap].
    destruct (check true t bucket identity max window s) as [r s'].
    destruct cur as [[start n]|]; simpl in *.
    + destruct (t <? start + nanos window); destruct Hh as [-> Hs]; try lia; f_equal;
        eapply IH; try done; simpl; lia.
    + destruct Hh as [-> Hs]; [done|]. f_equal. eapply IH; try done; simpl; lia.
  - destruct (tracks_foreign now cur s x xs) as (s' & -> & Hs'); [done..|].
    assert (hits (x :: xs) = hits xs) as ->.
    { destruct x as [t| | | | |]; try done. by destruct (Hno t). }
    eapply IH; try done. lia.
Qed.
End Facts.
End LimiterFacts.

Section Bound.
Import RateLimiter.
Context (max window a : Z) (Hmax : 0 < max) (Hwindow : 0 < window).
Abbreviation W := (nanos window).
Abbreviation granted := (allowed_in a (a + W)).

Lemma allowed_in_cons t d ts ds :
  granted (t :: ts) (d :: ds) =
  (if decide (a <= t < a + W ∧ d = true) then 1 else 0) + granted ts ds.
Proof.
  unfold allowed_in. cbn [zip zip_with]. rewrite filter_cons. simpl. case_decide; simpl; lia.
Qed.

Fixpoint ascending (t0 : Z) (ts : list Z) : Prop :=
  match ts with [] => True | t :: ts => t0 <= t ∧ ascending t ts end.

Lemma granted_after ts : ∀ t0 ds, ascending t0 ts → a + W <= t0 → granted ts ds = 0.
Proof.
  induction ts as [|t ts IH]; intros t0 ds Ho Hle; [done|]. destruct Ho as [Ht Ho].
  destruct ds as [|d ds]; [done|]. rewrite allowed_in_cons, decide_False by lia.
  rewrite (IH t) by (done || lia). done.
Qed.

(** A window opened within the interval is the last one that matters. *)
Lemma granted_inside ts : ∀ t0 start n, ascending t0 ts → a <= start →
  granted ts (windows max window (Some (start, n)) ts) <= Z.max 0 (max - n).
Proof.
  induction ts as [|t ts IH]; intros t0 start n Ho Hs; [unfold allowed_in; simpl; lia|].
  destruct Ho as [Ht Ho].
  cbn [windows]. destruct (Z.ltb_spec t (start + W)); rewrite allowed_in_cons.
  - specialize (IH t start (n + 1) Ho Hs).
    case_decide as Hd; [destruct Hd as [_ Hd%Z.leb_le]|]; lia.
  - rewrite decide_False, (granted_after ts t) by (done || lia). lia.
Qed.

(** One opened before it leaves room for one more; [c] of its hits were allowed
    within the interval so far. *)
Lemma granted_before ts : ∀ t0 start n c, ascending t0 ts →
  0 <= c <= n → c <= max → (0 < c → a <= t0) →
  granted ts (windows max window (Some (start, n)) ts) <= 2 * max - c.
Proof.
  induction ts as [|t ts IH]; intros t0 start n c Ho Hc Hcm Hpos; [unfold allowed_in; simpl; lia|].
  destruct Ho as [Ht Ho].
  cbn [windows]. destruct (Z.ltb_spec t (start + W)); rewrite allowed_in_cons.
  - case_decide as Hd; [destruct Hd as [Hin Hd%Z.leb_le]|].
    + specialize (IH t start (n + 1) (c + 1) Ho). lia.
    + specialize (IH t start (n + 1) c Ho). lia.
  - destruct (decide (a <= t)) as [Ha|Ha].
    + pose proof (granted_inside ts t t 1 Ho Ha). case_decide; lia.
    + rewrite decide_False by lia. specialize (IH t t 1 0 Ho). lia.
Qed.

Lemma granted_windows ts t0 : ascending t0 ts →
  granted ts (windows max window None ts) <= 2 * max.
Proof.
  destruct ts as [|t ts]; intros Ho; [unfold allowed_in; simpl; lia|]. destruct Ho as [_ Ho].
  cbn [windows]. rewrite allowed_in_cons. destruct (decide (a <= t)) as [Ha|Ha].
  - pose proof (granted_inside ts t t 1 Ho Ha). case_decide; lia.
  - rewrite decide_False by lia. pose proof (granted_before ts t t 1 0 Ho). lia.
Qed.

Lemma hits_ascending xs : ∀ t0, in_order t0 xs → ascending t0 (hits xs).
Proof.
  assert (∀ ts t0 t1, t0 <= t1 → ascending t1 ts → ascending t0 ts) as Hweak.
  { intros [|t ts] t0 t1 Hle; simpl; [done|]. intros [? ?]. split; [lia|done]. }
  induction xs as [|x xs IH]; intros t0; [done|]. intros [Hle Ho]. specialize (IH _ Ho).
  destruct x; simpl in *; by eauto.
Qed.
End Bound.

(** C28. Rate limiting.  Whatever else happens to the store, the decisions on the
    hits of an identity on a bucket are those of fixed windows: a window opens
    at the first hit after the previous one has ended, its first [max] hits are
    allowed and the others refused.  So within any [window] seconds at most
    twice [max] hits are allowed, and a refusal comes with [window] as the time to
    wait. *)
Theorem rate_limit_windows `{CacheStoreLaws Store} (bucket identity : string) (max window t0 : Z)
    (xs : list RateLimiter.Traffic) (s : Store) :
  0 < max → 0 < window →
  (∀ t, t0 <= t → peek s t (RateLimiter.rate_key bucket identity) = None) →
  RateLimiter.in_order t0 xs →
  Forall (RateLimiter.foreign (RateLimiter.rate_key bucket identity)) xs →
  Z.of_nat (length xs) <= int64_max →
  let ds := RateLimiter.decisions true bucket identity max window xs s in
  ds = RateLimiter.windows max window None (RateLimiter.hits xs) ∧
  (∀ a, RateLimiter.allowed_in a (a + nanos window) (RateLimiter.hits xs) ds <= 2 * max) ∧
  (∀ t e s', RateLimiter.enforce true t bucket identity max window s = (Err e, s') →
     e = RateLimitException "Rate limit exceeded, please retry later"
           ("retry_after=" +:+ to_string window)).
Proof.
  intros Hmax Hw Hfresh Ho Hf Hlen ds.
  assert (ds = RateLimiter.windows max window None (RateLimiter.hits xs)) as Hd.
  { by eapply LimiterFacts.decisions_windows. }
  split; [done|]. split.
  - intros a. rewrite Hd. eapply granted_windows; [done|by apply hits_ascending].
  - intros t e s'. unfold RateLimiter.enforce, RateLimiter.check.
    rewrite (proj2 (Z.leb_gt max 0)) by done. simpl. destruct (store_incr _ _ _ _) as [c s1]. simpl.
    destruct (c <=? max); simpl; [done|]. by intros [= <- _].
Qed.

(** Two hits a second with a limit of three per two seconds. *)
Lemma rate_limit_windows_witness :
  let xs := RateLimiter.Purge 0 :: ((λ i, RateLimiter.Hit (i * 500000000)) <$> [0; 1; 2; 3; 4; 5]) in
  RateLimiter.decisions true "login" "10.0.0.1" 3 2 xs InMemoryCacheStore.empty
    = [true; true; true; false; true; true].
Proof.
  intros xs.
  refine (eq_trans (proj1 (rate_limit_windows (Store:=InMemoryCacheStore.t)
    (H0:=InMemoryFacts.in_memory_laws) "login" "10.0.0.1" 3 2 0 xs InMemoryCacheStore.empty _ _ _ _ _ _)) _).
  - lia.
  - lia.
  - reflexivity.
  - vm_compute. repeat split; discriminate.
  - repeat constructor.
  - vm_compute. discriminate.
  - vm_compute. reflexivity.
Defined.
