(* ===== verification/Redis.v ===== *)
(** * Redis: the cache store of multi-instance deployments

    Models src/cache/redis_cache_store.cpp and its header, with and without Redis
    compiled in.  The server and its client library are a parameter ([Redis]):
    the commands the store sends, with their documented effect as laws.  A
    command may fail to reach the server, which the library reports by an
    exception; the outages to come are part of the client's state. *)

From S2P Require Import Prelude Text Json Errors Dto Cache.
Open Scope string_scope.
Open Scope Z_scope.

(** ** The server *)

(** The commands, at a time of the server's clock. *)
Class Redis (V : Type) := {
  redis_set : Z → string → string → option Z → V → V;
  redis_get : Z → string → V → option string;
  redis_del : Z → string → V → Z * V;
  redis_exists : Z → string → V → Z;
  redis_expire : Z → string → Z → V → V;
  redis_incr : Z → string → V → Z * V;
  redis_sadd : Z → string → string → V → V;
  redis_srem : Z → string → string → V → V;
  redis_sismember : Z → string → string → V → bool;
  redis_smembers : Z → string → V → list string;
  redis_scard : Z → string → V → Z
}.

(** What the documentation says of the commands on strings: [holds v t k] is the
    string under [k] at time [t] if nobody writes in between.  INCR keeps the
    expiry of a key and starts a missing one at 1 without any; EXPIRE replaces
    the expiry. *)
Class RedisLaws (V : Type) `{Redis V} := {
  holds : V → Z → string → option string;
  holds_expired : ∀ v t t' k, t <= t' → holds v t k = None → holds v t' k = None;
  holds_stable : ∀ v t t' k x, t <= t' → holds v t' k = Some x → holds v t k = Some x;
  redis_get_spec : ∀ v now k, redis_get now k v = holds v now k;
  redis_exists_spec : ∀ v now k, (0 <? redis_exists now k v) = bool_decide (is_Some (holds v now k));
  redis_set_spec : ∀ v now k x ttl t k', now <= t →
    holds (redis_set now k x ttl v) t k' =
      if decide (k' = k)
      then match ttl with Some d => if t <? now + nanos d then Some x else None | None => Some x end
      else holds v t k';
  redis_del_spec : ∀ v now k t k', now <= t →
    holds (redis_del now k v).2 t k' = if decide (k' = k) then None else holds v t k';
  redis_expire_spec : ∀ v now k d t k', 0 < d → now <= t →
    holds (redis_expire now k d v) t k' =
      if decide (k' = k) then (if t <? now + nanos d then holds v now k else None) else holds v t k';
  redis_incr_new : ∀ v now k, holds v now k = None →
    (redis_incr now k v).1 = 1 ∧ ∀ t, now <= t → holds (redis_incr now k v).2 t k = Some "1";
  redis_incr_old : ∀ v now k n, 0 < n < int64_max → holds v now k = Some (to_string n) →
    (redis_incr now k v).1 = n + 1 ∧
    ∀ t, now <= t → holds (redis_incr now k v).2 t k = (λ _, to_string (n + 1)) <$> holds v t k;
  redis_incr_other : ∀ v now k t k', now <= t → k' ≠ k → holds (redis_incr now k v).2 t k' = holds v t k'
}.

(** ** The store *)

(** The client: the server, and the outages its next commands will meet. *)
Record Client (V : Type) := mkClient { server : V; outages : list (option string) }.
Arguments mkClient {V}. Arguments server {V}. Arguments outages {V}.

Module RedisCacheStore.
Section Store.
Context {V : Type} `{Redis V}.

(** [impl_->redis.command(...)]. *)
Definition command {A} (c : V → A * V) : M (Client V) exn A := λ s,
  match mjoin (head (outages s)) with
  | Some what => (Err (Std what), mkClient (server s) (tail (outages s)))
  | None => let '(a, v) := c (server s) in (Ok a, mkClient v (tail (outages s)))
  end.
Definition ask {A} (c : V → A) : M (Client V) exn A := command (λ v, (c v, v)).
Definition tell (c : V → V) : M (Client V) exn unit := command (λ v, (tt, c v)).

(* src/cache/redis_cache_store.cpp:29-35, RedisCacheStore::set *)
Definition set (now : Z) (key value : string) (ttl : Z) : M (Client V) exn unit :=
  if 0 <? ttl then tell (redis_set now key value (Some ttl)) else tell (redis_set now key value None).

(* src/cache/redis_cache_store.cpp:37-43, RedisCacheStore::get *)
Definition get (now : Z) (key : string) : M (Client V) exn (option string) :=
  value ← ask (redis_get now key);
  match value with Some value => mret (Some value) | None => mret None end.

(* src/cache/redis_cache_store.cpp:45-47, RedisCacheStore::del *)
Definition del (now : Z) (key : string) : M (Client V) exn bool :=
  count ← command (redis_del now key);
  mret (0 <? count).

(* src/cache/redis_cache_store.cpp:49-51, RedisCacheStore::exists *)
Definition exists_ (now : Z) (key : string) : M (Client V) exn bool :=
  count ← ask (redis_exists now key);
  mret (0 <? count).

(* src/cache/redis_cache_store.cpp:53-55, RedisCacheStore::expire *)
Definition expire (now : Z) (key : string) (ttl : Z) : M (Client V) exn unit := tell (redis_expire now key ttl).

(* src/cache/redis_cache_store.cpp:57-63, RedisCacheStore::incr *)
Definition incr (now : Z) (key : string) (ttl_on_create : Z) : M (Client V) exn Z :=
  value ← command (redis_incr now key);
  (if (value =? 1) && (0 <? ttl_on_create) then tell (redis_expire now key ttl_on_create) else mret ());;
  mret value.

(* src/cache/redis_cache_store.cpp:65-67, RedisCacheStore::sadd *)
Definition sadd (now : Z) (key member : string) : M (Client V) exn unit := tell (redis_sadd now key member).
(* src/cache/redis_cache_store.cpp:69-71, RedisCacheStore::srem *)
Definition srem (now : Z) (key member : string) : M (Client V) exn unit := tell (redis_srem now key member).
(* src/cache/redis_cache_store.cpp:73-75, RedisCacheStore::sismember *)
Definition sismember (now : Z) (key member : string) : M (Client V) exn bool := ask (redis_sismember now key member).
(* src/cache/redis_cache_store.cpp:77-81, RedisCacheStore::smembers *)
Definition smembers (now : Z) (key : string) : M (Client V) exn (list string) := ask (redis_smembers now key).
(* src/cache/redis_cache_store.cpp:83-85, RedisCacheStore::scard *)
Definition scard (now : Z) (key : string) : M (Client V) exn Z := ask (redis_scard now key).
(* include/rtc/cache/redis_cache_store.hpp:43-43, RedisCacheStore::purge_expired *)
Definition purge_expired : M (Client V) exn Z := mret 0.
End Store.

(** A binary without Redis: constructing the store, and every operation, throws. *)
(* src/cache/redis_cache_store.cpp:92-138, unavailable *)
Definition unavailable {W A} : M W exn A :=
  mthrow (ConfigException "Redis support was not compiled in; rebuild with -DRTC_WITH_REDIS=ON" "").

(* src/cache/redis_cache_store.cpp:25-27, RedisCacheStore::available *)
Definition available (compiled : bool) : bool := compiled.

(** What a caller that meets no outage gets. *)
Section Reliable.
Context {V : Type} `{Redis V}.

Definition served {A} (m : M (Client V) exn A) (fallback : A) (v : V) : A * V :=
  let '(r, s) := m (mkClient v []) in (match r with Ok a => a | Err _ => fallback end, server s).
End Reliable.
End RedisCacheStore.

(** A client that meets no outage is a cache store. *)
#[export] Instance redis_cache {V} `{Redis V} : CacheStore V := {|
  store_set now k x ttl v := (RedisCacheStore.served (RedisCacheStore.set now k x ttl) () v).2;
  store_get now k := RedisCacheStore.served (RedisCacheStore.get now k) None;
  store_del now k := RedisCacheStore.served (RedisCacheStore.del now k) false;
  store_exists now k := RedisCacheStore.served (RedisCacheStore.exists_ now k) false;
  store_expire now k ttl v := (RedisCacheStore.served (RedisCacheStore.expire now k ttl) () v).2;
  store_incr now k ttl := RedisCacheStore.served (RedisCacheStore.incr now k ttl) 0;
  store_sadd now k x v := (RedisCacheStore.served (RedisCacheStore.sadd now k x) () v).2;
  store_srem now k x v := (RedisCacheStore.served (RedisCacheStore.srem now k x) () v).2;
  store_sismember now k x v := (RedisCacheStore.served (RedisCacheStore.sismember now k x) false v).1;
  store_smembers now k v := (RedisCacheStore.served (RedisCacheStore.smembers now k) [] v).1;
  store_scard now k v := (RedisCacheStore.served (RedisCacheStore.scard now k) 0 v).1;
  store_purge now := RedisCacheStore.served RedisCacheStore.purge_expired 0 |}.

(** ** The interface is kept *)

Section Laws.
Context {V : Type} `{RedisLaws V}.

Lemma incr_served now k ttl (v : V) :
  store_incr now k ttl v =
    let '(n, v') := redis_incr now k v in
    (n, if (n =? 1) && (0 <? ttl) then redis_expire now k ttl v' else v').
Proof.
  simpl. unfold RedisCacheStore.served, RedisCacheStore.incr, RedisCacheStore.command, mbind, M_bind. simpl.
  destruct (redis_incr now k v) as [n v']. by destruct ((n =? 1) && (0 <? ttl)).
Qed.

Lemma alive_window now ttl t : 0 < ttl → alive now ttl t = (t <? now + nanos ttl).
Proof. intros Ht. unfold alive. by rewrite (proj2 (Z.leb_gt ttl 0)). Qed.

Lemma incr_new_served now k ttl (v : V) t k' :
  holds v now k = None → now <= t →
  holds (store_incr now k ttl v).2 t k' =
    if decide (k' = k) then (if alive now ttl t then Some "1" else None) else holds v t k'.
Proof.
  intros Hn Ht. rewrite incr_served. destruct (redis_incr_new v now k Hn) as [Hv Hs].
  pose proof (redis_incr_other v now k) as Ho. destruct (redis_incr now k v) as [n v']. simpl in *. subst n. simpl.
  destruct (Z.ltb_spec 0 ttl).
  - rewrite redis_expire_spec, alive_window by done. case_decide; [|by apply Ho]. by rewrite Hs by lia.
  - unfold alive. rewrite (proj2 (Z.leb_le ttl 0)) by lia. simpl. case_decide; [subst; by apply Hs|by apply Ho].
Qed.

Lemma incr_old_served now k ttl (v : V) n t k' :
  0 < n < int64_max → holds v now k = Some (to_string n) → now <= t →
  holds (store_incr now k ttl v).2 t k' =
    if decide (k' = k) then (λ _, to_string (n + 1)) <$> holds v t k else holds v t k'.
Proof.
  intros Hb Hn Ht. rewrite incr_served. destruct (redis_incr_old v now k n Hb Hn) as [Hv Hs].
  pose proof (redis_incr_other v now k) as Ho. destruct (redis_incr now k v) as [m v']. simpl in *. subst m.
  rewrite (proj2 (Z.eqb_neq (n + 1) 1)) by lia. simpl. case_decide; [subst; by apply Hs|by apply Ho].
Qed.

Lemma incr_other_served now k ttl (v : V) t k' :
  now <= t → k' ≠ k → holds (store_incr now k ttl v).2 t k' = holds v t k'.
Proof.
  intros Ht Hk. rewrite incr_served. pose proof (redis_incr_other v now k t k' Ht Hk) as Ho.
  destruct (redis_incr now k v) as [n v']. simpl in *. destruct (n =? 1), (Z.ltb_spec 0 ttl); simpl; try done.
  by rewrite redis_expire_spec, decide_False.
Qed.

Definition redis_laws : CacheStoreLaws V.
Proof.
  refine {| peek := holds |}.
  - intros v now k. simpl. unfold RedisCacheStore.served, RedisCacheStore.get, mbind, M_bind. simpl.
    rewrite redis_get_spec. by destruct (holds v now k).
  - intros v now k t k' Ht. simpl. unfold RedisCacheStore.served, RedisCacheStore.get, mbind, M_bind. simpl.
    by destruct (redis_get now k v).
  - intros v now k x ttl t k' Ht. simpl. unfold RedisCacheStore.served, RedisCacheStore.set, alive.
    destruct (Z.ltb_spec 0 ttl); simpl; rewrite redis_set_spec by done.
    + by rewrite (proj2 (Z.leb_gt ttl 0)).
    + by rewrite (proj2 (Z.leb_le ttl 0)).
  - intros v now k t k' Ht. simpl. pose proof (redis_del_spec v now k t k' Ht).
    unfold RedisCacheStore.served, RedisCacheStore.del, RedisCacheStore.command, mbind, M_bind. simpl.
    by destruct (redis_del now k v).
  - intros v now k. simpl. unfold RedisCacheStore.served, RedisCacheStore.exists_, mbind, M_bind. simpl.
    apply redis_exists_spec.
  - done.
  - intros v now k ttl Hn. split; [|intros; by apply incr_new_served].
    rewrite incr_served. destruct (redis_incr_new v now k Hn) as [Hv _]. by destruct (redis_incr now k v).
  - intros v now k ttl n Hb Hn. split; [|intros; by apply incr_old_served].
    rewrite incr_served. destruct (redis_incr_old v now k n Hb Hn) as [Hv _]. by destruct (redis_incr now k v).
  - intros. by apply incr_other_served.
  - done.
  - apply holds_expired.
  - apply holds_stable.
Defined.
End Laws.


(** ** A lost expiry *)

Section LostExpiry.
Context {V : Type} `{RedisLaws V} (bucket identity : string) (max window : Z).
Context (Hmax : 0 < max) (Hwindow : 0 < window).
Abbreviation key := (RateLimiter.rate_key bucket identity).

(** The key holds [n] and does not expire. *)
Definition stuck (now n : Z) (v : V) : Prop := ∀ t, now <= t → holds v t key = Some (to_string n).

(** The second command of the first hit does not reach the server. *)
Lemma first_hit_stuck now v what :
  holds v now key = None →
  ∃ v', RedisCacheStore.incr now key window (mkClient v [None; Some what]) = (Err (Std what), mkClient v' []) ∧
    stuck now 1 v'.
Proof.
  intros Hn. destruct (redis_incr_new v now key Hn) as [Hv Hs]. exists (redis_incr now key v).2. split; [|exact Hs].
  unfold RedisCacheStore.incr, RedisCacheStore.command, mbind, M_bind. simpl.
  destruct (redis_incr now key v) as [n v']. simpl in Hv. subst n. by rewrite (proj2 (Z.ltb_lt 0 window)).
Qed.

Lemma stuck_hit now n v t :
  stuck now n v → 0 < n < int64_max → now <= t →
  let '(r, v') := RateLimiter.check true t bucket identity max window v in
  RateLimiter.allowed r = (n + 1 <=? max) ∧ stuck t (n + 1) v'.
Proof.
  intros Hs Hn Ht. unfold RateLimiter.check. rewrite (proj2 (Z.leb_gt max 0)) by done. simpl.
  pose proof (λ t' Ht', incr_old_served t key window v n t' key Hn (Hs t Ht) Ht') as Hi.
  assert (Hc : (store_incr t key window v).1 = n + 1).
  { rewrite incr_served. destruct (redis_incr_old v t key n Hn (Hs t Ht)) as [Hv _]. by destruct (redis_incr t key v). }
  change (RedisCacheStore.served _ _ _) with (store_incr t key window v).
  destruct (store_incr t key window v) as [c v']. simpl in *. subst c. split; [done|].
  intros t' Ht'. rewrite (Hi t' Ht'), decide_True by done. rewrite Hs by lia. done.
Qed.

(** The decisions on later hits, whenever they come: the counter is never reset. *)
Lemma stuck_decisions ts : ∀ now n v,
  stuck now n v → 0 < n → n + Z.of_nat (length ts) < int64_max →
  RateLimiter.in_order now (RateLimiter.Hit <$> ts) →
  RateLimiter.decisions true bucket identity max window (RateLimiter.Hit <$> ts) v =
    imap (λ i _, n + Z.of_nat i + 1 <=? max) ts.
Proof.
  induction ts as [|t ts IH]; intros now n v Hs Hn Hl Ho; [done|]. destruct Ho as [Ht Ho]. simpl in Hl, Ht.
  cbn [fmap list_fmap RateLimiter.decisions imap].
  pose proof (stuck_hit now n v t Hs ltac:(lia) Ht) as Hh.
  destruct (RateLimiter.check true t bucket identity max window v) as [r v']. destruct Hh as [-> Hs'].
  f_equal; [f_equal; lia|]. rewrite (IH t (n + 1) v') by (done || lia). apply imap_ext. intros i x _. simpl. f_equal. lia.
Qed.
End LostExpiry.

(** A lost EXPIRE locks a client out for good.  The store counts a hit with
    two commands, INCR and, for a new counter, EXPIRE.  If the connection fails
    between the two on the first hit of a window, the hit fails, the counter
    stays without expiry, and the limiter never opens a window again: of all
    later hits, however far apart, the next [max - 1] are allowed and every one
    after them is refused. *)
Theorem lost_expiry_locks_out {V : Type} `{RedisLaws V} (bucket identity : string) (max window now : Z) (v : V)
    (what : string) (ts : list Z) :
  0 < max → 0 < window → holds v now (RateLimiter.rate_key bucket identity) = None →
  RateLimiter.in_order now (RateLimiter.Hit <$> ts) → Z.of_nat (length ts) + 1 < int64_max →
  ∃ v', RedisCacheStore.incr now (RateLimiter.rate_key bucket identity) window (mkClient v [None; Some what])
      = (Err (Std what), mkClient v' []) ∧
    RateLimiter.decisions true bucket identity max window (RateLimiter.Hit <$> ts) v' =
      imap (λ i _, Z.of_nat i + 2 <=? max) ts.
Proof.
  intros Hmax Hw Hn Ho Hl. destruct (first_hit_stuck bucket identity window Hw now v what Hn) as (v' & E & Hs).
  exists v'. split; [exact E|]. rewrite (stuck_decisions bucket identity max window Hmax ts now 1 v' Hs) by (done || lia).
  apply imap_ext. intros i x _. simpl. f_equal. lia.
Qed.

(** ** Samples *)

(** A server with the behaviour the laws state, over the tables of the in-memory
    store. *)
Module RedisSample.
Import InMemoryCacheStore InMemoryFacts.

Definition put (k x : string) (e : option Z) (s : t) : t := set_strings (<[k := mkString x e]> (strings s)) s.

#[export] Instance server : Redis t := {|
  redis_set now k x ttl := put k x ((λ d, now + nanos d) <$> ttl);
  redis_get now k s := view s now k;
  redis_del now k s := (if bool_decide (is_Some (view s now k)) then 1 else 0, set_strings (delete k (strings s)) s);
  redis_exists now k s := if bool_decide (is_Some (view s now k)) then 1 else 0;
  redis_expire now k d s := match view s now k with Some x => put k x (Some (now + nanos d)) s | None => s end;
  redis_incr now k s :=
    match view s now k with
    | None => (1, put k "1" None s)
    | Some x => (to_int x + 1, put k (to_string (to_int x + 1)) (strings s !! k ≫= s_expires_at) s)
    end;
  redis_sadd now k x s := InMemoryCacheStore.sadd now k x s;
  redis_srem now k x s := InMemoryCacheStore.srem now k x s;
  redis_sismember now k x s := InMemoryCacheStore.sismember now k x s;
  redis_smembers now k s := InMemoryCacheStore.smembers now k s;
  redis_scard now k s := InMemoryCacheStore.scard now k s |}.

Lemma view_put s k x e t' k' :
  view (put k x e s) t' k' = if decide (k' = k) then (if is_expired t' e then None else Some x) else view s t' k'.
Proof. apply view_insert. Qed.

Lemma not_expired a b : is_expired b (Some a) = negb (b <? a).
Proof. simpl. destruct (Z.leb_spec a b), (Z.ltb_spec b a); (done || lia). Qed.

Lemma view_expired s t1 t2 k : t1 <= t2 → view s t1 k = None → view s t2 k = None.
Proof.
  intros Hle. unfold view. destruct (strings s !! k) as [e|]; [|done].
  destruct (is_expired t1 _) eqn:He; [|done]. by rewrite (is_expired_mono t1).
Qed.

#[export] Instance server_laws : RedisLaws t.
Proof.
  refine {| holds := view |}; simpl.
  - exact view_expired.
  - intros s t1 t2 k x Hle. unfold view. destruct (strings s !! k) as [e|]; [|done].
    destruct (is_expired t1 _) eqn:He; [by rewrite (is_expired_mono t1)|]. by destruct (is_expired t2 _).
  - done.
  - intros s now k. by case_bool_decide.
  - intros s now k x ttl t1 k' _. rewrite view_put. case_decide; [|done]. destruct ttl as [d|]; [|done].
    cbn [fmap option_fmap option_map]. rewrite not_expired. by destruct (t1 <? now + nanos d).
  - intros s now k t1 k' _. apply view_delete.
  - intros s now k d t1 k' Hd Hle. destruct (view s now k) as [x|] eqn:E.
    + rewrite view_put. case_decide; [|done]. rewrite not_expired. by destruct (t1 <? now + nanos d).
    + case_decide as Hk; [|done]. subst. rewrite (view_expired s now) by done. by destruct (t1 <? now + nanos d).
  - intros s now k Hn. rewrite Hn. split; [done|]. intros t1 _. simpl. by rewrite view_put, decide_True.
  - intros s now k n Hb Hn. rewrite Hn. rewrite to_int_to_string by (unfold int64_min; lia). split; [done|].
    intros t1 _. simpl. rewrite view_put, decide_True by done. unfold view in Hn |- *.
    destruct (strings s !! k) as [e|]; [|done]. simpl. by destruct (is_expired t1 _).
  - intros s now k t1 k' _ Hk. destruct (view s now k); simpl; by rewrite view_put, decide_False.
Defined.
Definition store : CacheStore t := redis_cache.
End RedisSample.


(** Three hits are allowed a second; a year later the fourth is still refused. *)
Lemma lost_expiry_locks_out_witness :
  let ts := [nanos 60; nanos 3600; nanos 86400; nanos 31536000] in
  ∃ v', RedisCacheStore.incr (H:=RedisSample.server) 0 (RateLimiter.rate_key "login" "10.0.0.1") 1
      (mkClient InMemoryCacheStore.empty [None; Some "connection reset"])
      = (Err (Std "connection reset"), mkClient v' []) ∧
    RateLimiter.decisions (H:=RedisSample.store) true "login" "10.0.0.1" 3 1 (RateLimiter.Hit <$> ts) v'
      = [true; true; false; false].
Proof.
  intros ts.
  destruct (lost_expiry_locks_out (H0:=RedisSample.server_laws) "login" "10.0.0.1" 3 1 0 InMemoryCacheStore.empty
    "connection reset" ts) as (v' & E & Hd); [lia|lia|reflexivity|vm_compute; repeat split; discriminate|vm_compute; reflexivity|].
  exists v'. split; [exact E|]. exact Hd.
Defined.
