(* ===== verification/Authorization.v ===== *)
(** * Authorization: roles, suspension and the administration endpoints

    Models src/repositories/pg_user_admin_repository.cpp,
    src/services/authorization_service.cpp, the guard of
    src/middlewares/auth_middleware.cpp and the endpoints of
    src/controllers/admin_controller.cpp that change something.  The services
    are written against the [CacheStore] and [TokenService] interfaces.  Two
    pieces of PostgreSQL are parameters: [ILIKE] and what assigning a text to a
    [VARCHAR(n)] column stores or refuses. *)

From S2P Require Import Prelude Text Json Errors Validation TimeUtil Rbac Models Events Dto.
From S2P Require Import Database Users Conversations Repositories Tokens Sessions Protocol.
From S2P Require Import Connections Presence Dispatcher Cache.
Open Scope string_scope.
Open Scope Z_scope.

Class PgText := {
  ilike : string → string → bool;
  varchar : Z → string → option string
}.

Module PgUserAdminRepository.
(* include/rtc/repositories/user_admin_repository.hpp:17-25, AdminUserRecord *)
Record AdminUserRecord := mkRecord {
  rec_user : User.t; rec_role : Role.t; rec_banned_at : option TimePoint;
  rec_ban_reason : option string; rec_banned_by : option Z }.

(* include/rtc/repositories/user_admin_repository.hpp:28-33, AdminUserFilter *)
Record AdminUserFilter := mkFilter {
  f_query : option string; f_role : option Role.t; f_banned : option bool }.

(* src/repositories/pg_user_admin_repository.cpp:41-53, read_role *)
Definition read_role (raw : string) : Role.t := default Role.kUser (Role.parse_role raw).

(* src/repositories/pg_user_admin_repository.cpp:55-74, map_record *)
Definition map_record (kr : Z * UserRow.t) : AdminUserRecord :=
  let '(id, r) := kr in
  mkRecord (PgUserRepository.map_row (id, r)) (read_role (UserRow.role r))
    (db_time <$> UserRow.banned_at r) (UserRow.ban_reason r) (UserRow.banned_by r).

(* src/repositories/pg_user_admin_repository.cpp:87-92, like_pattern *)
Definition like_pattern (query : option string) : option string :=
  match query with
  | None => None
  | Some q => if String.eqb q "" then None else Some ("%" +:+ q +:+ "%")
  end.

(* src/repositories/pg_user_admin_repository.cpp:94-99, role_text *)
Definition role_text (role : option Role.t) : option string := Role.to_string <$> role.

(* src/repositories/pg_user_admin_repository.cpp:79-84, kFilterPredicate *)
Definition in_filter `{PgText} (f : AdminUserFilter) (r : UserRow.t) : bool :=
  match like_pattern (f_query f) with
  | None => true
  | Some p => ilike (UserRow.username r) p || ilike (UserRow.email r) p
              || ilike (default "" (UserRow.display_name r)) p
  end
  && match role_text (f_role f) with None => true | Some t => String.eqb (UserRow.role r) t end
  && match f_banned f with
     | None => true
     | Some b => Bool.eqb b (bool_decide (is_Some (UserRow.banned_at r)))
     end.

(* src/repositories/pg_user_admin_repository.cpp:103-111, PgUserAdminRepository::find_role *)
Definition find_role (user_id : Z) : M World exn (option Role.t) :=
  with_transaction (on_db (λ d, (λ r, read_role (UserRow.role r)) <$> users d !! user_id)).

(* src/repositories/pg_user_admin_repository.cpp:113-122, PgUserAdminRepository::is_banned *)
Definition is_banned (user_id : Z) : M World exn (option bool) :=
  with_transaction (on_db (λ d,
    (λ r, bool_decide (is_Some (UserRow.banned_at r))) <$> users d !! user_id)).

(* src/repositories/pg_user_admin_repository.cpp:124-133, PgUserAdminRepository::find *)
Definition find (user_id : Z) : M World exn (option AdminUserRecord) :=
  with_transaction (on_db (λ d, (λ r, map_record (user_id, r)) <$> users d !! user_id)).

(* src/repositories/pg_user_admin_repository.cpp:135-153, PgUserAdminRepository::list *)
Definition list `{PgText} (f : AdminUserFilter) (page : Pagination.t)
    : M World exn (list AdminUserRecord) :=
  with_transaction (on_db (λ d,
    map_record <$> PgConversationRepository.limit_offset page
      (merge_sort id_desc (rows (in_filter f) (users d))))).

(* src/repositories/pg_user_admin_repository.cpp:155-163, PgUserAdminRepository::count *)
Definition count `{PgText} (f : AdminUserFilter) : M World exn Z :=
  with_transaction (on_db (λ d, Z.of_nat (length (rows (in_filter f) (users d))))).

Definition with_role (role : string) (now : Z) (r : UserRow.t) : UserRow.t :=
  UserRow.mk (UserRow.username r) (UserRow.email r) (UserRow.password_hash r)
    (UserRow.display_name r) (UserRow.bio r) (UserRow.avatar_url r) role (UserRow.banned_at r)
    (UserRow.ban_reason r) (UserRow.banned_by r) (UserRow.created_at r) now.
Definition with_ban (at_ : option Z) (reason : option string) (by_ : option Z) (now : Z)
    (r : UserRow.t) : UserRow.t :=
  UserRow.mk (UserRow.username r) (UserRow.email r) (UserRow.password_hash r)
    (UserRow.display_name r) (UserRow.bio r) (UserRow.avatar_url r) (UserRow.role r) at_ reason by_
    (UserRow.created_at r) now.

Definition not_found (user_id : Z) : exn :=
  NotFoundException "User not found" ("user_id=" +:+ to_string user_id).

(* src/repositories/pg_user_admin_repository.cpp:165-186, PgUserAdminRepository::set_role *)
Definition set_role (user_id : Z) (role : Role.t) : M World exn Role.t :=
  with_transaction (
    now ← clock;
    row ← on_db (λ d, users d !! user_id);
    match row with
    | None => mthrow (not_found user_id)
    | Some r =>
        update (λ d, set_users (<[user_id := with_role (Role.to_string role) now r]> (users d)) d);;
        mret (read_role (UserRow.role r))
    end).

(* src/repositories/pg_user_admin_repository.cpp:188-211, PgUserAdminRepository::set_banned *)
Definition set_banned `{PgText} (user_id : Z) (banned : bool) (reason : option string)
    (actor_id : option Z) : M World exn unit :=
  with_transaction (
    now ← clock;
    d ← on_db (λ d, d);
    match users d !! user_id with
    | None => mthrow (not_found user_id)
    | Some r =>
        if banned then
          stored ← match reason with
                   | None => mret None
                   | Some text =>
                       match varchar 255 text with
                       | Some text => mret (Some text)
                       | None => mthrow (Std "value too long for type character varying(255)")
                       end
                   end;
          foreign_key (match actor_id with None => true | Some a => exists_row (users d) a end);;
          update (λ d, set_users (<[user_id := with_ban (Some now) stored actor_id now r]> (users d)) d)
        else update (λ d, set_users (<[user_id := with_ban None None None now r]> (users d)) d)
    end).

(** [ORDER BY role] on the role names. *)
Definition text_le (a b : string) : Prop := String.leb a b = true.
Global Instance text_le_dec a b : Decision (text_le a b).
Proof. unfold text_le. apply _. Defined.

(* src/repositories/pg_user_admin_repository.cpp:213-225, PgUserAdminRepository::counts_by_role *)
Definition counts_by_role : M World exn (Datatypes.list (Role.t * Z)) :=
  with_transaction (on_db (λ d,
    let held := (λ kr : Z * UserRow.t, UserRow.role kr.2) <$> map_to_list (users d) in
    (λ role, (read_role role, Z.of_nat (length (filter (λ r, r = role) held)))) <$>
      merge_sort text_le (remove_dups held))).
End PgUserAdminRepository.

(** ** One instance of the server: the services' world, its cache store, its
    steady clock, the notices it has published and its feature flags *)

Record Instance_ (S : Type) := mkInstance {
  i_world : World; i_store : S; i_clock : Z; i_published : list InvalidationEvent.t;
  i_hits : Z; i_misses : Z; i_flags : Features.flags }.
Arguments mkInstance {S}.
Arguments i_world {S}. Arguments i_store {S}. Arguments i_clock {S}. Arguments i_published {S}.
Arguments i_hits {S}. Arguments i_misses {S}. Arguments i_flags {S}.

Section Lifting.
Context {S : Type}.
Definition set_world (w : World) (i : Instance_ S) : Instance_ S :=
  mkInstance w (i_store i) (i_clock i) (i_published i) (i_hits i) (i_misses i) (i_flags i).
Definition set_store (s : S) (i : Instance_ S) : Instance_ S :=
  mkInstance (i_world i) s (i_clock i) (i_published i) (i_hits i) (i_misses i) (i_flags i).
Definition count_hit (i : Instance_ S) : Instance_ S :=
  mkInstance (i_world i) (i_store i) (i_clock i) (i_published i) (i_hits i + 1) (i_misses i)
    (i_flags i).
Definition count_miss (i : Instance_ S) : Instance_ S :=
  mkInstance (i_world i) (i_store i) (i_clock i) (i_published i) (i_hits i) (i_misses i + 1)
    (i_flags i).
Definition add_notice (e : InvalidationEvent.t) (i : Instance_ S) : Instance_ S :=
  mkInstance (i_world i) (i_store i) (i_clock i) (i_published i ++ [e]) (i_hits i) (i_misses i)
    (i_flags i).
Definition set_flags (f : Features.flags) (i : Instance_ S) : Instance_ S :=
  mkInstance (i_world i) (i_store i) (i_clock i) (i_published i) (i_hits i) (i_misses i) f.

(** A call of a service; a call of the store at the instance's time. *)
Definition in_world {A} (m : M World exn A) : M (Instance_ S) exn A := λ i,
  let '(r, w) := m (i_world i) in (r, set_world w i).
Definition in_store {A} (f : Z → S → A * S) : M (Instance_ S) exn A := λ i,
  let '(a, s) := f (i_clock i) (i_store i) in (Ok a, set_store s i).
End Lifting.

Module AuthorizationService.
Section Service.
Context {S : Type} `{CacheStore S}.
(** [options_.cache_ttl]. *)
Context (cache_ttl : Z).

(* src/services/authorization_service.cpp:16-18, AuthorizationService::role_key *)
Definition role_key (user_id : Z) : string := "authz:role:" +:+ to_string user_id.
(* src/services/authorization_service.cpp:20-22, AuthorizationService::ban_key *)
Definition ban_key (user_id : Z) : string := "authz:banned:" +:+ to_string user_id.

(** The part of [role_of] after a cache miss. *)
Definition load_role (user_id : Z) : M (Instance_ S) exn Role.t :=
  modify count_miss;;
  found ← in_world (PgUserAdminRepository.find_role user_id);
  let role := default Role.kUser found in
  in_store (λ now s, ((), store_set now (role_key user_id) (Role.to_string role) cache_ttl s));;
  mret role.

(* src/services/authorization_service.cpp:24-40, AuthorizationService::role_of *)
Definition role_of (user_id : Z) : M (Instance_ S) exn Role.t :=
  cached ← in_store (λ now, store_get now (role_key user_id));
  match cached with
  | Some text =>
      modify count_hit;;
      match Role.parse_role text with
      | Some role => mret role
      | None => load_role user_id
      end
  | None => load_role user_id
  end.

(* src/services/authorization_service.cpp:42-44, AuthorizationService::has_permission *)
Definition has_permission (user_id : Z) (permission : Permission.t) : M (Instance_ S) exn bool :=
  role ← role_of user_id;
  mret (Rbac.has_permission role permission).

(* src/services/authorization_service.cpp:46-55, AuthorizationService::require_permission *)
Definition require_permission (user_id : Z) (permission : Permission.t)
    : M (Instance_ S) exn unit :=
  role ← role_of user_id;
  if negb (Rbac.has_permission role permission)
  then mthrow (AuthorizationException "Insufficient permissions"
         ("required=" +:+ Permission.to_string permission +:+ " role=" +:+ Role.to_string role))
  else mret ().

(** The two halves of [is_banned] after a miss: the query, and the write to the
    cache. *)
(* src/services/authorization_service.cpp:64-69, AuthorizationService::is_banned (query) *)
Definition query_ban (user_id : Z) : M (Instance_ S) exn bool :=
  modify count_miss;;
  found ← in_world (PgUserAdminRepository.is_banned user_id);
  mret (default false found).
(* src/services/authorization_service.cpp:70-70, AuthorizationService::is_banned (store) *)
Definition remember_ban (user_id : Z) (banned : bool) : M (Instance_ S) exn unit :=
  in_store (λ now s, ((), store_set now (ban_key user_id) (if banned then "1" else "0") cache_ttl s)).

(* src/services/authorization_service.cpp:57-72, AuthorizationService::is_banned *)
Definition is_banned (user_id : Z) : M (Instance_ S) exn bool :=
  cached ← in_store (λ now, store_get now (ban_key user_id));
  match cached with
  | Some text =>
      modify count_hit;;
      mret (String.eqb text "1")
  | None =>
      banned ← query_ban user_id;
      remember_ban user_id banned;;
      mret banned
  end.

(* src/services/authorization_service.cpp:74-79, AuthorizationService::require_active *)
Definition require_active (user_id : Z) : M (Instance_ S) exn unit :=
  banned ← is_banned user_id;
  if (banned : bool)
  then mthrow (AuthenticationException "Account is suspended" ("user_id=" +:+ to_string user_id))
  else mret ().

(* src/services/authorization_service.cpp:81-84, AuthorizationService::invalidate_local *)
Definition invalidate_local (user_id : Z) : M (Instance_ S) exn unit :=
  in_store (λ now, store_del now (role_key user_id));;
  in_store (λ now, store_del now (ban_key user_id));;
  mret ().

(* src/services/authorization_service.cpp:86-95, AuthorizationService::invalidate *)
Definition invalidate (user_id : Z) : M (Instance_ S) exn unit :=
  invalidate_local user_id;;
  modify (add_notice (InvalidationEvent.mk InvalidationEvent.kAuthorization (to_string user_id) "")).
End Service.
End AuthorizationService.

Module AuthMiddleware.
Section Guard.
Context {S : Type} `{CacheStore S, TokenService} (cache_ttl : Z).

(* src/middlewares/auth_middleware.cpp:48-56, AuthMiddleware::authenticate_token_only *)
Definition authenticate_token_only (authorization : string) : M (Instance_ S) exn TokenClaims.t :=
  match WebSocketController.extract_bearer_token authorization with
  | None => mthrow (AuthenticationException "Missing or malformed Authorization header" "")
  | Some token =>
      t ← gets (λ i, utils_now (now (i_world i)));
      lift (token_verify t token TokenType.kAccess)
  end.

(* src/middlewares/auth_middleware.cpp:58-66, AuthMiddleware::authenticate *)
Definition authenticate (authorization : string) : M (Instance_ S) exn TokenClaims.t :=
  claims ← authenticate_token_only authorization;
  AuthorizationService.require_active cache_ttl (TokenClaims.user_id claims);;
  mret claims.
End Guard.
End AuthMiddleware.

Module AdminController.
Section Controller.
Context {S : Type} `{CacheStore S, TokenService, PgText, JsonText} (cache_ttl : Z).

(** What a handler reads of [crow::request]. *)
Record Request := { authorization : string; req_body : string; params : url_params }.

(* src/controllers/admin_controller.cpp:60-68, require_string *)
Definition require_string (body : json) (field : string) : result exn string :=
  match Json.find body field with
  | Some (JStr s) => Ok s
  | _ => Err (ValidationException ("Missing string field: " +:+ field) ("field=" +:+ field))
  end.

(* src/controllers/admin_controller.cpp:25-40, optional_int_param *)
Definition optional_int_param (req : Request) (name : string) : result exn (option Z) :=
  match params req name with
  | None => Ok None
  | Some text =>
      match parse_int64 text with
      | Some value => Ok (Some value)
      | None => Err (ValidationException ("Invalid integer for parameter: " +:+ name) ("field=" +:+ name))
      end
  end.

(* src/controllers/admin_controller.cpp:42-49, optional_string_param *)
Definition optional_string_param (req : Request) (name : string) : option string := params req name.

(* src/controllers/admin_controller.cpp:51-58, optional_bool_param *)
Definition optional_bool_param (req : Request) (name : string) : option bool :=
  (λ text, String.eqb text "1" || String.eqb text "true" || String.eqb text "yes"
           || String.eqb text "on") <$> params req name.

Definition opt_json {A} (f : A → json) (o : option A) : json :=
  match o with Some a => f a | None => JNull end.

(* src/controllers/admin_controller.cpp:73-96, user_to_json *)
Definition user_to_json (r : PgUserAdminRepository.AdminUserRecord) : json :=
  let u := PgUserAdminRepository.rec_user r in
  jobj [("id", JInt (User.id u)); ("username", JStr (User.username u));
        ("email", JStr (User.email u));
        ("role", JStr (Role.to_string (PgUserAdminRepository.rec_role r)));
        ("banned", JBool (bool_decide (is_Some (PgUserAdminRepository.rec_banned_at r))));
        ("created_at", JStr (to_iso8601 (User.created_at u)));
        ("updated_at", JStr (to_iso8601 (User.updated_at u)));
        ("display_name", opt_json JStr (User.display_name u));
        ("banned_at", opt_json (λ t, JStr (to_iso8601 t)) (PgUserAdminRepository.rec_banned_at r));
        ("ban_reason", opt_json JStr (PgUserAdminRepository.rec_ban_reason r));
        ("banned_by", opt_json JInt (PgUserAdminRepository.rec_banned_by r))].

(* src/controllers/admin_controller.cpp:111-116, AdminController::authorize *)
Definition authorize (req : Request) (permission : Permission.t) : M (Instance_ S) exn Z :=
  claims ← AuthMiddleware.authenticate cache_ttl (authorization req);
  AuthorizationService.require_permission cache_ttl (TokenClaims.user_id claims) permission;;
  mret (TokenClaims.user_id claims).

(** [deps_.publisher->publish(...)]. *)
Definition publish (e : EventDraft) : M (Instance_ S) exn unit := in_world (emit (EPublish e)).

(* src/controllers/admin_controller.cpp:125-152, GET /admin/users *)
Definition list_users (req : Request) : M (Instance_ S) exn response :=
  authorize req Permission.kManageUsers;;
  role ← match optional_string_param req "role" with
         | None => mret None
         | Some text =>
             match Role.parse_role text with
             | Some role => mret (Some role)
             | None => mthrow (ValidationException ("Unknown role: " +:+ text) "field=role")
             end
         end;
  let filter := PgUserAdminRepository.mkFilter (optional_string_param req "q") role
                  (optional_bool_param req "banned") in
  page ← lift (Pagination.from_request (params req));
  records ← in_world (PgUserAdminRepository.list filter page);
  total ← in_world (PgUserAdminRepository.count filter);
  mret (json_response 200 (jobj [("total", JInt total); ("limit", JInt (Pagination.limit page));
    ("offset", JInt (Pagination.offset page)); ("users", JArr (user_to_json <$> records))])).

(* src/controllers/admin_controller.cpp:154-165, GET /admin/users/<int> *)
Definition get_user (req : Request) (user_id : Z) : M (Instance_ S) exn response :=
  authorize req Permission.kManageUsers;;
  record ← in_world (PgUserAdminRepository.find user_id);
  match record with
  | None => mthrow (PgUserAdminRepository.not_found user_id)
  | Some record => mret (json_response 200 (user_to_json record))
  end.

(* src/controllers/admin_controller.cpp:167-210, PUT /admin/users/<int>/role *)
Definition put_role (req : Request) (user_id : Z) : M (Instance_ S) exn response :=
  actor_id ← authorize req Permission.kManageRoles;
  body ← lift (parse_json_body (req_body req));
  requested ← lift (require_string body "role");
  match Role.parse_role requested with
  | None => mthrow (ValidationException ("Unknown role: " +:+ requested) "field=role")
  | Some target_role =>
      actor_role ← AuthorizationService.role_of cache_ttl actor_id;
      if negb (can_assign_role actor_role target_role)
      then mthrow (AuthorizationException "Cannot assign a role at or above your own"
             ("actor_role=" +:+ Role.to_string actor_role +:+ " target_role="
                +:+ Role.to_string target_role))
      else
        previous ← in_world (PgUserAdminRepository.set_role user_id target_role);
        AuthorizationService.invalidate user_id;;
        publish (UserRoleChanged user_id actor_id (Role.to_string previous)
                   (Role.to_string target_role));;
        mret (json_response 200 (jobj [("user_id", JInt user_id);
          ("previous_role", JStr (Role.to_string previous));
          ("role", JStr (Role.to_string target_role))]))
  end.

(* src/controllers/admin_controller.cpp:212-254, POST /admin/users/<int>/ban *)
Definition ban (req : Request) (user_id : Z) : M (Instance_ S) exn response :=
  actor_id ← authorize req Permission.kBanUsers;
  if actor_id =? user_id
  then mthrow (ValidationException "You cannot suspend your own account" "")
  else
    actor_role ← AuthorizationService.role_of cache_ttl actor_id;
    target_role ← AuthorizationService.role_of cache_ttl user_id;
    if Role.ord actor_role <=? Role.ord target_role
    then mthrow (AuthorizationException "Cannot suspend an account at or above your own role" "")
    else
      body ← lift (parse_json_body (req_body req));
      let reason := match Json.find body "reason" with Some (JStr s) => Some s | _ => None end in
      in_world (PgUserAdminRepository.set_banned user_id true reason (Some actor_id));;
      AuthorizationService.invalidate user_id;;
      revoked ← in_world (SessionService.revoke_all user_id);
      publish (AdminAction actor_id "user.ban" "user" (to_string user_id)
        (jobj [("reason", JStr (default "" reason)); ("sessions_revoked", JInt revoked)]));;
      mret (json_response 200 (jobj [("user_id", JInt user_id); ("banned", JBool true);
        ("sessions_revoked", JInt revoked)])).

(* src/controllers/admin_controller.cpp:256-274, POST /admin/users/<int>/unban *)
Definition unban (req : Request) (user_id : Z) : M (Instance_ S) exn response :=
  actor_id ← authorize req Permission.kBanUsers;
  in_world (PgUserAdminRepository.set_banned user_id false None None);;
  AuthorizationService.invalidate user_id;;
  publish (AdminAction actor_id "user.unban" "user" (to_string user_id) (jobj []));;
  mret (json_response 200 (jobj [("user_id", JInt user_id); ("banned", JBool false)])).

(* src/controllers/admin_controller.cpp:296-314, DELETE /admin/users/<int>/sessions *)
Definition delete_sessions (req : Request) (user_id : Z) : M (Instance_ S) exn response :=
  actor_id ← authorize req Permission.kRevokeSessions;
  revoked ← in_world (SessionService.revoke_all user_id);
  publish (AdminAction actor_id "session.revoke_all" "user" (to_string user_id)
    (jobj [("revoked", JInt revoked)]));;
  mret (json_response 200 (jobj [("user_id", JInt user_id); ("revoked", JInt revoked)])).

(* src/controllers/admin_controller.cpp:353-386, DELETE /admin/conversations/<int> *)
Definition delete_conversation (req : Request) (conversation_id : Z)
    : M (Instance_ S) exn response :=
  actor_id ← authorize req Permission.kManageGroups;
  conversation ← in_world (PgConversationRepository.find_by_id conversation_id);
  match conversation with
  | None => mthrow (NotFoundException "Conversation not found"
                      ("conversation_id=" +:+ to_string conversation_id))
  | Some _ =>
      participants ← in_world (PgConversationRepository.list_participant_ids conversation_id);
      in_world (PgConversationRepository.remove conversation_id);;
      in_world (emit (EBroadcast participants WireEvents.kConversationDeleted
        (jobj [("conversation_id", JInt conversation_id)])));;
      publish (AdminAction actor_id "conversation.delete" "conversation" (to_string conversation_id)
        (jobj [("participant_count", JInt (Z.of_nat (length participants)))]));;
      mret (json_response 200 (jobj [("conversation_id", JInt conversation_id);
        ("deleted", JBool true)]))
  end.

(* src/controllers/admin_controller.cpp:516-549, PUT /admin/features/<string> *)
Definition put_feature (req : Request) (name : string) : M (Instance_ S) exn response :=
  actor_id ← authorize req Permission.kManageFeatureFlags;
  match Features.parse_feature name with
  | None => mthrow (NotFoundException ("Unknown feature flag: " +:+ name) ("feature=" +:+ name))
  | Some feature =>
      body ← lift (parse_json_body (req_body req));
      match Json.find body "enabled" with
      | Some (JBool enabled) =>
          previous ← gets (λ i, i_flags i feature);
          modify (λ i, set_flags (Features.set feature enabled (i_flags i)) i);;
          publish (AdminAction actor_id "feature.toggle" "feature" name
            (jobj [("previous", JBool previous); ("enabled", JBool enabled)]));;
          mret (json_response 200 (jobj [("feature", JStr name); ("previous", JBool previous);
            ("enabled", JBool enabled)]))
      | _ => mthrow (ValidationException "Missing boolean field: enabled" "field=enabled")
      end
  end.
End Controller.
End AdminController.
