(* ===== verification/AuthorizationProps.v ===== *)
(** * AuthorizationProps: decisions follow the database

    The cached role and suspension of an account agree with the users table
    whatever the services, the administrators and the rate limiter do on one
    instance, as long as no commit is left in doubt; so a suspension takes effect
    on the next request.  Two ways around it are recorded as theorems: a lookup
    that overlaps a suspension, and the WebSocket handshake. *)

From S2P Require Import Prelude Text Json Errors Validation TimeUtil Rbac Models Events Dto.
From S2P Require Import Database Samples Users Conversations ConversationInv Repositories.
From S2P Require Import Attachments Messages Receipts Tokens Sessions SessionProps UserProps.
From S2P Require Import Protocol Connections Presence Dispatcher System Cache Authorization.
Open Scope string_scope.
Open Scope Z_scope.

(** ** What the database says *)

Definition db_role (d : Database) (u : Z) : Role.t :=
  default Role.kUser ((λ r, PgUserAdminRepository.read_role (UserRow.role r)) <$> users d !! u).
Definition db_banned (d : Database) (u : Z) : bool :=
  default false ((λ r, bool_decide (is_Some (UserRow.banned_at r))) <$> users d !! u).
Definition standing (d : Database) (u : Z) : Role.t * bool := (db_role d u, db_banned d u).

Lemma standing_users d d' u : users d' = users d → standing d' u = standing d u.
Proof. intros E. unfold standing, db_role, db_banned. by rewrite E. Qed.

(** A row that keeps role and suspension, and a new ordinary account. *)
Lemma standing_insert_same d i r r' u :
  users d !! i = Some r → UserRow.role r' = UserRow.role r →
  UserRow.banned_at r' = UserRow.banned_at r →
  standing (set_users (<[i := r']> (users d)) d) u = standing d u.
Proof.
  intros Hi Hr Hb. unfold standing, db_role, db_banned. simpl.
  destruct (decide (u = i)) as [->|Hne].
  - by rewrite lookup_insert_eq, Hi; simpl; rewrite Hr, Hb.
  - by rewrite lookup_insert_ne.
Qed.
Lemma standing_insert_new d i r u :
  users d !! i = None → UserRow.role r = "user" → UserRow.banned_at r = None →
  standing (set_users (<[i := r]> (users d)) d) u = standing d u.
Proof.
  intros Hi Hr Hb. unfold standing, db_role, db_banned. simpl.
  destruct (decide (u = i)) as [->|Hne].
  - by rewrite lookup_insert_eq, Hi; simpl; rewrite Hr, Hb.
  - by rewrite lookup_insert_ne.
Qed.
Lemma standing_insert_other d i r u :
  u ≠ i → standing (set_users (<[i := r]> (users d)) d) u = standing d u.
Proof. intros Hne. unfold standing, db_role, db_banned. simpl. by rewrite lookup_insert_ne. Qed.

(** The accounts invariant together with given standings. *)
Definition standings (f : Z → Role.t * bool) : assertion := λ d s,
  accounts_ok d s ∧ ∀ u, standing d u = f u.

Lemma standings_mono f d s s' : standings f d s → (∀ q, s q <= s' q) → standings f d s'.
Proof. intros [H1 H2] Hle. split; [by eapply accounts_mono|done]. Qed.

Section Accounts.
Context `{PasswordHasher, ViolationText, T : TokenService} (f : Z → Role.t * bool).

Lemma register_standings salt ja jr req :
  hoare (standings f) (AuthService.register_user salt ja jr req) (λ _, standings f) (standings f).
Proof.
  unfold AuthService.register_user.
  apply (hoare_bind _ (λ req' d s, standings f d s ∧ no_at (reg_username req') = true ∧
                                   no_at (reg_email req') = false)).
  { apply hoare_lift; [done|]. intros req' d s Hv Hok.
    apply validated_names in Hv as (? & ? & _). done. }
  intros req'. apply (hoare_bind _ (λ _, standings f)); [|intros; apply build_response_keeps].
  apply hoare_txn.
  - solve_grows.
  - intros d s s' [Hok _]. by apply standings_mono.
  - intros w u w' ([Hok Hst] & Hu & He) R. run_txn R.
    assert (users (db w) !! seqs w SUsers = None) as Hnone.
    { destruct (users (db w) !! _) as [r|] eqn:E; [|done]. apply Hok in E. lia. }
    split; (split; [apply accounts_insert; done|]); intros v; rewrite standing_insert_new; done.
Qed.

Lemma update_profile_standings id req :
  hoare (standings f) (UserService.update_profile id req) (λ _, standings f) (standings f).
Proof.
  intros w [Hok Hst]. pose proof (update_profile_keeps id req w Hok) as Hk.
  enough (∀ u, standing (db (UserService.update_profile id req w).2) u = standing (db w) u) as E.
  { destruct (UserService.update_profile id req w) as [[]]; split; try done; intros u; by rewrite E. }
  intros u. unfold UserService.update_profile, mbind, M_bind, lift.
  destruct (validate_and_normalize_profile req) as [req'|e]; [|done].
  unfold PgUserRepository.update_profile.
  match goal with |- context [with_transaction ?fn w] =>
    destruct (with_transaction_db fn w) as [->|(a & w1 & w' & (Hd & _) & R & ->)] end; [done|].
  run_txn R; rewrite ?Hd; [done|]. rewrite Hd in *. by apply standing_insert_same with (r:=t).
Qed.
End Accounts.

(** ** Service calls do not change anybody's standing *)

Section Calls.
Context `{PasswordHasher, ViolationText, Sha256, ImageProcessor, T : TokenService}.
Context (root : string) (options : AttachmentService.Options) (ttl : Z).

Lemma reads_users {A} (m : M World exn A) f w :
  evolves same_users m → standings f (db w) (seqs w) → standings f (db (m w).2) (seqs (m w).2).
Proof.
  intros Hm [Hok Hst]. destruct (Hm w) as [Hu Hs]. split.
  - eapply accounts_mono; [|exact Hs]. unfold accounts_ok. by rewrite Hu.
  - intros u. by rewrite (standing_users (db w)).
Qed.

Lemma account_standings f c w :
  standings f (db w) (seqs w) →
  standings f (db (account_call c w).2) (seqs (account_call c w).2).
Proof.
  intros Hw. destruct c as [salt ja jr req|ja jr req|id|id req].
  - apply hoare_run; [|done]. apply hoare_discard, register_standings.
  - apply reads_users; [|done].
    cbn [account_call]. unfold AuthService.login, AuthService.build_response, UserService.authenticate.
    solve_evolves.
  - apply reads_users; [|done]. cbn [account_call]. unfold UserService.get_by_id. solve_evolves.
  - apply hoare_run; [|done]. apply hoare_discard, update_profile_standings.
Qed.

Lemma perform_standings f c w :
  standings f (db w) (seqs w) →
  standings f (db (perform root options ttl c w)) (seqs (perform root options ttl c w)).
Proof.
  intros Hw. destruct (writes_accounts c) eqn:Hc.
  - destruct c; try discriminate Hc. by apply account_standings.
  - destruct (perform_users root options ttl c w Hc) as [Hu Hs]. destruct Hw as [Hok Hst]. split.
    + eapply accounts_mono; [|exact Hs]. unfold accounts_ok. by rewrite Hu.
    + intros u. by rewrite (standing_users (db w)).
Qed.
End Calls.

(** ** Triples for programs of an instance *)

Definition triple {W A} (P : W → Prop) (m : M W exn A) (Q : A → W → Prop) (E : W → Prop) : Prop :=
  ∀ w, P w → match m w with (Ok a, w') => Q a w' | (Err _, w') => E w' end.

Section Triples.
Context {W : Type}.
Lemma triple_ret {A} (P : W → Prop) (a : A) (Q : A → W → Prop) E :
  (∀ w, P w → Q a w) → triple P (mret a) Q E.
Proof. intros HQ w HP. by apply HQ. Qed.
Lemma triple_throw {A} (P : W → Prop) (e : exn) (Q : A → W → Prop) E :
  (∀ w, P w → E w) → triple P (mthrow e) Q E.
Proof. intros HE w HP. by apply HE. Qed.
Lemma triple_lift {A} (P : W → Prop) (r : result exn A) (Q : A → W → Prop) (E : W → Prop) :
  (∀ a w, r = Ok a → P w → Q a w) → (∀ w, P w → E w) → triple P (lift r) Q E.
Proof. intros HQ HE w HP. unfold lift. destruct r; eauto. Qed.
Lemma triple_bind {A B} (P : W → Prop) (R : A → W → Prop) (Q : B → W → Prop) E
    (m : M W exn A) (f : A → M W exn B) :
  triple P m R E → (∀ a, triple (R a) (f a) Q E) → triple P (m ≫= f) Q E.
Proof.
  intros Hm Hf w HP. unfold mbind, M_bind. specialize (Hm w HP).
  destruct (m w) as [[a|e] w1]; [by apply Hf|done].
Qed.
Lemma triple_conseq {A} (P P' : W → Prop) (Q Q' : A → W → Prop) (E E' : W → Prop) m :
  triple P' m Q' E' → (∀ w, P w → P' w) → (∀ a w, Q' a w → Q a w) → (∀ w, E' w → E w) →
  triple P m Q E.
Proof.
  intros Hm HP HQ HE w Hw. specialize (Hm w (HP _ Hw)). destruct (m w) as [[a|e] w1]; eauto.
Qed.
Lemma triple_run {A} (P Q : W → Prop) (m : M W exn A) w :
  triple P m (λ _, Q) Q → P w → Q (m w).2.
Proof. intros Hm Hw. specialize (Hm w Hw). by destruct (m w) as [[]]. Qed.
End Triples.

(** ** Agreement of cache and database *)

Section Coherence.
Context {S : Type} `{L : CacheStoreLaws S}.
Import AuthorizationService.

(** What is cached about [u], if anything, is what the database says. *)
Definition agrees (i : Instance_ S) (u : Z) : Prop :=
  let d := db (i_world i) in
  let see := peek (i_store i) (i_clock i) in
  (∀ v, see (role_key u) = Some v → v = Role.to_string (db_role d u)) ∧
  (∀ v, see (ban_key u) = Some v → v = if db_banned d u then "1" else "0").

Definition coherent (i : Instance_ S) : Prop := ∀ u, agrees i u.
Definition coherent_except (u : Z) (i : Instance_ S) : Prop := ∀ v, v ≠ u → agrees i v.

Lemma role_key_inj u v : role_key u = role_key v → u = v.
Proof. unfold role_key. intros E. simplify_eq. by apply to_string_inj. Qed.
Lemma ban_key_inj u v : ban_key u = ban_key v → u = v.
Proof. unfold ban_key. intros E. simplify_eq. by apply to_string_inj. Qed.
Lemma role_ban_key u v : role_key u ≠ ban_key v.
Proof. done. Qed.
Lemma ban_role_key u v : ban_key u ≠ role_key v.
Proof. done. Qed.

(** [agrees] looks at the standing and the two keys only. *)
Lemma agrees_ext i i' u :
  standing (db (i_world i')) u = standing (db (i_world i)) u →
  (∀ k, k = role_key u ∨ k = ban_key u →
     ∀ v, peek (i_store i') (i_clock i') k = Some v → peek (i_store i) (i_clock i) k = Some v) →
  agrees i u → agrees i' u.
Proof.
  unfold standing. intros [= Er Eb] Hk [Hr Hb]. unfold agrees. rewrite Er, Eb. split; eauto.
Qed.

(** The state between requests: everything cached is right, the accounts are
    well-formed and have the given standings, and no commit will be in doubt. *)
Definition good (f : Z → Role.t * bool) (i : Instance_ S) : Prop :=
  coherent i ∧ standings f (db (i_world i)) (seqs (i_world i)) ∧ no_doubt (i_world i).

Lemma good_world f i w :
  good f i → standings f (db w) (seqs w) → no_doubt w → good f (set_world w i).
Proof.
  intros (Hc & [_ Hf] & _) Hst Hn. split; [|done]. intros u.
  apply (agrees_ext i); [|done|apply Hc]. simpl. destruct Hst as [_ ->]. by rewrite Hf.
Qed.

Lemma good_store f i s :
  good f i →
  (∀ u k, k = role_key u ∨ k = ban_key u →
     ∀ v, peek s (i_clock i) k = Some v → peek (i_store i) (i_clock i) k = Some v) →
  good f (set_store s i).
Proof. intros (Hc & Hf) Hk. split; [|done]. intros u. apply (agrees_ext i); eauto. Qed.

Lemma no_doubt_tail w : no_doubt w → no_doubt (set_faults (tail (faults w)) w).
Proof.
  intros Hn what. simpl. specialize (Hn what). destruct (faults w); simpl in *; [done|].
  intros Hin. apply Hn. by apply list_elem_of_further.
Qed.

Lemma query_faults {A} (g : Database → A) w :
  no_doubt w → no_doubt (with_transaction (on_db g) w).2.
Proof.
  intros Hn%no_doubt_tail. unfold with_transaction. by destruct (mjoin _) as [[]|].
Qed.

Lemma query_spec {A} f (g : Database → A) :
  triple (good f) (in_world (with_transaction (on_db g)))
    (λ a i, good f i ∧ a = g (db (i_world i))) (good f).
Proof.
  intros i Hi. unfold in_world. pose proof (query_faults g (i_world i) (proj2 (proj2 Hi))) as Hn.
  pose proof (hoare_query (standings f) g (standings f) (λ _ _ H, H) (i_world i) (proj1 (proj2 Hi))) as Hq.
  destruct (with_transaction _ _) as [[a|e] w]; simpl in *.
  - destruct Hq as [Hst ->]. split; [by apply good_world|done].
  - by apply good_world.
Qed.

(** Reading the store. *)
Lemma get_spec f k :
  triple (good f) (in_store (λ now, store_get now k))
    (λ o i, good f i ∧ o = peek (i_store i) (i_clock i) k) (good f).
Proof.
  intros i Hi. unfold in_store.
  pose proof (get_result (i_store i) (i_clock i) k) as Hr.
  pose proof (λ t k', get_peek (i_store i) (i_clock i) k t k') as Hp.
  destruct (store_get _ _ _) as [o s]. simpl in *. subst.
  assert (∀ k', peek s (i_clock i) k' = peek (i_store i) (i_clock i) k') as E by (intros; by apply Hp).
  split; [apply good_store; [done|]; intros; by rewrite <- E|]. by rewrite E.
Qed.

(** Caching what the database says. *)
Lemma cache_role_spec f u ttl :
  triple (good f) (in_store (λ now s, ((), store_set now (role_key u)
                                             (Role.to_string (f u).1) ttl s)))
    (λ _, good f) (good f).
Proof.
  intros i (Hc & [Hok Hf] & Hn). simpl. split; [|done]. intros v.
  unfold agrees. simpl.
  split; intros x; rewrite set_peek by lia; case_decide as E.
  - apply role_key_inj in E as ->. rewrite <- Hf. by case_match; [intros [= <-]|].
  - apply Hc.
  - by apply ban_role_key in E.
  - apply Hc.
Qed.
Lemma cache_ban_spec f u ttl :
  triple (good f) (remember_ban ttl u (f u).2) (λ _, good f) (good f).
Proof.
  intros i (Hc & [Hok Hf] & Hn). simpl. split; [|done]. intros v.
  unfold agrees. simpl.
  split; intros x; rewrite set_peek by lia; case_decide as E.
  - by apply role_ban_key in E.
  - apply Hc.
  - apply ban_key_inj in E as ->. rewrite <- Hf. by case_match; [intros [= <-]|].
  - apply Hc.
Qed.

Lemma count_spec f (g : Instance_ S → Instance_ S) :
  (∀ i, i_world (g i) = i_world i) → (∀ i, i_store (g i) = i_store i) →
  (∀ i, i_clock (g i) = i_clock i) → triple (good f) (modify g) (λ _, good f) (good f).
Proof.
  intros Hw Hs Hc i (Hco & Hst & Hn). simpl. unfold good, coherent, agrees. by rewrite Hw, Hs, Hc.
Qed.

(** ** The decisions *)

Lemma load_role_spec f ttl u :
  triple (good f) (load_role ttl u) (λ r i, good f i ∧ r = (f u).1) (good f).
Proof.
  unfold load_role. eapply triple_bind; [by apply count_spec|]. intros []. cbn beta.
  eapply triple_bind; [apply query_spec|]. intros found.
  apply (triple_bind _ (λ _ i, good f i ∧ default Role.kUser found = (f u).1)).
  - intros i [Hi ->]. assert (db_role (db (i_world i)) u = (f u).1) as E.
    { destruct Hi as (_ & [_ Hf] & _). by rewrite <- Hf. }
    unfold db_role in E. rewrite E. pose proof (cache_role_spec f u ttl i Hi) as Hc.
    exact (conj Hc eq_refl).
  - intros []. cbn beta. apply triple_ret. done.
Qed.

Lemma role_of_spec f ttl u :
  triple (good f) (role_of ttl u) (λ r i, good f i ∧ r = (f u).1) (good f).
Proof.
  unfold role_of. eapply triple_bind; [apply get_spec|]. intros o. cbn beta.
  destruct o as [text|]; [|eapply triple_conseq; [apply load_role_spec|by intros ? []|done|done]].
  apply (triple_bind _ (λ _ i, good f i ∧ text = Role.to_string (f u).1)).
  - intros i [Hi Ho]. split; [by apply (count_spec f count_hit)|].
    destruct Hi as (Hc & [_ Hf] & _). symmetry in Ho. apply Hc in Ho. by rewrite <- Hf.
  - intros []. cbn beta. intros i [Hi ->]. by rewrite parse_role_to_string.
Qed.

Lemma is_banned_spec f ttl u :
  triple (good f) (is_banned ttl u) (λ b i, good f i ∧ b = (f u).2) (good f).
Proof.
  unfold is_banned. eapply triple_bind; [apply get_spec|]. intros o. cbn beta.
  destruct o as [text|].
  - intros i [Hi Ho]. split; [by apply (count_spec f count_hit)|].
    destruct Hi as (Hc & [_ Hf] & _). symmetry in Ho. apply Hc in Ho. rewrite Ho, <- Hf. simpl.
    by destruct (db_banned _ u).
  - apply (triple_bind _ (λ b i, good f i ∧ b = (f u).2)).
    + eapply triple_bind; [eapply triple_conseq; [by apply (count_spec f count_miss)|by intros ? []|done|done]|].
      intros []. cbn beta. eapply triple_bind; [apply query_spec|]. intros found. apply triple_ret.
      intros i [Hi ->]. split; [done|]. destruct Hi as (_ & [_ Hf] & _). by rewrite <- Hf.
    + intros b. apply (triple_bind _ (λ _ i, good f i ∧ b = (f u).2)).
      * intros i [Hi ->]. exact (conj (cache_ban_spec f u ttl i Hi) eq_refl).
      * intros []. cbn beta. by apply triple_ret.
Qed.

Lemma require_permission_spec f ttl u p :
  triple (good f) (require_permission ttl u p)
    (λ _ i, good f i ∧ Rbac.has_permission (f u).1 p = true) (good f).
Proof.
  unfold require_permission. eapply triple_bind; [apply role_of_spec|]. intros r. cbn beta.
  intros i [Hi ->]. by destruct (Rbac.has_permission (f u).1 p) eqn:E.
Qed.

Lemma require_active_spec f ttl u :
  triple (good f) (require_active ttl u) (λ _ i, good f i ∧ (f u).2 = false) (good f).
Proof.
  unfold require_active. eapply triple_bind; [apply is_banned_spec|]. intros b. cbn beta.
  intros i [Hi ->]. by destruct (f u).2 eqn:E.
Qed.

(** ** Changing a standing *)

Definition set_standing (f : Z → Role.t * bool) (u : Z) (x : Role.t * bool) : Z → Role.t * bool :=
  λ v, if decide (v = u) then x else f v.

(** Between the change of a row and the eviction. *)
Definition stale (u : Z) (f : Z → Role.t * bool) (i : Instance_ S) : Prop :=
  coherent_except u i ∧ standings f (db (i_world i)) (seqs (i_world i)) ∧ no_doubt (i_world i).

Lemma txn_no_doubt {A} (fn : M World exn A) w :
  keeps no_doubt fn → no_doubt w → no_doubt (with_transaction fn w).2.
Proof.
  intros Hk Hn%no_doubt_tail. specialize (Hk _ Hn). unfold with_transaction.
  destruct (mjoin _) as [[]|]; [done|..]; destruct (fn _) as [[?|[]] w2]; simpl in *; done.
Qed.
Lemma keeps_no_doubt_update g : keeps no_doubt (update g).
Proof. intros w Hw. exact Hw. Qed.
Lemma keeps_no_doubt_fk b : keeps no_doubt (foreign_key b).
Proof. intros w Hw. destruct b; exact Hw. Qed.

(** A transaction that gives the row of [u] another role or suspension. *)
Lemma change_spec {A} f u (fn : M World exn A) (x : A → Role.t * bool) :
  keeps no_doubt fn → grows fn →
  (∀ w a w', fn w = (Ok a, w') → standings f (db w) (seqs w) →
     standings (set_standing f u (x a)) (db w') (seqs w')) →
  triple (good f) (in_world (with_transaction fn))
    (λ a, stale u (set_standing f u (x a))) (good f).
Proof.
  intros Hk Hg Hfn i Hi. pose proof Hi as (Hc & Hst & Hn). unfold in_world.
  pose proof (txn_no_doubt fn _ Hk Hn) as Hn'.
  pose proof (grows_with_transaction fn Hg (i_world i)) as Hs.
  destruct (with_transaction fn (i_world i)) as [[a|e] w'] eqn:R; simpl in *.
  - apply with_transaction_ok in R as (w1 & (Hd & Hq & _) & R).
    assert (standings (set_standing f u (x a)) (db w') (seqs w')) as Hst'.
    { eapply Hfn; [exact R|]. by rewrite Hd, Hq. }
    split; [|done]. intros v Hv. apply (agrees_ext i); [|done|apply Hc]. simpl.
    destruct Hst' as [_ ->]. destruct Hst as [_ ->]. unfold set_standing. by rewrite decide_False.
  - apply good_world; [done| |done]. rewrite (with_transaction_err _ _ _ _ R Hn).
    by eapply standings_mono.
Qed.

(** A row with the same names. *)
Lemma standings_replace f d s u r r' x :
  standings f d s → users d !! u = Some r → UserRow.username r' = UserRow.username r →
  UserRow.email r' = UserRow.email r →
  x = (PgUserAdminRepository.read_role (UserRow.role r'),
       bool_decide (is_Some (UserRow.banned_at r'))) →
  standings (set_standing f u x) (set_users (<[u := r']> (users d)) d) s.
Proof.
  intros [Hok Hst] Hu Eu Ee ->. split; [by eapply accounts_replace|]. intros v. unfold set_standing.
  case_decide as E; [subst|by rewrite standing_insert_other].
  unfold standing, db_role, db_banned. simpl. by rewrite lookup_insert_eq.
Qed.

Lemma set_role_spec f u role :
  triple (good f) (in_world (PgUserAdminRepository.set_role u role))
    (λ _, stale u (set_standing f u (role, (f u).2))) (good f).
Proof.
  apply (change_spec f u _ (λ _, (role, (f u).2))); [|solve_grows|].
  - apply keeps_bind; [apply keeps_gets|intros now]. apply keeps_bind; [apply keeps_gets|intros [r|]];
      [|apply keeps_throw]. apply keeps_bind; [apply keeps_no_doubt_update|intros; apply keeps_ret].
  - intros w a w' R Hst. run_txn R. apply (standings_replace f _ _ u t); try done.
    unfold PgUserAdminRepository.read_role. cbn [UserRow.role PgUserAdminRepository.with_role].
    rewrite parse_role_to_string. destruct Hst as [_ Hf]. rewrite <- Hf.
    unfold standing, db_banned. by rewrite Heqo.
Qed.

Lemma set_banned_spec `{PgText} f u b reason actor :
  triple (good f) (in_world (PgUserAdminRepository.set_banned u b reason actor))
    (λ _, stale u (set_standing f u ((f u).1, b))) (good f).
Proof.
  apply (change_spec f u _ (λ _, ((f u).1, b))); [|solve_grows|].
  - apply keeps_bind; [apply keeps_gets|intros now]. apply keeps_bind; [apply keeps_gets|intros d].
    destruct (users d !! u); [|apply keeps_throw]. destruct b; [|apply keeps_no_doubt_update].
    apply keeps_bind; [repeat case_match; first [apply keeps_ret|apply keeps_throw]|intros st].
    apply keeps_bind; [apply keeps_no_doubt_fk|intros; apply keeps_no_doubt_update].
  - intros w a w' R Hst. assert (∀ r, users (db w) !! u = Some r → (f u).1 =
      PgUserAdminRepository.read_role (UserRow.role r)) as Hf.
    { intros r Hr. destruct Hst as [_ Hf]. rewrite <- Hf. unfold standing, db_role. by rewrite Hr. }
    run_txn R; rewrite (Hf t) by done;
      by apply (standings_replace f _ _ u t).
Qed.

(** Evicting never throws. *)
Lemma invalidate_spec f u E : triple (stale u f) (invalidate u) (λ _, good f) E.
Proof.
  intros i (Hc & Hst & Hn). unfold invalidate, invalidate_local, in_store, mbind, M_bind.
  pose proof (λ t k', del_peek (i_store i) (i_clock i) (role_key u) t k') as H1.
  destruct (store_del (i_clock i) (role_key u) (i_store i)) as [b1 s1]. cbn [i_clock i_store set_store] in *.
  pose proof (λ t k', del_peek s1 (i_clock i) (ban_key u) t k') as H2.
  destruct (store_del (i_clock i) (ban_key u) s1) as [b2 s2]. simpl in *. split; [|done]. intros v.
  assert (∀ k, peek s2 (i_clock i) k = if decide (k = ban_key u) then None else
            if decide (k = role_key u) then None else peek (i_store i) (i_clock i) k) as Ek.
  { intros k. rewrite H2, H1 by lia. done. }
  destruct (decide (v = u)) as [->|Hne].
  - split; simpl; intros x; rewrite Ek; [rewrite decide_False by done|]; by rewrite decide_True.
  - apply (agrees_ext i); [done| |by apply Hc]. simpl. intros k Hk x. rewrite Ek.
    repeat case_decide; try done.
Qed.

(** Store traffic under other keys, and time passing. *)
Lemma other_key_spec f k (g : Z → S → unit * S) :
  (∀ u, k ≠ role_key u ∧ k ≠ ban_key u) →
  (∀ now s k', k' ≠ k → peek (g now s).2 now k' = peek s now k') →
  triple (good f) (in_store g) (λ _, good f) (good f).
Proof.
  intros Hk Hg i Hi. unfold in_store. specialize (Hg (i_clock i) (i_store i)).
  destruct (g _ _) as [[] s]. simpl in *. apply good_store; [done|].
  intros u k' Hk' v. destruct (Hk u). rewrite Hg; [done|]. by destruct Hk' as [->| ->].
Qed.
End Coherence.

(** ** Requests *)

Section Requests.
Context {S : Type} `{L : CacheStoreLaws S} `{PasswordHasher, ViolationText, Sha256, ImageProcessor}.
Context `{T : TokenService, PgText, JsonText}.
Context (root : string) (options : AttachmentService.Options) (session_ttl cache_ttl : Z).
Import AdminController.

Lemma authenticate_spec f header :
  triple (good f) (AuthMiddleware.authenticate cache_ttl header)
    (λ c i, good f i ∧ (f (TokenClaims.user_id c)).2 = false) (good f).
Proof.
  unfold AuthMiddleware.authenticate. apply (triple_bind _ (λ _, good f)).
  - unfold AuthMiddleware.authenticate_token_only. case_match; [|by apply triple_throw].
    intros i Hi. unfold mbind, M_bind, gets, lift. by case_match.
  - intros c. eapply triple_bind; [apply require_active_spec|]. intros []. by apply triple_ret.
Qed.

(** The actor of an authorized request. *)
Definition empowered (f : Z → Role.t * bool) (p : Permission.t) (actor : Z) : Prop :=
  (f actor).2 = false ∧ Rbac.has_permission (f actor).1 p = true.

Lemma authorize_spec f req p :
  triple (good f) (authorize cache_ttl req p) (λ a i, good f i ∧ empowered f p a) (good f).
Proof.
  unfold authorize. eapply triple_bind; [apply authenticate_spec|]. intros c. cbn beta.
  apply (triple_bind _ (λ _ i, good f i ∧ empowered f p (TokenClaims.user_id c))).
  - intros i [Hi Hb]. pose proof (require_permission_spec f cache_ttl (TokenClaims.user_id c) p i Hi) as Hp.
    destruct (AuthorizationService.require_permission _ _ _ i) as [[]]; [|done].
    destruct Hp as [? ?]. done.
  - intros []. by apply triple_ret.
Qed.

(** Publishing and revoking sessions leave standings alone. *)
Lemma quiet_spec {A} f (m : M World exn A) :
  evolves same_users m → keeps no_doubt m → triple (good f) (in_world m) (λ _, good f) (good f).
Proof.
  intros Hm Hk i Hi. pose proof Hi as (_ & Hst & Hn). unfold in_world.
  pose proof (reads_users m f (i_world i) Hm Hst) as Hst'. specialize (Hk _ Hn).
  destruct (m (i_world i)) as [[a|e] w]; by apply good_world.
Qed.
Lemma publish_spec f e E : triple (good f) (publish e) (λ _, good f) E.
Proof. intros i Hi. apply good_world; [done|apply Hi..]. Qed.
Lemma revoke_all_spec f u :
  triple (good f) (in_world (SessionService.revoke_all u)) (λ _, good f) (good f).
Proof.
  apply quiet_spec; unfold SessionService.revoke_all, PgSessionRepository.revoke_all,
    PgSessionRepository.revoke_where.
  - solve_evolves.
  - intros w Hw. apply txn_no_doubt; [|done].
    repeat (apply keeps_bind; [first [apply keeps_gets|apply keeps_no_doubt_update]|intros ?]);
      apply keeps_ret.
Qed.

Lemma put_role_spec f req u :
  triple (good f) (put_role cache_ttl req u)
    (λ _ i, ∃ role, good (set_standing f u (role, (f u).2)) i) (good f).
Proof.
  unfold put_role. apply (triple_bind _ (λ _, good f)).
  { eapply triple_conseq; [apply authorize_spec|done|by intros ?? []|done]. }
  intros actor. apply (triple_bind _ (λ _, good f)); [by apply triple_lift|]. intros body.
  apply (triple_bind _ (λ _, good f)); [by apply triple_lift|]. intros requested.
  destruct (Role.parse_role requested) as [role|]; [|by apply triple_throw].
  apply (triple_bind _ (λ _, good f)).
  { eapply triple_conseq; [apply role_of_spec|done|by intros ?? []|done]. }
  intros actor_role. case_match; [by apply triple_throw|].
  eapply triple_bind; [apply set_role_spec|]. intros previous. cbn beta.
  apply (triple_bind _ (λ _, good (set_standing f u (role, (f u).2)))).
  { apply invalidate_spec. }
  intros []. apply (triple_bind _ (λ _, good (set_standing f u (role, (f u).2)))).
  { apply publish_spec. }
  intros []. apply triple_ret. eauto.
Qed.

Definition banned_by (f : Z → Role.t * bool) (u : Z) (b : bool) : Z → Role.t * bool :=
  set_standing f u ((f u).1, b).

Lemma ban_spec f req u :
  triple (good f) (ban cache_ttl req u)
    (λ _ i, good (banned_by f u true) i ∧
       ∃ actor, empowered f Permission.kBanUsers actor ∧ Role.ord (f u).1 < Role.ord (f actor).1)
    (λ i, good f i ∨ good (banned_by f u true) i).
Proof.
  unfold ban. eapply triple_bind.
  { eapply triple_conseq; [apply authorize_spec|done|done|by left]. }
  intros actor. cbn beta. case_match; [apply triple_throw; intros ? []; by left|].
  apply (triple_bind _ (λ r i, good f i ∧ empowered f Permission.kBanUsers actor ∧ r = (f actor).1)).
  { intros i [Hi He]. pose proof (role_of_spec f cache_ttl actor i Hi) as Hr.
    destruct (AuthorizationService.role_of _ _ i) as [[]]; [|by left]. destruct Hr as [? ->]. done. }
  intros r1. apply (triple_bind _ (λ r i, good f i ∧ empowered f Permission.kBanUsers actor ∧
    r1 = (f actor).1 ∧ r = (f u).1)).
  { intros i (Hi & He & ->). pose proof (role_of_spec f cache_ttl u i Hi) as Hr.
    destruct (AuthorizationService.role_of _ _ i) as [[]]; [|by left]. destruct Hr as [? ->]. done. }
  intros r2. cbn beta. intros i0 (Hi0 & He & -> & ->). revert i0 Hi0.
  destruct (Z.leb_spec (Role.ord (f actor).1) (Role.ord (f u).1)) as [|Hlt]; [by left|].
  match goal with |- ∀ i0, _ → match ?m i0 with _ => _ end =>
    change (triple (good f) m (λ _ i, good (banned_by f u true) i ∧
       ∃ actor, empowered f Permission.kBanUsers actor ∧ Role.ord (f u).1 < Role.ord (f actor).1)
    (λ i, good f i ∨ good (banned_by f u true) i)) end.
  apply (triple_bind _ (λ _, good f)); [apply triple_lift; [done|by left]|]. intros body.
  eapply triple_bind; [eapply triple_conseq; [apply set_banned_spec|done|done|by left]|].
  intros []. cbn beta. apply (triple_bind _ (λ _, good (banned_by f u true))).
  { apply invalidate_spec. }
  intros []. apply (triple_bind _ (λ _, good (banned_by f u true))).
  { eapply triple_conseq; [apply revoke_all_spec|done|done|by right]. }
  intros n. apply (triple_bind _ (λ _, good (banned_by f u true))).
  { apply publish_spec. }
  intros []. apply triple_ret. eauto 6.
Qed.

Lemma unban_spec f req u :
  triple (good f) (unban cache_ttl req u) (λ _, good (banned_by f u false)) (good f).
Proof.
  unfold unban. apply (triple_bind _ (λ _, good f)).
  { eapply triple_conseq; [apply authorize_spec|done|by intros ?? []|done]. }
  intros actor. eapply triple_bind; [apply set_banned_spec|]. intros []. cbn beta.
  apply (triple_bind _ (λ _, good (banned_by f u false))).
  { apply invalidate_spec. }
  intros []. apply (triple_bind _ (λ _, good (banned_by f u false))).
  { apply publish_spec. }
  intros []. by apply triple_ret.
Qed.

(** ** Traffic on one instance *)

(** Before a step: time that passed, the wall clock, and the faults to come. *)
Record Env := { env_elapsed : N; env_now : Z; env_faults : list (option Fault) }.

Definition clean (e : Env) : Prop := ∀ what, Some (FInDoubt what) ∉ env_faults e.

Definition enter (e : Env) (i : Instance_ S) : Instance_ S :=
  let w := i_world i in
  mkInstance (mkWorld (db w) (seqs w) (env_now e) (env_faults e) (out w) (files w) (io_faults w))
    (i_store i) (i_clock i + Z.of_N (env_elapsed e)) (i_published i) (i_hits i) (i_misses i)
    (i_flags i).

(** A call of any service, a guarded request, a permission lookup, a notice from
    another instance, the three administrative changes, a rate-limited request,
    and the clean-up job. *)
Inductive Step :=
  | SService (c : Call)
  | SRequest (header : string)
  | SRole (u : Z)
  | SNotice (u : Z)
  | SPutRole (req : Request) (u : Z)
  | SBan (req : Request) (u : Z)
  | SUnban (req : Request) (u : Z)
  | SLimit (bucket identity : string) (max window : Z)
  | SPurge.

Definition act (x : Step) (i : Instance_ S) : Instance_ S :=
  match x with
  | SService c => set_world (perform root options session_ttl c (i_world i)) i
  | SRequest header => (AuthMiddleware.authenticate cache_ttl header i).2
  | SRole u => (AuthorizationService.role_of cache_ttl u i).2
  | SNotice u => (AuthorizationService.invalidate_local u i).2
  | SPutRole req u => (put_role cache_ttl req u i).2
  | SBan req u => (ban cache_ttl req u i).2
  | SUnban req u => (unban cache_ttl req u i).2
  | SLimit b id max window =>
      set_store (RateLimiter.check true (i_clock i) b id max window (i_store i)).2 i
  | SPurge => set_store (store_purge (i_clock i) (i_store i)).2 i
  end.

Fixpoint traffic (xs : list (Env * Step)) (i : Instance_ S) : Instance_ S :=
  match xs with [] => i | (e, x) :: xs => traffic xs (act x (enter e i)) end.

(** Between steps nothing is known about the faults. *)
Definition settled (f : Z → Role.t * bool) (i : Instance_ S) : Prop :=
  coherent i ∧ standings f (db (i_world i)) (seqs (i_world i)).

Lemma good_settled f i : good f i → settled f i.
Proof. by intros (? & ? & _). Qed.

Lemma enter_good f e i : clean e → settled f i → good f (enter e i).
Proof.
  intros He [Hc Hst]. split_and!; [|done|done]. intros u. apply (agrees_ext i); [done| |apply Hc].
  simpl. intros k _ v. apply peek_stable. lia.
Qed.

Lemma limit_good f i b id max window :
  good f i → good f (set_store (RateLimiter.check true (i_clock i) b id max window (i_store i)).2 i).
Proof.
  intros Hi. apply good_store; [done|]. intros u k Hk v. unfold RateLimiter.check.
  destruct (negb true || (max <=? 0)); [done|].
  pose proof (λ k', incr_other (i_store i) (i_clock i) (RateLimiter.rate_key b id) window
    (i_clock i) k' ltac:(lia)) as Ho.
  destruct (store_incr _ _ _ _) as [n s]. simpl in *. rewrite Ho; [done|].
  by destruct Hk as [-> | ->].
Qed.

Lemma notice_good f i u : good f i → good f (AuthorizationService.invalidate_local u i).2.
Proof.
  intros Hi. assert (stale u f i) as Hs.
  { destruct Hi as (Hc & Hst & Hn). split; [|done]. intros v _. apply Hc. }
  pose proof (invalidate_spec f u (λ _, False) i Hs) as Hv.
  unfold AuthorizationService.invalidate, mbind, M_bind in Hv.
  destruct (AuthorizationService.invalidate_local u i) as [[[]|e] i']; simpl in *; [|done].
  destruct Hv as (Hc & Hst & Hn). split; [|done]. intros v.
  by apply (agrees_ext (add_notice (InvalidationEvent.mk InvalidationEvent.kAuthorization
                                      (to_string u) "") i')).
Qed.

(** What a step does to the standings: nothing, or one change of one account. *)
Lemma act_settled f x i :
  good f i →
  settled f (act x i) ∨
  match x with
  | SPutRole _ u => ∃ role, settled (set_standing f u (role, (f u).2)) (act x i)
  | SBan _ u => settled (banned_by f u true) (act x i)
  | SUnban _ u => settled (banned_by f u false) (act x i)
  | _ => False
  end.
Proof.
  intros Hi. destruct x as [c|h|u|u|req u|req u|req u|b id max window|]; cbn [act].
  - left. destruct Hi as (Hc & Hst & _).
    pose proof (perform_standings root options session_ttl f c _ Hst) as Hst'. split; [|done].
    intros u. apply (agrees_ext i); [|done|apply Hc]. simpl. destruct Hst' as [_ ->].
    destruct Hst as [_ ->]. done.
  - left. apply good_settled. pose proof (authenticate_spec f h i Hi) as Hs.
    by destruct (AuthMiddleware.authenticate _ _ i) as [[]]; [destruct Hs|].
  - left. apply good_settled. pose proof (role_of_spec f cache_ttl u i Hi) as Hs.
    by destruct (AuthorizationService.role_of _ _ i) as [[]]; [destruct Hs|].
  - left. by apply good_settled, notice_good.
  - pose proof (put_role_spec f req u i Hi) as Hs.
    destruct (put_role _ _ _ i) as [[]]; [right|left; by apply good_settled].
    destruct Hs as [role Hs]. exists role. by apply good_settled.
  - pose proof (ban_spec f req u i Hi) as Hs.
    destruct (ban _ _ _ i) as [[]]; [right; by apply good_settled, Hs|].
    destruct Hs as [Hs|Hs]; [left|right]; by apply good_settled.
  - pose proof (unban_spec f req u i Hi) as Hs.
    destruct (unban _ _ _ i) as [[]]; [right|left]; by apply good_settled.
  - left. by apply good_settled, limit_good.
  - left. apply good_settled, good_store; [done|]. intros u k _ v. by rewrite purge_peek.
Qed.

Lemma traffic_settled xs : ∀ f i,
  Forall (λ ex, clean ex.1) xs → settled f i → ∃ f', settled f' (traffic xs i).
Proof.
  induction xs as [|[e x] xs IH]; intros f i Hcl Hi; [eauto|].
  inversion_clear Hcl as [|?? He Hcl']. apply (enter_good f e) in Hi; [|done].
  destruct (act_settled f x _ Hi) as [Hs|Hs]; [by eapply IH|].
  destruct x; try done; [destruct Hs as [role Hs]|..]; by eapply IH.
Qed.

(** A suspension lasts until it is lifted. *)
Lemma traffic_banned u xs : ∀ f i,
  Forall (λ ex, clean ex.1 ∧ ∀ req, ex.2 ≠ SUnban req u) xs → (f u).2 = true →
  settled f i → ∃ f', (f' u).2 = true ∧ settled f' (traffic xs i).
Proof.
  induction xs as [|[e x] xs IH]; intros f i Hcl Hb Hi; [eauto|].
  inversion_clear Hcl as [|?? [He Hx] Hcl']. apply (enter_good f e) in Hi; [|done].
  destruct (act_settled f x _ Hi) as [Hs|Hs]; [by eapply IH|].
  destruct x as [c|h|v|v|req v|req v|req v|b id max window|]; try done;
    [destruct Hs as [role Hs]|..]; eapply IH; try exact Hs; try done;
    unfold banned_by, set_standing; case_decide as E; try done; subst; try done.
  by destruct (Hx req).
Qed.
End Requests.

Section Defined.
Context {S : Type} `{L : CacheStoreLaws S}.

(** With the database at hand every lookup answers. *)
Lemma query_answers {A} (g : Database → A) (i : Instance_ S) :
  faults (i_world i) = [] → in_world (with_transaction (on_db g)) i = (Ok (g (db (i_world i))), i).
Proof.
  intros Hf. unfold in_world. erewrite (with_transaction_run _ (i_world i)); [|done|reflexivity].
  by destruct i.
Qed.
Lemma role_of_answers ttl u (i : Instance_ S) :
  faults (i_world i) = [] → is_ok (AuthorizationService.role_of ttl u i).1 = true.
Proof.
  intros Hf. unfold AuthorizationService.role_of, AuthorizationService.load_role, mbind, M_bind,
    in_store, modify.
  destruct (store_get _ _ _) as [[text|] s]; [destruct (Role.parse_role text); [done|]|];
    unfold PgUserAdminRepository.find_role; by rewrite query_answers.
Qed.
Lemma is_banned_answers ttl u (i : Instance_ S) :
  faults (i_world i) = [] → is_ok (AuthorizationService.is_banned ttl u i).1 = true.
Proof.
  intros Hf. unfold AuthorizationService.is_banned, AuthorizationService.query_ban, mbind, M_bind,
    in_store, modify.
  destruct (store_get _ _ _) as [[text|] s]; [done|].
  unfold PgUserAdminRepository.is_banned. by rewrite query_answers.
Qed.
End Defined.

(** C6. Authorization is database-authoritative.  Start with an empty cache and
    let any services, guarded requests, role changes, suspensions,
    reinstatements, notices of other instances, rate-limited requests and
    clean-ups happen on an instance, with failures but no commit in doubt: every
    role and every suspension that is then looked up, through the cache or not,
    is the one in the users table at that moment, no request of a suspended
    account passes the guard, and without failures every lookup answers. *)
Theorem decisions_follow_database {Store : Type} `{L : CacheStoreLaws Store}
    `{PasswordHasher, ViolationText, Sha256, ImageProcessor, T : TokenService, PgText, JsonText}
    root options session_ttl cache_ttl (xs : list (Env * Step)) (i0 : Instance_ Store) (e : Env) :
  accounts_ok (db (i_world i0)) (seqs (i_world i0)) →
  (∀ k, peek (i_store i0) (i_clock i0) k = None) →
  Forall (λ ex, clean ex.1) xs → clean e →
  let i := enter e (traffic root options session_ttl cache_ttl xs i0) in
  let d := db (i_world i) in
  (∀ u b i', AuthorizationService.is_banned cache_ttl u i = (Ok b, i') → b = db_banned d u) ∧
  (∀ u r i', AuthorizationService.role_of cache_ttl u i = (Ok r, i') → r = db_role d u) ∧
  (∀ header c i', AuthMiddleware.authenticate cache_ttl header i = (Ok c, i') →
     db_banned d (TokenClaims.user_id c) = false) ∧
  (env_faults e = [] → ∀ u, is_ok (AuthorizationService.is_banned cache_ttl u i).1 = true ∧
                            is_ok (AuthorizationService.role_of cache_ttl u i).1 = true).
Proof.
  intros Hok Hempty Hcl He i d.
  destruct (traffic_settled root options session_ttl cache_ttl xs (standing (db (i_world i0))) i0)
    as [f Hs]; [done|split; [|done]; intros u; split; intros v; by rewrite Hempty|].
  apply (enter_good f e) in Hs; [|done]. fold i in Hs.
  assert (∀ u, f u = standing d u) as Hf by (intros u; by destruct Hs as (_ & [_ ->] & _)).
  split_and!.
  - intros u b i' R. pose proof (is_banned_spec f cache_ttl u i Hs) as Hb. rewrite R in Hb.
    destruct Hb as [_ ->]. by rewrite Hf.
  - intros u r i' R. pose proof (role_of_spec f cache_ttl u i Hs) as Hr. rewrite R in Hr.
    destruct Hr as [_ ->]. by rewrite Hf.
  - intros h c i' R. pose proof (authenticate_spec cache_ttl f h i Hs) as Hc. rewrite R in Hc.
    destruct Hc as [_ Hb]. by rewrite Hf in Hb.
  - intros Hn u. split; [by apply is_banned_answers|by apply role_of_answers].
Qed.


(** A lookup that overlaps a suspension defeats it for a while.  One request
    has read "not suspended" from the database but not cached it yet when an
    administrator suspends the account and evicts its entries; the request then
    caches what it read.  For the whole time to live of the entry the suspended
    account passes the guard, although eviction was meant to make the change
    effective immediately. *)
Theorem suspension_race {Store : Type} `{L : CacheStoreLaws Store, PgText} (cache_ttl u : Z)
    (reason : option string) (actor : option Z) (i i1 i2 : Instance_ Store) (e : Env) :
  AuthorizationService.query_ban u i = (Ok false, i1) →
  in_world (PgUserAdminRepository.set_banned u true reason actor) i1 = (Ok (), i2) →
  let i3 := (AuthorizationService.invalidate u i2).2 in
  let i4 := (AuthorizationService.remember_ban cache_ttl u false i3).2 in
  Z.of_N (env_elapsed e) < nanos cache_ttl →
  db_banned (db (i_world i4)) u = true ∧
  ∃ i', AuthorizationService.require_active cache_ttl u (enter e i4) = (Ok (), i').
Proof.
  intros _ R i3 i4 Hlt.
  assert (db (i_world i4) = db (i_world i2)) as Hdb.
  { unfold i4, i3, AuthorizationService.remember_ban, AuthorizationService.invalidate,
      AuthorizationService.invalidate_local, in_store, mbind, M_bind, modify.
    destruct (store_del _ _ _) as [? ?]. cbn [i_clock i_store set_store].
    by destruct (store_del _ _ _) as [? ?]. }
  split.
  - rewrite Hdb. unfold in_world in R.
    destruct (PgUserAdminRepository.set_banned _ _ _ _ _) as [r w] eqn:E. simplify_eq. simpl.
    apply with_transaction_ok in E as (w1 & _ & E). unfold db_banned. run_txn E;
      cbn [users set_users]; by rewrite lookup_insert_eq.
  - unfold AuthorizationService.require_active, AuthorizationService.is_banned, mbind, M_bind, in_store.
    pose proof (get_result (i_store (enter e i4)) (i_clock (enter e i4))
      (AuthorizationService.ban_key u)) as Hg.
    assert (peek (i_store (enter e i4)) (i_clock (enter e i4)) (AuthorizationService.ban_key u)
            = Some "0") as Hp.
    { unfold i4. cbn [AuthorizationService.remember_ban in_store enter i_store i_clock set_store snd].
      rewrite set_peek, decide_True by (done || lia). unfold alive.
      by rewrite (proj2 (Z.ltb_lt _ _)), orb_true_r by lia. }
    rewrite Hp in Hg. destruct (store_get _ _ _) as [o s]. simpl in Hg. subst. by eexists.
Qed.

(** Suspension does not reach WebSockets.  A suspended account with its right
    password can still sign in, and the handshake accepts the access token it
    gets, for the account; the guard of the HTTP endpoints refuses the same
    token. *)
Theorem suspended_account_opens_socket {Store : Type} `{L : CacheStoreLaws Store}
    `{PasswordHasher, ViolationText, T : TokenService, !TokenServiceLaws T}
    (cache_ttl id t0 : Z) (ja jr ident pw header : string) (row : UserRow.t) (i : Instance_ Store) :
  let w := i_world i in
  settled (standing (db w)) i → faults w = [] → users (db w) !! id = Some row →
  UserRow.banned_at row = Some t0 → in_int64 id = true → 0 <= now w →
  1 < pair_lifetime TokenType.kAccess →
  LOWER (trim ident) = LOWER (UserRow.username row) ∨ LOWER (trim ident) = LOWER (UserRow.email row) →
  trim ident ≠ "" → pw ≠ "" → verify pw (UserRow.password_hash row) = true →
  ∃ resp, AuthService.login ja jr {| login_identifier := ident; login_password := pw |} w = (Ok resp, w) ∧
    let token := TokenPair.access_token (AuthResponse.tokens resp) in
    (∃ ctx, WebSocketController.authenticate (utils_now (now w)) (Some token) "" None = Some ctx ∧
            WebSocketController.ctx_user_id ctx = id) ∧
    (WebSocketController.extract_bearer_token header = Some token →
     ∃ e i', AuthMiddleware.authenticate cache_ttl header i = (Err e, i')).
Proof.
  intros w [Hc [Hok _]] Hf Hrow Hban Hid Hnow Hlife Hident Hne Hpw Hv.
  eexists. split; [rewrite (login_run _ _ _ _ _ id row) by done; by rewrite Hv|].
  cbn zeta. cbn [AuthResponse.tokens].
  destruct (pair_verifies ja jr (utils_now (now w)) (utils_now (now w)) id (UserRow.username row)
    TokenType.kAccess TokenType.kAccess) as [Hclaims Hok2]; [done|unfold utils_now; lia|].
  specialize (Hok2 ltac:(lia)). cbn zeta in Hclaims.
  destruct (token_verify _ _ _) as [c|] eqn:Htv; [|done].
  destruct (Hclaims c eq_refl) as (_ & Hu & _). split.
  - unfold WebSocketController.authenticate. rewrite Htv. by eexists.
  - intros Hx. unfold AuthMiddleware.authenticate, AuthMiddleware.authenticate_token_only, mbind,
      M_bind, gets, lift. rewrite Hx. fold w. rewrite Htv.
    pose proof (require_active_spec (standing (db w)) cache_ttl (TokenClaims.user_id c) i) as Hr.
    destruct (AuthorizationService.require_active _ _ i) as [[]]; [|by do 2 eexists].
    destruct Hr as [_ Hr]; [|].
    { split; [done|]. split; [by split|]. intros what. fold w. rewrite Hf. apply not_elem_of_nil. }
    rewrite Hu in Hr. simpl in Hr. unfold db_banned in Hr. rewrite Hrow in Hr. simpl in Hr.
    by rewrite Hban in Hr.
Qed.

(** ** An instance with an administrator, evaluated *)

Module AdminSample.
Definition account (name role : string) : UserRow.t :=
  UserRow.mk name (name +:+ "@example.com") "correct-horse" None None None role None None None 0 0.
Definition world : World :=
  mkWorld (set_users (list_to_map [(1, account "ann" "admin"); (2, account "bob" "user")]) empty_db)
    (λ _, 3) 1000000 [] [] ∅ [].
Definition instance : Instance_ InMemoryCacheStore.t :=
  mkInstance world InMemoryCacheStore.empty 0 [] 0 0 (λ _, true).
Definition env (seconds : N) : Env :=
  {| env_elapsed := seconds * 1000000000; env_now := 1000000; env_faults := [] |}.
Definition text : PgText := {| ilike := String.eqb; varchar := λ _ s, Some s |}.
(** A token is the name of its account. *)
Definition tokens : TokenService := {|
  issue_pair a r t u name := TokenPair.mk name name 900 1209600;
  token_verify t tok ty :=
    if String.eqb tok "ann" then Ok (TokenClaims.mk 1 "ann" ty 0 0)
    else if String.eqb tok "bob" then Ok (TokenClaims.mk 2 "bob" ty 0 0)
    else Err (AuthenticationException "Invalid token" "") |}.
Definition request (name : string) : AdminController.Request :=
  {| AdminController.authorization := "Bearer " +:+ name;
     AdminController.req_body := ""; AdminController.params := λ _, None |}.
Definition empty_object : JsonText := {| json_parse := λ _, Some (jobj []); json_dump := λ _, "" |}.

(** The usual request of bob, which caches that he is not suspended; then the
    ban; then time passes and somebody signs in. *)
Definition before : list (Env * Step) :=
  [(env 0, SRequest "Bearer bob"); (env 1, SRole 1)].
Definition after : list (Env * Step) :=
  [(env 5, SService (CAccount (GetById 2))); (env 40, SPurge)].
Definition banned : result exn response * Instance_ InMemoryCacheStore.t :=
  AdminController.ban (H0:=tokens) (H1:=text) (H2:=empty_object) 30 (request "ann") 2
    (enter (env 2) (traffic (H0:=AccountSample.hasher) (H1:=AccountSample.violations)
       (H2:=SessionSample.sha) (H3:=SystemSample.images) (T:=tokens) (H4:=text)
       (H5:=empty_object) "/data" SystemSample.options 60 30 before instance)).
End AdminSample.

Lemma sample_accounts_ok : accounts_ok (db AdminSample.world) (seqs AdminSample.world).
Proof.
  assert (∀ i r, users (db AdminSample.world) !! i = Some r →
    (i = 1 ∧ r = AdminSample.account "ann" "admin") ∨ (i = 2 ∧ r = AdminSample.account "bob" "user")) as Hc.
  { intros i r Hr. apply (elem_of_list_to_map_2 (M:=gmap Z)) in Hr.
    rewrite !elem_of_cons, elem_of_nil in Hr. naive_solver. }
  split_and!; intros i; intros *; intros Hi; destruct (Hc _ _ Hi) as [[-> ->]|[-> ->]];
    try (by split); try done; intros Hj; destruct (Hc _ _ Hj) as [[-> ->]|[-> ->]]; done.
Qed.

Lemma env_clean n : clean (AdminSample.env n).
Proof. intros what. apply not_elem_of_nil. Qed.

Lemma decisions_follow_database_witness :
  let i := enter (AdminSample.env 3) AdminSample.banned.2 in
  (AuthorizationService.is_banned 30 2 i).1 = Ok true ∧
  db_banned (db (i_world i)) 2 = true.
Proof.
  set (xs := (AdminSample.before ++ [(AdminSample.env 2, SBan (AdminSample.request "ann") 2)])%list).
  pose proof (decisions_follow_database (Store:=InMemoryCacheStore.t)
    (L:=InMemoryFacts.in_memory_laws) (H0:=AccountSample.hasher) (H1:=AccountSample.violations)
    (H2:=SessionSample.sha) (H3:=SystemSample.images) (T:=AdminSample.tokens)
    (H4:=AdminSample.text) (H5:=AdminSample.empty_object) "/data" SystemSample.options 60 30 xs
    AdminSample.instance (AdminSample.env 3) sample_accounts_ok) as (Hb & _); [reflexivity| |apply env_clean|].
  { repeat constructor; apply env_clean. }
  intros i. assert ((AuthorizationService.is_banned 30 2 i).1 = Ok true) as E by (vm_compute; reflexivity).
  split; [exact E|]. destruct (AuthorizationService.is_banned 30 2 i) as [r i'] eqn:R. cbn [fst] in E.
  rewrite E in R. symmetry. exact (Hb 2 true i' R).
Defined.


Lemma suspension_race_witness :
  let i1 := (AuthorizationService.query_ban 2 AdminSample.instance).2 in
  let i2 := (in_world (PgUserAdminRepository.set_banned (H:=AdminSample.text) 2 true None (Some 1)) i1).2 in
  let i4 := (AuthorizationService.remember_ban 30 2 false (AuthorizationService.invalidate 2 i2).2).2 in
  db_banned (db (i_world i4)) 2 = true ∧
  ∃ i', AuthorizationService.require_active 30 2 (enter (AdminSample.env 29) i4) = (Ok (), i').
Proof.
  intros i1 i2 i4.
  apply (suspension_race (Store:=InMemoryCacheStore.t) (L:=InMemoryFacts.in_memory_laws)
    (H0:=AdminSample.text) 30 2 None (Some 1) AdminSample.instance i1 i2 (AdminSample.env 29)).
  - reflexivity.
  - reflexivity.
  - reflexivity.
Defined.

(** Bob, suspended by Ann, in a table of his own. *)
Definition suspended_bob : UserRow.t :=
  PgUserAdminRepository.with_ban (Some 5) None (Some 1) 5 (AdminSample.account "bob" "user").
Definition suspended_instance : Instance_ InMemoryCacheStore.t :=
  mkInstance (mkWorld (set_users {[2 := suspended_bob]} empty_db) (λ _, 3) 1000000 [] [] ∅ [])
    InMemoryCacheStore.empty 0 [] 0 0 (λ _, true).

Lemma suspended_settled :
  settled (standing (db (i_world suspended_instance))) suspended_instance.
Proof.
  split; [intros u; split; intros v; discriminate|]. split; [|done].
  assert (∀ i r, users (db (i_world suspended_instance)) !! i = Some r → i = 2 ∧ r = suspended_bob) as Hc.
  { intros i r Hr. change (({[2 := suspended_bob]} : gmap Z UserRow.t) !! i = Some r) in Hr.
    by apply lookup_singleton_Some in Hr as [<- <-]. }
  split_and!; intros i; intros *; intros Hi; destruct (Hc _ _ Hi) as [-> ->];
    try (by split); try done; intros Hj; by destruct (Hc _ _ Hj) as [-> ->].
Qed.

Lemma suspended_account_opens_socket_witness :
  let w := i_world suspended_instance in
  ∃ resp, AuthService.login (H:=AccountSample.hasher) (H1:=AccountSample.tokens) "x" "y"
            {| login_identifier := "bob"; login_password := "correct-horse" |} w = (Ok resp, w) ∧
    ∃ ctx, WebSocketController.authenticate (H:=AccountSample.tokens) 1000000000
             (Some (TokenPair.access_token (AuthResponse.tokens resp))) "" None = Some ctx ∧
           WebSocketController.ctx_user_id ctx = 2.
Proof.
  intros w.
  destruct (suspended_account_opens_socket (Store:=InMemoryCacheStore.t)
    (L:=InMemoryFacts.in_memory_laws) (H0:=AccountSample.hasher) (H1:=AccountSample.violations)
    (T:=AccountSample.tokens)
    (TokenServiceLaws0:=JwtFacts.jwt_token_service_laws (J:=PlainJwt.plain_jwt) PlainJwt.options)
    30 2 5 "x" "y" "bob" "correct-horse" "" suspended_bob suspended_instance suspended_settled)
    as (resp & Hl & Hs & _).
  - reflexivity.
  - reflexivity.
  - reflexivity.
  - reflexivity.
  - discriminate.
  - reflexivity.
  - left. reflexivity.
  - discriminate.
  - discriminate.
  - reflexivity.
  - exists resp. split; [exact Hl|exact Hs].
Defined.
