(* ===== verification/Cluster.v ===== *)
(** * Cluster: the bus between instances

    Models src/realtime/redis_cluster_bus.cpp (as compiled with Redis),
    src/realtime/cluster_bus.cpp, include/rtc/realtime/cluster_trace.hpp,
    cluster_invalidation.hpp and the handlers that the composition root and the
    connection manager register, and the subscriber thread.  Redis itself and its
    client library are not modelled: publishing gives the text that goes on a
    channel, or fails, every subscribed instance is handed that text, and what
    wakes the thread is an argument. *)

From S2P Require Import Prelude Text Json Errors TimeUtil Events Config Tracing Jobs.
From S2P Require Import Database Protocol Connections Cache Authorization.
Open Scope string_scope.
Open Scope Z_scope.

(** ** Identity *)

(* src/realtime/cluster_bus.cpp:8-20, make_node_id *)
Definition make_node_id (env : Env) (r : Random.t) : string :=
  match Config.present env "RTC_NODE_ID" with
  | Some configured => configured
  | None =>
      match Config.present env "HOSTNAME" with
      | Some hostname => hostname
      | None => "node-" +:+ (Random.generate_hex_token 6 r).1
      end
  end.

(** ** Trace context on the wire *)

Module ClusterTrace.
(* include/rtc/realtime/cluster_trace.hpp:39-39, kTraceParentKey *)
Definition kTraceParentKey : string := "_traceparent".

(* include/rtc/realtime/cluster_trace.hpp:46-52, stamp *)
Definition stamp (current : option SpanContext.t) (envelope : json) : json :=
  match current with
  | Some context =>
      if SpanContext.is_valid context
      then jset kTraceParentKey (JStr (format_traceparent context)) envelope else envelope
  | None => envelope
  end.

(* include/rtc/realtime/cluster_trace.hpp:55-65, extract *)
Definition extract (envelope : json) : option SpanContext.t :=
  match find envelope kTraceParentKey with
  | Some (JStr text) => parse_traceparent text
  | _ => None
  end.

(** The context in which a handler runs on a thread whose context is
    [current]. *)
(* include/rtc/realtime/cluster_trace.hpp:71-91, RemoteScope *)
Definition remote_scope (envelope : json) (current : option SpanContext.t) : option SpanContext.t :=
  match extract envelope with
  | Some context => if SpanContext.is_valid context then Some context else current
  | None => current
  end.
End ClusterTrace.

(** ** The bus *)

Module RedisClusterBus.
Section Bus.
Context `{JsonText} {N : Type}.

(** A handler is given the origin, the body and, through its thread, the active
    span context; it acts on the instance [N] and may throw. *)
Definition Handler : Type := string → json → option SpanContext.t → M N exn unit.

(* src/realtime/redis_cluster_bus.cpp:129-138, RedisClusterBus::Impl *)
Record t := mk {
  node_id : string; handlers : gmap string Handler; published : Z; received : Z }.

(* src/realtime/redis_cluster_bus.cpp:28-28, kOriginKey *)
Definition kOriginKey : string := "_node".

(* src/realtime/redis_cluster_bus.cpp:141-142, RedisClusterBus::RedisClusterBus *)
Definition make (node_id : string) : t := mk node_id ∅ 0 0.

(* src/realtime/redis_cluster_bus.cpp:171-174, RedisClusterBus::subscribe *)
Definition subscribe (channel : string) (handler : Handler) (b : t) : t :=
  mk (node_id b) (<[channel := handler]> (handlers b)) (published b) (received b).

(** The stamped body.  [operator[]] makes an object of a null and throws on
    anything else that is not one. *)
Definition stamped (b : t) (current : option SpanContext.t) (body : json) : option json :=
  match body with
  | JObj _ => Some (ClusterTrace.stamp current (jset kOriginKey (JStr (node_id b)) body))
  | JNull => Some (ClusterTrace.stamp current (jset kOriginKey (JStr (node_id b)) (jobj [])))
  | _ => None
  end.

(** The text put on the channel, if one was; [redis_ok] is false when the
    client throws. *)
(* src/realtime/redis_cluster_bus.cpp:152-169, RedisClusterBus::publish *)
Definition publish (redis_ok : bool) (current : option SpanContext.t) (channel : string) (body : json)
    (b : t) : option (string * string) * t :=
  match stamped b current body with
  | None => (None, b)
  | Some j =>
      if redis_ok
      then (Some (channel, json_dump j),
            mk (node_id b) (handlers b) (BackgroundExecutor.counter (published b + 1)) (received b))
      else (None, b)
  end.

(* src/realtime/redis_cluster_bus.cpp:93-127, RedisClusterBus::Impl::deliver *)
Definition deliver (channel message : string) (b : t) (n : N) : t * N :=
  match json_parse message with
  | None => (b, n)
  | Some body =>
      if negb (is_object body) then (b, n)
      else
        let origin := match find body kOriginKey with Some (JStr s) => s | _ => "" end in
        if String.eqb origin (node_id b) then (b, n)
        else
          match handlers b !! channel with
          | None => (b, n)
          | Some handler =>
              let b' := mk (node_id b) (handlers b) (published b)
                          (BackgroundExecutor.counter (received b + 1)) in
              (b', (handler origin body (ClusterTrace.remote_scope body None) n).2)
          end
  end.

(** *** The subscriber thread

    Where the thread of [run] is: connecting, blocked in [consume()] with the
    channels it subscribed to, in the pause before the next attempt, or out of
    its loop. *)
Inductive Phase := Connecting | Consuming (channels : gset string) | Pausing | Ended.

(** What wakes it: the subscriptions are in place, a message or a timeout comes
    out of [consume()], the client threw, or the pause is over. *)
Inductive Wake := Subscribed | Received (channel message : string) | TimedOut | Failed | Paused.

Record Reader := mkReader { phase : Phase; backoff : Z; pauses : list Z }.

(* src/realtime/redis_cluster_bus.cpp:46-46, kMaxBackoff *)
Definition kMaxBackoff : Z := 5000.

(** The thread as it enters [run]. *)
Definition entered : Reader := mkReader Connecting 200 [].

(** The flag and the thread. *)
Record Subscriber := mkSubscriber { running : bool; reader : option Reader }.

(* src/realtime/redis_cluster_bus.cpp:176-181, RedisClusterBus::start *)
Definition start (s : Subscriber) : Subscriber := if running s then s else mkSubscriber true (Some entered).

(** [stop] clears the flag, and returns when the thread has left its loop: *)
(* src/realtime/redis_cluster_bus.cpp:183-186, RedisClusterBus::stop *)
Definition stop (s : Subscriber) : Subscriber := mkSubscriber false (reader s).
(* src/realtime/redis_cluster_bus.cpp:187-189, RedisClusterBus::stop (join) *)
Definition stop_joined (s : Subscriber) : option Subscriber :=
  match reader s with
  | None => Some s
  | Some r => match phase r with Ended => Some (mkSubscriber (running s) None) | _ => None end
  end.

(** The test of a loop. *)
Definition again (running : bool) (next : Phase) : Phase := if running then next else Ended.

(** One turn of the thread under the flag.  A channel
    nobody was subscribed to brings no messages. *)
(* src/realtime/redis_cluster_bus.cpp:42-91, RedisClusterBus::Impl::run *)
Definition run (running : bool) (wake : Wake) (r : Reader) (b : t) (n : N) : Reader * t * N :=
  match phase r, wake with
  | Connecting, Subscribed =>
      (mkReader (again running (Consuming (dom (handlers b)))) 200 (pauses r), b, n)
  | Consuming channels, Received channel message =>
      if decide (channel ∈ channels)
      then let '(b, n) := deliver channel message b n in
           (mkReader (again running (Consuming channels)) (backoff r) (pauses r), b, n)
      else (r, b, n)
  | Consuming channels, TimedOut => (mkReader (again running (Consuming channels)) (backoff r) (pauses r), b, n)
  | Connecting, Failed | Consuming _, Failed =>
      if negb running then (mkReader Ended (backoff r) (pauses r), b, n)
      else (mkReader Pausing (backoff r) (pauses r ++ [backoff r]), b, n)
  | Pausing, Paused =>
      (mkReader (again running Connecting) (Z.min (backoff r * 2) kMaxBackoff) (pauses r), b, n)
  | _, _ => (r, b, n)
  end.

(** The wakes that can come in a phase. *)
Definition can_wake (wake : Wake) (r : Reader) : bool :=
  match phase r, wake with
  | Connecting, (Subscribed | Failed) | Consuming _, (TimedOut | Failed) | Pausing, Paused => true
  | Consuming channels, Received channel _ => bool_decide (channel ∈ channels)
  | _, _ => false
  end.

Definition turn (wake : Wake) (s : Subscriber) (b : t) (n : N) : Subscriber * t * N :=
  match reader s with
  | Some r => let '(r, b, n) := run (running s) wake r b n in (mkSubscriber (running s) (Some r), b, n)
  | None => (s, b, n)
  end.

(** The thread over a sequence of wakes while the flag is set. *)
Definition runs (wakes : list Wake) (s : Reader * t * N) : Reader * t * N :=
  foldl (λ s wake, let '(r, b, n) := s in run true wake r b n) s wakes.
End Bus.
Arguments t N : clear implicits.
Arguments Handler N : clear implicits.

Section ReaderFacts.
Context `{JsonText} {N : Type}.
Implicit Types (b : t N) (n : N).

Definition paced (r : Reader) : Prop :=
  200 <= backoff r <= kMaxBackoff ∧ Forall (λ w, 200 <= w <= kMaxBackoff) (pauses r).

Lemma run_paced running wake r b n : paced r → paced (run running wake r b n).1.1.
Proof.
  unfold paced, kMaxBackoff. intros [Hb Hw]. unfold run.
  destruct (phase r), wake; cbn; try done; try (split; [cbn; lia|done]).
  - destruct running; cbn; (split; [done|]); [|done]. apply Forall_app. split; [done|]. by constructor.
  - case_decide; [|done]. by destruct (deliver channel message b n).
  - destruct running; cbn; (split; [done|]); [|done]. apply Forall_app. split; [done|]. by constructor.
  - unfold kMaxBackoff. split; [lia|done].
Qed.

(** Every pause before a reconnect is between 200 ms and five seconds. *)
Lemma pauses_bounded wakes b n :
  Forall (λ w, 200 <= w <= kMaxBackoff) (pauses (runs wakes (entered, b, n)).1.1).
Proof.
  assert (Hs : paced (entered, b, n).1.1) by (split; [cbn; unfold kMaxBackoff; lia|constructor]).
  revert Hs. generalize (entered, b, n). induction wakes as [|w wakes IH]; intros s Hs; [by destruct Hs|].
  cbn. apply IH. destruct s as [[r b'] n']. by apply run_paced.
Qed.

(** Once the flag is cleared the thread handles at most one more message: the
    next wake, whatever it is, ends it, and [stop] returns.  Until one comes
    [stop] waits. *)
Lemma stop_ends wake r b n :
  can_wake wake r = true → phase (run false wake r b n).1.1 = Ended.
Proof.
  unfold can_wake, run. destruct (phase r), wake; try done. intros Hc%bool_decide_eq_true.
  rewrite decide_True by done. by destruct (deliver channel message b n).
Qed.

Lemma stop_joins wake r s b n :
  reader s = Some r → phase r ≠ Ended → can_wake wake r = true →
  stop_joined (stop s) = None ∧ is_Some (stop_joined (turn wake (stop s) b n).1.1).
Proof.
  intros Hr Hp Hc. unfold stop_joined, turn, stop. cbn. rewrite Hr. split; [by destruct (phase r)|].
  pose proof (stop_ends wake r b n Hc) as He. destruct (run false wake r b n) as [[r' b'] n']. cbn in *. by rewrite He.
Qed.

(** A handler registered while the thread is connected hears nothing before the
    next reconnect. *)
Lemma late_handler_unheard channel message handler channels r b n :
  phase r = Consuming channels → channels = dom (handlers b) → handlers b !! channel = None →
  run true (Received channel message) r (subscribe channel handler b) n = (r, subscribe channel handler b, n).
Proof.
  intros Hp -> Hn. unfold run. rewrite Hp. rewrite decide_False; [done|]. by apply not_elem_of_dom.
Qed.

(** A connection that is lost is made again, with every channel that has a
    handler by then. *)
Lemma reconnects r channels b n :
  phase r = Consuming channels →
  phase (runs [Failed; Paused; Subscribed] (r, b, n)).1.1 = Consuming (dom (handlers b)) ∧
  (runs [Failed; Paused; Subscribed] (r, b, n)).1.2 = b ∧ (runs [Failed; Paused; Subscribed] (r, b, n)).2 = n.
Proof. intros Hp. unfold runs. cbn [foldl]. unfold run. by rewrite Hp. Qed.

(** The messages of a connected thread are delivered in their order. *)
Lemma messages_in_order messages r channels b n :
  phase r = Consuming channels → Forall (λ m, m.1 ∈ channels) messages →
  runs ((λ m, Received m.1 m.2) <$> messages) (r, b, n) =
    let '(b', n') := foldl (λ s m, deliver m.1 m.2 s.1 s.2) (b, n) messages in (r, b', n').
Proof.
  intros Hp. revert b n. induction messages as [|m messages IH]; intros b n Hm; [done|].
  apply Forall_cons in Hm as [Hm Hms]. cbn. unfold run at 2. rewrite Hp, decide_True by done.
  destruct (deliver m.1 m.2 b n) as [b' n'] eqn:Hd. cbn.
  assert (Hr : mkReader (Consuming channels) (backoff r) (pauses r) = r) by (destruct r; cbn in *; by subst).
  rewrite Hr. by apply IH.
Qed.
End ReaderFacts.
End RedisClusterBus.

(** ** The instance's handlers *)

Section Handlers.
Context `{JsonText} (now : TimePoint).

(* src/realtime/connection_manager.cpp:60-97, ConnectionManager::set_cluster_bus *)
Definition set_cluster_bus (b : RedisClusterBus.t ConnectionManager.t)
    : RedisClusterBus.t ConnectionManager.t :=
  RedisClusterBus.subscribe ClusterChannels.kRoomBroadcast
    (λ _ body _, modify (ConnectionManager.on_room_broadcast now body))
    (RedisClusterBus.subscribe ClusterChannels.kUserBroadcast
       (λ _ body _, modify (ConnectionManager.on_user_broadcast now body)) b).
End Handlers.

(** [std::stoll]: leading blanks, a sign, and at least one digit; what follows
    the digits is ignored. *)
Definition stoll (s : string) : option Z :=
  let s := drop_while isspace s in
  let '(negative, body) :=
    match s with
    | String c r => if code c =? 45 then (true, r) else if code c =? 43 then (false, r) else (false, s)
    | "" => (false, s)
    end in
  match (span isdigit body).1 with
  | "" => None
  | ds =>
      let v := if (negative : bool) then - digits_value 0 ds else digits_value 0 ds in
      if in_int64 v then Some v else None
  end.

Section Invalidation.
Context {S : Type} `{CacheStore S}.

(* src/application.cpp:232-254, Application::wire_cluster_invalidation *)
Definition on_invalidation (event : InvalidationEvent.t) : M (Instance_ S) exn unit :=
  if String.eqb (InvalidationEvent.scope event) InvalidationEvent.kAuthorization
  then match stoll (InvalidationEvent.key event) with
       | Some user_id => λ i, (Ok (), (AuthorizationService.invalidate_local user_id i).2)
       | None => mret ()
       end
  else if String.eqb (InvalidationEvent.scope event) InvalidationEvent.kNamespacedKey
  then in_store (λ now, store_del now
         (CacheService.make_key (InvalidationEvent.key event) (InvalidationEvent.sub_key event)));;
       mret ()
  else mret ().

(* include/rtc/realtime/cluster_invalidation.hpp:51-58, subscribe_to_invalidations *)
Definition subscribe_to_invalidations (b : RedisClusterBus.t (Instance_ S)) : RedisClusterBus.t (Instance_ S) :=
  RedisClusterBus.subscribe ClusterChannels.kCacheInvalidate
    (λ _ body _, on_invalidation (InvalidationEvent.from_json body)) b.

(* include/rtc/realtime/cluster_invalidation.hpp:28-34, ClusterInvalidationPublisher::publish_invalidation *)
Definition publish_invalidation `{JsonText} (redis_ok : bool) (current : option SpanContext.t)
    (event : InvalidationEvent.t) (b : RedisClusterBus.t (Instance_ S)) :=
  RedisClusterBus.publish redis_ok current ClusterChannels.kCacheInvalidate
    (InvalidationEvent.to_json event) b.
End Invalidation.

(** ** One broadcast, each instance once *)

Section Broadcast.
Context `{JsonText} (now : TimePoint).

Lemma stamp_object current j : is_object j = true → is_object (ClusterTrace.stamp current j) = true.
Proof.
  intros Hj. unfold ClusterTrace.stamp. destruct current as [c|]; [|done].
  destruct (SpanContext.is_valid c); [|done]. by destruct j.
Qed.

Lemma find_stamp current j k :
  is_object j = true → k ≠ ClusterTrace.kTraceParentKey → find (ClusterTrace.stamp current j) k = find j k.
Proof.
  intros Hj Hk. unfold ClusterTrace.stamp. destruct current as [c|]; [|done].
  destruct (SpanContext.is_valid c); [|done]. by rewrite find_jset, decide_False.
Qed.

(** The stamped body has the members of the body, and the origin. *)
Lemma stamped_find {N} (b : RedisClusterBus.t N) current body j k :
  is_object body = true → RedisClusterBus.stamped b current body = Some j →
  is_object j = true ∧ find j RedisClusterBus.kOriginKey = Some (JStr (RedisClusterBus.node_id b)) ∧
  (k ≠ RedisClusterBus.kOriginKey → k ≠ ClusterTrace.kTraceParentKey → find j k = find body k).
Proof.
  intros Hb. destruct body as [| | | | | |m]; try done. intros [= <-].
  split_and!; [by apply stamp_object|rewrite find_stamp by done; by apply lookup_insert_eq|].
  intros H1 H2. rewrite find_stamp by done. by apply lookup_insert_ne.
Qed.

(** The publisher's context arrives, without the vendor state. *)
Lemma extract_stamp c j :
  is_object j = true → wire_ok c = true →
  ClusterTrace.extract (ClusterTrace.stamp (Some c) j)
  = Some (SpanContext.mk (SpanContext.trace_id c) (SpanContext.span_id c) (SpanContext.sampled c) "").
Proof.
  intros Hj Hc. pose proof Hc as Hv. unfold wire_ok in Hv. apply andb_true_iff in Hv as [_ Hv].
  unfold ClusterTrace.extract, ClusterTrace.stamp. rewrite Hv, find_jset, decide_True by done.
  by apply parse_format.
Qed.

(** A handler of a stamped body runs in the publisher's context. *)
Lemma stamped_context {N} (b : RedisClusterBus.t N) c body j :
  is_object body = true → RedisClusterBus.stamped b (Some c) body = Some j → wire_ok c = true →
  ClusterTrace.remote_scope j None
  = Some (SpanContext.mk (SpanContext.trace_id c) (SpanContext.span_id c) (SpanContext.sampled c) "").
Proof.
  intros Hb Hj Hc. pose proof Hc as Hv. unfold wire_ok in Hv. apply andb_true_iff in Hv as [_ Hv].
  destruct body as [| | | | | |o]; try done. apply (inj Some) in Hj as <-.
  unfold ClusterTrace.remote_scope. rewrite extract_stamp by done.
  change (SpanContext.is_valid _) with (SpanContext.is_valid c). by rewrite Hv.
Qed.

Lemma int_vector_ints ids :
  Forall (λ i, int64_min <= i <= int64_max) ids → ConnectionManager.int_vector (JInt <$> ids) = Some ids.
Proof.
  intros Hall. apply mapM_Some, Forall2_fmap_l, Forall_Forall2_diag.
  eapply Forall_impl; [exact Hall|]. intros i Hi. simpl. by rewrite get_int64_id.
Qed.

(** What [ConnectionManager::publish] puts on the user channel. *)
Definition user_broadcast (ids : list Z) (type : string) (data : json) : json :=
  jobj [("event", JStr type); ("user_ids", JArr (JInt <$> ids)); ("data", data)].

Lemma on_user_broadcast_stamped {N} (b : RedisClusterBus.t N) current ids type data j m :
  Forall (λ i, int64_min <= i <= int64_max) ids →
  RedisClusterBus.stamped b current (user_broadcast ids type data) = Some j →
  ConnectionManager.on_user_broadcast now j m = ConnectionManager.deliver_local now ids type data m.
Proof.
  intros Hids Hj. unfold ConnectionManager.on_user_broadcast.
  destruct (stamped_find b current (user_broadcast ids type data) j "event" eq_refl Hj) as (_ & _ & ->); [|done..].
  destruct (stamped_find b current (user_broadcast ids type data) j "user_ids" eq_refl Hj) as (_ & _ & ->); [|done..].
  destruct (stamped_find b current (user_broadcast ids type data) j "data" eq_refl Hj) as (_ & _ & ->); [|done..].
  change (find (user_broadcast ids type data) "event") with (Some (JStr type)).
  change (find (user_broadcast ids type data) "user_ids") with (Some (JArr (JInt <$> ids))).
  change (find (user_broadcast ids type data) "data") with (Some data).
  cbv iota beta. by rewrite int_vector_ints.
Qed.

Lemma publish_clustered ids type data m :
  ConnectionManager.cluster m = true →
  ConnectionManager.publish now ids type data m
  = ConnectionManager.add_published (ClusterChannels.kUserBroadcast, user_broadcast ids type data)
      (ConnectionManager.deliver_local now ids type data m).
Proof.
  intros Hm. unfold ConnectionManager.publish.
  assert (Hk : ∀ l m, ConnectionManager.cluster (foldl (λ m uid, ConnectionManager.add_sent
    (ConnectionManager.send_to_sessions now (SessionManager.sessions_for_user uid (ConnectionManager.sessions m))
       type data Protocol.no_envelope nullptr) m) m l) = ConnectionManager.cluster m)
    by (induction l as [|u l IH]; intros m'; [done|]; simpl; by rewrite IH).
  unfold ConnectionManager.deliver_local at 1. by rewrite Hk, Hm.
Qed.
End Broadcast.

(** C19. A broadcast reaches every other instance once, and the publisher's own
    not a second time.  What an instance publishes for a list of users is,
    delivered by the bus to any instance that handles the channel, exactly the
    local delivery of that event to those users, in the publisher's trace; an
    instance with the publisher's node id drops it, whoever it is. *)
Theorem cluster_broadcast_once `{JsonText} (now : TimePoint) (current : option SpanContext.t)
    (ids : list Z) (type : string) (data : json)
    (a b : RedisClusterBus.t ConnectionManager.t) (ma m : ConnectionManager.t) (j : json) :
  ConnectionManager.cluster ma = true →
  Forall (λ i, int64_min <= i <= int64_max) ids →
  RedisClusterBus.stamped a current (user_broadcast ids type data) = Some j →
  json_parse (json_dump j) = Some j →
  ConnectionManager.publish now ids type data ma
  = ConnectionManager.add_published (ClusterChannels.kUserBroadcast, user_broadcast ids type data)
      (ConnectionManager.deliver_local now ids type data ma) ∧
  let '(wire, a') := RedisClusterBus.publish true current ClusterChannels.kUserBroadcast
                       (user_broadcast ids type data) a in
  wire = Some (ClusterChannels.kUserBroadcast, json_dump j) ∧
  RedisClusterBus.published a' = BackgroundExecutor.counter (RedisClusterBus.published a + 1) ∧
  let '(b', m') := RedisClusterBus.deliver ClusterChannels.kUserBroadcast (json_dump j)
                     (set_cluster_bus now b) m in
  (if String.eqb (RedisClusterBus.node_id a) (RedisClusterBus.node_id b)
   then m' = m ∧ RedisClusterBus.received b' = RedisClusterBus.received b
   else m' = ConnectionManager.deliver_local now ids type data m ∧
        RedisClusterBus.received b' = BackgroundExecutor.counter (RedisClusterBus.received b + 1)) ∧
  (∀ c, current = Some c → wire_ok c = true →
     ClusterTrace.remote_scope j None
     = Some (SpanContext.mk (SpanContext.trace_id c) (SpanContext.span_id c) (SpanContext.sampled c) "")).
Proof.
  intros Hc Hids Hj Hparse. split; [by apply publish_clustered|]. unfold RedisClusterBus.publish. rewrite Hj.
  split_and!; [done..|].
  destruct (stamped_find a current (user_broadcast ids type data) j "" eq_refl Hj) as (Hobj & Horig & _).
  unfold RedisClusterBus.deliver. rewrite Hparse, Hobj, Horig. simpl negb. cbv iota zeta.
  simpl RedisClusterBus.node_id.
  assert (Htrace : ∀ c, current = Some c → wire_ok c = true → ClusterTrace.remote_scope j None
    = Some (SpanContext.mk (SpanContext.trace_id c) (SpanContext.span_id c) (SpanContext.sampled c) ""))
    by (intros c -> ?; by apply (stamped_context a c (user_broadcast ids type data))).
  destruct (String.eqb (RedisClusterBus.node_id a) (RedisClusterBus.node_id b)); [done|].
  unfold set_cluster_bus, RedisClusterBus.subscribe. cbn [RedisClusterBus.handlers].
  rewrite lookup_insert_ne, lookup_insert_eq by done. split_and!; [|done..]. cbn.
  by apply (on_user_broadcast_stamped now a current).
Qed.

(** Two processes of one host without a configured identity have the same one,
    so neither delivers what the other publishes. *)
Lemma same_host_same_identity env r r' host :
  Config.present env "RTC_NODE_ID" = None → Config.present env "HOSTNAME" = Some host →
  make_node_id env r = host ∧ make_node_id env r' = host.
Proof. intros H1 H2. unfold make_node_id. by rewrite H1, H2. Qed.

(** ** Invalidation notices *)

Lemma digits_stoll (negative : bool) ds :
  all_of isdigit ds = true → ds ≠ "" →
  stoll (if negative then String "-" ds else ds)
  = (let v := if negative then - digits_value 0 ds else digits_value 0 ds in
     if in_int64 v then Some v else None).
Proof.
  intros Hds Hne. destruct ds as [|c r]; [done|].
  assert (Hspan : span isdigit (String c r) = (String c r, ""))
    by (rewrite <- (append_nil_r (String c r)) at 1; by apply span_all).
  destruct negative; unfold stoll.
  { change (drop_while isspace (String "-" (String c r))) with (String "-" (String c r)).
    cbv iota beta zeta. change (code "-" =? 45) with true. cbv iota beta. by rewrite Hspan. }
  assert (Hc : isdigit c = true) by (simpl in Hds; by apply andb_true_iff in Hds as [? _]).
  unfold isdigit in Hc. apply in_range_spec in Hc. simpl drop_while.
  assert (isspace c = false) as ->.
  { unfold isspace, in_range. apply orb_false_iff. split; [apply Z.eqb_neq|apply andb_false_iff; right;
      apply Z.leb_gt]; lia. }
  assert ((code c =? 45) = false) as -> by (apply Z.eqb_neq; lia).
  assert ((code c =? 43) = false) as -> by (apply Z.eqb_neq; lia).
  by rewrite Hspan.
Qed.

Lemma stoll_to_string z : int64_min <= z <= int64_max → stoll (to_string z) = Some z.
Proof.
  intros Hz. assert (Hin : in_int64 z = true) by by apply in_range_spec.
  destruct (to_string_cases z) as [[Hs ->]|[Hs ->]].
  - rewrite (digits_stoll false) by (apply dec_N_digits || apply dec_N_nonempty).
    cbv zeta. by rewrite dec_N_value, Z2N.id, Hin by lia.
  - rewrite (digits_stoll true) by (apply dec_N_digits || apply dec_N_nonempty).
    cbv zeta. by rewrite dec_N_value, Z2N.id, Z.opp_involutive, Hin by lia.
Qed.

(** A role or ban change made by one instance is, on every instance that hears
    of it, the eviction that the changing instance made of its own cache. *)
Lemma heard_invalidation {S} `{CacheStore S} (user_id : Z) (i : Instance_ S) :
  int64_min <= user_id <= int64_max →
  (on_invalidation (InvalidationEvent.from_json (InvalidationEvent.to_json
     (InvalidationEvent.mk InvalidationEvent.kAuthorization (to_string user_id) ""))) i).2
  = (AuthorizationService.invalidate_local user_id i).2.
Proof.
  intros Hu. rewrite InvalidationEvent.from_to_json. unfold on_invalidation.
  cbn [InvalidationEvent.scope InvalidationEvent.key]. by rewrite stoll_to_string.
Qed.

(** ** Samples *)

Module ClusterSample.
(** Two instances, one of them with a session of user 7. *)
Definition node (name : string) : RedisClusterBus.t ConnectionManager.t := RedisClusterBus.make name.
Definition context : SpanContext.t :=
  SpanContext.mk "0af7651916cd43dd8448eb211c80319c" "b7ad6b7169203331" true "".
Definition body : json := user_broadcast [7] "message.new" (jobj [("id", JInt 1)]).
Definition wire : json :=
  ClusterTrace.stamp (Some context) (jset RedisClusterBus.kOriginKey (JStr "node-a") body).
(** A text format that knows one text. *)
Definition text : JsonText := Build_JsonText (λ _, Some wire) (λ _, "the broadcast").
Definition hub : ConnectionManager.t :=
  ConnectionManager.mk (SessionManager.add 1 7 "ann" Protocol.kV1 SessionManager.empty)
    RoomManager.empty true [] [].
End ClusterSample.

Lemma cluster_broadcast_once_witness :
  let t := ClusterSample.text in
  let ids := [7] in let a := ClusterSample.node "node-a" in let b := ClusterSample.node "node-b" in
  let m' := (RedisClusterBus.deliver ClusterChannels.kUserBroadcast (json_dump ClusterSample.wire)
               (set_cluster_bus 0 b) ClusterSample.hub).2 in
  ConnectionManager.sent m' = [(1, "the broadcast")] ∧
  m' = ConnectionManager.deliver_local 0 ids "message.new" (jobj [("id", JInt 1)]) ClusterSample.hub ∧
  ClusterTrace.remote_scope ClusterSample.wire None = Some ClusterSample.context.
Proof.
  intros t ids a b. cbv zeta. split; [vm_compute; reflexivity|].
  assert (Hids : Forall (λ i, int64_min <= i <= int64_max) ids) by (repeat constructor; vm_compute; discriminate).
  assert (Hw : RedisClusterBus.stamped a (Some ClusterSample.context)
                 (user_broadcast ids "message.new" (jobj [("id", JInt 1)])) = Some ClusterSample.wire)
    by (vm_compute; reflexivity).
  pose proof (@cluster_broadcast_once t 0 (Some ClusterSample.context) ids "message.new" (jobj [("id", JInt 1)])
    a b ClusterSample.hub ClusterSample.hub ClusterSample.wire eq_refl Hids Hw eq_refl)
    as (_ & _ & _ & Hd).
  destruct (RedisClusterBus.deliver _ _ _ _) as [b' m'].
  destruct Hd as [[Hm _] Hctx]. split; [exact Hm|]. by apply (Hctx ClusterSample.context eq_refl).
Defined.
