(* ===== verification/Search.v ===== *)
(** * Search: full-text search over the messages a user can see

    Models src/repositories/pg_message_search_repository.cpp,
    src/services/search_service.cpp and src/controllers/search_controller.cpp.
    Text matching, ranking, excerpts, trigram similarity and [to_timestamp]
    belong to PostgreSQL and are parameters ([FullText]).  The theorems show that
    the pages of a search enumerate exactly the visible matches, once each, best
    first, and that the fallback to similar messages also answers a page that
    lies past the last match. *)

From Stdlib Require Import QArith.
From S2P Require Import Prelude Text Json Errors TimeUtil Models Events Dto Database Users.
From S2P Require Import Samples Conversations ConversationInv ConversationProps Repositories Paging Tokens Protocol Cache Authorization.
Open Scope string_scope.
Open Scope Z_scope.

(** What the statements use of PostgreSQL, for the content of a message and a
    term: [search_vector @@ websearch_to_tsquery('english', term)], [ts_rank_cd],
    [ts_headline] and [similarity]; whether pg_trgm is installed; the library's
    JSON number for a double; and [to_timestamp]. *)
Class FullText := {
  ts_matches : string → string → bool;
  ts_rank_cd : string → string → Q;
  ts_headline : string → string → string;
  similarity : string → string → Q;
  trgm_installed : bool;
  json_double : Q → json;
  pg_time :: PgTime
}.

(* src/repositories/pg_message_search_repository.cpp:24-24, kFuzzySimilarityThreshold *)
Definition kFuzzySimilarityThreshold : Q := 5404319552844595 # 18014398509481984.

(** The repository of one instance: what the probe for pg_trgm found, and the
    world. *)
Record Searcher := mkSearcher { trgm : option bool; s_world : World }.

Definition at_world {A} (m : M World exn A) : M Searcher exn A := λ s,
  let '(r, w) := m (s_world s) in (r, mkSearcher (trgm s) w).

Module PgMessageSearchRepository.
(* include/rtc/repositories/message_search_repository.hpp:20-34, MessageSearchQuery *)
Record Query := mkQuery {
  term : string; conversation_id : option Z; sender_id : option Z;
  from_epoch : option Z; to_epoch : option Z; fuzzy : bool; highlight : bool }.

(* include/rtc/repositories/message_search_repository.hpp:37-45, MessageSearchHit *)
Record Hit := mkHit { message : Message.t; rank : Q; headline : string; fuzzy_match : bool }.

Section Repository.
Context `{FullText}.

(** A row of a result: the message, its rank and the two computed columns. *)
Definition Row : Type := (Z * MessageRow.t) * (Q * string * bool).

(* src/repositories/pg_message_search_repository.cpp:56-70, map_message *)
Definition map_message (kr : Z * MessageRow.t) : Message.t :=
  let '(id, r) := kr in
  Message.mk id (MessageRow.conversation_id r) (MessageRow.sender_id r)
    (default MessageType.kText (MessageType.from_string (MessageRow.type r)))
    (MessageRow.content r) (db_time (MessageRow.created_at r)) (db_time (MessageRow.updated_at r))
    (db_time <$> MessageRow.edited_at r) (db_time <$> MessageRow.deleted_at r).

(* src/repositories/pg_message_search_repository.cpp:166-176, PgMessageSearchRepository::search (rows) *)
Definition map_hit (row : Row) : Hit :=
  let '(kr, (rank, headline, fuzzy_match)) := row in mkHit (map_message kr) rank headline fuzzy_match.

(* src/repositories/pg_message_search_repository.cpp:73-96, PgMessageSearchRepository::fuzzy_available *)
Definition fuzzy_available : M Searcher exn bool := λ s,
  match trgm s with
  | Some available => (Ok available, s)
  | None =>
      let '(r, w) := with_transaction (mret trgm_installed) (s_world s) in
      let available := match r with Ok present => present | Err _ => false end in
      (Ok available, mkSearcher (Some available) w)
  end.

Definition is_for (wanted : option Z) (x : Z) : bool := match wanted with None => true | Some c => x =? c end.

(** The [WHERE] clause after the join. *)
Definition passes (query : Query) (from to : option Z) (r : MessageRow.t) : bool :=
  bool_decide (MessageRow.deleted_at r = None)
  && is_for (conversation_id query) (MessageRow.conversation_id r)
  && is_for (sender_id query) (MessageRow.sender_id r)
  && at_least from (MessageRow.created_at r) && at_most to (MessageRow.created_at r).

(** The rows of the join: a message once for each membership of the actor in its
    conversation. *)
(* src/repositories/pg_message_search_repository.cpp:40-48, kVisibilityAndFilters *)
Definition visible (actor_id : Z) (query : Query) (from to : option Z) (d : Database)
    : list (Z * MessageRow.t) :=
  m ← map_to_list (messages d);
  _ ← rows (PgConversationRepository.is_pair (MessageRow.conversation_id m.2) actor_id) (participants d);
  if passes query from to m.2 then [m] else [].

(* src/repositories/pg_message_search_repository.cpp:115-127, PgMessageSearchRepository::search (exact rows) *)
Definition exact_rows (actor_id : Z) (query : Query) (from to : option Z) (d : Database) : list Row :=
  (λ m : Z * MessageRow.t, (m,
     (ts_rank_cd (MessageRow.content m.2) (term query),
      if highlight query then ts_headline (MessageRow.content m.2) (term query) else "", false)))
  <$> base.filter (λ m, ts_matches (MessageRow.content m.2) (term query) = true)
        (visible actor_id query from to d).

(* src/repositories/pg_message_search_repository.cpp:145-152, PgMessageSearchRepository::search (similar rows) *)
Definition fuzzy_rows (actor_id : Z) (query : Query) (from to : option Z) (d : Database) : list Row :=
  (λ m : Z * MessageRow.t, (m,
     (similarity (MessageRow.content m.2) (term query),
      if highlight query then MessageRow.content m.2 else "", true)))
  <$> base.filter (λ m, Qle_bool kFuzzySimilarityThreshold (similarity (MessageRow.content m.2) (term query)) = true)
        (visible actor_id query from to d).

(** [ORDER BY rank DESC, m.id DESC]. *)
Definition best_first (a b : Row) : Prop :=
  (b.2.1.1 < a.2.1.1)%Q ∨ (b.2.1.1 == a.2.1.1)%Q ∧ b.1.1 <= a.1.1.
Global Instance best_first_dec a b : Decision (best_first a b).
Proof.
  unfold best_first. destruct (Qlt_le_dec b.2.1.1 a.2.1.1) as [?|?]; [left; by left|].
  destruct (Qeq_dec b.2.1.1 a.2.1.1) as [E|E], (Z_le_dec b.1.1 a.1.1) as [L|L].
  - left. by right.
  - right. intros [?|[? ?]]; [by apply Qle_not_lt in q|lia].
  - right. intros [?|[? ?]]; [by apply Qle_not_lt in q|done].
  - right. intros [?|[? ?]]; [by apply Qle_not_lt in q|done].
Defined.

(* src/repositories/pg_message_search_repository.cpp:98-178, PgMessageSearchRepository::search *)
Definition search (actor_id : Z) (query : Query) (page : Pagination.t) : M Searcher exn (list Hit) :=
  want_fuzzy ← (if fuzzy query then fuzzy_available else mret false);
  at_world (with_transaction (
    from ← lift (timestamp_param (from_epoch query));
    to ← lift (timestamp_param (to_epoch query));
    exact ← on_db (λ d, PgConversationRepository.limit_offset page
              (merge_sort best_first (exact_rows actor_id query from to d)));
    result ← (if bool_decide (exact = []) && want_fuzzy
              then on_db (λ d, PgConversationRepository.limit_offset page
                     (merge_sort best_first (fuzzy_rows actor_id query from to d)))
              else mret exact);
    mret (map_hit <$> result))).

(* src/repositories/pg_message_search_repository.cpp:180-197, PgMessageSearchRepository::count *)
Definition count (actor_id : Z) (query : Query) : M Searcher exn Z :=
  at_world (with_transaction (
    from ← lift (timestamp_param (from_epoch query));
    to ← lift (timestamp_param (to_epoch query));
    on_db (λ d, Z.of_nat (length (base.filter
      (λ m, ts_matches (MessageRow.content m.2) (term query) = true) (visible actor_id query from to d)))))).
End Repository.
End PgMessageSearchRepository.
Export PgMessageSearchRepository (Query, mkQuery, Hit, mkHit).

Module SearchService.
(* include/rtc/services/search_service.hpp:25-26, SearchService::kMinTermLength *)
Definition kMinTermLength : Z := 2.
Definition kMaxTermLength : Z := 256.

(** [" \t\r\n"]. *)
Definition is_blank (c : ascii) : bool :=
  (code c =? 32) || (code c =? 9) || (code c =? 13) || (code c =? 10).

(* src/services/search_service.cpp:12-19, trim *)
Definition trim (value : string) : string := drop_while_end is_blank (drop_while is_blank value).

(* src/services/search_service.cpp:23-36, SearchService::validate_term *)
Definition validate_term (raw : string) : result exn string :=
  let term := trim raw in
  if ssize term <? kMinTermLength
  then Err (ValidationException
         ("Search term must be at least " +:+ to_string kMinTermLength +:+ " characters") "field=q")
  else if kMaxTermLength <? ssize term
  then Err (ValidationException
         ("Search term must be at most " +:+ to_string kMaxTermLength +:+ " characters") "field=q")
  else Ok term.

Section Service.
Context `{FullText}.

(* src/services/search_service.cpp:50-61, SearchService::search_messages (results) *)
Definition hit_to_json (hit : Hit) : json :=
  let m := PgMessageSearchRepository.message hit in
  jobj [("message_id", JInt (Message.id m)); ("conversation_id", JInt (Message.conversation_id m));
        ("sender_id", JInt (Message.sender_id m)); ("content", JStr (Message.content m));
        ("created_at", JStr (to_iso8601 (Message.created_at m)));
        ("rank", json_double (PgMessageSearchRepository.rank hit));
        ("highlight", JStr (PgMessageSearchRepository.headline hit));
        ("fuzzy_match", JBool (PgMessageSearchRepository.fuzzy_match hit))].

Definition with_term (t : string) (q : Query) : Query :=
  mkQuery t (PgMessageSearchRepository.conversation_id q) (PgMessageSearchRepository.sender_id q)
    (PgMessageSearchRepository.from_epoch q) (PgMessageSearchRepository.to_epoch q)
    (PgMessageSearchRepository.fuzzy q) (PgMessageSearchRepository.highlight q).

(* src/services/search_service.cpp:38-75, SearchService::search_messages *)
Definition search_messages (flags : Features.flags) (actor_id : Z) (query : Query) (page : Pagination.t)
    : M Searcher exn json :=
  lift (Features.require Features.kSearch flags);;
  term ← lift (validate_term (PgMessageSearchRepository.term query));
  let normalised := with_term term query in
  hits ← PgMessageSearchRepository.search actor_id normalised page;
  total ← PgMessageSearchRepository.count actor_id normalised;
  available ← PgMessageSearchRepository.fuzzy_available;
  mret (jobj [("query", JStr term); ("total", JInt total);
    ("returned", JInt (Z.of_nat (length hits))); ("fuzzy_available", JBool available);
    ("limit", JInt (Pagination.limit page)); ("offset", JInt (Pagination.offset page));
    ("results", JArr (hit_to_json <$> hits))]).
End Service.
End SearchService.

(** The instance with the search repository's probe. *)
Record SearchHost (S : Type) := mkHost { host : Instance_ S; probe : option bool }.
Arguments mkHost {S}. Arguments host {S}. Arguments probe {S}.

Definition on_host {S A} (m : M (Instance_ S) exn A) : M (SearchHost S) exn A := λ h,
  let '(r, i) := m (host h) in (r, mkHost i (probe h)).
Definition on_searcher {S A} (m : M Searcher exn A) : M (SearchHost S) exn A := λ h,
  let '(r, s) := m (mkSearcher (probe h) (i_world (host h))) in
  (r, mkHost (set_world (s_world s) (host h)) (trgm s)).

Module SearchController.
Section Controller.
Context {S : Type} `{CacheStore S, TokenService, JsonText, FullText} (cache_ttl : Z).

(* src/controllers/search_controller.cpp:22-36, optional_int_param *)
Definition optional_int_param (params : url_params) (name : string) : result exn (option Z) :=
  match params name with
  | None => Ok None
  | Some text =>
      match parse_int64 text with
      | Some value => Ok (Some value)
      | None => Err (ValidationException ("Invalid integer for parameter: " +:+ name) ("field=" +:+ name))
      end
  end.

(* src/controllers/search_controller.cpp:39-46, bool_param *)
Definition bool_param (params : url_params) (name : string) (fallback : bool) : bool :=
  match params name with
  | None => fallback
  | Some text => String.eqb text "1" || String.eqb text "true" || String.eqb text "yes" || String.eqb text "on"
  end.

(* src/controllers/search_controller.cpp:48-55, required_string_param *)
Definition required_string_param (params : url_params) (name : string) : result exn string :=
  match params name with
  | None => Err (ValidationException ("Missing required parameter: " +:+ name) ("field=" +:+ name))
  | Some text => Ok text
  end.

(* src/controllers/search_controller.cpp:62-81, GET /search/messages *)
Definition get_messages (authorization : string) (params : url_params)
    : M (SearchHost S) exn response :=
  claims ← on_host (AuthMiddleware.authenticate cache_ttl authorization);
  term ← lift (required_string_param params "q");
  conversation_id ← lift (optional_int_param params "conversation_id");
  sender_id ← lift (optional_int_param params "sender_id");
  from_epoch ← lift (optional_int_param params "from");
  to_epoch ← lift (optional_int_param params "to");
  let query := mkQuery term conversation_id sender_id from_epoch to_epoch
                 (bool_param params "fuzzy" true) (bool_param params "highlight" true) in
  page ← lift (Pagination.from_request params);
  flags ← gets (λ h, i_flags (host h));
  body ← on_searcher (SearchService.search_messages flags (TokenClaims.user_id claims) query page);
  mret (json_response 200 body).
End Controller.
End SearchController.

(** ** The pages of a search *)

Section Facts.
Context `{FullText}.
Import PgMessageSearchRepository.

(** The best-first order is a total preorder, so sorting by it is sorting. *)
Global Instance best_first_total : Total best_first.
Proof.
  intros a b. unfold best_first. destruct (Q_dec a.2.1.1 b.2.1.1) as [[?|?]|E].
  - right. by left.
  - left. by left.
  - destruct (Z.le_ge_cases a.1.1 b.1.1); [right|left]; right; split; done.
Qed.
Global Instance best_first_trans : Transitive best_first.
Proof.
  intros a b c [H1|[E1 L1]] [H2|[E2 L2]]; unfold best_first in *.
  - left. by apply Qlt_trans with b.2.1.1.
  - left. by rewrite E2.
  - left. by rewrite <- E1.
  - right. split; [by rewrite E2|lia].
Qed.

(** The database has at most one membership row for a pair. *)
Lemma pair_rows d sq c u :
  conv_inv d sq → rows (PgConversationRepository.is_pair c u) (participants d) = [] ∨
  ∃ x, rows (PgConversationRepository.is_pair c u) (participants d) = [x].
Proof.
  intros Hinv. destruct (rows _ _) as [|[k r] [|[k' r'] l]] eqn:E; [by left|right; eauto|exfalso].
  assert (Hn : NoDup (rows (PgConversationRepository.is_pair c u) (participants d)).*1)
    by apply NoDup_fst_filter, NoDup_fst_map_to_list.
  assert (H1 : (k, r) ∈ rows (PgConversationRepository.is_pair c u) (participants d)) by (rewrite E; left).
  assert (H2 : (k', r') ∈ rows (PgConversationRepository.is_pair c u) (participants d)) by (rewrite E; right; left).
  rewrite E in Hn. apply NoDup_cons in Hn as [Hk _]. apply Hk. simpl.
  assert (k = k') as ->; [|left]. apply elem_of_rows in H1 as [H1 P1], H2 as [H2 P2].
  unfold PgConversationRepository.is_pair in P1, P2.
  apply andb_true_iff in P1 as [?%Z.eqb_eq ?%Z.eqb_eq], P2 as [?%Z.eqb_eq ?%Z.eqb_eq].
  apply (p_unique _ _ _ _ _ _ Hinv k k' c u (ParticipantRow.role r) (ParticipantRow.role r'));
    rewrite lookup_fmap, ?H1, ?H2; simpl; unfold pview; congruence.
Qed.

(** The join with the memberships is a filter. *)
Lemma visible_filter actor query from to d sq :
  conv_inv d sq →
  visible actor query from to d
  = base.filter (λ m, PgConversationRepository.is_member (MessageRow.conversation_id m.2) actor d
                      && passes query from to m.2 = true) (map_to_list (messages d)).
Proof.
  intros Hinv. unfold visible. induction (map_to_list (messages d)) as [|m l IH]; [done|].
  rewrite bind_cons, IH, filter_cons. unfold PgConversationRepository.is_member, any_row.
  destruct (pair_rows d sq (MessageRow.conversation_id m.2) actor Hinv) as [->|[x ->]]; [done|].
  change ([x] ≫= _) with ((if passes query from to m.2 then [m] else []) ++ [])%list.
  rewrite app_nil_r. cbn [andb]. by destruct (passes query from to m.2).
Qed.

(** What a search is about: the messages the actor may see that satisfy the
    query's restrictions, instants in seconds. *)
Definition searchable (actor : Z) (query : Query) (d : Database) (m : Z * MessageRow.t) : Prop :=
  messages d !! m.1 = Some m.2 ∧ MessageRow.deleted_at m.2 = None ∧
  PgConversationRepository.is_member (MessageRow.conversation_id m.2) actor d = true ∧
  (∀ c, conversation_id query = Some c → MessageRow.conversation_id m.2 = c) ∧
  (∀ u, sender_id query = Some u → MessageRow.sender_id m.2 = u) ∧
  (∀ e, from_epoch query = Some e → e * 1000000 <= MessageRow.created_at m.2) ∧
  (∀ e, to_epoch query = Some e → MessageRow.created_at m.2 <= e * 1000000).

Lemma is_for_spec o x : is_for o x = true ↔ ∀ c, o = Some c → x = c.
Proof. destruct o as [c|]; simpl; [rewrite Z.eqb_eq|]; naive_solver. Qed.

Lemma elem_of_visible actor query from to d sq m :
  conv_inv d sq → timestamp_param (from_epoch query) = Ok from → timestamp_param (to_epoch query) = Ok to →
  m ∈ visible actor query from to d ↔ searchable actor query d m.
Proof.
  intros Hinv ->%timestamp_param_spec ->%timestamp_param_spec. rewrite (visible_filter _ _ _ _ _ sq) by done.
  rewrite list_elem_of_filter, elem_of_map_to_list', andb_true_iff. unfold passes, searchable.
  rewrite !andb_true_iff, bool_decide_eq_true, !is_for_spec.
  destruct (from_epoch query), (to_epoch query); simpl; rewrite ?Z.leb_le; naive_solver.
Qed.

Lemma NoDup_visible actor query from to d sq : conv_inv d sq → NoDup (visible actor query from to d).
Proof.
  intros Hinv. rewrite (visible_filter _ _ _ _ _ sq) by done. apply NoDup_filter, NoDup_map_to_list.
Qed.

(** Every match, best first. *)
Definition ranked (actor : Z) (query : Query) (from to : option Z) (d : Database) : list Row :=
  merge_sort best_first (exact_rows actor query from to d).

Lemma ranked_messages actor query from to d :
  (ranked actor query from to d).*1
  ≡ₚ base.filter (λ m, ts_matches (MessageRow.content m.2) (term query) = true) (visible actor query from to d).
Proof.
  unfold ranked. rewrite merge_sort_Permutation. unfold exact_rows. rewrite <- list_fmap_compose.
  apply Permutation_refl', list_fmap_id.
Qed.

(** What the probe answers, when no connection fails. *)
Definition probed (s : Searcher) : bool := default trgm_installed (trgm s).

Lemma fuzzy_available_run s :
  faults (s_world s) = [] →
  ∃ s', fuzzy_available s = (Ok (probed s), s') ∧ s_world s' = s_world s ∧ trgm s' = Some (probed s).
Proof.
  intros Hf. unfold fuzzy_available, probed. destruct s as [[b|] w]; simpl in *; [by eexists|].
  rewrite (with_transaction_run _ w trgm_installed w) by done. simpl. by eexists.
Qed.

(** The rows of one page. *)
Definition page_rows (actor : Z) (query : Query) (page : Pagination.t) (from to : option Z) (want : bool)
    (d : Database) : list Row :=
  let exact := PgConversationRepository.limit_offset page (ranked actor query from to d) in
  if bool_decide (exact = []) && want
  then PgConversationRepository.limit_offset page (merge_sort best_first (fuzzy_rows actor query from to d))
  else exact.

Lemma search_run actor query page from to s :
  faults (s_world s) = [] →
  timestamp_param (from_epoch query) = Ok from → timestamp_param (to_epoch query) = Ok to →
  ∃ s', search actor query page s
        = (Ok (map_hit <$> page_rows actor query page from to (fuzzy query && probed s) (db (s_world s))), s') ∧
        s_world s' = s_world s ∧ probed s' = probed s.
Proof.
  intros Hf Hfrom Hto. unfold search.
  assert (Hw : ∃ s', (if fuzzy query then fuzzy_available else mret false) s = (Ok (fuzzy query && probed s), s') ∧
                     s_world s' = s_world s ∧ probed s' = probed s).
  { destruct (fuzzy query); [|by exists s]. destruct (fuzzy_available_run s Hf) as (s' & E & Hs & Ht).
    exists s'. split_and!; [done..|]. unfold probed at 1. by rewrite Ht. }
  destruct Hw as (s' & E & Hs & Hp). exists (mkSearcher (trgm s') (s_world s')). split_and!; [|done|exact Hp].
  unfold mbind at 1, M_bind at 1. rewrite E. unfold at_world. rewrite Hs.
  erewrite with_transaction_run; [reflexivity|done|]. rewrite Hfrom, Hto. unfold page_rows, ranked, mbind, M_bind.
  simpl. by destruct (bool_decide _ && _).
Qed.

Lemma count_run actor query from to s :
  faults (s_world s) = [] →
  timestamp_param (from_epoch query) = Ok from → timestamp_param (to_epoch query) = Ok to →
  (count actor query s).1 = Ok (Z.of_nat (length (ranked actor query from to (db (s_world s))))).
Proof.
  intros Hf Hfrom Hto. unfold count, at_world.
  erewrite with_transaction_run; [|done|rewrite Hfrom, Hto; reflexivity]. simpl. do 2 f_equal.
  rewrite <- (length_fmap fst (ranked _ _ _ _ _)). by rewrite ranked_messages.
Qed.

(** A client that asks for [n] pages of [limit] hits, from page [k] on. *)
Fixpoint fetch_pages (actor : Z) (query : Query) (limit k : Z) (n : nat) : M Searcher exn (list Hit) :=
  match n with
  | O => mret []
  | S n =>
      hits ← search actor query (Pagination.mk limit (k * limit) None None);
      rest ← fetch_pages actor query limit (k + 1) n;
      mret (hits ++ rest)%list
  end.

(** As long as there are matches left, a page is the next stretch of them. *)
Lemma page_rows_within actor query limit k from to want d :
  0 < limit → 0 <= k → k * limit < Z.of_nat (length (ranked actor query from to d)) →
  page_rows actor query (Pagination.mk limit (k * limit) None None) from to want d
  = take (Z.to_nat limit) (drop (Z.to_nat (k * limit)) (ranked actor query from to d)).
Proof.
  intros Hl Hk Hlen. unfold page_rows, PgConversationRepository.limit_offset. simpl.
  rewrite bool_decide_false; [done|]. intros E%(f_equal length). rewrite length_take, length_drop in E.
  simpl in E. lia.
Qed.

Lemma fetch_pages_run actor query limit from to n : ∀ k s,
  0 < limit → 0 <= k → faults (s_world s) = [] →
  timestamp_param (from_epoch query) = Ok from → timestamp_param (to_epoch query) = Ok to →
  let matches := ranked actor query from to (db (s_world s)) in
  (k + Z.of_nat n - 1) * limit < Z.of_nat (length matches) →
  (fetch_pages actor query limit k n s).1
  = Ok (map_hit <$> take (n * Z.to_nat limit) (drop (Z.to_nat (k * limit)) matches)).
Proof.
  induction n as [|n IH]; intros k s Hl Hk Hf Hfrom Hto matches Hlen; [done|].
  destruct (search_run actor query (Pagination.mk limit (k * limit) None None) from to s Hf Hfrom Hto)
    as (s' & E & Hs & _).
  rewrite page_rows_within in E by (unfold matches in Hlen; nia). fold matches in E.
  specialize (IH (k + 1) s'). rewrite Hs in IH. fold matches in IH.
  specialize (IH Hl ltac:(lia) Hf Hfrom Hto ltac:(simpl in *; lia)).
  cbn [fetch_pages]. unfold mbind at 1, M_bind at 1. rewrite E. unfold mbind, M_bind.
  destruct (fetch_pages actor query limit (k + 1) n s') as [[rest|e] s''] eqn:Er; simpl in IH; [|done].
  injection IH as ->. simpl. f_equal. rewrite <- fmap_app. f_equal.
  replace (Z.to_nat ((k + 1) * limit)) with (Z.to_nat (k * limit) + Z.to_nat limit)%nat by lia.
  rewrite <- drop_drop. apply take_take_drop.
Qed.
End Facts.

(** C36. The pages of a search are exactly what the user may find.  Asking for
    consecutive pages of a query, as many as the reported total fills, gives every
    message that matches the term, is not deleted, lies in a conversation the
    user participates in and satisfies the query's restrictions, each once and
    best rank first, whether or not similar messages may be returned; the total
    is their number. *)
Theorem search_pages_complete `{FullText} (actor : Z) (query : Query) (limit : Z) (n : nat)
    (from to : option Z) (s : Searcher) :
  faults (s_world s) = [] → conv_inv (db (s_world s)) (seqs (s_world s)) → 0 < limit →
  timestamp_param (PgMessageSearchRepository.from_epoch query) = Ok from →
  timestamp_param (PgMessageSearchRepository.to_epoch query) = Ok to →
  ∀ total, (PgMessageSearchRepository.count actor query s).1 = Ok total →
  (Z.of_nat n - 1) * limit < total <= Z.of_nat n * limit →
  ∃ matches,
    (fetch_pages actor query limit 0 n s).1 = Ok (PgMessageSearchRepository.map_hit <$> matches) ∧
    total = Z.of_nat (length matches) ∧
    NoDup matches.*1 ∧ StronglySorted PgMessageSearchRepository.best_first matches ∧
    ∀ m, m ∈ matches.*1 ↔
      searchable actor query (db (s_world s)) m ∧
      ts_matches (MessageRow.content m.2) (PgMessageSearchRepository.term query) = true.
Proof.
  intros Hf Hinv Hl Hfrom Hto total Ht Hn. rewrite (count_run _ _ from to) in Ht by done. injection Ht as <-.
  exists (ranked actor query from to (db (s_world s))). split_and!.
  - rewrite (fetch_pages_run _ _ _ from to) by (done || lia). rewrite Z.mul_0_l, drop_0, take_ge by lia. done.
  - done.
  - rewrite ranked_messages. by eapply NoDup_filter, NoDup_visible.
  - apply StronglySorted_merge_sort; apply _.
  - intros m. rewrite ranked_messages, list_elem_of_filter, (elem_of_visible _ _ _ _ _ _ _ Hinv Hfrom Hto). tauto.
Qed.

(** A page past the last match is filled with similar messages.  When
    similar messages may be returned and pg_trgm is installed, the page of a
    query whose offset is at or past the total is the same stretch of the
    similar messages, all marked as such, however many exact matches there are:
    a client that pages until it gets an empty page is given them after the exact
    matches. *)
Theorem fuzzy_past_the_end `{FullText} (actor : Z) (query : Query) (page : Pagination.t)
    (from to : option Z) (s : Searcher) :
  faults (s_world s) = [] → PgMessageSearchRepository.fuzzy query = true → probed s = true →
  timestamp_param (PgMessageSearchRepository.from_epoch query) = Ok from →
  timestamp_param (PgMessageSearchRepository.to_epoch query) = Ok to →
  ∀ total, (PgMessageSearchRepository.count actor query s).1 = Ok total →
  total <= Pagination.offset page →
  (PgMessageSearchRepository.search actor query page s).1
  = Ok (PgMessageSearchRepository.map_hit <$> PgConversationRepository.limit_offset page
          (merge_sort PgMessageSearchRepository.best_first
             (PgMessageSearchRepository.fuzzy_rows actor query from to (db (s_world s))))).
Proof.
  intros Hf Hq Hp Hfrom Hto total Ht Hle. rewrite (count_run _ _ from to) in Ht by done. injection Ht as <-.
  destruct (search_run actor query page from to s Hf Hfrom Hto) as (s' & -> & _). simpl. do 2 f_equal.
  unfold page_rows. rewrite Hq, Hp, bool_decide_true; [done|].
  unfold PgConversationRepository.limit_offset. by rewrite drop_ge, take_nil by lia.
Qed.

(** A first search during which no connection is to be had leaves the instance
    without similar messages for good, although pg_trgm is installed. *)
Lemma failed_probe_sticks `{FullText} (s : Searcher) what rest :
  trgm s = None → faults (s_world s) = Some (FAcquire what) :: rest →
  ∃ s', PgMessageSearchRepository.fuzzy_available s = (Ok false, s') ∧ trgm s' = Some false ∧
        faults (s_world s') = rest.
Proof.
  intros Ht Hf. unfold PgMessageSearchRepository.fuzzy_available, with_transaction. rewrite Ht, Hf. simpl.
  by eexists.
Qed.

(** The service refuses a short term before it reaches the database. *)
Lemma short_term_refused `{FullText} flags actor query page s :
  ssize (SearchService.trim (PgMessageSearchRepository.term query)) < 2 →
  flags Features.kSearch = true →
  ∃ e, SearchService.search_messages flags actor query page s = (Err e, s).
Proof.
  intros Hlen Hflag. unfold SearchService.search_messages, SearchService.validate_term, Features.require.
  rewrite Hflag. unfold mbind, M_bind. simpl.
  destruct (Z.ltb_spec (ssize (SearchService.trim (PgMessageSearchRepository.term query)))
              SearchService.kMinTermLength) as [_|Hge]; [by eexists|].
  unfold SearchService.kMinTermLength in Hge. lia.
Qed.

(** ** Samples *)

Module SearchSample.
(** A text search in which a message matches a term equal to it and is similar
    to a term with the same first letter. *)
Definition same_initial (a b : string) : bool :=
  match a, b with String c _, String c' _ => Ascii.eqb c c' | _, _ => false end.
Program Definition engine : FullText := {|
  ts_matches := String.eqb;
  ts_rank_cd := λ _ _, 1%Q;
  ts_headline := λ content _, content;
  similarity := λ content term, if same_initial content term then 1%Q else 0%Q;
  trgm_installed := true;
  json_double := λ _, JFloat 0 0;
  pg_time := {| to_timestamp := λ s, Some (s * 1000000) |}
|}.
Next Obligation. by intros s t [= <-]. Qed.

Definition row (content : string) : MessageRow.t := MessageRow.mk 1 2 "text" content 0 0 None None.
Definition world : World :=
  set_db (set_messages (list_to_map [(1, row "cats"); (2, row "cars"); (3, row "dogs")]) (db sample_group))
    sample_group.
Definition repo : Searcher := mkSearcher None world.
Definition query : Query := mkQuery "cats" (Some 1) None None None true false.
End SearchSample.

Lemma search_pages_complete_witness :
  let e := SearchSample.engine in
  (PgMessageSearchRepository.count 3 SearchSample.query SearchSample.repo).1 = Ok 1 ∧
  ∃ hits, (fetch_pages 3 SearchSample.query 10 0 1 SearchSample.repo).1 = Ok hits ∧ length hits = 1%nat.
Proof.
  intros e. split; [vm_compute; reflexivity|].
  destruct (@search_pages_complete e 3 SearchSample.query 10 1 None None SearchSample.repo
    eq_refl sample_group_inv eq_refl eq_refl eq_refl 1 ltac:(vm_compute; reflexivity) ltac:(lia))
    as (matches & E & Hlen & _).
  eexists. split; [exact E|]. rewrite length_fmap. lia.
Defined.

Lemma fuzzy_past_the_end_witness :
  let e := SearchSample.engine in
  let next_page := Pagination.mk 1 1 None None in
  (PgMessageSearchRepository.count 3 SearchSample.query SearchSample.repo).1 = Ok 1 ∧
  ∃ hits, (PgMessageSearchRepository.search 3 SearchSample.query next_page SearchSample.repo).1 = Ok hits ∧
    (λ h, (Message.id (PgMessageSearchRepository.message h), PgMessageSearchRepository.fuzzy_match h)) <$> hits
    = [(1, true)].
Proof.
  intros e next_page. split; [vm_compute; reflexivity|].
  eexists. split; [apply (@fuzzy_past_the_end e 3 SearchSample.query next_page None None SearchSample.repo
    eq_refl eq_refl eq_refl eq_refl eq_refl 1); [vm_compute; reflexivity|simpl; lia]|].
  vm_compute. reflexivity.
Defined.
