(* ===== verification/AuditTrail.v ===== *)
(** * AuditTrail: the audit trail

    Models src/services/audit_service.cpp, src/repositories/pg_audit_log_repository.cpp
    and include/rtc/events/audit_log_subscriber.hpp: which domain events become
    records, how a record is written at most once for an event however often the
    event is delivered, and how the trail is searched.  Metadata is kept as the
    JSON value it is: PostgreSQL's [jsonb] gives it back. *)

From S2P Require Import Prelude Text Json Errors TimeUtil Models Events Dto Tracing Jobs Database Users.
From S2P Require Import Samples Conversations Repositories Paging Tokens Sessions Protocol.
Open Scope string_scope.
Open Scope Z_scope.

Module AuditLog.
(* include/rtc/models/audit_log.hpp:17-39, AuditLog *)
Record t := mk {
  id : Z; event_id : string; event_type : string; actor_id : option Z; actor_username : option string;
  target_type : option string; target_id : option string; ip : option string;
  user_agent : option string; correlation_id : option string; trace_id : option string;
  metadata : json; occurred_at : TimePoint; created_at : TimePoint }.
End AuditLog.

Module PgAuditLogRepository.
(* include/rtc/repositories/audit_log_repository.hpp:16-29, NewAuditLog *)
Record NewAuditLog := mkNew {
  n_event_id : string; n_event_type : string; n_actor_id : option Z; n_actor_username : option string;
  n_target_type : option string; n_target_id : option string; n_ip : option string;
  n_user_agent : option string; n_correlation_id : option string; n_trace_id : option string;
  n_metadata : json; n_occurred_at : TimePoint }.

(* include/rtc/repositories/audit_log_repository.hpp:33-42, AuditLogFilter *)
Record AuditLogFilter := mkFilter {
  f_actor_id : option Z; f_event_type : option string; f_target_type : option string;
  f_target_id : option string; f_correlation_id : option string;
  f_from_epoch : option Z; f_to_epoch : option Z }.

(* src/repositories/pg_audit_log_repository.cpp:37-61, map_audit_log *)
Definition map_audit_log (kr : Z * AuditRow.t) : AuditLog.t :=
  let '(id, r) := kr in
  AuditLog.mk id (AuditRow.event_id r) (AuditRow.event_type r) (AuditRow.actor_id r)
    (AuditRow.actor_username r) (AuditRow.target_type r) (AuditRow.target_id r) (AuditRow.ip r)
    (AuditRow.user_agent r) (AuditRow.correlation_id r) (AuditRow.trace_id r) (AuditRow.metadata r)
    (db_time (AuditRow.occurred_at r)) (db_time (AuditRow.created_at r)).

Definition has_event_id (e : string) (r : AuditRow.t) : bool := String.eqb (AuditRow.event_id r) e.

Section Repository.
Context `{PgTime}.

(** [occurred_at.time_since_epoch().count() == 0 ? nullopt : to_unix_seconds]. *)
Definition occurred_epoch (t : TimePoint) : option Z := if t =? 0 then None else Some (to_unix_seconds t).

(** The columns of the inserted row. *)
Definition new_row (input : NewAuditLog) (occurred : option Z) (now : Z) : AuditRow.t :=
  AuditRow.mk (n_event_id input) (n_event_type input) (n_actor_id input) (n_actor_username input)
    (n_target_type input) (n_target_id input) (n_ip input) (n_user_agent input)
    (n_correlation_id input) (n_trace_id input) (n_metadata input) (default now occurred) now.

(* src/repositories/pg_audit_log_repository.cpp:78-107, PgAuditLogRepository::append *)
Definition append (input : NewAuditLog) : M World exn bool :=
  with_transaction (
    occurred ← lift (timestamp_param (occurred_epoch (n_occurred_at input)));
    id ← nextval SAuditLogs;
    now ← clock;
    d ← on_db (λ d, d);
    if any_row (has_event_id (n_event_id input)) (audit_logs d) then mret false
    else
      foreign_key (match n_actor_id input with Some a => exists_row (users d) a | None => true end);;
      update (λ d, set_audit_logs (<[id := new_row input occurred now]> (audit_logs d)) d);;
      mret true).

Definition text_is (wanted value : option string) : bool :=
  match wanted with None => true | Some x => bool_decide (value = Some x) end.

(** [WHERE] of every filtered statement; a comparison with a NULL column does
    not hold. *)
(* src/repositories/pg_audit_log_repository.cpp:67-74, kFilterPredicate *)
Definition in_filter (filter : AuditLogFilter) (from to : option Z) (r : AuditRow.t) : bool :=
  match f_actor_id filter with None => true | Some a => bool_decide (AuditRow.actor_id r = Some a) end
  && match f_event_type filter with None => true | Some t => String.eqb (AuditRow.event_type r) t end
  && text_is (f_target_type filter) (AuditRow.target_type r)
  && text_is (f_target_id filter) (AuditRow.target_id r)
  && text_is (f_correlation_id filter) (AuditRow.correlation_id r)
  && at_least from (AuditRow.occurred_at r) && at_most to (AuditRow.occurred_at r).

(** [ORDER BY occurred_at DESC, id DESC]. *)
Definition latest_first (a b : Z * AuditRow.t) : Prop :=
  AuditRow.occurred_at b.2 < AuditRow.occurred_at a.2 ∨
  (AuditRow.occurred_at b.2 = AuditRow.occurred_at a.2 ∧ b.1 <= a.1).
Global Instance latest_first_dec a b : Decision (latest_first a b).
Proof. unfold latest_first. apply _. Defined.

(** The rows of the statement of [search], for converted time bounds. *)
(* src/repositories/pg_audit_log_repository.cpp:112-128, PgAuditLogRepository::search (statement) *)
Definition select_logs (filter : AuditLogFilter) (from to : option Z) (page : Pagination.t) (d : Database)
    : list (Z * AuditRow.t) :=
  PgConversationRepository.limit_offset page (merge_sort latest_first
    (base.filter (λ kr, in_filter filter from to kr.2
       && match Pagination.before_id page with None => true | Some b => kr.1 <? b end
       && match Pagination.after_id page with None => true | Some a => a <? kr.1 end = true)
     (map_to_list (audit_logs d)))).

(** The bounds of a filter as instants. *)
Definition bounds (filter : AuditLogFilter) : result exn (option Z * option Z) :=
  from ← timestamp_param (f_from_epoch filter);
  to ← timestamp_param (f_to_epoch filter);
  Ok (from, to).

(* src/repositories/pg_audit_log_repository.cpp:109-137, PgAuditLogRepository::search *)
Definition search (filter : AuditLogFilter) (page : Pagination.t) : M World exn (list AuditLog.t) :=
  with_transaction (
    '(from, to) ← lift (bounds filter);
    on_db (λ d, map_audit_log <$> select_logs filter from to page d)).

(* src/repositories/pg_audit_log_repository.cpp:139-153, PgAuditLogRepository::count *)
Definition count (filter : AuditLogFilter) : M World exn Z :=
  with_transaction (
    '(from, to) ← lift (bounds filter);
    on_db (λ d, Z.of_nat (length (rows (in_filter filter from to) (audit_logs d))))).

(* src/repositories/pg_audit_log_repository.cpp:155-164, PgAuditLogRepository::find_by_id *)
Definition find_by_id (id : Z) : M World exn (option AuditLog.t) :=
  with_transaction (on_db (λ d, (λ r, map_audit_log (id, r)) <$> audit_logs d !! id)).

(** [GROUP BY event_type]: the number of rows of each type. *)
Definition tally (l : list (Z * AuditRow.t)) : gmap string Z :=
  foldr (λ kr m, <[AuditRow.event_type kr.2 := default 0 (m !! AuditRow.event_type kr.2) + 1]> m) ∅ l.

(** [ORDER BY total DESC]. *)
Definition more_first (a b : string * Z) : Prop := b.2 <= a.2.
Global Instance more_first_dec a b : Decision (more_first a b).
Proof. unfold more_first. apply _. Defined.

(* src/repositories/pg_audit_log_repository.cpp:166-188, PgAuditLogRepository::counts_by_type *)
Definition counts_by_type (filter : AuditLogFilter) : M World exn (list (string * Z)) :=
  with_transaction (
    '(from, to) ← lift (bounds filter);
    on_db (λ d, merge_sort more_first
                  (map_to_list (tally (rows (in_filter filter from to) (audit_logs d)))))).
End Repository.
End PgAuditLogRepository.

(** ** The service *)

Module AuditService.
Import PgAuditLogRepository.

(* src/services/audit_service.cpp:17-30, payload_id *)
Definition payload_id (payload : json) (key : string) : option string :=
  match find payload key with
  | Some (JStr s) => Some s
  | Some (JInt z) => Some (to_string (get_int64 z))
  | _ => None
  end.

(* src/services/audit_service.cpp:32-39, payload_string *)
Definition payload_string (payload : json) (key : string) : option string :=
  match find payload key with Some (JStr s) => Some s | _ => None end.

(* src/services/audit_service.cpp:43-78, is_auditable *)
Definition is_auditable (type : EventType.t) : bool :=
  match type with
  | EventType.kUserRegistered | EventType.kUserLoggedIn | EventType.kUserLoggedOut
  | EventType.kPasswordChanged | EventType.kProfileUpdated | EventType.kUserRoleChanged
  | EventType.kConversationCreated | EventType.kConversationDeleted
  | EventType.kMemberAdded | EventType.kMemberRemoved
  | EventType.kMessageDeleted | EventType.kAdminAction => true
  | EventType.kUserOnline | EventType.kUserOffline | EventType.kMessageSent | EventType.kMessageEdited
  | EventType.kReactionAdded | EventType.kReactionRemoved | EventType.kAttachmentUploaded
  | EventType.kNotificationCreated | EventType.kCount => false
  end.

(** Type and id of the target. *)
(* src/services/audit_service.cpp:80-113, AuditService::target_of *)
Definition target_of (event : DomainEvent.t) : option string * option string :=
  let payload := DomainEvent.payload event in
  match DomainEvent.type event with
  | EventType.kUserRegistered | EventType.kUserLoggedIn | EventType.kUserLoggedOut
  | EventType.kPasswordChanged | EventType.kProfileUpdated | EventType.kUserRoleChanged =>
      (Some "user", payload_id payload "user_id")
  | EventType.kConversationCreated | EventType.kConversationDeleted
  | EventType.kMemberAdded | EventType.kMemberRemoved =>
      (Some "conversation", payload_id payload "conversation_id")
  | EventType.kMessageDeleted => (Some "message", payload_id payload "message_id")
  | EventType.kAdminAction => (payload_string payload "target_type", payload_string payload "target_id")
  | _ => (None, None)
  end.

(* src/services/audit_service.cpp:115-129, AuditService::username_of *)
Definition username_of (user_id : option Z) : M World exn (option string) := λ w,
  match user_id with
  | None => (Ok None, w)
  | Some id =>
      match PgUserRepository.find_by_id id w with
      | (Ok (Some user), w') => (Ok (Some (User.username user)), w')
      | (_, w') => (Ok None, w')
      end
  end.

(** [s.empty() ? nullopt : optional(s)]. *)
Definition nonempty (s : string) : option string := if String.eqb s "" then None else Some s.

(* src/services/audit_service.cpp:138-154, AuditService::record (row) *)
Definition row_of (event : DomainEvent.t) (username : option string) : NewAuditLog :=
  let target := target_of event in
  mkNew (DomainEvent.event_id event) (EventType.to_string (DomainEvent.type event))
    (DomainEvent.actor_id event) username target.1 target.2
    (payload_string (DomainEvent.payload event) "ip")
    (payload_string (DomainEvent.payload event) "user_agent")
    (nonempty (DomainEvent.correlation_id event)) (nonempty (DomainEvent.trace_id event))
    (DomainEvent.payload event) (DomainEvent.occurred_at event).

Section Service.
Context `{PgTime}.

(* src/services/audit_service.cpp:131-161, AuditService::record *)
Definition record (event : DomainEvent.t) : M World exn bool :=
  if negb (is_auditable (DomainEvent.type event)) then mret false
  else
    username ← username_of (DomainEvent.actor_id event);
    append (row_of event username).

(** [event_id] is the token drawn by the call. *)
(* src/services/audit_service.cpp:163-182, AuditService::record_admin_action *)
Definition record_admin_action (event_id : string) (actor_id : Z)
    (action target_type target_id : string) (details : json) (ip user_agent : option string)
    : M World exn bool :=
  username ← username_of (Some actor_id);
  t ← gets now;
  append (mkNew event_id (EventType.to_string EventType.kAdminAction) (Some actor_id) username
    (Some target_type) (Some target_id) ip user_agent None None
    (jobj [("action", JStr action); ("details", details)]) (utils_now t)).

(* src/services/audit_service.cpp:184-187, AuditService::search *)
Definition search (filter : AuditLogFilter) (page : Pagination.t) := PgAuditLogRepository.search filter page.
(* src/services/audit_service.cpp:189-191, AuditService::count *)
Definition count (filter : AuditLogFilter) := PgAuditLogRepository.count filter.

(* src/services/audit_service.cpp:193-199, AuditService::get *)
Definition get (id : Z) : M World exn AuditLog.t :=
  log ← PgAuditLogRepository.find_by_id id;
  match log with
  | None => mthrow (NotFoundException "Audit record not found" ("id=" +:+ to_string id))
  | Some log => mret log
  end.

(* src/services/audit_service.cpp:201-209, AuditService::summary *)
Definition summary (filter : AuditLogFilter) : M World exn json :=
  counts ← counts_by_type filter;
  mret (jobj [("total", JInt (foldl (λ total tc, total + tc.2) 0 counts));
    ("by_event_type", JArr ((λ tc : string * Z,
       jobj [("event_type", JStr tc.1); ("count", JInt tc.2)]) <$> counts))]).

(* src/services/audit_service.cpp:211-236, AuditService::to_json *)
Definition to_json (log : AuditLog.t) : json :=
  jobj [("id", JInt (AuditLog.id log)); ("event_id", JStr (AuditLog.event_id log));
        ("event_type", JStr (AuditLog.event_type log)); ("metadata", AuditLog.metadata log);
        ("occurred_at", JStr (to_iso8601 (AuditLog.occurred_at log)));
        ("created_at", JStr (to_iso8601 (AuditLog.created_at log)));
        ("actor_id", jopt JInt (AuditLog.actor_id log));
        ("actor_username", jopt JStr (AuditLog.actor_username log));
        ("target_type", jopt JStr (AuditLog.target_type log));
        ("target_id", jopt JStr (AuditLog.target_id log));
        ("ip", jopt JStr (AuditLog.ip log)); ("user_agent", jopt JStr (AuditLog.user_agent log));
        ("correlation_id", jopt JStr (AuditLog.correlation_id log));
        ("trace_id", jopt JStr (AuditLog.trace_id log))].
End Service.
End AuditService.

(** The subscriber at a given address of the event bus. *)
Module AuditLogSubscriber.
(* include/rtc/events/audit_log_subscriber.hpp:27-29, AuditLogSubscriber::interested_in *)
Definition interested_in (flags : Features.flags) (type : EventType.t) : bool :=
  flags Features.kAuditLog && AuditService.is_auditable type.

(* include/rtc/events/audit_log_subscriber.hpp:22-39, AuditLogSubscriber *)
Definition subscriber `{PgTime} (address : Z) (flags : Features.flags) : EventDispatcher.Subscriber World :=
  EventDispatcher.mkSub address (interested_in flags) (λ event, AuditService.record event;; mret ()).
End AuditLogSubscriber.

(** A subscriber made of a function; the interest is a bitset over the event
    types. *)
Module FunctionSubscriber.
(* include/rtc/events/function_subscriber.hpp:52-55, FunctionSubscriber *)
Record t := mk { name_ : string; interest_ : EventType.t → bool; handler_ : option (DomainEvent.t → M World exn unit) }.

(* include/rtc/events/function_subscriber.hpp:27-32, FunctionSubscriber::FunctionSubscriber *)
Definition make_for (name : string) (types : list EventType.t) (handler : option (DomainEvent.t → M World exn unit)) : t :=
  mk name (λ type, existsb (λ x, EventType.index x =? EventType.index type)%nat types) handler.

(* include/rtc/events/function_subscriber.hpp:35-38, FunctionSubscriber::FunctionSubscriber *)
Definition make (name : string) (handler : option (DomainEvent.t → M World exn unit)) : t := mk name (λ _, true) handler.

(* include/rtc/events/function_subscriber.hpp:40-42, FunctionSubscriber::interested_in *)
Definition interested_in (type : EventType.t) (s : t) : bool := interest_ s type.

(* include/rtc/events/function_subscriber.hpp:44-48, FunctionSubscriber::handle *)
Definition handle (event : DomainEvent.t) (s : t) : M World exn unit :=
  match handler_ s with Some handler => handler event | None => mret () end.

Definition subscriber (address : Z) (s : t) : EventDispatcher.Subscriber World :=
  EventDispatcher.mkSub address (λ type, interested_in type s) (λ event, handle event s).
End FunctionSubscriber.

(* src/application.cpp:264-268, Application::wire_event_subscribers (metrics) *)
Definition metrics_subscriber : FunctionSubscriber.t :=
  FunctionSubscriber.make "metrics" (Some (λ event,
    emit (EMetric "rtc_domain_events_total");;
    emit (EMetric ("rtc_domain_event_" +:+ EventType.to_string (DomainEvent.type event) +:+ "_total")))).

(** The two subscribers of the program, in the order of their subscription. *)
(* src/application.cpp:255-269, Application::wire_event_subscribers (subscriptions) *)
Definition event_subscribers `{PgTime} (audit metrics : Z) (flags : Features.flags) (d : EventDispatcher.t World)
    : EventDispatcher.t World :=
  EventDispatcher.subscribe (FunctionSubscriber.subscriber metrics metrics_subscriber)
    (EventDispatcher.subscribe (AuditLogSubscriber.subscriber audit flags) d).

Lemma handle_metrics event w :
  FunctionSubscriber.handle event metrics_subscriber w =
    (Ok (), add_out (EMetric ("rtc_domain_event_" +:+ EventType.to_string (DomainEvent.type event) +:+ "_total"))
              (add_out (EMetric "rtc_domain_events_total") w)).
Proof. done. Qed.

(** Every event of the bus is counted once in total and once by its type, after the
    audit subscriber, whether that one takes the event or not, and also when it
    throws. *)
Theorem events_counted `{PgTime} (audit metrics : Z) (flags : Features.flags) (event : DomainEvent.t) (w : World) :
  audit ≠ metrics →
  let d := event_subscribers audit metrics flags (EventDispatcher.mk [] 0 0) in
  let w1 := if AuditLogSubscriber.interested_in flags (DomainEvent.type event)
            then ((AuditService.record event;; mret ()) w).2 else w in
  (EventDispatcher.dispatch event d w).2 =
    add_out (EMetric ("rtc_domain_event_" +:+ EventType.to_string (DomainEvent.type event) +:+ "_total"))
      (add_out (EMetric "rtc_domain_events_total") w1).
Proof.
  intros Hne d w1. unfold d, event_subscribers, EventDispatcher.subscribe. cbn [existsb EventDispatcher.subscribers].
  cbn [EventDispatcher.address AuditLogSubscriber.subscriber FunctionSubscriber.subscriber app existsb].
  rewrite (proj2 (Z.eqb_neq audit metrics) Hne). cbn [orb]. unfold EventDispatcher.dispatch, w1.
  cbn [EventDispatcher.subscribers app EventDispatcher.deliver EventDispatcher.interested_in EventDispatcher.handle negb
    AuditLogSubscriber.subscriber FunctionSubscriber.subscriber FunctionSubscriber.interested_in].
  destruct (AuditLogSubscriber.interested_in flags (DomainEvent.type event)); cbn [negb];
    [destruct ((AuditService.record event;; mret ()) w) as [[] ?]|]; rewrite handle_metrics; done.
Qed.

(** ** The trail *)

(** Record ids are below the sequence, and an event has one record. *)
Definition audit_ok (d : Database) (s : Seq → Z) : Prop :=
  (∀ k r, audit_logs d !! k = Some r → k < s SAuditLogs) ∧
  (∀ k1 k2 r1 r2, audit_logs d !! k1 = Some r1 → audit_logs d !! k2 = Some r2 →
     AuditRow.event_id r1 = AuditRow.event_id r2 → k1 = k2).

(** [r] is a record of [e]. *)
Definition records `{PgTime} (e : DomainEvent.t) (r : AuditRow.t) : Prop :=
  ∃ username occurred now,
    timestamp_param (PgAuditLogRepository.occurred_epoch (DomainEvent.occurred_at e)) = Ok occurred ∧
    r = PgAuditLogRepository.new_row (AuditService.row_of e username) occurred now.

Section Trail.
Context `{PgTime}.
Import PgAuditLogRepository AuditService.

(** An append leaves the tables alone or adds one record of a new event. *)
Lemma append_cases input w :
  let w' := (append input w).2 in
  users (db w') = users (db w) ∧ seqs w SAuditLogs <= seqs w' SAuditLogs ∧
  (faults w = [] → faults w' = []) ∧
  (db w' = db w ∨
   ∃ occurred, timestamp_param (occurred_epoch (n_occurred_at input)) = Ok occurred ∧
     any_row (has_event_id (n_event_id input)) (audit_logs (db w)) = false ∧
     audit_logs (db w') = <[seqs w SAuditLogs := new_row input occurred (now w)]> (audit_logs (db w)) ∧
     seqs w' SAuditLogs = seqs w SAuditLogs + 1).
Proof.
  unfold append, with_transaction, mbind, M_bind, foreign_key.
  destruct (mjoin (head (faults w))) as [[]|] eqn:Ef; simpl;
    try (split_and!; [done|lia|by intros ->|by left]);
    (destruct (timestamp_param _) as [occ|[]] eqn:Et; simpl;
      [|split_and!; [done|lia|by intros ->|by left]..]);
    (destruct (any_row _ _) eqn:Ea; simpl; [split_and!; [done|lia|by intros ->|by left]|]);
    (destruct (match n_actor_id input with Some _ => _ | None => _ end); simpl;
      [|split_and!; [done|lia|by intros ->|by left]]);
    (split_and!; [done|lia|by intros ->|first [by left|right; exists occ; split_and!; [done..|]; lia]]).
Qed.

Lemma append_recorded input w :
  faults w = [] → is_ok (timestamp_param (occurred_epoch (n_occurred_at input))) = true →
  match n_actor_id input with Some a => exists_row (users (db w)) a | None => true end = true →
  any_row (has_event_id (n_event_id input)) (audit_logs (db (append input w).2)) = true.
Proof.
  intros Hf Ht Ha. unfold append, with_transaction, mbind, M_bind, foreign_key. rewrite Hf. simpl.
  destruct (timestamp_param _) as [occ|]; [|done]. simpl.
  destruct (any_row (has_event_id (n_event_id input)) (audit_logs (db w))) eqn:Ea; simpl; [done|].
  destruct (n_actor_id input); simpl; rewrite ?Ha; simpl; apply any_row_true;
    (eexists _, _; split; [apply lookup_insert_eq|]; apply String.eqb_refl).
Qed.

Lemma username_of_silent u w :
  ∃ name w', username_of u w = (Ok name, w') ∧ db w' = db w ∧ seqs w' = seqs w ∧ now w' = now w ∧
             (faults w = [] → faults w' = []).
Proof.
  unfold username_of. destruct u as [id|]; [|by eexists _, _].
  unfold PgUserRepository.find_by_id, with_transaction.
  destruct (mjoin (head (faults w))) as [[]|]; simpl; try (destruct (users _ !! id); simpl);
    eexists _, _; split_and!; try done; by intros ->.
Qed.

(** Deliveries in some order, each handled whatever happens to the others. *)
Definition deliver_all (evs : list DomainEvent.t) (w : World) : World :=
  foldl (λ w e, (record e w).2) w evs.

Lemma record_cases e w :
  let w' := (record e w).2 in
  users (db w') = users (db w) ∧ seqs w SAuditLogs <= seqs w' SAuditLogs ∧
  (faults w = [] → faults w' = []) ∧
  (db w' = db w ∨
   ∃ r, is_auditable (DomainEvent.type e) = true ∧ records e r ∧
     any_row (has_event_id (DomainEvent.event_id e)) (audit_logs (db w)) = false ∧
     audit_logs (db w') = <[seqs w SAuditLogs := r]> (audit_logs (db w)) ∧
     seqs w' SAuditLogs = seqs w SAuditLogs + 1).
Proof.
  unfold record. destruct (is_auditable (DomainEvent.type e)) eqn:Ha; simpl; [|split_and!; [done|lia|done|by left]].
  unfold mbind, M_bind.
  destruct (username_of_silent (DomainEvent.actor_id e) w) as (name & w1 & -> & Hd & Hs & Hn & Hf). cbn beta iota.
  pose proof (append_cases (row_of e name) w1) as (Hu & Hle & Hf' & Hc). cbv zeta. rewrite <- Hd, <- Hs.
  split_and!; [done|done|tauto|]. destruct Hc as [Hc|(occ & Ht & Hany & Hi & Hq)]; [by left|right].
  eexists. split_and!; [done|by eexists _, _, _|done..].
Qed.

Lemma record_recorded e w :
  faults w = [] → is_auditable (DomainEvent.type e) = true →
  is_ok (timestamp_param (occurred_epoch (DomainEvent.occurred_at e))) = true →
  match DomainEvent.actor_id e with Some a => exists_row (users (db w)) a | None => true end = true →
  any_row (has_event_id (DomainEvent.event_id e)) (audit_logs (db (record e w).2)) = true.
Proof.
  intros Hf Ha Ht Hu. unfold record. rewrite Ha. simpl. unfold mbind, M_bind.
  destruct (username_of_silent (DomainEvent.actor_id e) w) as (name & w1 & -> & Hd & _ & _ & Hf1). cbn beta iota.
  apply (append_recorded (row_of e name)); [by apply Hf1|done|simpl; by rewrite Hd].
Qed.

Lemma record_ok e w : audit_ok (db w) (seqs w) → audit_ok (db (record e w).2) (seqs (record e w).2).
Proof.
  intros [Hfresh Huniq]. destruct (record_cases e w) as (_ & Hle & _ & [Hc|(r & _ & Hr & Hany & Hi & Hq)]).
  - unfold audit_ok. rewrite Hc. split; [|done]. intros k r Hk. specialize (Hfresh k r Hk). lia.
  - destruct Hr as (name & occ & t & _ & ->). rewrite any_row_false in Hany. unfold audit_ok. rewrite Hi, Hq. split.
    + intros k r [[<- <-]|[_ Hk]]%lookup_insert_Some; [lia|]. specialize (Hfresh k r Hk). lia.
    + intros k1 k2 r1 r2 H1 H2 E.
      apply lookup_insert_Some in H1 as [[<- <-]|[? H1]], H2 as [[<- <-]|[? H2]]; [done| | |by eapply Huniq].
      * specialize (Hany k2 r2 H2). unfold has_event_id in Hany. rewrite <- E in Hany. simpl in Hany.
        by rewrite String.eqb_refl in Hany.
      * specialize (Hany k1 r1 H1). unfold has_event_id in Hany. rewrite E in Hany. simpl in Hany.
        by rewrite String.eqb_refl in Hany.
Qed.

(** Nothing is changed or removed, and what is added records the event. *)
Lemma record_adds e w :
  audit_ok (db w) (seqs w) →
  audit_logs (db w) ⊆ audit_logs (db (record e w).2) ∧
  ∀ k r, audit_logs (db (record e w).2) !! k = Some r → audit_logs (db w) !! k = Some r ∨
         is_auditable (DomainEvent.type e) = true ∧ records e r.
Proof.
  intros [Hfresh _]. destruct (record_cases e w) as (_ & _ & _ & [Hc|(r & Ha & Hr & _ & Hi & _)]).
  - rewrite Hc. split; [done|]. by left.
  - rewrite Hi. split.
    + apply insert_subseteq. destruct (audit_logs (db w) !! seqs w SAuditLogs) eqn:E; [|done].
      apply Hfresh in E. lia.
    + intros k x [[_ <-]|[_ Hk]]%lookup_insert_Some; [by right|by left].
Qed.

Lemma any_row_mono (t t' : gmap Z AuditRow.t) P : t ⊆ t' → any_row P t = true → any_row P t' = true.
Proof. rewrite !any_row_true. intros Hs (k & r & Hk & HP). exists k, r. split; [by eapply lookup_weaken|done]. Qed.

Lemma deliver_all_trail evs : ∀ w,
  audit_ok (db w) (seqs w) →
  let w' := deliver_all evs w in
  audit_ok (db w') (seqs w') ∧ audit_logs (db w) ⊆ audit_logs (db w') ∧
  (∀ k r, audit_logs (db w') !! k = Some r → audit_logs (db w) !! k = Some r ∨
     ∃ e, e ∈ evs ∧ is_auditable (DomainEvent.type e) = true ∧ records e r).
Proof.
  induction evs as [|e evs IH]; intros w Hok; [split_and!; [done..|by left]|].
  destruct (record_adds e w Hok) as [Hsub Hadd]. specialize (IH _ (record_ok e w Hok)) as (Hok' & Hsub' & Hadd').
  change (deliver_all (e :: evs) w) with (deliver_all evs (record e w).2). cbv zeta in *.
  split_and!; [done|by etrans|]. intros k r Hk. destruct (Hadd' k r Hk) as [Hk'|(e' & He' & Hx)].
  - destruct (Hadd k r Hk') as [?|?]; [by left|right]. exists e. split; [left|done].
  - right. exists e'. split; [by right|done].
Qed.

(** An event that can be stored is. *)
Definition storable (d : Database) (e : DomainEvent.t) : Prop :=
  is_ok (timestamp_param (occurred_epoch (DomainEvent.occurred_at e))) = true ∧
  match DomainEvent.actor_id e with Some a => exists_row (users d) a | None => true end = true.

Lemma deliver_all_recorded evs e : ∀ w,
  audit_ok (db w) (seqs w) → faults w = [] → e ∈ evs → is_auditable (DomainEvent.type e) = true →
  storable (db w) e →
  any_row (has_event_id (DomainEvent.event_id e)) (audit_logs (db (deliver_all evs w))) = true.
Proof.
  induction evs as [|e' evs IH]; intros w Hok Hf Hin Ha Hst; [by apply not_elem_of_nil in Hin|].
  destruct (record_cases e' w) as (Hu & _ & Hf' & _).
  change (deliver_all (e' :: evs) w) with (deliver_all evs (record e' w).2).
  apply elem_of_cons in Hin as [<-|Hin].
  - eapply any_row_mono; [by apply deliver_all_trail, record_ok|].
    destruct Hst. by apply record_recorded.
  - apply IH; [by apply record_ok|by apply Hf'|done..|]. unfold storable. by rewrite Hu.
Qed.
End Trail.

(** C20. The audit trail is append-only and has each event once.  Whatever events
    are delivered, in whatever order, however often and with whatever failures,
    existing records stay as they are, every new record is one of a delivered
    auditable event, and no event has two; and if the database is up, every
    delivered auditable event whose actor exists has exactly one. *)
Theorem audit_exactly_once `{PgTime} (evs : list DomainEvent.t) (w : World) :
  audit_ok (db w) (seqs w) →
  let w' := deliver_all evs w in
  audit_ok (db w') (seqs w') ∧
  audit_logs (db w) ⊆ audit_logs (db w') ∧
  (∀ k r, audit_logs (db w') !! k = Some r → audit_logs (db w) !! k = Some r ∨
     ∃ e, e ∈ evs ∧ AuditService.is_auditable (DomainEvent.type e) = true ∧ records e r) ∧
  (faults w = [] → ∀ e, e ∈ evs → AuditService.is_auditable (DomainEvent.type e) = true →
     storable (db w) e →
     ∃ k r, audit_logs (db w') !! k = Some r ∧ AuditRow.event_id r = DomainEvent.event_id e ∧
       ∀ k' r', audit_logs (db w') !! k' = Some r' → AuditRow.event_id r' = DomainEvent.event_id e → k' = k).
Proof.
  intros Hok w'. destruct (deliver_all_trail evs w Hok) as (Hok' & Hsub & Hadd). split_and!; [done..|].
  intros Hf e He Ha Hst. pose proof (deliver_all_recorded evs e w Hok Hf He Ha Hst) as Hany.
  apply any_row_true in Hany as (k & r & Hk & E%String.eqb_eq). exists k, r. split_and!; [done..|].
  intros k' r' Hk' E'. destruct Hok' as [_ Huniq]. eapply Huniq; [exact Hk'|exact Hk|congruence].
Qed.

(** ** Reading the trail *)

(** An administrator's client that follows the cursor: the next page is the one
    before the last id received. *)
Fixpoint follow (filter : PgAuditLogRepository.AuditLogFilter) (limit : Z) (before : option Z) (n : nat)
    (d : Database) : list (Z * AuditRow.t) :=
  match n with
  | O => []
  | S n =>
      let page := PgAuditLogRepository.select_logs filter None None (Pagination.mk limit 0 before None) d in
      match last page with
      | None => []
      | Some (id, _) => page ++ follow filter limit (Some id) n d
      end
  end%list.

(** Every record of the filter, as one large page gives them. *)
Definition everything : PgAuditLogRepository.AuditLogFilter :=
  PgAuditLogRepository.mkFilter None None None None None None None.

(** The histogram counts every record of the filter once. *)
Definition total (l : list (string * Z)) : Z := foldl (λ acc tc, acc + tc.2) 0 l.

Lemma total_fold (l : list (string * Z)) : ∀ z, foldl (λ acc tc, acc + tc.2) z l = z + foldr (λ tc, Z.add tc.2) 0 l.
Proof. induction l as [|tc l IH]; intros z; simpl; [lia|]. rewrite IH. lia. Qed.

Lemma total_permutation (l l' : list (string * Z)) : l ≡ₚ l' → total l = total l'.
Proof.
  intros Hp. unfold total. rewrite !total_fold. f_equal.
  induction Hp; simpl; [done|lia|lia|congruence].
Qed.

Lemma total_insert (m : gmap string Z) k v :
  m !! k = None → total (map_to_list (<[k := v]> m)) = total (map_to_list m) + v.
Proof.
  intros Hk. rewrite (total_permutation _ ((k, v) :: map_to_list m)) by by apply map_to_list_insert.
  unfold total. rewrite !total_fold. simpl. lia.
Qed.

Lemma tally_total l : total (map_to_list (PgAuditLogRepository.tally l)) = Z.of_nat (length l).
Proof.
  induction l as [|kr l IH]; [done|]. simpl.
  set (m := PgAuditLogRepository.tally l) in *. set (t := AuditRow.event_type kr.2).
  destruct (m !! t) as [n|] eqn:E; simpl; [|rewrite total_insert by done; lia].
  rewrite <- (insert_delete_id m t n) in IH |- * by done.
  rewrite total_insert in IH by apply lookup_delete_eq.
  rewrite insert_insert_eq, total_insert by apply lookup_delete_eq. lia.
Qed.

Lemma summary_total `{PgTime} filter bs w :
  faults w = [] → PgAuditLogRepository.bounds filter = Ok bs →
  ∃ j n, (AuditService.summary filter w).1 = Ok j ∧ find j "total" = Some (JInt n) ∧
         (AuditService.count filter w).1 = Ok n.
Proof.
  intros Hf Hb. destruct bs as [from to].
  eexists (jobj [("total", JInt (Z.of_nat (length (rows (PgAuditLogRepository.in_filter filter from to) (audit_logs (db w))))));
    ("by_event_type", JArr ((λ tc : string * Z, jobj [("event_type", JStr tc.1); ("count", JInt tc.2)]) <$>
       merge_sort PgAuditLogRepository.more_first (map_to_list (PgAuditLogRepository.tally
         (rows (PgAuditLogRepository.in_filter filter from to) (audit_logs (db w)))))))]), _.
  split_and!; [|reflexivity|].
  - unfold AuditService.summary, PgAuditLogRepository.counts_by_type. unfold mbind at 1, M_bind at 1.
    erewrite with_transaction_run; [|done|rewrite Hb; reflexivity]. simpl. do 6 f_equal.
    rewrite <- tally_total. apply total_permutation. by rewrite merge_sort_Permutation.
  - unfold AuditService.count, PgAuditLogRepository.count.
    erewrite with_transaction_run; [|done|rewrite Hb; reflexivity]. done.
Qed.

Lemma record_new `{PgTime} e w :
  faults w = [] → AuditService.is_auditable (DomainEvent.type e) = true → storable (db w) e →
  any_row (PgAuditLogRepository.has_event_id (DomainEvent.event_id e)) (audit_logs (db w)) = false →
  let w' := (AuditService.record e w).2 in
  ∃ r, records e r ∧ audit_logs (db w') = <[seqs w SAuditLogs := r]> (audit_logs (db w)) ∧
       seqs w' SAuditLogs = seqs w SAuditLogs + 1 ∧ users (db w') = users (db w) ∧ faults w' = [].
Proof.
  intros Hf Ha [Ht Hu] Hnew w'. destruct (record_cases e w) as (Hus & _ & Hf' & Hc).
  pose proof (record_recorded e w Hf Ha Ht Hu) as Hrec.
  destruct Hc as [Hc|(r & _ & Hr & _ & Hi & Hq)]; [rewrite Hc in Hrec; congruence|].
  exists r. split_and!; [done..|by apply Hf'].
Qed.

Lemma records_fields `{PgTime} e r :
  records e r → 0 < DomainEvent.occurred_at e →
  AuditRow.event_id r = DomainEvent.event_id e ∧
  AuditRow.occurred_at r = to_unix_seconds (DomainEvent.occurred_at e) * 1000000.
Proof.
  intros (name & occ & t & Ht & ->) Hpos. apply timestamp_param_spec in Ht. split; [done|]. simpl.
  rewrite Ht. unfold PgAuditLogRepository.occurred_epoch.
  destruct (Z.eqb_spec (DomainEvent.occurred_at e) 0); [lia|done].
Qed.

(** The trail of two events of which the later one was stored first. *)
Lemma two_records (k1 k2 : Z) (r1 r2 : AuditRow.t) (P : Z * AuditRow.t → Prop) `{∀ x, Decision (P x)} :
  k1 ≠ k2 → AuditRow.occurred_at r1 < AuditRow.occurred_at r2 → P (k1, r1) → P (k2, r2) →
  merge_sort PgAuditLogRepository.latest_first
    (base.filter P (map_to_list (<[k1 := r1]> (<[k2 := r2]> (∅ : gmap Z AuditRow.t)))))
  = [(k2, r2); (k1, r1)].
Proof.
  intros Hk Hlt H1 H2.
  assert (Hp : merge_sort PgAuditLogRepository.latest_first
    (base.filter P (map_to_list (<[k1 := r1]> (<[k2 := r2]> (∅ : gmap Z AuditRow.t)))))
    ≡ₚ [(k2, r2); (k1, r1)]).
  { rewrite merge_sort_Permutation, map_to_list_insert by (by rewrite lookup_insert_ne).
    rewrite map_to_list_insert, map_to_list_empty by done.
    rewrite !filter_cons, !decide_True by done. constructor 3. }
  assert (Total PgAuditLogRepository.latest_first).
  { intros a b. unfold PgAuditLogRepository.latest_first. lia. }
  assert (Hs : Sorted PgAuditLogRepository.latest_first (merge_sort PgAuditLogRepository.latest_first
    (base.filter P (map_to_list (<[k1 := r1]> (<[k2 := r2]> (∅ : gmap Z AuditRow.t)))))))
    by apply Sorted_merge_sort, _.
  apply Permutation_sym, Permutation_length_2_inv in Hp as [->|E]; [done|]. rewrite E in Hs.
  apply Sorted_inv in Hs as [_ Hd]. apply HdRel_inv in Hd. unfold PgAuditLogRepository.latest_first in Hd.
  simpl in Hd. lia.
Qed.

(** Below the smallest id there is nothing to list. *)
Lemma follow_none filter limit b n d :
  (∀ k r, audit_logs d !! k = Some r → b <= k) → follow filter limit (Some b) n d = [].
Proof.
  intros Hb. destruct n as [|n]; [done|]. simpl.
  destruct (last (PgAuditLogRepository.select_logs _ _ _ _ d)) as [[k r]|] eqn:E; [exfalso|done].
  apply last_Some_elem_of in E. unfold PgAuditLogRepository.select_logs, PgConversationRepository.limit_offset in E.
  eapply elem_of_sublist in E; [|apply sublist_take]. eapply elem_of_sublist in E; [|apply sublist_drop].
  rewrite merge_sort_Permutation, list_elem_of_filter, elem_of_map_to_list in E. simpl in E.
  destruct E as [E Hk]. apply Hb in Hk. rewrite !andb_true_iff, Z.ltb_lt in E. lia.
Qed.

Lemma later_positive a b : 0 < a → to_unix_seconds a < to_unix_seconds b → 0 < b.
Proof.
  unfold to_unix_seconds. intros Ha Hlt. destruct (Z.le_gt_cases b 0) as [Hneg|]; [|done].
  pose proof (Z.quot_pos a 1000000000 ltac:(lia) ltac:(lia)).
  pose proof (Z.quot_pos (- b) 1000000000 ltac:(lia) ltac:(lia)) as Hq. rewrite Z.quot_opp_l in Hq; lia.
Qed.

(** What storing two events in the opposite order of their occurrence leaves. *)
Lemma stored_inverted `{PgTime} (earlier later : DomainEvent.t) (w : World) :
  faults w = [] → audit_logs (db w) = ∅ →
  AuditService.is_auditable (DomainEvent.type earlier) = true →
  AuditService.is_auditable (DomainEvent.type later) = true →
  storable (db w) earlier → storable (db w) later →
  DomainEvent.event_id earlier ≠ DomainEvent.event_id later →
  0 < DomainEvent.occurred_at earlier →
  to_unix_seconds (DomainEvent.occurred_at earlier) < to_unix_seconds (DomainEvent.occurred_at later) →
  ∃ k r1 r2, audit_logs (db (deliver_all [later; earlier] w)) = <[k + 1 := r1]> (<[k := r2]> ∅) ∧
    AuditRow.event_id r1 = DomainEvent.event_id earlier ∧ AuditRow.occurred_at r1 < AuditRow.occurred_at r2.
Proof.
  intros Hf Hempty Ha1 Ha2 [T1 U1] Hs2 Hne Hpos Hlt.
  destruct (record_new later w Hf Ha2 Hs2) as (r2 & Hr2 & Hi2 & Hq2 & Hu2 & Hf2); [by rewrite Hempty|].
  destruct (record_new earlier _ Hf2 Ha1) as (r1 & Hr1 & Hi1 & _).
  { unfold storable. by rewrite Hu2. }
  { rewrite Hi2, Hempty. apply any_row_false. intros k r [[_ <-]|[_ Hk]]%lookup_insert_Some; [|done].
    destruct Hr2 as (? & ? & ? & _ & ->). by apply String.eqb_neq. }
  destruct (records_fields _ _ Hr1 Hpos) as [He1 Ho1].
  destruct (records_fields _ _ Hr2 (later_positive _ _ Hpos Hlt)) as [He2 Ho2].
  exists (seqs w SAuditLogs), r1, r2. split_and!; [|done|lia].
  rewrite <- Hq2, <- Hempty, <- Hi2. exact Hi1.
Qed.

(** The cursor of the audit listing can pass over records.  Two events are
    stored in the opposite order of their occurrence, as two workers of the event
    bus may store them; the listing has both, but a client that asks for one
    record at a time, each time before the last id it received, is never given
    the earlier event, however often it asks. *)
Theorem audit_cursor_skips `{PgTime} (earlier later : DomainEvent.t) (w : World) :
  faults w = [] → audit_logs (db w) = ∅ →
  AuditService.is_auditable (DomainEvent.type earlier) = true →
  AuditService.is_auditable (DomainEvent.type later) = true →
  storable (db w) earlier → storable (db w) later →
  DomainEvent.event_id earlier ≠ DomainEvent.event_id later →
  0 < DomainEvent.occurred_at earlier →
  to_unix_seconds (DomainEvent.occurred_at earlier) < to_unix_seconds (DomainEvent.occurred_at later) →
  let d := db (deliver_all [later; earlier] w) in
  ∃ k r, audit_logs d !! k = Some r ∧ AuditRow.event_id r = DomainEvent.event_id earlier ∧
    (k, r) ∈ PgAuditLogRepository.select_logs everything None None (Pagination.mk 100 0 None None) d ∧
    ∀ n, (k, r) ∉ follow everything 1 None n d.
Proof.
  intros Hf Hempty Ha1 Ha2 Hs1 Hs2 Hne Hpos Hlt.
  destruct (stored_inverted earlier later w Hf Hempty Ha1 Ha2 Hs1 Hs2 Hne Hpos Hlt)
    as (k & r1 & r2 & Hd & He & Ho). cbv zeta. set (d := db (deliver_all [later; earlier] w)) in *.
  assert (Hsel : ∀ limit, PgAuditLogRepository.select_logs everything None None (Pagination.mk limit 0 None None) d
                 = take (Z.to_nat limit) [(k, r2); (k + 1, r1)]).
  { intros limit. unfold PgAuditLogRepository.select_logs, PgConversationRepository.limit_offset.
    rewrite Hd. simpl Pagination.offset. rewrite drop_0, two_records; [done|lia|lia|done..]. }
  exists (k + 1), r1. split_and!; [by rewrite Hd, lookup_insert_eq|done|rewrite Hsel; right; left|].
  intros [|n]; [by apply not_elem_of_nil|]. simpl. rewrite Hsel. simpl. rewrite follow_none.
  - rewrite list_elem_of_singleton. intros E. apply (f_equal fst) in E. simpl in E. lia.
  - intros k' r'. rewrite Hd. intros [[<- _]|[_ [[<- _]|[_ ?]]%lookup_insert_Some]]%lookup_insert_Some; [lia..|done].
Qed.

(** ** Samples *)

Module AuditSample.
Program Definition pg : PgTime := {| to_timestamp := λ s, Some (s * 1000000) |}.
Next Obligation. by intros s t [= <-]. Qed.
Definition event (id : string) (seconds : Z) : DomainEvent.t :=
  DomainEvent.mk EventType.kPasswordChanged id (seconds * 1000000000) (Some 1) "" "" (jobj [("user_id", JInt 1)]).
End AuditSample.

Lemma audit_exactly_once_witness :
  let e := AuditSample.event "a" 10 in
  let w' := @deliver_all AuditSample.pg [e; e] accounts_only in
  ∃ k r, audit_logs (db w') !! k = Some r ∧ AuditRow.event_id r = "a" ∧ AuditRow.actor_username r = Some "ann".
Proof.
  intros e w'.
  assert (Hok : audit_ok (db accounts_only) (seqs accounts_only)) by (split; intros *; done).
  destruct (@audit_exactly_once AuditSample.pg [e; e] accounts_only Hok) as (_ & _ & _ & Hall).
  destruct (Hall eq_refl e ltac:(left) eq_refl ltac:(split; reflexivity)) as (k & r & Hk & He & _).
  exists k, r. split_and!; [exact Hk|exact He|].
  assert (Hrow : map_Forall (λ _ r, AuditRow.actor_username r = Some "ann")
    (audit_logs (db (@deliver_all AuditSample.pg [e; e] accounts_only))))
    by (refine (proj1 (bool_decide_eq_true _) _); vm_compute; reflexivity).
  exact (Hrow k r Hk).
Defined.

Lemma audit_cursor_skips_witness :
  let d := db (@deliver_all AuditSample.pg [AuditSample.event "b" 20; AuditSample.event "a" 10] accounts_only) in
  ∃ k r, audit_logs d !! k = Some r ∧ AuditRow.event_id r = "a" ∧
    (k, r) ∈ PgAuditLogRepository.select_logs everything None None (Pagination.mk 100 0 None None) d ∧
    ∀ n, (k, r) ∉ follow everything 1 None n d.
Proof.
  apply (@audit_cursor_skips AuditSample.pg (AuditSample.event "a" 10) (AuditSample.event "b" 20) accounts_only);
    try reflexivity; try (split; reflexivity). discriminate.
Defined.
