(* ===== verification/Overlap.v ===== *)
(** * Overlap: calls that overlap in time

    The server handles requests on several threads, and a service call is a
    sequence of transactions: between two of them other calls run.  [prog] is a
    call cut at its transactions, [advance] takes one step of it, and [Steps K m Q]
    is a way to cut the call [m] together with the proof that its steps can be
    interleaved with those of any other calls: rely-guarantee reasoning with one
    relation [G] as both.  A transaction is taken to be atomic; effects on the
    outgoing interfaces and files are steps of their own. *)

From S2P Require Import Prelude Text Errors Database.
Open Scope Z_scope.

(** ** Programs *)

(** Finished, or about to run a transaction, or about to do something that
    leaves the tables alone. *)
Inductive prog (A : Type) : Type :=
  | Done (r : result exn A)
  | Txn {X : Type} (body : M World exn X) (k : result exn X → prog A)
  | Local {X : Type} (m : M World exn X) (k : result exn X → prog A).
Arguments Done {A} r.
Arguments Txn {A X} body k.
Arguments Local {A X} m k.

(** Tables and sequences are put back. *)
Definition local {X} (m : M World exn X) : M World exn X := λ w,
  let '(r, w') := m w in
  (r, mkWorld (db w) (seqs w) (now w') (faults w') (out w') (files w') (io_faults w')).

Definition advance {A} (p : prog A) (w : World) : prog A * World :=
  match p with
  | Done _ => (p, w)
  | Txn body k => let '(r, w') := with_transaction body w in (k r, w')
  | Local m k => let '(r, w') := local m w in (k r, w')
  end.

(** All steps of the program, nobody else's in between. *)
Fixpoint run {A} (p : prog A) (w : World) : result exn A * World :=
  match p with
  | Done r => (r, w)
  | Txn body k => let '(r, w') := with_transaction body w in run (k r) w'
  | Local m k => let '(r, w') := local m w in run (k r) w'
  end.

Fixpoint bind {A B} (f : A → prog B) (p : prog A) : prog B :=
  match p with
  | Done (Ok a) => f a
  | Done (Err e) => Done (Err e)
  | Txn body k => Txn body (λ r, bind f (k r))
  | Local m k => Local m (λ r, bind f (k r))
  end.

Lemma run_bind {A B} (f : A → prog B) (p : prog A) w :
  run (bind f p) w = match run p w with (Ok a, w') => run (f a) w' | (Err e, w') => (Err e, w') end.
Proof.
  revert w. induction p as [[a|e]|X body k IH|X m k IH]; intros w; simpl; [done..| |].
  - destruct (with_transaction body w) as [r w']. apply IH.
  - destruct (local m w) as [r w']. apply IH.
Qed.

(** ** Rely-guarantee *)

(** What any step of any call may do to tables and sequences. *)
Definition interference : Type := Database → (Seq → Z) → Database → (Seq → Z) → Prop.

Class Guarantee (G : interference) := {
  guarantee_refl : ∀ d s, G d s d s;
  guarantee_trans : ∀ d1 s1 d2 s2 d3 s3, G d1 s1 d2 s2 → G d2 s2 d3 s3 → G d1 s1 d3 s3 }.

(** What a call knows and no other call can invalidate. *)
Class Stable (G : interference) (K : assertion) :=
  stable : ∀ d s d' s', K d s → G d s d' s' → K d' s'.

Definition nothing : assertion := λ _ _, True.

Global Instance stable_nothing G : Stable G nothing.
Proof. done. Qed.
Global Instance stable_pure G (P : Prop) : Stable G (λ _ _, P).
Proof. by intros d s d' s'. Qed.
Global Instance stable_and G K1 K2 : Stable G K1 → Stable G K2 → Stable G (λ d s, K1 d s ∧ K2 d s).
Proof. intros H1 H2 d s d' s' [? ?] ?. split; [by eapply H1|by eapply H2]. Qed.
Global Instance stable_impl G (P : Prop) K : Stable G K → Stable G (λ d s, P → K d s).
Proof. intros HK d s d' s' H Hg HP. by eapply HK, Hg; apply H. Qed.

Section Logic.
Context (I : assertion) (G : interference) `{!Guarantee G}.

(** The program can go on from here: whatever the others do before each of its
    transactions, the transaction keeps the invariant and the guarantee; when the
    program returns, [Q] holds of the result. *)
Fixpoint wp {A} (p : prog A) (Q : A → assertion) (d : Database) (s : Seq → Z) : Prop :=
  match p with
  | Done (Ok a) => Q a d s
  | Done (Err _) => True
  | Txn body k => ∀ w, G d s (db w) (seqs w) → I (db w) (seqs w) →
      let '(r, w') := with_transaction body w in
      I (db w') (seqs w') ∧ G (db w) (seqs w) (db w') (seqs w') ∧ wp (k r) Q (db w') (seqs w')
  | Local m k => ∀ w, G d s (db w) (seqs w) → I (db w) (seqs w) →
      let '(r, w') := local m w in wp (k r) Q (db w') (seqs w')
  end.

Lemma local_same {X} (m : M World exn X) w : db (local m w).2 = db w ∧ seqs (local m w).2 = seqs w.
Proof. unfold local. by destruct (m w). Qed.

Lemma wp_bind {A B} (f : A → prog B) (p : prog A) R Q d s :
  I d s → wp p R d s → (∀ a d s, I d s → R a d s → wp (f a) Q d s) → wp (bind f p) Q d s.
Proof.
  intros HI Hp Hf. revert d s HI Hp. induction p as [[a|e]|X body k IH|X m k IH]; intros d s HI Hp; simpl in *.
  - by apply Hf.
  - done.
  - intros w Hg Hw. specialize (Hp w Hg Hw). destruct (with_transaction body w) as [r w'].
    destruct Hp as (? & ? & ?). auto.
  - intros w Hg Hw. specialize (Hp w Hg Hw). pose proof (local_same m w) as [Ed Es].
    destruct (local m w) as [r w']. simpl in *. apply IH; [by rewrite Ed, Es|done].
Qed.

Lemma wp_stable {A} (p : prog A) Q d s d' s' :
  (∀ a, Stable G (Q a)) → wp p Q d s → G d s d' s' → wp p Q d' s'.
Proof.
  intros HQ Hp Hg. destruct p as [[a|e]|X body k|X m k]; simpl in *; [by eapply HQ|done|..];
    intros w Hg' Hw; apply Hp; [by eapply guarantee_trans|done|by eapply guarantee_trans|done].
Qed.

Lemma wp_mono {A} (p : prog A) (Q Q' : A → assertion) d s :
  I d s → wp p Q d s → (∀ a d s, I d s → Q a d s → Q' a d s) → wp p Q' d s.
Proof.
  intros HI Hp HQ. revert d s HI Hp. induction p as [[a|e]|X body k IH|X m k IH]; intros d s HI Hp; simpl in *; auto.
  - intros w Hg Hw. specialize (Hp w Hg Hw). destruct (with_transaction body w) as [r w'].
    destruct Hp as (? & ? & ?). auto.
  - intros w Hg Hw. specialize (Hp w Hg Hw). pose proof (local_same m w) as [Ed Es].
    destruct (local m w) as [r w']. simpl in *. apply IH; [by rewrite Ed, Es|done].
Qed.

(** Knowledge survives a program. *)
Lemma wp_frame {A} (p : prog A) (Q : A → assertion) K `{!Stable G K} d s :
  I d s → K d s → wp p Q d s → wp p (λ a d s, Q a d s ∧ K d s) d s.
Proof.
  revert d s. induction p as [[a|e]|X body k IH|X m k IH]; intros d s HI HK Hp; simpl in *; [done..| |].
  - intros w Hg Hw. specialize (Hp w Hg Hw). assert (K (db w) (seqs w)) as HKw by by eapply stable.
    destruct (with_transaction body w) as [r w']. destruct Hp as (? & ? & ?). split_and!; [done..|].
    apply IH; [done|by eapply stable|done].
  - intros w Hg Hw. specialize (Hp w Hg Hw). assert (K (db w) (seqs w)) as HKw by by eapply stable.
    pose proof (local_same m w) as [Ed Es]. destruct (local m w) as [r w']. simpl in *.
    apply IH; [by rewrite Ed, Es..|done].
Qed.

(** ** Cutting calls *)

(** A program that does what [m] does, and whose steps can be interleaved. *)
Definition Steps {A} (K : assertion) (m : M World exn A) (Q : A → assertion) : Type :=
  { p : prog A | (∀ w, run p w = m w) ∧ ∀ d s, I d s → K d s → wp p Q d s }.

Definition Free {A} (m : M World exn A) : Type := Steps nothing m (λ _, nothing).

Lemma ret_steps {A} (r : result exn A) (K : assertion) (m : M World exn A) (Q : A → assertion) :
  (∀ w, (r, w) = m w) → (∀ a d s, r = Ok a → I d s → K d s → Q a d s) →
  (∀ w, run (Done r) w = m w) ∧ ∀ d s, I d s → K d s → wp (Done r) Q d s.
Proof. intros Hm HQ. split; [done|]. intros d s HI HK. destruct r; simpl; eauto. Qed.

Definition steps_done {A} (r : result exn A) (K : assertion) (m : M World exn A) (Q : A → assertion)
    (Hm : ∀ w, (r, w) = m w) (HQ : ∀ a d s, r = Ok a → I d s → K d s → Q a d s) : Steps K m Q :=
  exist _ (Done r) (ret_steps r K m Q Hm HQ).

Lemma txn_steps {A} (K : assertion) `{!Stable G K} (body : M World exn A) (Q : A → assertion) :
  hoare (λ d s, I d s ∧ K d s) (with_transaction body) (λ a d s, I d s ∧ Q a d s) I →
  (∀ w, I (db w) (seqs w) → K (db w) (seqs w) →
     G (db w) (seqs w) (db (with_transaction body w).2) (seqs (with_transaction body w).2)) →
  (∀ w, run (Txn body Done) w = with_transaction body w) ∧
  ∀ d s, I d s → K d s → wp (Txn body Done) Q d s.
Proof.
  intros Hh HG. split; [intros w; simpl; by destruct (with_transaction body w)|].
  intros d s HI HK w Hg Hw. assert (K (db w) (seqs w)) as HKw by by eapply stable.
  specialize (Hh w (conj Hw HKw)). specialize (HG w Hw HKw).
  destruct (with_transaction body w) as [[a|e] w']; simpl in *; [by destruct Hh|done].
Qed.

Definition steps_txn {A} (K : assertion) `{!Stable G K} (body : M World exn A) (Q : A → assertion)
    (Hh : hoare (λ d s, I d s ∧ K d s) (with_transaction body) (λ a d s, I d s ∧ Q a d s) I)
    (HG : ∀ w, I (db w) (seqs w) → K (db w) (seqs w) →
       G (db w) (seqs w) (db (with_transaction body w).2) (seqs (with_transaction body w).2))
    : Steps K (with_transaction body) Q :=
  exist _ (Txn body Done) (txn_steps K body Q Hh HG).

Lemma local_steps {A} (K : assertion) `{!Stable G K} (m : M World exn A) :
  (∀ w, local m w = m w) →
  (∀ w, run (Local m Done) w = m w) ∧ ∀ d s, I d s → K d s → wp (Local m Done) (λ _, K) d s.
Proof.
  intros Hm. split; [intros w; simpl; rewrite Hm; by destruct (m w)|].
  intros d s HI HK w Hg Hw. assert (K (db w) (seqs w)) as HKw by by eapply stable.
  pose proof (local_same m w) as [Ed Es]. destruct (local m w) as [[a|e] w']; simpl in *; [|done]. by rewrite Ed, Es.
Qed.

Definition steps_local {A} (K : assertion) `{!Stable G K} (m : M World exn A) (Hm : ∀ w, local m w = m w)
    : Steps K m (λ _, K) := exist _ (Local m Done) (local_steps K m Hm).

Lemma bind_steps {A B} (K : assertion) (R : A → assertion) (Q : B → assertion) (m : M World exn A)
    (f : A → M World exn B) (Sm : Steps K m R) (Sf : ∀ a, Steps (R a) (f a) Q) :
  (∀ w, run (bind (λ a, proj1_sig (Sf a)) (proj1_sig Sm)) w = (m ≫= f) w) ∧
  ∀ d s, I d s → K d s → wp (bind (λ a, proj1_sig (Sf a)) (proj1_sig Sm)) Q d s.
Proof.
  destruct Sm as (p & Hr & Hw). split.
  - intros w. rewrite run_bind. simpl. rewrite Hr. unfold mbind, M_bind.
    destruct (m w) as [[a|e] w']; [|done]. apply (proj2_sig (Sf a)).
  - intros d s HI HK. eapply wp_bind; [done|by apply Hw|]. intros a d' s' HI' HR. by apply (proj2_sig (Sf a)).
Qed.

Definition steps_bind {A B} (K : assertion) (R : A → assertion) (Q : B → assertion) (m : M World exn A)
    (f : A → M World exn B) (Sm : Steps K m R) (Sf : ∀ a, Steps (R a) (f a) Q) : Steps K (m ≫= f) Q :=
  exist _ (bind (λ a, proj1_sig (Sf a)) (proj1_sig Sm)) (bind_steps K R Q m f Sm Sf).

Lemma conseq_steps {A} (K K' : assertion) (Q Q' : A → assertion) (m : M World exn A) (S : Steps K' m Q') :
  (∀ d s, I d s → K d s → K' d s) → (∀ a d s, I d s → Q' a d s → Q a d s) →
  (∀ w, run (proj1_sig S) w = m w) ∧ ∀ d s, I d s → K d s → wp (proj1_sig S) Q d s.
Proof.
  intros HK HQ. destruct S as (p & Hr & Hw). split; [done|]. intros d s HI H. eapply wp_mono; [done|by apply Hw, HK|done].
Qed.

Definition steps_conseq {A} (K K' : assertion) (Q Q' : A → assertion) (m : M World exn A) (S : Steps K' m Q')
    (HK : ∀ d s, I d s → K d s → K' d s) (HQ : ∀ a d s, I d s → Q' a d s → Q a d s) : Steps K m Q :=
  exist _ (proj1_sig S) (conseq_steps K K' Q Q' m S HK HQ).

Lemma frame_steps {A} (K : assertion) `{!Stable G K} (m : M World exn A) (S : Free m) :
  (∀ w, run (proj1_sig S) w = m w) ∧ ∀ d s, I d s → K d s → wp (proj1_sig S) (λ _, K) d s.
Proof.
  destruct S as (p & Hr & Hw). split; [done|]. intros d s HI HK. eapply wp_mono; [done| |].
  - apply (wp_frame p (λ _, nothing) K); [done..|]. by apply Hw.
  - by intros a d' s' _ [_ ?].
Qed.

Definition steps_frame {A} (K : assertion) `{!Stable G K} (m : M World exn A) (S : Free m) : Steps K m (λ _, K) :=
  exist _ (proj1_sig S) (frame_steps K m S).

(** Loops. *)
Fixpoint steps_for_each {A} (f : A → M World exn unit) (Sf : ∀ a, Free (f a)) (l : list A) : Free (for_each f l) :=
  match l with
  | [] => steps_done (Ok ()) nothing _ (λ _, nothing) (λ w, eq_refl) (λ _ _ _ _ _ H, H)
  | x :: l' => steps_bind nothing (λ _, nothing) (λ _, nothing) (f x) _ (Sf x) (λ _, steps_for_each f Sf l')
  end.

(** ** Threads *)

(** Events of a run: a program starts, a thread takes a step, or the environment
    moves the clock and decides about faults. *)
Inductive Event (A : Type) :=
  | Start (p : prog A)
  | Advance (i : nat)
  | Environment (now : Z) (faults : list (option Fault)) (io_faults : list bool).

Definition event {A} (e : Event A) (st : list (prog A) * World) : list (prog A) * World :=
  let '(ts, w) := st in
  match e with
  | Start _ p => ((ts ++ [p])%list, w)
  | Advance _ i =>
      match ts !! i with
      | Some p => let '(p', w') := advance p w in (<[i := p']> ts, w')
      | None => (ts, w)
      end
  | Environment _ n f io => (ts, mkWorld (db w) (seqs w) n f (out w) (files w) io)
  end.

Fixpoint events {A} (es : list (Event A)) (st : list (prog A) * World) : list (prog A) * World :=
  match es with [] => st | e :: es => events es (event e st) end.

(** Every program that is started may be interleaved with the others. *)
Definition starts_well {A} (e : Event A) : Prop :=
  match e with Start _ p => ∀ d s, I d s → wp p (λ _, nothing) d s | _ => True end.

Definition threads_ok {A} (st : list (prog A) * World) : Prop :=
  I (db st.2) (seqs st.2) ∧ ∀ i p, st.1 !! i = Some p → wp p (λ _, nothing) (db st.2) (seqs st.2).

Lemma advance_ok {A} (p : prog A) w :
  I (db w) (seqs w) → wp p (λ _, nothing) (db w) (seqs w) →
  let '(p', w') := advance p w in
  I (db w') (seqs w') ∧ G (db w) (seqs w) (db w') (seqs w') ∧ wp p' (λ _, nothing) (db w') (seqs w').
Proof.
  intros HI Hp. pose proof (guarantee_refl (db w) (seqs w)) as Hr.
  destruct p as [r|X body k|X m k]; simpl in *; [done|..]; specialize (Hp w Hr HI).
  - by destruct (with_transaction body w) as [r w'].
  - pose proof (local_same m w) as [Ed Es]. destruct (local m w) as [r w']. simpl in *. by rewrite Ed, Es in *.
Qed.

Lemma event_ok {A} (e : Event A) st : starts_well e → threads_ok st → threads_ok (event e st).
Proof.
  destruct st as [ts w]. intros He [HI Ht]. destruct e as [p|i|n f io]; simpl in *.
  - split; [done|]. simpl. intros i q. rewrite lookup_app_Some, list_lookup_singleton_Some.
    intros [Hq|(_ & _ & <-)]; [by eapply Ht|by apply He].
  - destruct (ts !! i) as [p|] eqn:Hp; [|done]. pose proof (advance_ok p w HI (Ht i p Hp)) as Ha.
    destruct (advance p w) as [p' w']. destruct Ha as (HI' & Hg & Hp'). split; [done|]. simpl. intros j q Hq.
    apply list_lookup_insert_Some in Hq as [(-> & <- & _)|[_ Hq]]; [done|].
    eapply wp_stable; [|by eapply Ht|exact Hg]. intros _. apply _.
  - done.
Qed.

Lemma events_ok {A} (es : list (Event A)) st : Forall starts_well es → threads_ok st → threads_ok (events es st).
Proof. intros Hes. revert st. induction Hes as [|e es He _ IH]; intros st Hst; simpl; [done|]. by apply IH, event_ok. Qed.
End Logic.

Arguments Start {A} p.
Arguments Advance {A} i.
Arguments Environment {A} now faults io_faults.
