(* ===== verification/Shared.v ===== *)
(** * Shared: what every transaction keeps

    The invariant of the tables between any two transactions, the guarantee of
    each transaction to the others, and that every writing transaction of the
    repositories keeps both, whatever its caller has checked before, except for
    the type of a conversation, which no transaction changes. *)

From S2P Require Import Prelude Text Json Errors Validation TimeUtil Rbac Models Events Dto SqlSchema Database.
From S2P Require Import Samples Users Conversations ConversationInv ConversationProps Repositories.
From S2P Require Import Attachments Messages MessageProps Receipts Notifications Tokens Sessions SessionProps.
From S2P Require Import UserProps System Authorization AuditTrail Overlap.
Import PgConversationRepository.
Open Scope string_scope.
Open Scope Z_scope.

(** ** References *)

(** Every value of a referencing column is the key of a row. *)
Definition points {K V} `{Countable K} (f : V → option Z) (t : gmap K V) (ids : gset Z) : Prop :=
  ∀ k r v, t !! k = Some r → f r = Some v → v ∈ ids.

Section Points.
Context {K V : Type} `{Countable K} (f : V → option Z).
Implicit Types t : gmap K V.

Lemma points_insert t ids k r : points f t ids → (∀ v, f r = Some v → v ∈ ids) → points f (<[k := r]> t) ids.
Proof. intros Hp Hr j x v. rewrite lookup_insert_Some. intros [[<- <-]|[_ ?]] ?; [by apply Hr|by eapply Hp]. Qed.
Lemma points_subseteq t t' ids : points f t ids → t' ⊆ t → points f t' ids.
Proof. intros Hp Hs k r v Hk. eapply Hp. by eapply lookup_weaken. Qed.
Lemma points_mono t ids ids' : points f t ids → ids ⊆ ids' → points f t ids'.
Proof. intros Hp Hs k r v Hk Hv. apply Hs. by eapply Hp. Qed.
(** Rows may change in their other columns. *)
Lemma points_same t t' ids : points f t ids → (∀ k r', t' !! k = Some r' → ∃ r, t !! k = Some r ∧ f r' = f r) → points f t' ids.
Proof. intros Hp Hs k r' v Hk Hv. destruct (Hs k r' Hk) as (r & Hr & E). rewrite E in Hv. by eapply Hp. Qed.
Lemma points_alter t ids g k : points f t ids → (∀ r, f (g r) = f r) → points f (alter g k t) ids.
Proof.
  intros Hp Hg. eapply points_same; [done|]. intros j r'. rewrite lookup_alter_Some.
  intros [(-> & r & ? & ->)|[_ ?]]; eauto.
Qed.
End Points.

Lemma points_update_where {V} (f : V → option Z) t ids P g :
  points f t ids → (∀ r, f (g r) = f r) → points f (update_where P g t) ids.
Proof.
  intros Hp Hg. eapply points_same; [done|]. intros j r'. rewrite lookup_update_where. intros (r & ? & ->).
  exists r. split; [done|]. destruct (P r); auto.
Qed.

(** The foreign keys of the tables; those of conversations and participants are
    part of [members_inv]. *)
Record refs_ok (d : Database) : Prop := {
  ref_banned : points UserRow.banned_by (users d) (dom (users d));
  ref_conversation : points (λ r, Some (MessageRow.conversation_id r)) (messages d) (dom (conversations d));
  ref_sender : points (λ r, Some (MessageRow.sender_id r)) (messages d) (dom (users d));
  ref_receipt_message : points (λ r, Some (ReceiptRow.message_id r)) (receipts d) (dom (messages d));
  ref_receipt_user : points (λ r, Some (ReceiptRow.user_id r)) (receipts d) (dom (users d));
  ref_reaction_message : points (λ r, Some (ReactionRow.message_id r)) (reactions d) (dom (messages d));
  ref_reaction_user : points (λ r, Some (ReactionRow.user_id r)) (reactions d) (dom (users d));
  ref_attachment_owner : points (λ r, Some (AttachmentRow.owner_id r)) (attachments d) (dom (users d));
  ref_attachment_message : points AttachmentRow.message_id (attachments d) (dom (messages d));
  ref_notification : points (λ r, Some (NotificationRow.user_id r)) (notifications d) (dom (users d));
  ref_session : points (λ r, Some (SessionRow.user_id r)) (sessions d) (dom (users d));
  ref_audit : points AuditRow.actor_id (audit_logs d) (dom (users d)) }.

(** Between any two transactions. *)
Definition shared_ok : assertion := λ d s,
  members_inv false d s ∧ accounts_ok d s ∧ receipts_ok d s ∧ reactions_ok d s ∧ audit_ok d s ∧ refs_ok d.

(** Sequences grow, a conversation that is there was there before and is of the
    same type, or is new. *)
Definition kept (d d' : Database) : Prop :=
  ∀ c r', conversations d' !! c = Some r' →
  ∃ r, conversations d !! c = Some r ∧ ConversationRow.type r' = ConversationRow.type r.
Definition G : interference := λ d s d' s',
  (∀ q, s q <= s' q) ∧
  ∀ c r', conversations d' !! c = Some r' →
    (∃ r, conversations d !! c = Some r ∧ ConversationRow.type r' = ConversationRow.type r) ∨ s SConversations <= c.

Global Instance kept_preorder : PreOrder kept.
Proof.
  split; [intros d c r; eauto|]. intros d1 d2 d3 H1 H2 c r Hr. destruct (H2 c r Hr) as (r2 & Hr2 & E2).
  destruct (H1 c r2 Hr2) as (r1 & Hr1 & E1). exists r1. split; [done|congruence].
Qed.

Global Instance G_guarantee : Guarantee G.
Proof.
  split.
  - intros d s. split; [intros q; lia|]. intros c r Hr. left. eauto.
  - intros d1 s1 d2 s2 d3 s3 [Hs1 H1] [Hs2 H2]. split; [intros q; specialize (Hs1 q); specialize (Hs2 q); lia|].
    intros c r Hr. specialize (Hs1 SConversations). destruct (H2 c r Hr) as [(r2 & Hr2 & E2)|]; [|right; lia].
    destruct (H1 c r2 Hr2) as [(r1 & Hr1 & E1)|]; [left; exists r1; split; [done|congruence]|by right].
Qed.

Lemma kept_G d s d' s' : kept d d' → (∀ q, s q <= s' q) → G d s d' s'.
Proof. intros Hk Hs. split; [done|]. intros c r Hr. left. by apply Hk. Qed.

(** The conversation is known and, while it is there, a group. *)
Definition known_group (c : Z) : assertion := λ d s, c < s SConversations ∧ group_if_any c d.

Global Instance known_group_stable c : Stable G (known_group c).
Proof.
  intros d s d' s' [Hc Hg] [Hs Hk]. specialize (Hs SConversations). split; [lia|]. intros v.
  unfold conv_view. destruct (conversations d' !! c) as [r'|] eqn:Hr; [|done]. intros [= <-].
  destruct (Hk c r' Hr) as [(r & Hr0 & E)|]; [|lia]. simpl. rewrite E. apply (Hg (cview r)).
  unfold conv_view. by rewrite Hr0.
Qed.

Lemma refs_start : refs_ok empty_db.
Proof. split; intros k r v; simpl; by rewrite lookup_empty. Qed.

Lemma shared_mono d s s' : shared_ok d s → (∀ q, s q <= s' q) → shared_ok d s'.
Proof.
  intros (H1 & H2 & H3 & H4 & [H5 H5'] & H6) Hs. split_and!; [by eapply conv_inv_mono|by eapply accounts_mono
    |by eapply receipts_ok_mono|..|done].
  - eapply reactions_fewer; [done|unfold fewer_reactions; reflexivity|done].
  - split; [|done]. intros i r Hr. specialize (H5 i r Hr). specialize (Hs SAuditLogs). lia.
Qed.

(** ** Transactions *)

(** What each transaction must do; [K] is what its caller knows. *)
Definition sound {A} (K : assertion) (m : M World exn A) : Prop := ∀ w,
  shared_ok (db w) (seqs w) → K (db w) (seqs w) →
  shared_ok (db (m w).2) (seqs (m w).2) ∧ G (db w) (seqs w) (db (m w).2) (seqs (m w).2).

(** Parts of the invariant that speak about other tables. *)
Definition same_audit (d d' : Database) : Prop := audit_logs d' = audit_logs d.
Global Instance same_audit_preorder : PreOrder same_audit.
Proof. split; [done|]. intros a b c. unfold same_audit. congruence. Qed.

Lemma audit_same d d' s s' : audit_ok d s → same_audit d d' → (∀ q, s q <= s' q) → audit_ok d' s'.
Proof.
  intros [H1 H2] E Hs. unfold audit_ok. rewrite E. split; [|done]. intros i r Hr. specialize (H1 i r Hr).
  specialize (Hs SAuditLogs). lia.
Qed.

Lemma accounts_same d d' s s' : accounts_ok d s → same_users d d' → (∀ q, s q <= s' q) → accounts_ok d' s'.
Proof. intros H E Hs. eapply accounts_mono; [|done]. unfold accounts_ok. by rewrite E. Qed.

Lemma hoare_end {A} (P I : assertion) (m : M World exn A) w :
  hoare P m (λ _, I) I → P (db w) (seqs w) → I (db (m w).2) (seqs (m w).2).
Proof. intros Hm Hw. specialize (Hm w Hw). by destruct (m w) as [[]]. Qed.

Lemma sound_parts {A} (K : assertion) (m : M World exn A) :
  hoare (λ d s, members_inv false d s ∧ K d s) m (λ _, members_inv false) (members_inv false) →
  hoare (λ d s, accounts_ok d s ∧ K d s) m (λ _, accounts_ok) accounts_ok →
  hoare receipts_ok m (λ _, receipts_ok) receipts_ok →
  hoare reactions_ok m (λ _, reactions_ok) reactions_ok →
  hoare audit_ok m (λ _, audit_ok) audit_ok →
  (∀ w, shared_ok (db w) (seqs w) → refs_ok (db (m w).2)) →
  (∀ w, shared_ok (db w) (seqs w) → G (db w) (seqs w) (db (m w).2) (seqs (m w).2)) →
  sound K m.
Proof.
  intros H1 H2 H3 H4 H5 H6 H7 w Hw HK. split; [|by apply H7]. pose proof Hw as (? & ? & ? & ? & ? & ?).
  split_and!; [by eapply hoare_end|by eapply hoare_end|by eapply hoare_end|by eapply hoare_end|by eapply hoare_end|by apply H6].
Qed.

(** A failed transaction leaves the references alone. *)
Lemma refs_txn {A} (fn : M World exn A) w :
  shared_ok (db w) (seqs w) →
  (∀ w a w', shared_ok (db w) (seqs w) → fn w = (Ok a, w') → refs_ok (db w')) →
  refs_ok (db (with_transaction fn w).2).
Proof.
  intros Hw Hfn. destruct (with_transaction_db fn w) as [->|(a & w1 & w' & (Ed & Es & _) & Hr & ->)]; [apply Hw|].
  eapply Hfn, Hr. by rewrite Ed, Es.
Qed.

Lemma evolves_G {A} (m : M World exn A) w : evolves kept m → G (db w) (seqs w) (db (m w).2) (seqs (m w).2).
Proof. intros Hm. destruct (Hm w). by apply kept_G. Qed.

Lemma kept_same d d' : conversations d' = conversations d → kept d d'.
Proof. intros E c r. rewrite E. eauto. Qed.
Lemma kept_update c f now d :
  (∀ r, ConversationRow.type (f r) = ConversationRow.type r) → kept d (update_conversation c f now d).
Proof.
  intros Hf c' r'. simpl. rewrite lookup_alter_Some. intros [(-> & r & Hr & ->)|[_ Hr]]; [|eauto].
  exists r. split; [done|]. simpl. apply Hf.
Qed.
Lemma kept_cascade c d : kept d (cascade c d).
Proof. intros c' r'. simpl. rewrite lookup_delete_Some. intros [_ ?]. eauto. Qed.

Create HintDb kept.
#[export] Hint Extern 1 (kept _ _) => apply kept_same; reflexivity : kept.
#[export] Hint Extern 2 (kept _ _) => apply kept_update; intros; reflexivity : kept.
#[export] Hint Resolve kept_cascade : kept.

(** The parts a transaction leaves alone. *)
Ltac evolve := repeat first [apply evolves_update; intros ?; solve [auto with kept] | evolve_step].
Ltac untouched :=
  lazymatch goal with
  | |- hoare _ _ (λ _, members_inv _) _ =>
      eapply hoare_conseq; [apply (evolves_keeps same_views (members_inv false)); [apply conv_inv_views|by evolve]
        |by intros ? ? [? ?]|done..]
  | |- hoare _ _ (λ _, accounts_ok) _ =>
      eapply hoare_conseq; [apply (evolves_keeps same_users accounts_ok); [apply accounts_same|by evolve]
        |by intros ? ? [? ?]|done..]
  | |- hoare _ _ (λ _, receipts_ok) _ => apply (evolves_keeps fewer_receipts); [apply receipts_fewer|by evolve]
  | |- hoare _ _ (λ _, reactions_ok) _ => apply (evolves_keeps fewer_reactions); [apply reactions_fewer|by evolve]
  | |- hoare _ _ (λ _, audit_ok) _ => apply (evolves_keeps same_audit); [apply audit_same|by evolve]
  | |- _ => intros ? _; apply evolves_G; by evolve
  end.

(** References after one row was written: the row points to rows that are there,
    everything else as before. *)
Lemma dom_insert_sub {V} (t : gmap Z V) k r : dom t ⊆ dom (<[k := r]> t).
Proof. rewrite dom_insert. set_solver. Qed.
Lemma dom_alter_sub {V} (t : gmap Z V) k g : dom t ⊆ dom (alter g k t).
Proof. by rewrite dom_alter. Qed.

Ltac points_step :=
  first
    [ assumption
    | eapply points_mono; [|apply dom_insert_sub]
    | eapply points_mono; [|apply dom_alter_sub]
    | apply points_insert
    | apply points_alter; [|done]
    | apply points_update_where; [|done]
    | eapply points_subseteq; [|first [apply map_filter_subseteq | apply delete_subseteq]] ].
Ltac solve_refs :=
  match goal with H : shared_ok _ _ |- refs_ok _ => destruct H as (_ & _ & _ & _ & _ & []) end;
  split; simpl; repeat points_step; simpl.
Ltac refs_txn := intros ? ?; apply refs_txn; [assumption|]; intros ? ? ? ? ?.


(** Programs that keep the references without a check. *)
Definition refs_le (d d' : Database) : Prop := refs_ok d → refs_ok d'.
Global Instance refs_le_preorder : PreOrder refs_le.
Proof. split; [by intros d ?|]. intros a b c H1 H2 ?. by apply H2, H1. Qed.
Lemma evolves_refs {A} (m : M World exn A) w : evolves refs_le m → shared_ok (db w) (seqs w) → refs_ok (db (m w).2).
Proof. intros Hm (_ & _ & _ & _ & _ & Hr). by apply Hm. Qed.
#[export] Hint Extern 1 (refs_le _ _) => intros []; split; simpl; solve [repeat points_step] : kept.

Lemma G_txn {A} (fn : M World exn A) w :
  shared_ok (db w) (seqs w) → grows fn →
  (∀ w a w', shared_ok (db w) (seqs w) → fn w = (Ok a, w') → ∀ c r', conversations (db w') !! c = Some r' →
     (∃ r, conversations (db w) !! c = Some r ∧ ConversationRow.type r' = ConversationRow.type r) ∨
     seqs w SConversations <= c) →
  G (db w) (seqs w) (db (with_transaction fn w).2) (seqs (with_transaction fn w).2).
Proof.
  intros Hw Hg Hfn. split; [apply (grows_with_transaction fn Hg w)|].
  destruct (with_transaction_db fn w) as [->|(a & w1 & w' & (Ed & Es & _) & Hr & ->)]; [eauto|].
  rewrite <- Ed, <- Es. eapply Hfn, Hr. by rewrite Ed, Es.
Qed.

Definition same_conversations (d d' : Database) : Prop := conversations d' = conversations d.
Global Instance same_conversations_preorder : PreOrder same_conversations.
Proof. split; [done|]. intros a b c. unfold same_conversations. congruence. Qed.
Lemma insert_ignore_conversations c u role w a w' :
  insert_ignore c u role w = (Ok a, w') → conversations (db w') = conversations (db w).
Proof.
  intros H. pose proof (evolves_run same_conversations (insert_ignore c u role) w) as He. rewrite H in He.
  apply He. unfold insert_ignore. solve_evolves.
Qed.

Ltac untouched_refs := intros ? ?; apply evolves_refs; [by evolve|assumption].
Ltac from_repository L := eapply hoare_conseq; [apply L|..]; [|done..]; by intros ? ? [? ?].

(** *** Conversations *)

Lemma remove_participant_sound c u : sound nothing (remove_participant c u).
Proof.
  apply sound_parts; [|untouched..|untouched_refs|untouched].
  from_repository (remove_participant_keeps (strict:=false) c u).
Qed.

Lemma add_participant_sound c u : sound (known_group c) (add_participant c u ParticipantRole.kMember).
Proof.
  apply sound_parts; [|untouched..|untouched_refs|untouched].
  eapply hoare_conseq; [apply (add_participant_keeps (strict:=false) c u)|..]; [|done..]. by intros d s [? [_ ?]].
Qed.

Lemma transfer_ownership_sound c n : sound (known_group c) (transfer_ownership c n).
Proof.
  apply sound_parts; [|untouched..|untouched_refs|untouched].
  eapply hoare_conseq; [apply (transfer_ownership_keeps (strict:=false) c n)|..|done].
  - by intros d s [? [_ ?]].
  - by intros ? d s [? _].
Qed.

Lemma rename_sound c name : sound nothing (rename c name).
Proof. apply sound_parts; [untouched..|untouched_refs|untouched]. Qed.

Lemma update_last_read_sound c u m : sound nothing (update_last_read c u m).
Proof. apply sound_parts; [untouched..|untouched_refs|untouched]. Qed.

Lemma create_or_get_direct_sound a b : a ≠ b → sound nothing (create_or_get_direct a b).
Proof.
  intros Hab. apply sound_parts; [|unfold create_or_get_direct, insert_ignore; untouched..| |].
  - from_repository (create_or_get_direct_keeps (strict:=false) a b Hab).
  - unfold create_or_get_direct, insert_ignore. untouched_refs.
  - intros w Hw. apply G_txn; [done|repeat first [apply insert_ignore_grows|progress solve_grows]|].
    clear w Hw. intros w x w' Hw H. run_txn H.
    repeat match goal with H1 : insert_ignore _ _ _ _ = _ |- _ => apply insert_ignore_conversations in H1; rewrite H1; clear H1 end.
    simpl. intros c r'. rewrite lookup_insert_Some. intros [[<- <-]|[_ Hr]]; [|eauto].
    destruct (one_row _ _) as [[cid r]|] eqn:E; [|right; simpl; lia]. left. apply one_row_some in E as [Hr _]. eauto.
Qed.

Lemma create_group_sound o name ms : sound nothing (create_group o name ms).
Proof.
  apply sound_parts; [|unfold create_group, insert_ignore; untouched..| |].
  - from_repository (create_group_keeps (strict:=false) o name ms).
  - unfold create_group, insert_ignore. untouched_refs.
  - intros w Hw. apply G_txn; [done|repeat first [apply insert_ignore_grows|progress solve_grows]|].
    clear w Hw. intros w x w' Hw H. run_txn H.
    match goal with H1 : for_each ?f ?l ?w1 = _ |- _ =>
      pose proof (evolves_run same_conversations (for_each f l) w1) as He; rewrite H1 in He end.
    destruct He as [He _]; [unfold insert_ignore; solve_evolves|]. unfold same_conversations in He. simpl in He. rewrite He.
    intros c r'. rewrite lookup_insert_Some. intros [[<- <-]|[_ Hr]]; [right; lia|eauto].
Qed.

(** The cascade takes the rows that would dangle. *)
Lemma cascade_refs c d : refs_ok d → refs_ok (cascade c d).
Proof.
  intros [R1 R2 R3 R4 R5 R6 R7 R8 R9 R10 R11 R12].
  assert (∀ m, m ∈ dom (messages d) →
    exists_row (messages d) m && negb (exists_row (delete_where (λ r, MessageRow.conversation_id r =? c) (messages d)) m) = false →
    m ∈ dom (delete_where (λ r, MessageRow.conversation_id r =? c) (messages d))) as Hgone.
  { intros m Hm Hg. apply elem_of_dom, exists_row_true. apply elem_of_dom, exists_row_true in Hm. rewrite Hm in Hg.
    by destruct (exists_row _ m) in Hg |- *. }
  split; simpl; try assumption; try (by eapply points_subseteq; [eassumption|apply map_filter_subseteq]).
  - intros m r v. rewrite lookup_delete_where. intros [Hm Hc] [= <-]. apply Z.eqb_neq in Hc. rewrite dom_delete.
    apply elem_of_difference. split; [by eapply R2|set_solver].
  - intros k r v. rewrite lookup_delete_where. intros [Hk Hg] [= <-]. apply Hgone; [by eapply R4|done].
  - intros k r v. rewrite lookup_delete_where. intros [Hk Hg] [= <-]. apply Hgone; [by eapply R6|done].
  - intros k r v. rewrite lookup_delete_where. intros [Hk Hg] Hv. rewrite Hv in Hg. apply Hgone; [by eapply R9|done].
Qed.

Lemma remove_sound c : sound nothing (remove c).
Proof.
  apply sound_parts; [|untouched..| |untouched].
  - from_repository (remove_keeps (strict:=false) c).
  - intros w Hw. apply refs_txn; [done|]. clear w Hw. intros w a w' Hw H. run_txn H. apply cascade_refs, Hw.
Qed.

(** *** Messages, attachments, receipts and reactions *)

(** The value is a key: a check said so, or an older version of the row has it. *)
Ltac solve_key :=
  intros ? ?; simplify_eq/=;
  repeat match goal with H : _ && _ = true |- _ => apply andb_true_iff in H as [? ?] end;
  first
    [ apply elem_of_dom, exists_row_true; assumption
    | match goal with Hp : points ?f ?t ?T, Hl : ?t !! _ = Some _ |- _ ∈ ?T =>
        eapply Hp; [exact Hl|first [reflexivity | eassumption]] end ].
Ltac refs_step :=
  match goal with |- ∀ w, _ → refs_ok (db (_ w).2) =>
    let w := fresh "w" in let Hw := fresh "Hw" in
    intros w Hw; apply refs_txn; [exact Hw|]; clear w Hw;
    let R := fresh "R" in intros w ? ? Hw R; run_txn R; try apply Hw; solve_refs; try solve_key end.

Lemma message_create_sound input : sound nothing (PgMessageRepository.create input).
Proof. apply sound_parts; [untouched..|refs_step|untouched]. Qed.

Lemma update_content_sound id content : sound nothing (PgMessageRepository.update_content id content).
Proof. apply sound_parts; [untouched..|refs_step|untouched]. Qed.

Lemma soft_delete_sound id : sound nothing (PgMessageRepository.soft_delete id).
Proof. apply sound_parts; [untouched..|refs_step|untouched]. Qed.

Lemma attachment_create_sound input : sound nothing (PgAttachmentRepository.create input).
Proof. apply sound_parts; [untouched..|refs_step|untouched]. Qed.

Lemma update_media_meta_sound id width height key : sound nothing (PgAttachmentRepository.update_media_meta id width height key).
Proof. apply sound_parts; [untouched..|untouched_refs|untouched]. Qed.

Lemma attachment_remove_sound id : sound nothing (PgAttachmentRepository.remove id).
Proof. apply sound_parts; [untouched..|untouched_refs|untouched]. Qed.

Lemma link_loop_refs ids m o w a w' :
  refs_ok (db w) → PgAttachmentRepository.link_loop ids m o w = (Ok a, w') → refs_ok (db w').
Proof.
  revert w a w'. induction ids as [|i ids IH]; intros w a w' Hw R; simpl in R; run_txn R; try done;
    (eapply IH; [|eassumption]); try done.
  destruct Hw. split; simpl; repeat points_step; simpl; solve_key.
Qed.

Lemma link_sound ids m o : sound nothing (with_transaction (PgAttachmentRepository.link_loop ids m o)).
Proof.
  assert (∀ R `{!PreOrder R}, (∀ d t, R d (set_attachments t d)) →
    evolves R (with_transaction (PgAttachmentRepository.link_loop ids m o))) as He.
  { intros R HP HR. apply evolves_with_transaction; [done|]. by apply evolves_link_loop. }
  apply sound_parts.
  - eapply hoare_conseq; [apply (evolves_keeps same_views (members_inv false)); [apply conv_inv_views|by apply He; [apply _|]]
      |by intros ? ? [? ?]|done..].
  - eapply hoare_conseq; [apply (evolves_keeps same_users accounts_ok); [apply accounts_same|by apply He; [apply _|]]
      |by intros ? ? [? ?]|done..].
  - apply (evolves_keeps fewer_receipts); [apply receipts_fewer|apply He; [apply _|intros; unfold fewer_receipts; reflexivity]].
  - apply (evolves_keeps fewer_reactions); [apply reactions_fewer|apply He; [apply _|intros; unfold fewer_reactions; reflexivity]].
  - apply (evolves_keeps same_audit); [apply audit_same|by apply He; [apply _|]].
  - intros w Hw. apply refs_txn; [done|]. intros w1 a w' Hw1 R. eapply link_loop_refs; [apply Hw1|exact R].
  - intros w _. apply evolves_G, He; [apply _|]. intros d t. by apply kept_same.
Qed.

(** A step of the receipt repository, from what it does since its start. *)
Lemma receipts_step {A} (m : M World exn A) :
  (∀ d0, hoare (R d0) m (λ _, R d0) (R d0)) → hoare receipts_ok m (λ _, receipts_ok) receipts_ok.
Proof.
  intros Hm w Hok. specialize (Hm (db w) w (conj Hok (conj (reflexivity _) (reflexivity _)))).
  destruct (m w) as [[?|?] w']; by destruct Hm.
Qed.

Lemma upsert_state_sound m u st : sound nothing (PgReadReceiptRepository.upsert_state m u st).
Proof.
  apply sound_parts; [untouched..| |untouched|untouched|refs_step|untouched].
  - apply receipts_step. intros d0. apply upsert_state_keeps.
  - match goal with E : one_row _ _ = Some _ |- _ => apply one_row_some in E as [? _] end. solve_key.
  - match goal with E : one_row _ _ = Some _ |- _ => apply one_row_some in E as [? _] end. solve_key.
Qed.

Lemma read_one_refs u m w a w' :
  refs_ok (db w) → m ∈ dom (messages (db w)) → PgReadReceiptRepository.read_one u m w = (Ok a, w') →
  refs_ok (db w') ∧ messages (db w') = messages (db w).
Proof.
  intros Hw Hm H. unfold PgReadReceiptRepository.read_one in H. run_txn H; [done|..]; (split; [|done]).
  - match goal with E : one_row _ _ = Some _ |- _ => apply one_row_some in E as [? [? ?]%is_receipt_true] end.
    subst. destruct Hw. split; simpl; repeat points_step; simpl; solve_key.
  - destruct Hw. split; simpl; repeat points_step; simpl; [by intros ? [= <-]|solve_key].
Qed.

Lemma read_all_refs u (ms : list (Z * MessageRow.t)) w a w' :
  refs_ok (db w) → Forall (λ kr, kr.1 ∈ dom (messages (db w))) ms →
  for_each (λ kr : Z * MessageRow.t, PgReadReceiptRepository.read_one u kr.1) ms w = (Ok a, w') → refs_ok (db w').
Proof.
  revert w. induction ms as [|kr ms IH]; intros w Hw Hms H; simpl in H; [by apply ret_ok in H as [_ ->]|].
  apply Forall_cons in Hms as [Hm Hms]. apply bind_ok_inv in H as (x & w1 & H1 & H).
  apply read_one_refs in H1 as [Hw1 E]; [|done..]. eapply IH; [exact Hw1|by rewrite E|exact H].
Qed.

Lemma mark_conversation_read_sound c u m : sound nothing (PgReadReceiptRepository.mark_conversation_read c u m).
Proof.
  apply sound_parts;
    [| |apply receipts_step; intros d0; apply mark_conversation_read_keeps
    | | | |];
    [unfold PgReadReceiptRepository.mark_conversation_read, PgReadReceiptRepository.read_one; untouched..| |].
  - intros w Hw. apply refs_txn; [done|]. clear w Hw. intros w a w' (_ & _ & _ & _ & _ & Hw) H.
    apply bind_ok_inv in H as (ms & w1 & H1 & H). apply on_db_ok in H1 as [-> ->].
    eapply read_all_refs; [exact Hw| |exact H]. apply Forall_forall.
    intros [k r] [_ Hin%elem_of_map_to_list]%list_elem_of_filter. apply elem_of_dom. by eexists.
  - unfold PgReadReceiptRepository.mark_conversation_read, PgReadReceiptRepository.read_one. untouched.
Qed.

Lemma reaction_upsert_sound m u e :
  Reaction.is_allowed_reaction e = true → sound nothing (PgReactionRepository.upsert m u e).
Proof.
  intros He. apply sound_parts; [untouched..| |untouched|refs_step|untouched].
  - by apply upsert_reaction_keeps.
  - match goal with E : one_row _ _ = Some _ |- _ => apply one_row_some in E as [? _] end. solve_key.
  - match goal with E : one_row _ _ = Some _ |- _ => apply one_row_some in E as [? _] end. solve_key.
Qed.

Lemma reaction_remove_sound m u : sound nothing (PgReactionRepository.remove m u).
Proof. apply sound_parts; [untouched..|untouched_refs|untouched]. Qed.

(** *** Accounts and sessions *)

Lemma user_create_sound `{ViolationText} input :
  sound (λ _ _, no_at (PgUserRepository.nu_username input) = true ∧ no_at (PgUserRepository.nu_email input) = false)
    (PgUserRepository.create input).
Proof.
  apply sound_parts; [untouched| |untouched..|refs_step|untouched].
  apply hoare_txn; [solve_grows|by intros d s s' [? _]; apply accounts_mono|].
  intros w a w' (Hok & Hu & He) R. run_txn R. split; by apply accounts_insert.
Qed.

Lemma update_profile_sound id u : sound nothing (PgUserRepository.update_profile id u).
Proof.
  apply sound_parts; [untouched| |untouched..|refs_step|untouched].
  apply hoare_txn; [solve_grows|by intros d s s' [? _]; apply accounts_mono|].
  intros w a w' [Hok _] R. run_txn R; [done|]. split; by eapply accounts_replace.
Qed.

Lemma set_role_sound id role : sound nothing (PgUserAdminRepository.set_role id role).
Proof.
  apply sound_parts; [untouched| |untouched..|refs_step|untouched].
  apply hoare_txn; [solve_grows|by intros d s s' [? _]; apply accounts_mono|].
  intros w a w' [Hok _] R. run_txn R. split; by eapply accounts_replace.
Qed.

Lemma set_banned_sound `{PgText} id banned reason actor :
  sound nothing (PgUserAdminRepository.set_banned id banned reason actor).
Proof.
  apply sound_parts; [untouched| |untouched..|refs_step|untouched].
  apply hoare_txn; [solve_grows|by intros d s s' [? _]; apply accounts_mono|].
  intros w a w' [Hok _] R. run_txn R; split; by eapply accounts_replace.
Qed.

Lemma session_create_sound input : sound nothing (PgSessionRepository.create input).
Proof. apply sound_parts; [untouched..|refs_step|untouched]. Qed.

Lemma session_rotate_sound id hash : sound nothing (PgSessionRepository.rotate id hash).
Proof. apply sound_parts; [untouched..|untouched_refs|untouched]. Qed.

Lemma revoke_where_sound P : sound nothing (PgSessionRepository.revoke_where P).
Proof.
  apply sound_parts; [untouched..| |untouched]. refs_step.
  eapply points_same; [eassumption|]. intros k r'. rewrite map_lookup_imap, bind_Some. intros (r & Hr & [= <-]).
  exists r. split; [done|]. by case_match.
Qed.

Lemma delete_expired_sound : sound nothing PgSessionRepository.delete_expired.
Proof. apply sound_parts; [untouched..|untouched_refs|untouched]. Qed.

(** *** Notifications and the audit log *)

Lemma notification_create_sound u type payload : sound nothing (PgNotificationRepository.create u type payload).
Proof. apply sound_parts; [untouched..|refs_step|untouched]. Qed.

Lemma notification_mark_read_sound id u : sound nothing (PgNotificationRepository.mark_read id u).
Proof. apply sound_parts; [untouched..|refs_step|untouched]. Qed.

Lemma mark_all_read_sound u : sound nothing (PgNotificationRepository.mark_all_read u).
Proof. apply sound_parts; [untouched..|untouched_refs|untouched]. Qed.

Lemma notification_remove_sound id u : sound nothing (PgNotificationRepository.remove id u).
Proof. apply sound_parts; [untouched..|untouched_refs|untouched]. Qed.

Lemma audit_insert d s r :
  audit_ok d s → any_row (PgAuditLogRepository.has_event_id (AuditRow.event_id r)) (audit_logs d) = false →
  audit_ok (set_audit_logs (<[s SAuditLogs := r]> (audit_logs d)) d)
    (λ q, if decide (q = SAuditLogs) then s SAuditLogs + 1 else s q).
Proof.
  intros [H1 H2] Hn. rewrite any_row_false in Hn. unfold PgAuditLogRepository.has_event_id in Hn.
  setoid_rewrite String.eqb_neq in Hn. split; cbn [audit_logs set_audit_logs].
  - intros i x. rewrite decide_True by done. rewrite lookup_insert_Some. intros [[<- _]|[_ Hx]]; [lia|]. specialize (H1 _ _ Hx). lia.
  - intros i j x y. rewrite !lookup_insert_Some. intros [[<- <-]|[? Hx]] [[<- <-]|[? Hy]] E; [done| | |eauto].
    + by destruct (Hn _ _ Hy).
    + by destruct (Hn _ _ Hx).
Qed.

Lemma append_sound `{PgTime} input : sound nothing (PgAuditLogRepository.append input).
Proof.
  apply sound_parts; [untouched..| |refs_step|untouched].
  - apply hoare_txn; [|intros d s s' Hok; by apply (audit_same d)|].
    { apply grows_bind; [intros w q; unfold lift; simpl; lia|]. intros ?. solve_grows. }
    intros w a w' Hok R. run_txn R; [split; (eapply audit_same; [exact Hok|done|intros q; case_decide; subst; lia])|].
    split; by apply audit_insert.
  - intros v Hv. match goal with E : match _ with _ => _ end = true |- _ => simpl in Hv; rewrite Hv in E end.
    by apply elem_of_dom, exists_row_true.
Qed.
