(* ===== verification/Interleave.v ===== *)
(** * Interleave: the services under interleaving

    The calls of System and the other writing transactions of the repositories,
    cut at their transactions by the rules of Overlap and interleaved in any way.
    What the schema declares, and what the services keep by themselves, holds in
    every state between two transactions ([interleaved_tables]).  What only holds
    when calls do not overlap is shown by schedules: an owner and a member who
    leave at the same time ([ownership_race]), and two exchanges of one refresh
    token ([rotation_race]). *)

From S2P Require Import Prelude Text Json Errors Validation TimeUtil Rbac Models Events Dto SqlSchema Database.
From S2P Require Import Samples Users Conversations ConversationInv ConversationProps Repositories.
From S2P Require Import Attachments Messages MessageProps Receipts Notifications Tokens Sessions SessionProps.
From S2P Require Import UserProps System Authorization AuditTrail Overlap Shared.
Import PgConversationRepository.
Open Scope string_scope.
Open Scope Z_scope.

(** ** Cutting calls *)

Abbreviation free := (Free shared_ok G).
Abbreviation steps := (Steps shared_ok G).

Lemma sound_hoare {A} (K : assertion) `{!Stable G K} (m : M World exn A) :
  sound K m → hoare (λ d s, shared_ok d s ∧ K d s) m (λ _ d s, shared_ok d s ∧ K d s) shared_ok.
Proof.
  intros Hm w [Hw HK]. destruct (Hm w Hw HK) as [H1 H2]. assert (K (db (m w).2) (seqs (m w).2)) by by eapply stable.
  by destruct (m w) as [[]].
Qed.

Definition knowing {A} (K : assertion) `{!Stable G K} (body : M World exn A) (H : sound K (with_transaction body))
    : steps K (with_transaction body) (λ _, K) :=
  steps_txn shared_ok G K body (λ _, K) (sound_hoare K _ H) (λ w Hw HK, proj2 (H w Hw HK)).
Definition free_txn {A} (body : M World exn A) (H : sound nothing (with_transaction body)) : free (with_transaction body) :=
  knowing nothing body H.

Lemma query_sound {A} (f : Database → A) : sound nothing (with_transaction (on_db f)).
Proof.
  intros w Hw _. destruct (reader_query f w) as (Ed & Es & _). rewrite Ed, Es. split; [done|]. apply guarantee_refl.
Qed.
Definition free_query {A} (f : Database → A) : free (with_transaction (on_db f)) := free_txn _ (query_sound f).

Definition free_done {A} (m : M World exn A) (r : result exn A) (H : ∀ w, (r, w) = m w) : free m :=
  steps_done shared_ok G r nothing m (λ _, nothing) H (λ _ _ _ _ _ _, Logic.I).
Definition free_ret {A} (a : A) : free (mret a) := free_done _ (Ok a) (λ _, eq_refl).
Definition free_throw {A} (e : exn) : free (mthrow e : M World exn A) := free_done _ (Err e) (λ _, eq_refl).
Definition free_lift {A} (r : result exn A) : free (lift r) := free_done _ r (λ _, eq_refl).

Definition free_local {A} (m : M World exn A) (H : ∀ w, local m w = m w) : free m := steps_local shared_ok G nothing m H.
Definition free_emit (e : Effect) : free (emit e) := free_local (emit e) (λ _, eq_refl).
Lemma gets_local {A} (f : World → A) w : local (gets f) w = gets f w.
Proof. by destruct w. Qed.
Definition free_gets {A} (f : World → A) : free (gets f) := free_local (gets f) (gets_local f).
Definition free_files (f : World → gmap string string) (g : World → list bool) :
  free (modify (λ w, set_files (f w) (g w) w)) := free_local (modify (λ w, set_files (f w) (g w) w)) (λ _, eq_refl).
Lemma write_file_local path bytes w :
  local (LocalFileStorage.write_file path bytes) w = LocalFileStorage.write_file path bytes w.
Proof. unfold local, LocalFileStorage.write_file. by destruct (default false (head (io_faults w))). Qed.
Definition free_write_file (path bytes : string) : free (LocalFileStorage.write_file path bytes) :=
  free_local _ (write_file_local path bytes).
Definition free_bind {A B} (m : M World exn A) (f : A → M World exn B) (Sm : free m) (Sf : ∀ a, free (f a)) : free (m ≫= f) :=
  steps_bind shared_ok G nothing (λ _, nothing) (λ _, nothing) m f Sm Sf.

(** With knowledge: a check of the input, and steps that need none. *)
Definition checked_lift {A} (K : assertion) (r : result exn A) : steps K (lift r) (λ a _ _, r = Ok a) :=
  steps_done shared_ok G r K (lift r) (λ a _ _, r = Ok a) (λ _, eq_refl) (λ _ _ _ H _ _, H).
Lemma no_result {A} (e : exn) (a : A) (P : Prop) : Err e = Ok a → P.
Proof. done. Qed.
Definition stop {A} (K : assertion) (Q : A → assertion) (e : exn) : steps K (mthrow e) Q :=
  steps_done shared_ok G (Err e) K (mthrow e) Q (λ _, eq_refl) (λ a d s H _ _, no_result e a _ H).
Definition forget {A} (K : assertion) (m : M World exn A) (S : free m) : steps K m (λ _, nothing) :=
  steps_conseq shared_ok G K nothing (λ _, nothing) (λ _, nothing) m S (λ _ _ _ _, Logic.I) (λ _ _ _ _ H, H).

(** The atoms and the structure of a call; what is left are transactions that
    write. *)
Ltac cut_step :=
  lazymatch goal with
  | |- Free _ _ (mbind _ _) => apply free_bind; [|intros ?]
  | |- Free _ _ (mret _) => apply free_ret
  | |- Free _ _ (mthrow _) => apply free_throw
  | |- Free _ _ (lift _) => apply free_lift
  | |- Free _ _ (emit _) => apply free_emit
  | |- Free _ _ clock => apply free_gets
  | |- Free _ _ (gets _) => apply free_gets
  | |- Free _ _ (modify _) => apply free_files
  | |- Free _ _ (LocalFileStorage.write_file _ _) => apply free_write_file
  | |- Free _ _ (with_transaction (on_db _)) => apply free_query
  | |- Free _ _ (for_each _ _) => apply steps_for_each; intros ?
  | |- Free _ _ (let x := _ in _) => cbn zeta
  | |- Free _ _ ((λ _, _) _) => cbn beta
  | |- Free _ _ (if _ then _ else _) => case_match
  | |- Free _ _ (match _ with _ => _ end) => case_match
  end.
Ltac cut := repeat cut_step.

Section Calls.
Context `{PasswordHasher, ViolationText, Sha256, ImageProcessor, T : TokenService, PgText, PgTime}.
Context (root : string) (options : AttachmentService.Options) (ttl : Z).

(** The reading operations and the checks made of them. *)
Ltac unfold_reads :=
  unfold MessageService.require_participant, MessageService.require_message, MessageService.to_response,
    AttachmentService.attachment_ids_for, AttachmentService.require_attachment, AttachmentService.link_to_message,
    AttachmentService.schedule_image_processing, LocalFileStorage.put, LocalFileStorage.remove,
    ReactionService.authorize, ConversationService.require_conversation, ConversationService.require_participant,
    ConversationService.require_owner, ConversationService.require_user_exists;
  unfold PgAttachmentRepository.link_to_message, PgAttachmentRepository.list_for_message,
    PgAttachmentRepository.find_by_id, PgMessageRepository.find_by_id, PgUserRepository.find_by_id,
    PgUserRepository.find_by_identifier, PgSessionRepository.find_by_id, is_participant, find_by_id, find_participant,
    list_participants, list_participant_ids.

Definition cut_send a r : free (MessageService.send a r).
Proof.
  unfold MessageService.send. unfold_reads. cut.
  - apply free_txn, message_create_sound.
  - apply free_txn, link_sound.
Defined.

Definition cut_edit a m r : free (MessageService.edit a m r).
Proof. unfold MessageService.edit. unfold_reads. cut. apply free_txn, update_content_sound. Defined.

Definition cut_remove_message a m : free (MessageService.remove a m).
Proof. unfold MessageService.remove. unfold_reads. cut; apply free_txn, soft_delete_sound. Defined.

Definition cut_delivered a m : free (ReadReceiptService.mark_delivered a m).
Proof. unfold ReadReceiptService.mark_delivered. unfold_reads. cut. apply free_txn, upsert_state_sound. Defined.

Definition cut_read a c m : free (ReadReceiptService.mark_read a c m).
Proof.
  unfold ReadReceiptService.mark_read. unfold_reads. cut.
  - apply free_txn, mark_conversation_read_sound.
  - apply free_txn, update_last_read_sound.
Defined.

Definition cut_react a m e : free (ReactionService.react a m e).
Proof.
  unfold ReactionService.react. unfold_reads. cut. apply free_txn, reaction_upsert_sound. by apply negb_false_iff.
Defined.

Definition cut_unreact a m : free (ReactionService.unreact a m).
Proof. unfold ReactionService.unreact. unfold_reads. cut. apply free_txn, reaction_remove_sound. Defined.

Definition cut_upload t i : free (AttachmentService.upload root options t i).
Proof. unfold AttachmentService.upload. unfold_reads. cut. all: apply free_txn, attachment_create_sound. Defined.

Definition cut_image_job a b t k : free (AttachmentService.image_job root options a b t k).
Proof. unfold AttachmentService.image_job. unfold_reads. cut; apply free_txn, update_media_meta_sound. Defined.

Definition cut_remove_attachment a i : free (AttachmentService.remove root a i).
Proof. unfold AttachmentService.remove. unfold_reads. cut; apply free_txn, attachment_remove_sound. Defined.

Definition cut_register salt ja jr req : free (AuthService.register_user salt ja jr req).
Proof.
  unfold AuthService.register_user. eapply steps_bind; [apply checked_lift|]. intros req'.
  eapply steps_bind; [|intros u; unfold AuthService.build_response; apply forget; cut].
  eapply steps_conseq; [apply (knowing (λ _ _, no_at (reg_username req') = true ∧ no_at (reg_email req') = false));
    exact (user_create_sound {| PgUserRepository.nu_username := reg_username req'; PgUserRepository.nu_email := reg_email req';
      PgUserRepository.nu_password_hash := hash salt (reg_password req') |})| |done].
  cbn beta. intros d s _ Hv. apply validated_names in Hv as (? & ? & _). done.
Defined.

Definition cut_account c : free (account_call c).
Proof.
  destruct c; unfold account_call; [apply free_bind; [apply cut_register|intros ?; cut]|..];
    unfold AuthService.login, AuthService.build_response, UserService.get_by_id, UserService.update_profile,
      UserService.authenticate; unfold_reads; cut.
  apply free_txn, update_profile_sound.
Defined.

(** A session call as a program; the environment is an event. *)
Definition session_call (c : SessionCall) : M World exn unit :=
  match c with
  | Record_ id u tok ua ip => SessionService.record ttl id u tok ua ip;; mret ()
  | Rotate a r tok sid => SessionService.rotate a r tok sid;; mret ()
  | Revoke u sid => SessionService.revoke u sid;; mret ()
  | RevokeAll u => SessionService.revoke_all u;; mret ()
  | RevokeOthers u sid => SessionService.revoke_others u sid;; mret ()
  | Cleanup => SessionService.cleanup_expired;; mret ()
  | SessionProps.Environment _ _ => mret ()
  end.

Definition cut_rotate a r tok sid : free (SessionService.rotate a r tok sid).
Proof.
  unfold SessionService.rotate, SessionService.rotate_check, SessionService.rotate_issue. unfold_reads. cut.
  apply free_txn, session_rotate_sound.
Defined.

Definition cut_session c : free (session_call c).
Proof.
  destruct c; unfold session_call, SessionService.record, SessionService.revoke, SessionService.revoke_all,
    SessionService.revoke_others, SessionService.cleanup_expired, PgSessionRepository.revoke, PgSessionRepository.revoke_all,
    PgSessionRepository.revoke_all_except; cut.
  - apply free_txn, session_create_sound.
  - apply cut_rotate.
  - apply free_txn, revoke_where_sound.
  - apply free_txn, revoke_where_sound.
  - apply free_txn, revoke_where_sound.
  - apply free_txn, delete_expired_sound.
Defined.

(** *** Conversations *)

Definition cut_create a r : free (ConversationService.create a r).
Proof.
  unfold ConversationService.create. unfold_reads. cut.
  - apply free_txn, create_or_get_direct_sound. apply not_eq_sym. by apply Z.eqb_neq.
  - apply free_txn, create_group_sound.
Defined.

Definition cut_remove a c : free (ConversationService.remove a c).
Proof. unfold ConversationService.remove. unfold_reads. cut; apply free_txn, remove_sound. Defined.

Definition cut_rename a c r : free (ConversationService.rename_group a c r).
Proof. unfold ConversationService.rename_group. unfold_reads. cut; apply free_txn, rename_sound. Defined.

Definition cut_remove_member a c u : free (ConversationService.remove_member a c u).
Proof. unfold ConversationService.remove_member. unfold_reads. cut; apply free_txn, remove_participant_sound. Defined.

(** What a conversation that was read says about later. *)
Definition group_known (c : Z) (conv : Conversation.t) : assertion := λ d s, Conversation.is_group conv = true → known_group c d s.

Lemma find_group c :
  hoare (λ d s, shared_ok d s ∧ nothing d s) (find_by_id c)
    (λ o d s, shared_ok d s ∧ ∀ conv, o = Some conv → group_known c conv d s) shared_ok.
Proof.
  eapply hoare_conseq; [apply (hoare_query (λ d s, shared_ok d s ∧ nothing d s) _ shared_ok); by intros ? ? [? _]|done| |done].
  cbn beta. intros o d s [[Hok _] ->]. split; [done|]. intros conv E Hg. destruct Hok as (Hinv & _).
  destruct (conversations d !! c) as [r|] eqn:Hr; [|done]. injection E as <-.
  destruct (ConversationServiceInv.is_group_view c r d Hr Hg) as (o & k & Hv & _). split.
  - rewrite conv_view_lookup in Hv. by eapply c_fresh.
  - intros v. rewrite Hv. by intros [= <-].
Qed.

Definition cut_require c : steps nothing (ConversationService.require_conversation c) (group_known c).
Proof.
  unfold ConversationService.require_conversation.
  eapply steps_bind with (R := λ o d s, ∀ conv, o = Some conv → group_known c conv d s).
  - apply steps_txn; [apply _|apply find_group|]. intros w Hw HK. apply (query_sound _ w Hw HK).
  - intros [conv|].
    + eapply (steps_done _ _ (Ok conv)); [done|]. intros a d s [= <-] _ HR. by apply HR.
    + apply stop.
Defined.

Definition cut_require_owner c conv u :
  steps (group_known c conv) (ConversationService.require_owner conv u) (λ _, known_group c).
Proof.
  unfold ConversationService.require_owner. destruct (Conversation.is_group conv) eqn:Hg; simpl.
  - case_decide.
    + apply (steps_done _ _ (Ok ())); [done|]. intros [] d s _ _ HK. by apply HK.
    + apply stop.
  - apply stop.
Defined.

Definition cut_add_member a c u : free (ConversationService.add_member a c u).
Proof.
  unfold ConversationService.add_member. eapply steps_bind; [apply cut_require|]. intros conv.
  eapply steps_bind; [apply cut_require_owner|]. intros ?.
  eapply steps_bind; [apply steps_frame; [apply _|]; unfold_reads; cut|]. intros ?.
  eapply steps_bind; [apply (knowing (known_group c)); exact (add_participant_sound c u)|]. intros ?.
  apply forget. unfold_reads. cut.
Defined.

Definition cut_leave a c : free (ConversationService.leave a c).
Proof.
  unfold ConversationService.leave. eapply steps_bind; [apply cut_require|]. intros conv.
  eapply steps_bind; [apply steps_frame; [apply _|]; unfold_reads; cut|]. intros ?.
  eapply steps_bind; [apply steps_frame; [apply _|]; unfold_reads; cut|]. intros ids.
  eapply steps_bind; [|intros ?; apply forget; cut].
  destruct (Conversation.is_group conv && bool_decide (Conversation.owner_id conv = Some a)) eqn:E; cycle 1.
  { apply forget, free_txn, remove_participant_sound. }
  eapply steps_bind; [apply steps_frame; [apply _|]; unfold_reads; cut|]. intros members.
  destruct (List.find _ members) as [successor|]; [|apply forget, free_txn, remove_sound].
  eapply steps_bind; [|intros ?; apply forget, free_txn, remove_participant_sound].
  eapply steps_conseq; [apply (knowing (known_group c)); exact (transfer_ownership_sound c (ConversationParticipant.user_id successor))| |done].
  intros d s _ HK. apply HK. by apply andb_true_iff in E as [? _].
Defined.

(** ** All writing operations *)

(** The calls of the services, and the transactions behind the other ways to
    write: the notification dispatcher, the inbox, administration, and the audit
    subscriber. *)
Inductive Operation :=
  | Serve (c : Call)
  | Notify (user_id : Z) (type : NotificationType.t) (payload : json)
  | NotificationRead (id user_id : Z)
  | NotificationsRead (user_id : Z)
  | NotificationRemove (id user_id : Z)
  | SetRole (user_id : Z) (role : Role.t)
  | SetBanned (user_id : Z) (banned : bool) (reason : option string) (actor_id : option Z)
  | Append (input : PgAuditLogRepository.NewAuditLog).

Definition call (c : Call) : M World exn unit :=
  match c with
  | CAccount c => account_call c
  | CSession c => session_call c
  | CCreate a r => ConversationService.create a r;; mret ()
  | CDelete a c => ConversationService.remove a c
  | CRename a c r => ConversationService.rename_group a c r;; mret ()
  | CAddMember a c u => ConversationService.add_member a c u;; mret ()
  | CRemoveMember a c u => ConversationService.remove_member a c u
  | CLeave a c => ConversationService.leave a c
  | CSend a r => MessageService.send a r;; mret ()
  | CEdit a m r => MessageService.edit a m r;; mret ()
  | CRemoveMessage a m => MessageService.remove a m;; mret ()
  | CDelivered a m => ReadReceiptService.mark_delivered a m
  | CRead a c m => ReadReceiptService.mark_read a c m
  | CReact a m e => ReactionService.react a m e;; mret ()
  | CUnreact a m => ReactionService.unreact a m
  | CUpload t i => AttachmentService.upload root options t i;; mret ()
  | CImageJob a b t k => AttachmentService.image_job root options a b t k
  | CRemoveAttachment a i => AttachmentService.remove root a i
  end.

Definition operation (o : Operation) : M World exn unit :=
  match o with
  | Serve c => call c
  | Notify u t p => PgNotificationRepository.create u t p;; mret ()
  | NotificationRead id u => PgNotificationRepository.mark_read id u;; mret ()
  | NotificationsRead u => PgNotificationRepository.mark_all_read u;; mret ()
  | NotificationRemove id u => PgNotificationRepository.remove id u;; mret ()
  | SetRole u r => PgUserAdminRepository.set_role u r;; mret ()
  | SetBanned u b r a => PgUserAdminRepository.set_banned u b r a
  | Append i => PgAuditLogRepository.append i;; mret ()
  end.

Definition cut_call (c : Call) : free (call c).
Proof.
  destruct c; unfold call; cut.
  - apply cut_account.
  - apply cut_session.
  - apply cut_create.
  - apply cut_remove.
  - apply cut_rename.
  - apply cut_add_member.
  - apply cut_remove_member.
  - apply cut_leave.
  - apply cut_send.
  - apply cut_edit.
  - apply cut_remove_message.
  - apply cut_delivered.
  - apply cut_read.
  - apply cut_react.
  - apply cut_unreact.
  - apply cut_upload.
  - apply cut_image_job.
  - apply cut_remove_attachment.
Defined.

Definition cut_operation (o : Operation) : free (operation o).
Proof.
  destruct o; unfold operation; cut.
  - apply cut_call.
  - apply free_txn, notification_create_sound.
  - apply free_txn, notification_mark_read_sound.
  - apply free_txn, mark_all_read_sound.
  - apply free_txn, notification_remove_sound.
  - apply free_txn, set_role_sound.
  - apply free_txn, set_banned_sound.
  - apply free_txn, append_sound.
Defined.

(** The operation as a thread. *)
Definition thread (o : Operation) : prog unit := proj1_sig (cut_operation o).

(** By itself it does what the call does. *)
Lemma thread_run o w : run (thread o) w = operation o w.
Proof. apply (proj2_sig (cut_operation o)). Qed.

Lemma discard_snd {A} (m : M World exn A) w : ((m;; mret ()) w).2 = (m w).2.
Proof. unfold mbind, M_bind. by destruct (m w) as [[]]. Qed.

Lemma call_perform c w :
  (∀ n f, c ≠ CSession (SessionProps.Environment n f)) → (call c w).2 = perform root options ttl c w.
Proof.
  intros Hc. destruct c; cbn [call perform]; rewrite ?discard_snd; try done.
  match goal with c : SessionCall |- _ => destruct c end; cbn [session_call exec]; rewrite ?discard_snd; try done.
  by destruct (Hc now faults).
Qed.
End Calls.

(** ** Schedules *)

(** An operation begins, a thread takes a step, or time passes. *)
Inductive Moment := Begins (o : Operation) | Moves (i : nat) | Passes (now : Z) (faults : list (option Fault)) (io_faults : list bool).

Section Schedules.
Context `{PasswordHasher, ViolationText, Sha256, ImageProcessor, T : TokenService, PgText, PgTime}.
Context (root : string) (options : AttachmentService.Options) (ttl : Z).

Definition moment (m : Moment) : Event unit :=
  match m with
  | Begins o => Start (thread root options ttl o)
  | Moves i => Advance i
  | Passes n f io => Environment n f io
  end.

Definition schedule (l : list Moment) (w : World) : list (prog unit) * World := events (moment <$> l) ([], w).

Lemma schedule_ok l w : shared_ok (db w) (seqs w) → shared_ok (db (schedule l w).2) (seqs (schedule l w).2).
Proof.
  intros Hw. apply (events_ok shared_ok G (moment <$> l) ([], w)); [|by split].
  apply Forall_fmap, Forall_forall. intros [o|i|n f io] _; simpl; [|done..].
  intros d s Hok. by apply (proj2_sig (cut_operation root options ttl o)).
Qed.
End Schedules.

Lemma shared_start s : shared_ok empty_db s.
Proof.
  split_and!; [|split_and!; done..|apply refs_start].
  split; intros *; simpl; rewrite ?fmap_empty, lookup_empty; done.
Qed.

(** ** The constraints of the schema *)

(** The foreign keys that the migrations declare: table, column, and the table
    whose key it holds. *)
Definition foreign_keys (cat : Catalog) : list (string * string * string) :=
  (('(t, columns) ← map_to_list (tables cat);
    omap (λ c, match references c with Some (target, _, _) => Some (t, c_name c, target) | None => None end) columns) ++
   omap (λ k : string * (string * Constraint),
     match k.2.2 with ForeignKey c target _ _ => Some (k.2.1, c, target) | CheckColumn _ _ => None end)
     (map_to_list (constraints cat)))%list.

(** The values of a column that are not null. *)
Definition values {K V X} `{Countable K} (f : V → option X) (t : gmap K V) : list X := omap (λ kv, f kv.2) (map_to_list t).

Lemma elem_of_values {K V X} `{Countable K} (f : V → option X) (t : gmap K V) x :
  x ∈ values f t ↔ ∃ k r, t !! k = Some r ∧ f r = Some x.
Proof.
  unfold values. rewrite list_elem_of_omap. split.
  - intros ([k r] & Hin & Hf). apply elem_of_map_to_list in Hin. eauto.
  - intros (k & r & Hk & Hf). exists (k, r). split; [by apply elem_of_map_to_list|done].
Qed.

Definition column_values (d : Database) (t c : string) : option (list Z) :=
  let col : string := t +:+ "." +:+ c in
  if String.eqb col "users.banned_by" then Some (values UserRow.banned_by (users d))
  else if String.eqb col "conversations.owner_id" then Some (values ConversationRow.owner_id (conversations d))
  else if String.eqb col "conversation_participants.conversation_id"
    then Some (values (λ r, Some (ParticipantRow.conversation_id r)) (participants d))
  else if String.eqb col "conversation_participants.user_id"
    then Some (values (λ r, Some (ParticipantRow.user_id r)) (participants d))
  else if String.eqb col "messages.conversation_id" then Some (values (λ r, Some (MessageRow.conversation_id r)) (messages d))
  else if String.eqb col "messages.sender_id" then Some (values (λ r, Some (MessageRow.sender_id r)) (messages d))
  else if String.eqb col "read_receipts.message_id" then Some (values (λ r, Some (ReceiptRow.message_id r)) (receipts d))
  else if String.eqb col "read_receipts.user_id" then Some (values (λ r, Some (ReceiptRow.user_id r)) (receipts d))
  else if String.eqb col "attachments.owner_id" then Some (values (λ r, Some (AttachmentRow.owner_id r)) (attachments d))
  else if String.eqb col "attachments.message_id" then Some (values AttachmentRow.message_id (attachments d))
  else if String.eqb col "message_reactions.message_id" then Some (values (λ r, Some (ReactionRow.message_id r)) (reactions d))
  else if String.eqb col "message_reactions.user_id" then Some (values (λ r, Some (ReactionRow.user_id r)) (reactions d))
  else if String.eqb col "notifications.user_id" then Some (values (λ r, Some (NotificationRow.user_id r)) (notifications d))
  else if String.eqb col "sessions.user_id" then Some (values (λ r, Some (SessionRow.user_id r)) (sessions d))
  else if String.eqb col "audit_logs.actor_id" then Some (values AuditRow.actor_id (audit_logs d))
  else None.

Definition table_ids (d : Database) (t : string) : option (gset Z) :=
  if String.eqb t "users" then Some (dom (users d))
  else if String.eqb t "conversations" then Some (dom (conversations d))
  else if String.eqb t "messages" then Some (dom (messages d))
  else None.

(** Every foreign key is one of the model, and holds. *)
Definition key_holds (d : Database) (k : string * string * string) : Prop :=
  ∃ vs ids, column_values d k.1.1 k.1.2 = Some vs ∧ table_ids d k.2 = Some ids ∧ ∀ v, v ∈ vs → v ∈ ids.
Definition foreign_keys_hold (cat : Catalog) (d : Database) : Prop := ∀ k, k ∈ foreign_keys cat → key_holds d k.

Definition known_keys : list (string * string * string) :=
  [("users", "banned_by", "users"); ("conversations", "owner_id", "users");
   ("conversation_participants", "conversation_id", "conversations"); ("conversation_participants", "user_id", "users");
   ("messages", "conversation_id", "conversations"); ("messages", "sender_id", "users");
   ("read_receipts", "message_id", "messages"); ("read_receipts", "user_id", "users");
   ("attachments", "owner_id", "users"); ("attachments", "message_id", "messages");
   ("message_reactions", "message_id", "messages"); ("message_reactions", "user_id", "users");
   ("notifications", "user_id", "users"); ("sessions", "user_id", "users"); ("audit_logs", "actor_id", "users")].

Lemma foreign_keys_known cat k :
  cat = with_trigrams ∨ cat = without_trigrams → k ∈ foreign_keys cat → k ∈ known_keys.
Proof.
  intros Hcat. assert (forallb (λ k, bool_decide (k ∈ known_keys)) (foreign_keys cat) = true) as Hk.
  { destruct Hcat as [->| ->]; vm_compute; reflexivity. }
  intros Hin. rewrite forallb_forall in Hk. apply list_elem_of_In, Hk in Hin. by apply bool_decide_eq_true in Hin.
Qed.

Lemma points_values {K V} `{Countable K} (f : V → option Z) (t : gmap K V) ids v :
  points f t ids → v ∈ values f t → v ∈ ids.
Proof. intros Hp (k & r & Hk & Hf)%elem_of_values. by eapply Hp. Qed.

(** The references that are part of the membership invariant. *)
Lemma members_points d s :
  members_inv false d s →
  points ConversationRow.owner_id (conversations d) (dom (users d)) ∧
  points (λ r, Some (ParticipantRow.conversation_id r)) (participants d) (dom (conversations d)) ∧
  points (λ r, Some (ParticipantRow.user_id r)) (participants d) (dom (users d)).
Proof.
  intros Hinv. split_and!.
  - intros c r v Hr Ho. assert ((cview <$> conversations d) !! c = Some (cview r)) as Hc by by rewrite lookup_fmap, Hr.
    destruct (kind_ok _ _ _ _ _ _ Hinv _ _ Hc) as [(o & E & Hin & _)|(a & b & E & _)]; unfold cview in E; by simplify_eq.
  - intros p r v Hr [= <-]. assert ((pview <$> participants d) !! p = Some (pview r)) as Hp by by rewrite lookup_fmap, Hr.
    destruct (p_refs _ _ _ _ _ _ Hinv _ _ _ _ Hp) as [Hc _]. rewrite lookup_fmap, fmap_is_Some in Hc. by apply elem_of_dom.
  - intros p r v Hr [= <-]. assert ((pview <$> participants d) !! p = Some (pview r)) as Hp by by rewrite lookup_fmap, Hr.
    by destruct (p_refs _ _ _ _ _ _ Hinv _ _ _ _ Hp) as [_ Hu].
Qed.

Lemma shared_keys cat d s :
  cat = with_trigrams ∨ cat = without_trigrams → shared_ok d s → foreign_keys_hold cat d.
Proof.
  intros Hcat (Hm & _ & _ & _ & _ & []) k Hk. apply members_points in Hm as (? & ? & ?).
  apply (foreign_keys_known cat k Hcat) in Hk. unfold known_keys in Hk.
  rewrite !elem_of_cons, elem_of_nil in Hk.
  repeat (destruct Hk as [->|Hk]); [..|done];
    (eexists _, _; split; [reflexivity|split; [reflexivity|]]; intros v Hv; eapply points_values; [|exact Hv]; assumption).
Qed.

(** What the migrations declare to be unique: a table and the expressions of an
    index, or a column; of a partial index, the rows where the column is not
    null. *)
Definition unique_keys (cat : Catalog) : list (string * list string) :=
  (omap (λ ki : string * Index, if i_unique ki.2 then Some (i_table ki.2, expression <$> keys ki.2) else None)
     (map_to_list (indexes cat)) ++
   ('(t, columns) ← map_to_list (tables cat);
    omap (λ c, if unique c && negb (primary c) then Some (t, [c_name c]) else None) columns))%list.

Definition key_values (d : Database) (k : string * list string) : option (list (list (Z + string))) :=
  if decide (k = ("users", ["LOWER(username)"]))
    then Some (values (λ r, Some [inr (LOWER (UserRow.username r))]) (users d))
  else if decide (k = ("users", ["LOWER(email)"]))
    then Some (values (λ r, Some [inr (LOWER (UserRow.email r))]) (users d))
  else if decide (k = ("conversations", ["direct_key"]))
    then Some (values (λ r, (λ x, [inr x]) <$> ConversationRow.direct_key r) (conversations d))
  else if decide (k = ("conversation_participants", ["conversation_id"; "user_id"]))
    then Some (values (λ r, Some [inl (ParticipantRow.conversation_id r); inl (ParticipantRow.user_id r)]) (participants d))
  else if decide (k = ("read_receipts", ["message_id"; "user_id"]))
    then Some (values (λ r, Some [inl (ReceiptRow.message_id r); inl (ReceiptRow.user_id r)]) (receipts d))
  else if decide (k = ("message_reactions", ["message_id"; "user_id"]))
    then Some (values (λ r, Some [inl (ReactionRow.message_id r); inl (ReactionRow.user_id r)]) (reactions d))
  else if decide (k = ("audit_logs", ["event_id"]))
    then Some (values (λ r, Some [inr (AuditRow.event_id r)]) (audit_logs d))
  else None.

Definition unique_keys_hold (cat : Catalog) (d : Database) : Prop :=
  ∀ k, k ∈ unique_keys cat → ∃ vs, key_values d k = Some vs ∧ NoDup vs.

Lemma NoDup_values {K V X} `{Countable K} (f : V → option X) (t : gmap K V) :
  (∀ i j r r' x, t !! i = Some r → t !! j = Some r' → f r = Some x → f r' = Some x → i = j) → NoDup (values f t).
Proof.
  intros Hinj. unfold values.
  assert (∀ kr, kr ∈ map_to_list t → t !! kr.1 = Some kr.2) as Hl by (intros [k r]; by apply elem_of_map_to_list).
  pose proof (NoDup_fst_map_to_list t) as Hnd. revert Hl Hnd. generalize (map_to_list t). intros l.
  induction l as [|[k r] l IH]; intros Hl Hnd; simpl; [constructor|].
  apply NoDup_cons in Hnd as [Hk Hnd]. assert (NoDup (omap (λ kv, f kv.2) l)) as Hrest by (apply IH; [set_solver|done]).
  destruct (f r) as [x|] eqn:Hf; [|done]. apply NoDup_cons. split; [|done].
  intros ([j r'] & Hin & Hf')%list_elem_of_omap. apply Hk. assert (k = j) as ->.
  { eapply (Hinj k j r r'); [apply (Hl (k, r)); set_solver|apply (Hl (j, r')); set_solver|done..]. }
  apply list_elem_of_fmap. by exists (j, r').
Qed.

Definition known_unique : list (string * list string) :=
  [("users", ["LOWER(username)"]); ("users", ["LOWER(email)"]); ("conversations", ["direct_key"]);
   ("conversation_participants", ["conversation_id"; "user_id"]); ("read_receipts", ["message_id"; "user_id"]);
   ("message_reactions", ["message_id"; "user_id"]); ("audit_logs", ["event_id"])].

Lemma unique_keys_known cat k :
  cat = with_trigrams ∨ cat = without_trigrams → k ∈ unique_keys cat → k ∈ known_unique.
Proof.
  intros Hcat. assert (forallb (λ k, bool_decide (k ∈ known_unique)) (unique_keys cat) = true) as Hk.
  { destruct Hcat as [->| ->]; vm_compute; reflexivity. }
  intros Hin. rewrite forallb_forall in Hk. apply list_elem_of_In, Hk in Hin. by apply bool_decide_eq_true in Hin.
Qed.

Lemma members_unique d s :
  members_inv false d s →
  NoDup (values (λ r, (λ x, [inr x : Z + string]) <$> ConversationRow.direct_key r) (conversations d)) ∧
  NoDup (values (λ r, Some [inl (ParticipantRow.conversation_id r) : Z + string; inl (ParticipantRow.user_id r)]) (participants d)).
Proof.
  intros Hinv. split; apply NoDup_values.
  - intros i j r r' x Hi Hj Hx Hx'. destruct (ConversationRow.direct_key r) as [k|] eqn:E; [|done].
    destruct (ConversationRow.direct_key r') as [k'|] eqn:E'; [|done]. simplify_eq/=.
    eapply (key_unique _ _ _ _ _ _ Hinv); rewrite lookup_fmap; [rewrite Hi|rewrite Hj]; simpl; unfold cview;
      [rewrite E|rewrite E']; reflexivity.
  - intros i j r r' x Hi Hj Hx Hx'. simplify_eq/=.
    apply (p_unique _ _ _ _ _ _ Hinv i j (ParticipantRow.conversation_id r) (ParticipantRow.user_id r)
      (ParticipantRow.role r) (ParticipantRow.role r')); rewrite lookup_fmap; [by rewrite Hi|].
    rewrite Hj. simpl. unfold pview. congruence.
Qed.

Lemma shared_unique cat d s :
  cat = with_trigrams ∨ cat = without_trigrams → shared_ok d s → unique_keys_hold cat d.
Proof.
  intros Hcat (Hm & (Hun & Hem & _) & [_ Hre] & [_ Hra] & [_ Hau] & _) k Hk. apply members_unique in Hm as [Hd Hp].
  apply (unique_keys_known cat k Hcat) in Hk. unfold known_unique in Hk. rewrite !elem_of_cons, elem_of_nil in Hk.
  repeat (destruct Hk as [->|Hk]); [..|done]; (eexists; split; [reflexivity|]);
    first [assumption | apply NoDup_values; intros i j r r' x Hi Hj Hx Hx'; simplify_eq/=; eauto].
Qed.

(** C3. The tables under interleaving.  Start from an empty database and let any
    operations of the services and repositories run on any number of threads, in
    any interleaving of their transactions and under any faults.  Between any two
    transactions: every foreign key and every unique index that the migrations
    declare holds of the tables of the model; a direct conversation is the only one
    of its two users and has no other member; the owner of a group is a user, and
    nobody else has that role; reactions are allowed ones.  A thread that is not
    interrupted does what the call does. *)
Theorem interleaved_tables
    `{PasswordHasher, ViolationText, Sha256, ImageProcessor, T : TokenService, PgText, PgTime}
    root options ttl (l : list Moment) (w : World) :
  db w = empty_db →
  let w' := (schedule root options ttl l w).2 in
  shared_ok (db w') (seqs w') ∧
  (∀ cat, cat = with_trigrams ∨ cat = without_trigrams → foreign_keys_hold cat (db w') ∧ unique_keys_hold cat (db w')) ∧
  (∀ o w, run (thread root options ttl o) w = operation root options ttl o w).
Proof.
  intros Hdb w'. assert (shared_ok (db w') (seqs w')) as Hok.
  { apply schedule_ok. rewrite Hdb. apply shared_start. }
  split; [exact Hok|]. split; [|apply thread_run].
  intros cat Hcat. split; [by eapply shared_keys|by eapply shared_unique].
Qed.

(** ** What overlapping calls can do *)

(** Two accounts and a group of the first one with the second, each operation to
    its end; then both leave.  The owner reads the list of members and chooses the
    second as the successor; the second leaves; the owner's call goes on. *)
Module RaceSample.
Definition pg_text : PgText := {| ilike := String.eqb; varchar := λ _ s, Some s |}.
Definition to_end (i : nat) : list Moment := replicate 12 (Moves i).
Definition setup : list Moment :=
  (Begins (Serve (CAccount (Register "salt" "a" "r" AccountSample.ada))) :: to_end 0 ++
   Begins (Serve (CAccount (Register "salt" "b" "s" SystemSample.bob))) :: to_end 1 ++
   Begins (Serve (CCreate 1 (CreateConversationRequest.mk ConversationType.kGroup (Some "team") [2]))) :: to_end 2)%list.
Definition race : list Moment :=
  (setup ++ [Begins (Serve (CLeave 1 1)); Begins (Serve (CLeave 2 1))] ++
   [Moves 3; Moves 3; Moves 3; Moves 3] ++ to_end 4 ++ to_end 3)%list.
Definition in_turn : list Moment :=
  (setup ++ [Begins (Serve (CLeave 1 1)); Begins (Serve (CLeave 2 1))] ++ to_end 3 ++ to_end 4)%list.
Definition run_schedule (l : list Moment) : list (prog unit) * World :=
  schedule (H:=AccountSample.hasher) (H0:=AccountSample.violations) (H1:=SessionSample.sha) (H2:=SystemSample.images)
    (T:=AccountSample.tokens) (H3:=pg_text) (H4:=AuditSample.pg) "/data" SystemSample.options 60 l SystemSample.start.
Definition returned {A} (p : prog A) : bool := match p with Done (Ok _) => true | _ => false end.
Definition rotate (a r : string) : prog TokenPair.t :=
  proj1_sig (cut_rotate (H1:=SessionSample.sha) (T:=SessionSample.tokens) a r (TokenPair.refresh_token SessionSample.first) "s").
Definition exchanges : list (Event TokenPair.t) :=
  [Start (rotate "a1" "r1"); Start (rotate "a2" "r2"); Environment 60000000 [] []; Advance 0; Advance 0; Advance 1; Advance 1;
   Advance 0; Advance 0; Advance 1; Advance 1].
End RaceSample.

(** C15. What overlapping calls can do, each of them successful, that the same calls in
    turn cannot.  [leave] reads the members, transfers the ownership and removes the
    member in separate transactions: an owner and the chosen successor who leave at
    the same time end with a group that has an owner and no members at all, while
    one after the other they end with no group.  [rotate] checks the token and
    stores the new one in separate transactions: two exchanges of one refresh token
    both return a new pair. *)
Theorem overlap_races :
  (let '(ts, w) := RaceSample.run_schedule RaceSample.race in
   forallb RaceSample.returned ts = true ∧
   (∃ c r o, conversations (db w) !! c = Some r ∧ ConversationRow.type r = "group" ∧
      ConversationRow.owner_id r = Some o ∧ ∀ u, is_member c u (db w) = false)) ∧
  (let '(ts, w) := RaceSample.run_schedule RaceSample.in_turn in
   forallb RaceSample.returned ts = true ∧ conversations (db w) = ∅) ∧
  (∃ p1 p2, (events RaceSample.exchanges ([], SessionSample.start)).1 = [Done (Ok p1); Done (Ok p2)] ∧ p1 ≠ p2).
Proof.
  split; [|split].
  - destruct (RaceSample.run_schedule RaceSample.race) as [ts w] eqn:E.
    assert (forallb RaceSample.returned (RaceSample.run_schedule RaceSample.race).1 = true ∧
      (λ r, (ConversationRow.type r, ConversationRow.owner_id r)) <$>
        conversations (db (RaceSample.run_schedule RaceSample.race).2) !! 1 = Some ("group", Some 2) ∧
      participants (db (RaceSample.run_schedule RaceSample.race).2) = ∅) as (H1 & H2 & H3)
      by (split_and!; vm_compute; reflexivity).
    rewrite E in *. simpl in *. split; [exact H1|]. apply fmap_Some in H2 as (r & Hr & Ev). injection Ev as Et Eo.
    exists 1, r, 2. split_and!; [exact Hr|done..|]. intros u. unfold is_member. by rewrite H3.
  - vm_compute. split; reflexivity.
  - eexists _, _. split; [vm_compute; reflexivity|]. intros E. discriminate E.
Qed.

(** The schedule of the race keeps the constraints. *)
Lemma interleaved_tables_witness :
  size (conversations (db (RaceSample.run_schedule RaceSample.race).2)) = 1%nat ∧
  shared_ok (db (RaceSample.run_schedule RaceSample.race).2) (seqs (RaceSample.run_schedule RaceSample.race).2) ∧
  foreign_keys_hold without_trigrams (db (RaceSample.run_schedule RaceSample.race).2).
Proof.
  split; [vm_compute; reflexivity|].
  destruct (interleaved_tables (H:=AccountSample.hasher) (H0:=AccountSample.violations) (H1:=SessionSample.sha)
    (H2:=SystemSample.images) (T:=AccountSample.tokens) (H3:=RaceSample.pg_text) (H4:=AuditSample.pg)
    "/data" SystemSample.options 60 RaceSample.race SystemSample.start eq_refl) as (Hok & Hk & _).
  split; [exact Hok|]. by apply (Hk without_trigrams (or_intror eq_refl)).
Defined.
