(* ===== verification/Metrics.v ===== *)
(** * Metrics: the registry and what a scrape reads

    Models src/metrics/metrics_registry.cpp, include/rtc/middlewares/metrics_middleware.hpp
    and the per-event counters of src/application.cpp.  A measurement is a double,
    here the rational it denotes; [+=] on doubles is a parameter ([DoubleAdd]).
    How [operator<<] prints one is in Doubles. *)

From Stdlib Require Import QArith Qround.
From S2P Require Import Prelude Text Json Events Doubles.
Open Scope string_scope.
Open Scope Z_scope.

(** Rounded addition of doubles. *)
Class DoubleAdd := dadd : Q → Q → Q.
(** Rounded division of doubles. *)
Class DoubleDiv := ddiv : Q → Q → Q.

(** ** The registry *)

(** [std::uint64_t] arithmetic. *)
Definition add64 (a b : Z) : Z := (a + b) mod 2 ^ 64.

Global Instance Qle_dec (a b : Q) : Decision (a <= b)%Q.
Proof. destruct (Qlt_le_dec b a); [right; by apply Qlt_not_le|by left]. Defined.

(** The entries of a [std::map] in the order of its keys. *)
Definition key_le {V} (a b : string * V) : Prop := String.leb a.1 b.1 = true.
Global Instance key_le_dec {V} (a b : string * V) : Decision (key_le a b).
Proof. unfold key_le. apply _. Defined.
Definition in_key_order {V} (m : gmap string V) : list (string * V) := merge_sort key_le (map_to_list m).

Module MetricsRegistry.
Section Registry.
Context `{DoubleAdd} {E : Type}.

(* include/rtc/metrics/metrics_registry.hpp:60-65, MetricsRegistry::Histogram *)
Record Histogram := mkHist { sum : Q; count : Z; bounds : list Q; bucket_counts : list Z }.

(** A gauge callback reads the process [E] when it is called. *)
(* include/rtc/metrics/metrics_registry.hpp:71-76, MetricsRegistry *)
Record t := mk {
  counters : gmap string Q; gauges : gmap string Q; gauge_callbacks : gmap string (E → Q);
  histograms : gmap string Histogram }.

Definition empty : t := mk ∅ ∅ ∅ ∅.

(** 0.005, 0.01, 0.025, 0.05, 0.1, 0.25, 0.5, 1, 2.5, 5 and 10 as doubles. *)
(* src/metrics/metrics_registry.cpp:9-16, MetricsRegistry::default_buckets *)
Definition default_buckets : list Q :=
  [5764607523034235 # 1152921504606846976; 5764607523034235 # 576460752303423488;
   3602879701896397 # 144115188075855872; 3602879701896397 # 72057594037927936;
   3602879701896397 # 36028797018963968; 1 # 4; 1 # 2; 1; 5 # 2; 5; 10]%Q.

Definition fresh : Histogram := mkHist 0 0 [] [].

(* src/metrics/metrics_registry.cpp:18-25, MetricsRegistry::histogram_for *)
Definition histogram_for (name : string) (r : t) : Histogram :=
  let h := default fresh (histograms r !! name) in
  match bounds h with
  | [] => mkHist (sum h) (count h) default_buckets (replicate (length default_buckets) 0)
  | _ => h
  end.

(* src/metrics/metrics_registry.cpp:27-30, MetricsRegistry::increment *)
Definition increment (name : string) (amount : Q) (r : t) : t :=
  mk (<[name := dadd (default 0%Q (counters r !! name)) amount]> (counters r)) (gauges r)
    (gauge_callbacks r) (histograms r).

(* src/metrics/metrics_registry.cpp:32-35, MetricsRegistry::set_gauge *)
Definition set_gauge (name : string) (value : Q) (r : t) : t :=
  mk (counters r) (<[name := value]> (gauges r)) (gauge_callbacks r) (histograms r).

(** [std::unique]: of adjacent equal elements the first is kept. *)
Fixpoint unique_after (x : Q) (l : list Q) : list Q :=
  match l with
  | [] => []
  | y :: l => if Qeq_bool x y then unique_after x l else y :: unique_after y l
  end.
Definition unique (l : list Q) : list Q := match l with [] => [] | x :: l => x :: unique_after x l end.

(* src/metrics/metrics_registry.cpp:37-50, MetricsRegistry::register_histogram *)
Definition register_histogram (name : string) (buckets : list Q) (r : t) : t :=
  let buckets := unique (merge_sort Qle buckets) in
  mk (counters r) (gauges r) (gauge_callbacks r)
    (<[name := mkHist 0 0 buckets (replicate (length buckets) 0)]> (histograms r)).

(** The index of the first bound that is not less than the value, or the number
    of bounds. *)
Fixpoint lower_bound (l : list Q) (value : Q) : nat :=
  match l with
  | [] => 0
  | b :: l => if Qle_bool value b then 0 else S (lower_bound l value)
  end.

(** Beyond the last bound there is no bucket to count in. *)
(* src/metrics/metrics_registry.cpp:52-69, MetricsRegistry::observe *)
Definition observe (name : string) (value : Q) (r : t) : t :=
  let h := histogram_for name r in
  let h := mkHist (dadd (sum h) value) (add64 (count h) 1) (bounds h)
             (alter (λ c, add64 c 1) (lower_bound (bounds h) value) (bucket_counts h)) in
  mk (counters r) (gauges r) (gauge_callbacks r) (<[name := h]> (histograms r)).

(* src/metrics/metrics_registry.cpp:71-75, MetricsRegistry::register_gauge_callback *)
Definition register_gauge_callback (name : string) (callback : E → Q) (r : t) : t :=
  mk (counters r) (gauges r) (<[name := callback]> (gauge_callbacks r)) (histograms r).

(* src/metrics/metrics_registry.cpp:77-81, MetricsRegistry::counter *)
Definition counter (name : string) (r : t) : Q := default 0%Q (counters r !! name).

(** ** The exposition *)

Definition nl : string := String "010" "".
Definition quote : string := String "034" "".

(** The running totals of the bucket counts. *)
Fixpoint cumulate (acc : Z) (counts : list Z) : list Z :=
  match counts with
  | [] => []
  | c :: counts => let acc := add64 acc c in acc :: cumulate acc counts
  end.

Definition sample (kind : string) (name : string) (value : Q) : string :=
  "# TYPE " +:+ name +:+ " " +:+ kind +:+ nl +:+ name +:+ " " +:+ Stream.show value +:+ nl.

(* src/metrics/metrics_registry.cpp:100-123, MetricsRegistry::render_prometheus (histogram) *)
Definition render_histogram `{DoubleDiv} (name : string) (h : Histogram) : string :=
  "# TYPE " +:+ name +:+ " histogram" +:+ nl
  +:+ String.concat "" (zip_with (λ b c, name +:+ "_bucket{le=" +:+ quote +:+ Stream.show b +:+ quote +:+ "} "
                                         +:+ to_string c +:+ nl) (bounds h) (cumulate 0 (bucket_counts h)))
  +:+ name +:+ "_bucket{le=" +:+ quote +:+ "+Inf" +:+ quote +:+ "} " +:+ to_string (count h) +:+ nl
  +:+ name +:+ "_sum " +:+ Stream.show (sum h) +:+ nl
  +:+ name +:+ "_count " +:+ to_string (count h) +:+ nl
  +:+ sample "gauge" (name +:+ "_avg")
        (if count h =? 0 then 0%Q else ddiv (sum h) (inject_Z (count h))).

(* src/metrics/metrics_registry.cpp:87-125, MetricsRegistry::render_prometheus *)
Definition render_prometheus `{DoubleDiv} (process : E) (r : t) : string :=
  String.concat "" ((λ nv : string * Q, sample "counter" nv.1 nv.2) <$> in_key_order (counters r))
  +:+ String.concat "" ((λ nv : string * Q, sample "gauge" nv.1 nv.2) <$> in_key_order (gauges r))
  +:+ String.concat "" ((λ nc : string * (E → Q), sample "gauge" nc.1 (nc.2 process)) <$> in_key_order (gauge_callbacks r))
  +:+ String.concat "" ((λ nh : string * Histogram, render_histogram nh.1 nh.2) <$> in_key_order (histograms r)).
End Registry.
Arguments t E : clear implicits.
End MetricsRegistry.

(** ** Producers *)

Module MetricsMiddleware.
(** After a request that took [seconds] and was answered with [code]. *)
(* include/rtc/middlewares/metrics_middleware.hpp:28-41, MetricsMiddleware::after_handle *)
Definition after_handle `{DoubleAdd} {E} (registry : option (MetricsRegistry.t E)) (seconds : Q) (code : Z)
    : option (MetricsRegistry.t E) :=
  match registry with
  | None => None
  | Some r =>
      let r := MetricsRegistry.increment "rtc_http_requests_total" 1 r in
      let r := MetricsRegistry.observe "rtc_http_request_seconds" seconds r in
      Some (if 500 <=? code then MetricsRegistry.increment "rtc_http_5xx_total" 1 r
            else if 400 <=? code then MetricsRegistry.increment "rtc_http_4xx_total" 1 r
            else r)
  end.
End MetricsMiddleware.

Definition event_counter (type : EventType.t) : string :=
  "rtc_domain_event_" +:+ EventType.to_string type +:+ "_total".

(* src/application.cpp:264-268, Application::wire_event_subscribers (metrics) *)
Definition count_event `{DoubleAdd} {E} (event : DomainEvent.t) (r : MetricsRegistry.t E) : MetricsRegistry.t E :=
  MetricsRegistry.increment (event_counter (DomainEvent.type event)) 1
    (MetricsRegistry.increment "rtc_domain_events_total" 1 r).

(** The Prometheus data model admits letters, digits, [_] and [:] in a metric
    name; an event's name has a dot. *)
Definition metric_char (c : ascii) : bool :=
  let n := Ascii.nat_of_ascii c in
  (65 <=? n)%nat && (n <=? 90)%nat || (97 <=? n)%nat && (n <=? 122)%nat
  || (48 <=? n)%nat && (n <=? 57)%nat || (n =? 95)%nat || (n =? 58)%nat.

Lemma event_counter_invalid (type : EventType.t) :
  type ≠ EventType.kCount →
  forallb metric_char (String.list_ascii_of_string (event_counter type)) = false.
Proof. by destruct type. Qed.

(** ** What the histograms mean

    The ledger of a histogram is what it should remember: its bounds and every
    value observed since they were set. *)

Module Ledger.
Section Ledger.
Context `{DoubleAdd} {E : Type}.
Import MetricsRegistry.

(** The calls that write to a registry. *)
Inductive Call :=
  | Increment (name : string) (amount : Q)
  | SetGauge (name : string) (value : Q)
  | Observe (name : string) (value : Q)
  | RegisterHistogram (name : string) (buckets : list Q)
  | RegisterGaugeCallback (name : string) (callback : E → Q).

Definition call (r : MetricsRegistry.t E) (c : Call) : MetricsRegistry.t E :=
  match c with
  | Increment name amount => increment name amount r
  | SetGauge name value => set_gauge name value r
  | Observe name value => observe name value r
  | RegisterHistogram name buckets => register_histogram name buckets r
  | RegisterGaugeCallback name callback => register_gauge_callback name callback r
  end.
Definition run (calls : list Call) : MetricsRegistry.t E := foldl call empty calls.

Definition entry (name : string) (l : list Q * list Q) (c : Call) : list Q * list Q :=
  match c with
  | Observe n v =>
      if decide (n = name) then (match l.1 with [] => default_buckets | bs => bs end, l.2 ++ [v])%list else l
  | RegisterHistogram n bs => if decide (n = name) then (unique (merge_sort Qle bs), []) else l
  | _ => l
  end.
(** The bounds of the histogram and the values observed since they were set. *)
Definition ledger (name : string) (calls : list Call) : list Q * list Q := foldl (entry name) ([], []) calls.

(** How many of [vs] satisfy [P]. *)
Definition tally (P : Q → Prop) `{!∀ v, Decision (P v)} (vs : list Q) : Z := Z.of_nat (length (filter P vs)).

(** A histogram that has seen exactly the values [vs]. *)
Definition agrees (h : Histogram) (vs : list Q) : Prop :=
  count h = Z.of_nat (length vs) ∧ sum h = foldl dadd 0%Q vs ∧ StronglySorted Qlt (bounds h) ∧
  bucket_counts h = (λ i : nat, tally (λ v, lower_bound (bounds h) v = i) vs) <$> seq 0 (length (bounds h)).

Lemma tally_le P `{!∀ v, Decision (P v)} vs : 0 <= tally P vs <= Z.of_nat (length vs).
Proof. unfold tally. pose proof (length_filter P vs). lia. Qed.

Lemma tally_snoc P `{!∀ v, Decision (P v)} vs v :
  tally P (vs ++ [v]) = tally P vs + (if decide (P v) then 1 else 0).
Proof.
  unfold tally. rewrite filter_app, filter_cons, filter_nil, length_app.
  destruct (decide (P v)); simpl; lia.
Qed.

Lemma tally_next (f : Q → nat) k vs :
  tally (λ v, (f v < S k)%nat) vs = tally (λ v, (f v < k)%nat) vs + tally (λ v, f v = k) vs.
Proof.
  induction vs as [|v vs IH] using rev_ind; [done|]. rewrite !tally_snoc, IH.
  repeat case_decide; lia.
Qed.

Lemma tally_iff P Q `{!∀ v, Decision (P v)} `{!∀ v, Decision (Q v)} vs :
  (∀ v, P v ↔ Q v) → tally P vs = tally Q vs.
Proof. intros HPQ. unfold tally. f_equal. f_equal. by apply list_filter_iff. Qed.

Lemma add64_small a b : 0 <= a → 0 <= b → a + b < 2 ^ 64 → add64 a b = a + b.
Proof. intros. apply Z.mod_small. lia. Qed.

Lemma tally_none P `{!∀ v, Decision (P v)} vs : (∀ v, ¬ P v) → tally P vs = 0.
Proof.
  intros Hno. induction vs as [|v vs IH] using rev_ind; [done|].
  by rewrite tally_snoc, IH, decide_False.
Qed.

Lemma tally_add P `{!∀ v, Decision (P v)} vs :
  Z.of_nat (length vs) + 1 < 2 ^ 64 → add64 (tally P vs) 1 = tally P vs + 1.
Proof. intros. pose proof (tally_le P vs). apply add64_small; lia. Qed.

(** Running totals of the bins count what lies at or below each bin. *)
Lemma cumulate_bins (f : Q → nat) vs n k :
  Z.of_nat (length vs) < 2 ^ 64 →
  cumulate (tally (λ v, (f v < k)%nat) vs) ((λ i, tally (λ v, f v = i) vs) <$> seq k n)
  = (λ i, tally (λ v, (f v < S i)%nat) vs) <$> seq k n.
Proof.
  intros Hlen. revert k. induction n as [|n IH]; intros k; [done|]. cbn -[tally add64].
  assert (Hadd : add64 (tally (λ v, (f v < k)%nat) vs) (tally (λ v, f v = k) vs)
                 = tally (λ v, (f v < S k)%nat) vs).
  { rewrite add64_small; [by rewrite tally_next|apply tally_le|apply tally_le|].
    rewrite <- tally_next. pose proof (tally_le (λ v, (f v < S k)%nat) vs). lia. }
  rewrite Hadd. f_equal. apply IH.
Qed.

(** On ascending bounds, a value is in bin [i] or before it iff it is at most
    the [i]-th bound. *)
Lemma lower_bound_spec bs i b v :
  StronglySorted Qlt bs → bs !! i = Some b → (lower_bound bs v < S i)%nat ↔ (v <= b)%Q.
Proof.
  intros Hs. revert i. induction Hs as [|c bs Hs IH Hall]; intros i Hi; [done|]. cbn.
  destruct (Qle_bool v c) eqn:Hv; cbn.
  - apply Qle_bool_iff in Hv. split; [|lia]. intros _.
    destruct i as [|i]; [by simplify_eq/=|].
    assert (Hc : (c < b)%Q) by (eapply Forall_lookup_1; [exact Hall|exact Hi]).
    apply Qlt_le_weak. by apply (Qle_lt_trans _ c).
  - destruct i as [|i]; cbn in Hi.
    + simplify_eq. rewrite <- Qle_bool_iff, Hv. split; [lia|done].
    + rewrite <- (IH i Hi). lia.
Qed.

Lemma unique_after_sorted x l :
  StronglySorted Qle (x :: l) → StronglySorted Qlt (x :: unique_after x l).
Proof.
  revert x. induction l as [|y l IH]; intros x Hs; [repeat constructor|].
  inversion_clear Hs as [|? ? Hyl Hx]. inversion_clear Hx as [|? ? Hxy Hxl]. cbn.
  destruct (Qeq_bool x y) eqn:He.
  - apply IH. constructor; [by inversion Hyl|done].
  - assert (Hlt : (x < y)%Q).
    { apply Qle_lteq in Hxy as [?|Heq]; [done|]. apply Qeq_bool_iff in Heq. congruence. }
    specialize (IH y Hyl). constructor; [done|]. constructor; [done|].
    inversion_clear IH as [|? ? _ Hall]. eapply Forall_impl; [exact Hall|].
    intros z Hz. by apply (Qlt_trans _ y).
Qed.

Lemma unique_sorted bs : StronglySorted Qlt (unique (merge_sort Qle bs)).
Proof.
  assert (Hs : StronglySorted Qle (merge_sort Qle bs)).
  { assert (Transitive Qle) by exact Qle_trans.
    assert (Total Qle) by (intros a b; destruct (Qlt_le_dec a b); [left; by apply Qlt_le_weak|by right]).
    by apply StronglySorted_merge_sort; [|apply _]. }
  destruct (merge_sort Qle bs) as [|x l]; [constructor|]. by apply unique_after_sorted.
Qed.

Lemma default_buckets_sorted : StronglySorted Qlt default_buckets.
Proof. repeat constructor. Qed.

(** A value is counted in its bin, and nowhere else. *)
Lemma alter_bins (f : Q → nat) vs v n :
  Z.of_nat (length (vs ++ [v])) < 2 ^ 64 →
  alter (λ c, add64 c 1) (f v) ((λ i, tally (λ u, f u = i) vs) <$> seq 0 n)
  = (λ i, tally (λ u, f u = i) (vs ++ [v])) <$> seq 0 n.
Proof.
  rewrite length_app. cbn [length]. intros Hlen. apply list_eq. intros i.
  rewrite list_lookup_fmap. destruct (decide (f v = i)) as [He|Hne].
  - rewrite He, list_lookup_alter_eq, list_lookup_fmap.
    destruct (seq 0 n !! i) as [j|] eqn:Hj; [|done]. apply lookup_seq in Hj as [-> _].
    cbn -[tally add64 filter]. f_equal. rewrite tally_snoc, decide_True by done.
    apply tally_add. lia.
  - rewrite list_lookup_alter_ne, list_lookup_fmap by done.
    destruct (seq 0 n !! i) as [j|] eqn:Hj; [|done]. apply lookup_seq in Hj as [-> _].
    cbn -[tally add64 filter]. f_equal. rewrite tally_snoc, decide_False by done. lia.
Qed.

Lemma agrees_fresh bs : StronglySorted Qlt bs → agrees (mkHist 0 0 bs (replicate (length bs) 0)) [].
Proof.
  intros Hs. split_and!; [done|done|done|]. cbn.
  generalize 0%nat as k. induction bs as [|b bs IH] in Hs |- *; intros k; [done|].
  cbn. f_equal. inversion_clear Hs. by apply IH.
Qed.

Lemma agrees_observe name (r : MetricsRegistry.t E) vs v :
  Z.of_nat (length (vs ++ [v])) < 2 ^ 64 → agrees (histogram_for name r) vs →
  agrees (default fresh (histograms (observe name v r) !! name)) (vs ++ [v]).
Proof.
  intros Hlen (Hcount & Hsum & Hs & Hbins). cbn. rewrite lookup_insert_eq. cbn.
  rewrite length_app in *. cbn in Hlen. unfold agrees. cbn. split_and!; [..|done|].
  - rewrite Hcount, add64_small by lia. rewrite length_app. cbn. lia.
  - by rewrite Hsum, foldl_app.
  - rewrite Hbins. apply alter_bins. rewrite length_app. cbn. lia.
Qed.

(** What a scrape reports for a bound is the number of values up to it. *)
Lemma agrees_cumulate (h : Histogram) vs :
  agrees h vs → Z.of_nat (length vs) < 2 ^ 64 →
  cumulate 0 (bucket_counts h) = (λ b, tally (λ v, (v <= b)%Q) vs) <$> bounds h.
Proof.
  intros (_ & _ & Hs & Hb) Hlen.
  rewrite Hb, <- (tally_none (λ v, (lower_bound (bounds h) v < 0)%nat) vs) by lia.
  rewrite cumulate_bins by lia. apply list_eq. intros i. rewrite !list_lookup_fmap.
  destruct (bounds h !! i) as [b|] eqn:Hi.
  - rewrite lookup_seq_lt by (by eapply lookup_lt_Some). cbn -[tally]. f_equal. apply tally_iff.
    intros v. by apply lower_bound_spec.
  - rewrite lookup_seq_ge; [done|]. by apply lookup_ge_None.
Qed.

(** The ledger is kept: a histogram without bounds has seen nothing. *)
Definition kept (name : string) (r : MetricsRegistry.t E) (l : list Q * list Q) : Prop :=
  let h := default fresh (histograms r !! name) in
  bounds h = l.1 ∧ agrees h l.2 ∧ (l.1 = [] → l.2 = []).

Lemma kept_histogram_for name r l :
  kept name r l → agrees (histogram_for name r) l.2 ∧
    bounds (histogram_for name r) = match l.1 with [] => default_buckets | bs => bs end.
Proof.
  unfold kept, histogram_for. set (h := default fresh _). intros (Hb & Ha & Hn).
  rewrite <- Hb in *. destruct (bounds h) as [|b bs] eqn:Hbs; [|done].
  rewrite (Hn eq_refl) in *. destruct Ha as (-> & -> & _).
  split; [|done]. apply agrees_fresh, default_buckets_sorted.
Qed.

Lemma kept_call name r l c :
  Z.of_nat (S (length l.2)) < 2 ^ 64 → kept name r l → kept name (call r c) (entry name l c).
Proof.
  intros Hlen Hk. destruct c as [n a|n v|n v|n bs|n cb]; cbn; try exact Hk; case_decide as Hn.
  - subst n. destruct (kept_histogram_for _ _ _ Hk) as [Ha Hb]. unfold kept. split_and!.
    + cbn. by rewrite lookup_insert_eq.
    + apply agrees_observe; [|done]. rewrite length_app. cbn. lia.
    + cbn. by destruct l.1.
  - unfold kept in *. cbn. by rewrite lookup_insert_ne.
  - subst n. unfold kept. cbn. rewrite lookup_insert_eq. cbn.
    split_and!; [done|apply agrees_fresh, unique_sorted|done].
  - unfold kept in *. cbn. by rewrite lookup_insert_ne.
Qed.

Lemma ledger_length name calls : (length (ledger name calls).2 ≤ length calls)%nat.
Proof.
  unfold ledger. induction calls as [|c calls IH] using rev_ind; [done|].
  rewrite foldl_app, length_app. cbn.
  destruct c; cbn; repeat case_decide; cbn; rewrite ?length_app; cbn; lia.
Qed.

Lemma run_kept name calls : Z.of_nat (length calls) < 2 ^ 64 → kept name (run calls) (ledger name calls).
Proof.
  unfold run, ledger. induction calls as [|c calls IH] using rev_ind.
  - intros _. unfold kept. cbn. rewrite lookup_empty. cbn. split_and!; [done| |done].
    split_and!; [done..|constructor|done].
  - rewrite length_app. cbn. intros Hlen. rewrite !foldl_app. cbn. apply kept_call; [|apply IH; lia].
    pose proof (ledger_length name calls). unfold ledger in *. lia.
Qed.

(** C32. After any sequence of fewer than 2^64 calls on a fresh registry, each
    histogram is an exact summary of the values observed since its bounds were
    set: its bounds are strictly ascending, its count is the number of those
    values and its sum their sum, and the cumulative count a scrape reports for
    a bound is the number of values at or below that bound. *)
Theorem histogram_exact (name : string) (calls : list Call) :
  Z.of_nat (length calls) < 2 ^ 64 →
  let h := default fresh (histograms (run calls) !! name) in
  let '(bs, vs) := ledger name calls in
  bounds h = bs ∧ StronglySorted Qlt bs ∧ count h = Z.of_nat (length vs) ∧ sum h = foldl dadd 0%Q vs ∧
  cumulate 0 (bucket_counts h) = (λ b, tally (λ v, (v <= b)%Q) vs) <$> bs.
Proof.
  intros Hlen. pose proof (run_kept name calls Hlen) as Hk.
  pose proof (ledger_length name calls) as Hlt. unfold kept in Hk.
  destruct (ledger name calls) as [bs vs]. cbn in Hlt, Hk.
  destruct Hk as (<- & Ha & _). pose proof (agrees_cumulate _ _ Ha ltac:(lia)).
  destruct Ha as (? & ? & ? & _). by split_and!.
Qed.
End Ledger.
End Ledger.

(** ** Samples *)

Module MetricsSample.
(** Exact addition: what [+=] does on doubles with few significant bits. *)
#[local] Instance exact : DoubleAdd := Qplus.

(** Three uploads between registration and scrape: one on a bound, one inside a
    bin and one beyond the last bound. *)
Definition calls : list (@Ledger.Call unit) :=
  [Ledger.RegisterHistogram "rtc_upload_bytes" [10485760; 1024; 1048576; 1024]%Q;
   Ledger.Increment "rtc_uploads_total" 1%Q; Ledger.Observe "rtc_upload_bytes" 1024%Q;
   Ledger.Observe "rtc_http_request_seconds" 1%Q; Ledger.Observe "rtc_upload_bytes" 2048%Q;
   Ledger.Observe "rtc_upload_bytes" 20971520%Q].

Lemma histogram_exact_witness :
  Ledger.ledger "rtc_upload_bytes" calls = ([1024; 1048576; 10485760], [1024; 2048; 20971520])%Q ∧
  MetricsRegistry.cumulate 0 (MetricsRegistry.bucket_counts
    (default MetricsRegistry.fresh (MetricsRegistry.histograms (Ledger.run calls) !! "rtc_upload_bytes")))
  = [1; 2; 2].
Proof.
  split; [by vm_compute|].
  pose proof (Ledger.histogram_exact "rtc_upload_bytes" calls ltac:(done)) as Hexact.
  assert (Hl : Ledger.ledger "rtc_upload_bytes" calls
               = ([1024; 1048576; 10485760], [1024; 2048; 20971520])%Q) by (by vm_compute).
  rewrite Hl in Hexact. destruct Hexact as (_ & _ & _ & _ & ->). by vm_compute.
Defined.

(** The exposition of that registry's histogram: the bound 1048576 is printed
    with six digits. *)
Lemma upload_exposition :
  MetricsRegistry.render_prometheus (H0:=Qdiv) tt
    (Ledger.run [Ledger.RegisterHistogram "b" [1048576]%Q; Ledger.Observe "b" 1024%Q])
  = String.concat MetricsRegistry.nl
      ["# TYPE b histogram"; "b_bucket{le=" +:+ MetricsRegistry.quote +:+ "1.04858e+06" +:+ MetricsRegistry.quote +:+ "} 1";
       "b_bucket{le=" +:+ MetricsRegistry.quote +:+ "+Inf" +:+ MetricsRegistry.quote +:+ "} 1";
       "b_sum 1024"; "b_count 1"; "# TYPE b_avg gauge"; "b_avg 1024"; ""].
Proof. by vm_compute. Qed.

(** Two values of a counter a scrape cannot tell apart. *)
Lemma large_counters_print_alike :
  MetricsRegistry.sample "counter" "rtc_http_requests_total" 1000001%Q
  = MetricsRegistry.sample "counter" "rtc_http_requests_total" 1000004%Q.
Proof. by vm_compute. Qed.
End MetricsSample.
