(* ===== verification/Dashboards.v ===== *)
(** * Dashboards: what the operations endpoints report

    Models the bodies of GET /admin/websockets, /admin/cache, /admin/jobs and
    /admin/system of src/controllers/admin_controller.cpp and the hit ratio of
    src/cache/cache_service.cpp.  They only read other components of the
    process; what a request finds there is its [Readings].  A double is the
    rational it denotes, its division and its JSON number are parameters. *)

From Stdlib Require Import QArith.
From S2P Require Import Prelude Text Json Rbac Events Tracing Jobs Database Protocol Connections Metrics.
Open Scope string_scope.
Open Scope Z_scope.

(** A cluster bus as the dashboards see it. *)
Record BusView := mkBus { bus_node_id : string; bus_distributed : bool; bus_published : Z; bus_received : Z }.

(** The components at the moment of the request. *)
Record Readings := mkReadings {
  sessions_now : SessionManager.t;
  cluster_now : option BusView;
  backend_name : string; cache_hits : Z; cache_misses : Z;
  executor_now : BackgroundExecutor.State DomainEvent.t;
  bus_now : InProcessEventBus.t World;
  metrics_now : MetricsRegistry.t unit;
  uptime_seconds : Q;
  build_version : string }.

Section Bodies.
(** The library's number for a double. *)
Context `{DoubleDiv} (number : Q → json).

(** [static_cast<double>] of a 64-bit count. *)
Definition to_double (n : Z) : Q := inject_Z (Tracer.to_double n).

(* src/cache/cache_service.cpp:54-59, CacheService::hit_ratio *)
Definition hit_ratio (hits misses : Z) : Q :=
  let total := (hits + misses) mod 2 ^ 64 in
  if total =? 0 then 0%Q else ddiv (to_double hits) (to_double total).

(* src/controllers/admin_controller.cpp:395-419, GET /admin/websockets *)
Definition websockets_body (r : Readings) : json :=
  let sessions := (λ s, jobj [
    ("user_id", JInt (Connections.user_id s)); ("username", JStr (Connections.username s));
    ("protocol_version", JInt (Protocol.to_number (protocol_version s)));
    ("last_activity_ms", JInt (last_activity_ms s))]) <$> SessionManager.snapshot (sessions_now r) in
  jobj [("node_id", JStr (match cluster_now r with Some c => bus_node_id c | None => "local" end));
    ("distributed", JBool (match cluster_now r with Some c => bus_distributed c | None => false end));
    ("cluster_published", JInt (match cluster_now r with Some c => bus_published c | None => 0 end));
    ("cluster_received", JInt (match cluster_now r with Some c => bus_received c | None => 0 end));
    ("connection_count", JInt (Z.of_nat (SessionManager.session_count (sessions_now r))));
    ("connections", JArr sessions)].

(* src/controllers/admin_controller.cpp:426-431, GET /admin/cache *)
Definition cache_body (r : Readings) : json :=
  jobj [("backend", JStr (backend_name r)); ("hits", JInt (cache_hits r)); ("misses", JInt (cache_misses r));
    ("hit_ratio", number (hit_ratio (cache_hits r) (cache_misses r)))].

(* src/controllers/admin_controller.cpp:439-453, GET /admin/jobs *)
Definition jobs_body (r : Readings) : json :=
  let e := executor_now r in
  let b := bus_now r in
  let d := InProcessEventBus.dispatcher b in
  jobj [("workers", JInt (Z.of_nat (BackgroundExecutor.worker_count e)));
    ("pending", JInt (Z.of_nat (BackgroundExecutor.pending e)));
    ("completed", JInt (BackgroundExecutor.completed e)); ("failed", JInt (BackgroundExecutor.failed e));
    ("event_bus", jobj [
      ("asynchronous", JBool (match InProcessEventBus.executor b with Some _ => true | None => false end));
      ("subscribers", JInt (Z.of_nat (length (EventDispatcher.subscribers d))));
      ("published", JInt (InProcessEventBus.published b)); ("dropped", JInt (InProcessEventBus.dropped b));
      ("dispatched", JInt (EventDispatcher.dispatched d));
      ("handler_failures", JInt (EventDispatcher.failures d))])].

(* src/controllers/admin_controller.cpp:461-476, GET /admin/system *)
Definition system_body (roles : list (Role.t * Z)) (r : Readings) : json :=
  let counter name := number (MetricsRegistry.counter name (metrics_now r)) in
  jobj [("version", JStr (build_version r)); ("uptime_seconds", number (uptime_seconds r));
    ("http_requests_total", counter "rtc_http_requests_total");
    ("http_4xx_total", counter "rtc_http_4xx_total"); ("http_5xx_total", counter "rtc_http_5xx_total");
    ("websocket_connections", JInt (Z.of_nat (SessionManager.session_count (sessions_now r))));
    ("users_by_role", JArr ((λ rc : Role.t * Z,
       jobj [("role", JStr (Role.to_string rc.1)); ("count", JInt rc.2)]) <$> roles))].
End Bodies.

(** ** What they say *)

(** The list of connections has one entry for each counted session. *)
Lemma websockets_counted r l :
  find (websockets_body r) "connections" = Some (JArr l) →
  find (websockets_body r) "connection_count" = Some (JInt (Z.of_nat (length l))).
Proof.
  unfold websockets_body. cbv zeta. set (conns := _ <$> SessionManager.snapshot _). intros Hl.
  change (Some (JArr conns) = Some (JArr l)) in Hl. injection Hl as <-.
  change (Some (JInt (Z.of_nat (SessionManager.session_count (sessions_now r)))) = Some (JInt (Z.of_nat (length conns)))).
  unfold conns, SessionManager.snapshot. by rewrite !length_fmap, length_map_to_list.
Qed.
