(* ===== verification/Gauges.v ===== *)
(** * Gauges: what a scrape reads of the process

    Models Application::register_metrics and process_memory_bytes of
    src/application.cpp.  A gauge callback reads components of the process when a
    scrape calls it; what it finds there is its [Process].  The text of
    /proc/self/statm is given, as the file system is. *)

From Stdlib Require Import QArith.
From S2P Require Import Prelude Text Json Events Tracing Jobs Database Connections Presence Metrics Dashboards.
Open Scope string_scope.
Open Scope Z_scope.

(** ** Resident memory *)

(** [%ld] of [fscanf]: blanks, an optional sign and digits; a number that does
    not fit is the nearest [long], as [strtol] gives it. *)
Definition scan_long (s : string) : option (Z * string) :=
  let body := (span isspace s).2 in
  let '(negative, body) :=
    match body with
    | String c r => if code c =? 45 then (true, r) else if code c =? 43 then (false, r) else (false, body)
    | "" => (false, body)
    end in
  let '(ds, rest) := span isdigit body in
  match ds with
  | "" => None
  | _ => let v := if (negative : bool) then - digits_value 0 ds else digits_value 0 ds in
         Some (Z.max int64_min (Z.min int64_max v), rest)
  end.

(** [static_cast<double>] of a signed number. *)
Definition long_to_double (z : Z) : Q := if z <? 0 then (- to_double (- z))%Q else to_double z.

(** [statm] is [None] when the file cannot be opened. *)
(* src/application.cpp:38-51, process_memory_bytes *)
Definition process_memory_bytes (statm : option string) : Q :=
  match statm with
  | None => 0%Q
  | Some text =>
      match scan_long text with
      | None => 0%Q
      | Some (pages, rest) =>
          match scan_long rest with
          | None => 0%Q
          | Some (resident, _) => (long_to_double resident * 4096)%Q
          end
      end
  end.

(** ** The registrations *)

(** The components when a scrape is answered; of the caches, their counters. *)
Record Process := mkProcess {
  p_sessions : SessionManager.t; p_presence : PresenceService.t;
  p_cache_hits : Z; p_cache_misses : Z; p_uptime : Q; p_statm : option string;
  p_executor : BackgroundExecutor.State DomainEvent.t; p_bus : InProcessEventBus.t World;
  p_authz_hits : Z; p_authz_misses : Z; p_tracer : Tracer.t; p_cluster : BusView }.

Section Registration.
Context `{DoubleAdd, DoubleDiv}.

(** The bounds of the upload histogram. *)
Definition upload_bounds : list Q := [1024; 16384; 131072; 1048576; 5242880; 10485760; 26214400]%Q.

Definition count_of (n : nat) : Q := to_double (Z.of_nat n).

(* src/application.cpp:495-559, Application::register_metrics *)
Definition register_metrics : list (@Ledger.Call Process) :=
  [Ledger.RegisterHistogram "rtc_upload_bytes" upload_bounds;
   Ledger.RegisterGaugeCallback "rtc_ws_connections" (λ p, count_of (SessionManager.session_count (p_sessions p)));
   Ledger.RegisterGaugeCallback "rtc_active_users" (λ p, count_of (PresenceService.online_count (p_presence p)));
   Ledger.RegisterGaugeCallback "rtc_cache_hit_ratio" (λ p, hit_ratio (p_cache_hits p) (p_cache_misses p));
   Ledger.RegisterGaugeCallback "rtc_uptime_seconds" p_uptime;
   Ledger.RegisterGaugeCallback "rtc_process_memory_bytes" (λ p, process_memory_bytes (p_statm p));
   Ledger.RegisterGaugeCallback "rtc_background_jobs_pending"
     (λ p, count_of (BackgroundExecutor.pending (p_executor p)));
   Ledger.RegisterGaugeCallback "rtc_event_bus_published_total" (λ p, to_double (InProcessEventBus.published (p_bus p)));
   Ledger.RegisterGaugeCallback "rtc_event_bus_dropped_total" (λ p, to_double (InProcessEventBus.dropped (p_bus p)));
   Ledger.RegisterGaugeCallback "rtc_event_bus_handler_failures_total"
     (λ p, to_double (EventDispatcher.failures (InProcessEventBus.dispatcher (p_bus p))));
   Ledger.RegisterGaugeCallback "rtc_authz_cache_hits_total" (λ p, to_double (p_authz_hits p));
   Ledger.RegisterGaugeCallback "rtc_authz_cache_misses_total" (λ p, to_double (p_authz_misses p));
   Ledger.RegisterGaugeCallback "rtc_spans_started_total" (λ p, to_double (Tracer.started (p_tracer p)));
   Ledger.RegisterGaugeCallback "rtc_spans_exported_total" (λ p, to_double (Tracer.exported (p_tracer p)));
   Ledger.RegisterGaugeCallback "rtc_spans_dropped_total" (λ p, to_double (Tracer.dropped (p_tracer p)));
   Ledger.RegisterGaugeCallback "rtc_cluster_published_total" (λ p, to_double (bus_published (p_cluster p)));
   Ledger.RegisterGaugeCallback "rtc_cluster_received_total" (λ p, to_double (bus_received (p_cluster p)))].

(** After registration the program only counts, observes and sets gauges. *)
Definition recording (c : @Ledger.Call Process) : bool :=
  match c with
  | Ledger.Increment _ _ | Ledger.SetGauge _ _ | Ledger.Observe _ _ => true
  | _ => false
  end.

(** The sizes of the uploads among the calls. *)
Definition uploads (calls : list (@Ledger.Call Process)) : list Q :=
  c ← calls;
  match c with
  | Ledger.Observe name v => if decide (name = "rtc_upload_bytes") then [v] else []
  | _ => []
  end.

(** ** What a scrape finds *)

Lemma callbacks_kept (calls : list (@Ledger.Call Process)) r :
  Forall (λ c, recording c = true) calls →
  MetricsRegistry.gauge_callbacks (foldl Ledger.call r calls) = MetricsRegistry.gauge_callbacks r.
Proof.
  intros Hc. revert r. induction Hc as [|c calls Hr _ IH]; intros r; [done|].
  cbn [foldl]. rewrite IH. by destruct c.
Qed.

Lemma ledger_uploads (calls : list (@Ledger.Call Process)) (l : list Q * list Q) :
  Forall (λ c, recording c = true) calls → l.1 ≠ [] →
  foldl (Ledger.entry "rtc_upload_bytes") l calls = (l.1, l.2 ++ uploads calls)%list.
Proof.
  intros Hc. revert l. induction Hc as [|c calls Hr _ IH]; intros [bs vs] Hbs.
  { cbn. by rewrite app_nil_r. }
  cbn [foldl]. rewrite IH; destruct c; cbn in *; try done; case_decide; cbn; try done.
  - subst. destruct bs; [done|]. cbn. by rewrite <- app_assoc.
  - by destruct bs.
Qed.

Lemma upload_ledger (calls : list (@Ledger.Call Process)) :
  Forall (λ c, recording c = true) calls →
  Ledger.ledger "rtc_upload_bytes" (register_metrics ++ calls) = (upload_bounds, uploads calls).
Proof.
  intros Hc. unfold Ledger.ledger. rewrite foldl_app.
  assert (Hl : foldl (Ledger.entry "rtc_upload_bytes") ([], []) register_metrics = (upload_bounds, []))
    by (by vm_compute).
  rewrite Hl. by rewrite ledger_uploads.
Qed.

Lemma tally_all (P : Q → Prop) `{!∀ v, Decision (P v)} vs :
  Forall P vs → Ledger.tally P vs = Z.of_nat (length vs).
Proof.
  unfold Ledger.tally. induction 1 as [|v vs Hv _ IH]; [done|].
  rewrite filter_cons_True by done. cbn. lia.
Qed.

(** The gauges registered at start-up stay as they are however the program
    counts afterwards, sixteen of them; and as long as no upload exceeds 25 MiB
    the last bound of the upload histogram counts every upload, none being left
    to the infinite bucket alone. *)
Theorem scrape_reads_process (calls : list (@Ledger.Call Process)) :
  Forall (λ c, recording c = true) calls →
  Z.of_nat (length (register_metrics ++ calls)) < 2 ^ 64 →
  let r := Ledger.run (register_metrics ++ calls) in
  let h := default MetricsRegistry.fresh (MetricsRegistry.histograms r !! "rtc_upload_bytes") in
  MetricsRegistry.gauge_callbacks r = MetricsRegistry.gauge_callbacks (Ledger.run register_metrics) ∧
  size (MetricsRegistry.gauge_callbacks r) = 16%nat ∧
  (Forall (λ v, (v <= 26214400)%Q) (uploads calls) →
   last (MetricsRegistry.cumulate 0 (MetricsRegistry.bucket_counts h)) = Some (MetricsRegistry.count h)).
Proof.
  intros Hc Hlen r h.
  assert (Hcb : MetricsRegistry.gauge_callbacks r
                = MetricsRegistry.gauge_callbacks (Ledger.run (E:=Process) register_metrics)).
  { unfold r, Ledger.run. rewrite foldl_app. by apply callbacks_kept. }
  split_and!; [done|rewrite Hcb; by vm_compute|]. intros Hup.
  pose proof (Ledger.run_kept "rtc_upload_bytes" _ Hlen) as Hk.
  pose proof (Ledger.ledger_length "rtc_upload_bytes" (register_metrics ++ calls)) as Hlt.
  rewrite upload_ledger in Hk, Hlt by done. destruct Hk as (Hb & Ha & _). cbn [fst snd] in *.
  fold r h in Hb, Ha. rewrite (Ledger.agrees_cumulate h _ Ha) by lia. rewrite Hb.
  destruct Ha as (-> & _). cbn -[Ledger.tally]. f_equal. by apply tally_all.
Qed.
End Registration.

Module GaugesSample.
#[local] Instance exact : DoubleAdd := Qplus.
#[local] Instance quotient : DoubleDiv := Qdiv.

(** One upload of 26 MiB, which only a raised limit admits, is in no bucket but
    the infinite one. *)
Lemma large_upload_beyond :
  let r := Ledger.run (register_metrics ++ [Ledger.Observe "rtc_upload_bytes" 27262976%Q]) in
  let h := default MetricsRegistry.fresh (MetricsRegistry.histograms r !! "rtc_upload_bytes") in
  last (MetricsRegistry.cumulate 0 (MetricsRegistry.bucket_counts h)) = Some 0 ∧ MetricsRegistry.count h = 1.
Proof. by vm_compute. Qed.

Lemma memory_samples :
  process_memory_bytes (Some "52211 3017 1800 40 0 9000 0") = 12357632%Q ∧
  process_memory_bytes (Some "52211") = 0%Q ∧ process_memory_bytes None = 0%Q.
Proof. by vm_compute. Qed.
End GaugesSample.
