(* ===== verification/OpenApi.v ===== *)
(** * OpenApi: the published description of the REST interface

    Translates the document of src/docs/openapi_spec.cpp, a JSON literal in the
    source, value by value, and the function that adapts it to a deployment.
    [ref] is a reference to a component of the document. *)

From S2P Require Import Prelude Text Json.
Open Scope string_scope.
Open Scope Z_scope.

Definition nl : string := String "010" "".
Definition quote : string := String "034" "".
Definition ref (kind name : string) : json :=
  jobj [("$ref", JStr ("#/components/" +:+ kind +:+ "/" +:+ name))].

(** ** The front matter *)

(** Title, version and introduction. *)
(* src/docs/openapi_spec.cpp:19-25, kOpenApiJson (info) *)
Definition info : json :=
  jobj [("title", JStr "Realtime Chat API"); ("version", JStr "0.1.0");
        ("summary", JStr "Distributed real-time messaging platform");
        ("description", JStr ("REST and WebSocket API for the realtime-chat backend." +:+ nl +:+
           nl +:+
           "## Versioning" +:+ nl +:+
           nl +:+
           "Every endpoint is reachable at two paths:" +:+ nl +:+
           nl +:+
           "* `/api/v1/...` — the explicit, recommended form for new clients." +:+ nl +:+
           "* `/api/...` — the original unversioned form, permanently supported and treated as an alias for v1." +:+ nl +:+
           nl +:+
           "Responses carry `X-API-Version`. Requesting an unsupported version (`/api/v9/...`) returns 404 with an `unsupported_api_version` error naming the versions this build supports." +:+ nl +:+
           nl +:+
           "## Errors" +:+ nl +:+
           nl +:+
           "Every failure uses one envelope:" +:+ nl +:+
           nl +:+
           "```json" +:+ nl +:+
           "{ " +:+ quote +:+ "error" +:+ quote +:+ ": { " +:+ quote +:+ "code" +:+ quote +:+ ": " +:+ quote +:+ "validation_error" +:+ quote +:+ ", " +:+ quote +:+ "message" +:+ quote +:+ ": " +:+ quote +:+ "..." +:+ quote +:+ ", " +:+ quote +:+ "details" +:+ quote +:+ ": " +:+ quote +:+ "field=username" +:+ quote +:+ " } }" +:+ nl +:+
           "```" +:+ nl +:+
           nl +:+
           "`code` is stable and machine-readable; `details` is present only when there is safe extra context." +:+ nl +:+
           nl +:+
           "## Authentication" +:+ nl +:+
           nl +:+
           "All endpoints except registration, login, refresh, health and metrics require `Authorization: Bearer <access_token>`. Access tokens are short-lived (15 minutes by default); use `POST /api/v1/auth/refresh` with the refresh token and session id to rotate." +:+ nl +:+
           nl +:+
           "## Correlation" +:+ nl +:+
           nl +:+
           "Send `X-Request-Id` to correlate your request with server logs, or read the one the server generates from the response header. Send W3C `traceparent` to join the server span to your trace; the response echoes it."));
        ("license", jobj [("name", JStr "MIT"); ("identifier", JStr "MIT")])].

(** The server of a local run. *)
(* src/docs/openapi_spec.cpp:26-28, kOpenApiJson (servers) *)
Definition servers : json :=
  JArr [jobj [("url", JStr "http://localhost:8080"); ("description", JStr "Local development")]].

(** The sections of the document. *)
(* src/docs/openapi_spec.cpp:29-41, kOpenApiJson (tags) *)
Definition tags : json :=
  JArr [jobj [("name", JStr "Authentication");
              ("description", JStr "Registration, login, token rotation and session revocation")];
        jobj [("name", JStr "Users"); ("description", JStr "Profile read and update")];
        jobj [("name", JStr "Conversations"); ("description", JStr "Direct conversations and group chats")];
        jobj [("name", JStr "Messages");
              ("description", JStr "Sending, listing, editing and deleting messages")];
        jobj [("name", JStr "Reactions"); ("description", JStr "Emoji reactions on messages")];
        jobj [("name", JStr "Attachments"); ("description", JStr "File upload, download and thumbnails")];
        jobj [("name", JStr "Notifications"); ("description", JStr "In-app notification inbox")];
        jobj [("name", JStr "Sessions"); ("description", JStr "The caller's own active sessions")];
        jobj [("name", JStr "Search"); ("description", JStr "PostgreSQL full-text search over messages")];
        jobj [("name", JStr "Admin");
              ("description", JStr "Administrative operations. Each route requires a specific permission.")];
        jobj [("name", JStr "Operations"); ("description", JStr "Health probes and Prometheus metrics")]].

(** Further documentation. *)
(* src/docs/openapi_spec.cpp:1149-1152, kOpenApiJson (externalDocs) *)
Definition external_docs : json :=
  jobj [("description", JStr "Architecture, WebSocket protocol and deployment documentation");
        ("url", JStr "https://github.com/devtejasx/realtime-chat-server/tree/main/docs")].

(** ** Components *)

(** The one scheme. *)
(* src/docs/openapi_spec.cpp:43-50, kOpenApiJson (securitySchemes) *)
Definition security_schemes : json :=
  jobj [("bearerAuth", jobj [("type", JStr "http"); ("scheme", JStr "bearer"); ("bearerFormat", JStr "JWT");
                           ("description", JStr "JWT access token issued by /api/v1/auth/login or /api/v1/auth/register.")])].

(** Shared parameters. *)
(* src/docs/openapi_spec.cpp:51-77, kOpenApiJson (parameters) *)
Definition parameters : json :=
  jobj [("Limit", jobj [("name", JStr "limit"); ("in", JStr "query"); ("required", JBool false);
                      ("description", JStr "Page size, clamped to [1, 100].");
                      ("schema", jobj [("type", JStr "integer"); ("minimum", JInt 1); ("maximum", JInt 100);
                                     ("default", JInt 50)])]);
        ("Offset", jobj [("name", JStr "offset"); ("in", JStr "query"); ("required", JBool false);
                       ("description", JStr "Rows to skip. Prefer keyset pagination (`before`/`after`) for deep pages.");
                       ("schema", jobj [("type", JStr "integer"); ("minimum", JInt 0); ("default", JInt 0)])]);
        ("Before", jobj [("name", JStr "before"); ("in", JStr "query"); ("required", JBool false);
                       ("description", JStr "Keyset cursor: return records with id strictly less than this.");
                       ("schema", jobj [("type", JStr "integer"); ("format", JStr "int64")])]);
        ("After", jobj [("name", JStr "after"); ("in", JStr "query"); ("required", JBool false);
                      ("description", JStr "Keyset cursor: return records with id strictly greater than this.");
                      ("schema", jobj [("type", JStr "integer"); ("format", JStr "int64")])]);
        ("RequestId", jobj [("name", JStr "X-Request-Id"); ("in", JStr "header"); ("required", JBool false);
                          ("description", JStr "Client-supplied correlation id, echoed on the response and recorded in logs and traces.");
                          ("schema", jobj [("type", JStr "string"); ("maxLength", JInt 128)])])].

(** Shared error responses. *)
(* src/docs/openapi_spec.cpp:412-421, kOpenApiJson (responses) *)
Definition responses : json :=
  jobj [("BadRequest", jobj [("description", JStr "Invalid input");
                           ("content", jobj [("application/json", jobj [("schema", ref "schemas" "Error")])])]);
        ("Unauthorized", jobj [("description", JStr "Missing/invalid token, or suspended account");
                             ("content", jobj [("application/json", jobj [("schema", ref "schemas" "Error")])])]);
        ("Forbidden", jobj [("description", JStr "Authenticated but not permitted");
                          ("content", jobj [("application/json", jobj [("schema", ref "schemas" "Error")])])]);
        ("NotFound", jobj [("description", JStr "Resource not found, or feature disabled");
                         ("content", jobj [("application/json", jobj [("schema", ref "schemas" "Error")])])]);
        ("Conflict", jobj [("description", JStr "State conflict (e.g. duplicate)");
                         ("content", jobj [("application/json", jobj [("schema", ref "schemas" "Error")])])]);
        ("TooLarge", jobj [("description", JStr "Request or upload exceeds the limit");
                         ("content", jobj [("application/json", jobj [("schema", ref "schemas" "Error")])])]);
        ("RateLimited", jobj [("description", JStr "Rate limit exceeded");
                            ("content", jobj [("application/json", jobj [("schema", ref "schemas" "Error")])])]);
        ("ServerError", jobj [("description", JStr "Internal error");
                            ("content", jobj [("application/json", jobj [("schema", ref "schemas" "Error")])])])].

(** The error envelope, accounts and sign-in. *)
(* src/docs/openapi_spec.cpp:79-187, kOpenApiJson (schemas) *)
Definition account_schemas : list (string * json) :=
  [("Error",
     jobj [("type", JStr "object"); ("required", JArr [JStr "error"]);
           ("properties", jobj [("error", jobj [("type", JStr "object");
                                            ("required", JArr [JStr "code"; JStr "message"]);
                                            ("properties", jobj [("code", jobj [("type", JStr "string");
                                                                            ("description", JStr "Stable machine-readable code.");
                                                                            ("enum", JArr [JStr "validation_error";
                                                                                         JStr "authentication_error";
                                                                                         JStr "authorization_error";
                                                                                         JStr "not_found";
                                                                                         JStr "conflict";
                                                                                         JStr "payload_too_large";
                                                                                         JStr "unsupported_media_type";
                                                                                         JStr "rate_limited";
                                                                                         JStr "database_error";
                                                                                         JStr "configuration_error";
                                                                                         JStr "internal_error";
                                                                                         JStr "unsupported_api_version"])]);
                                                               ("message", jobj [("type", JStr "string")]);
                                                               ("details", jobj [("type", JStr "string");
                                                                               ("description", JStr "Safe additional context, when available.")])])])]);
           ("examples", JArr [jobj [("error", jobj [("code", JStr "validation_error");
                                                ("message", JStr "Username is required");
                                                ("details", JStr "field=username")])]])]);
   ("User",
     jobj [("type", JStr "object");
           ("required", JArr [JStr "id"; JStr "username"; JStr "email"; JStr "created_at"]);
           ("properties", jobj [("id", jobj [("type", JStr "integer"); ("format", JStr "int64")]);
                              ("username", jobj [("type", JStr "string"); ("minLength", JInt 3);
                                               ("maxLength", JInt 32)]);
                              ("email", jobj [("type", JStr "string"); ("format", JStr "email")]);
                              ("display_name", jobj [("type", JArr [JStr "string"; JStr "null"])]);
                              ("bio", jobj [("type", JArr [JStr "string"; JStr "null"])]);
                              ("avatar_url", jobj [("type", JArr [JStr "string"; JStr "null"]);
                                                 ("format", JStr "uri")]);
                              ("created_at", jobj [("type", JStr "string"); ("format", JStr "date-time")]);
                              ("updated_at", jobj [("type", JStr "string"); ("format", JStr "date-time")])]);
           ("examples", JArr [jobj [("id", JInt 1); ("username", JStr "ada"); ("email", JStr "ada@example.com");
                                  ("display_name", JStr "Ada L."); ("bio", JNull); ("avatar_url", JNull);
                                  ("created_at", JStr "2026-07-30T09:00:00Z");
                                  ("updated_at", JStr "2026-07-30T09:00:00Z")]])]);
   ("RegisterRequest",
     jobj [("type", JStr "object"); ("required", JArr [JStr "username"; JStr "email"; JStr "password"]);
           ("properties", jobj [("username", jobj [("type", JStr "string"); ("minLength", JInt 3);
                                               ("maxLength", JInt 32);
                                               ("description", JStr "Alphanumeric plus underscore.")]);
                              ("email", jobj [("type", JStr "string"); ("format", JStr "email")]);
                              ("password", jobj [("type", JStr "string"); ("minLength", JInt 8);
                                               ("format", JStr "password")])]);
           ("examples", JArr [jobj [("username", JStr "ada"); ("email", JStr "ada@example.com");
                                  ("password", JStr "correct-horse-battery")]])]);
   ("LoginRequest",
     jobj [("type", JStr "object");
           ("description", JStr "The account is named by exactly one of `identifier`, `username` or `email` — they are accepted interchangeably and resolved against both the username and email columns. `identifier` is the canonical spelling; the other two exist for clients that model the field by what they collected. Supplying none of them is a validation error.");
           ("required", JArr [JStr "password"]);
           ("properties", jobj [("identifier", jobj [("type", JStr "string");
                                                 ("description", JStr "Username or email. Preferred.")]);
                              ("username", jobj [("type", JStr "string");
                                               ("description", JStr "Alternative to `identifier`.")]);
                              ("email", jobj [("type", JStr "string"); ("format", JStr "email");
                                            ("description", JStr "Alternative to `identifier`.")]);
                              ("password", jobj [("type", JStr "string"); ("format", JStr "password")])]);
           ("anyOf", JArr [jobj [("required", JArr [JStr "identifier"])];
                         jobj [("required", JArr [JStr "username"])];
                         jobj [("required", JArr [JStr "email"])]]);
           ("examples", JArr [jobj [("identifier", JStr "ada"); ("password", JStr "correct-horse-battery")]])]);
   ("TokenPair",
     jobj [("type", JStr "object");
           ("required", JArr [JStr "access_token"; JStr "refresh_token"; JStr "token_type"]);
           ("properties", jobj [("access_token", jobj [("type", JStr "string")]);
                              ("refresh_token", jobj [("type", JStr "string")]);
                              ("token_type", jobj [("type", JStr "string"); ("const", JStr "Bearer")]);
                              ("access_expires_in", jobj [("type", JStr "integer");
                                                        ("description", JStr "Access token lifetime in seconds.")]);
                              ("refresh_expires_in", jobj [("type", JStr "integer");
                                                         ("description", JStr "Refresh token lifetime in seconds.")])])]);
   ("AuthResponse",
     jobj [("type", JStr "object"); ("required", JArr [JStr "user"; JStr "tokens"; JStr "session_id"]);
           ("properties", jobj [("user", ref "schemas" "User"); ("tokens", ref "schemas" "TokenPair");
                              ("session_id", jobj [("type", JStr "string");
                                                 ("description", JStr "Pass to /auth/refresh and /auth/logout.")])])]);
   ("RefreshRequest",
     jobj [("type", JStr "object"); ("required", JArr [JStr "refresh_token"; JStr "session_id"]);
           ("properties", jobj [("refresh_token", jobj [("type", JStr "string")]);
                              ("session_id", jobj [("type", JStr "string")])])]);
   ("UpdateProfileRequest",
     jobj [("type", JStr "object");
           ("description", JStr "Only the supplied fields are changed. An explicit null clears the field.");
           ("properties", jobj [("display_name", jobj [("type", JArr [JStr "string"; JStr "null"]);
                                                   ("maxLength", JInt 64)]);
                              ("bio", jobj [("type", JArr [JStr "string"; JStr "null"]); ("maxLength", JInt 280)]);
                              ("avatar_url", jobj [("type", JArr [JStr "string"; JStr "null"]);
                                                 ("format", JStr "uri")])])])].

(** Conversations, messages and reactions. *)
(* src/docs/openapi_spec.cpp:188-290, kOpenApiJson (schemas) *)
Definition conversation_schemas : list (string * json) :=
  [("ConversationParticipant",
     jobj [("type", JStr "object"); ("required", JArr [JStr "user_id"; JStr "role"; JStr "joined_at"]);
           ("properties", jobj [("user_id", jobj [("type", JStr "integer"); ("format", JStr "int64")]);
                              ("role", jobj [("type", JStr "string");
                                           ("enum", JArr [JStr "member"; JStr "owner"]);
                                           ("description", JStr "Membership role within this conversation, distinct from the account-level RBAC role.")]);
                              ("joined_at", jobj [("type", JStr "string"); ("format", JStr "date-time")])])]);
   ("Conversation",
     jobj [("type", JStr "object");
           ("required", JArr [JStr "id"; JStr "type"; JStr "created_at"; JStr "updated_at"; JStr "participants"]);
           ("properties", jobj [("id", jobj [("type", JStr "integer"); ("format", JStr "int64")]);
                              ("type", jobj [("type", JStr "string");
                                           ("enum", JArr [JStr "direct"; JStr "group"])]);
                              ("name", jobj [("type", JArr [JStr "string"; JStr "null"]);
                                           ("description", JStr "Group name; null for direct.")]);
                              ("owner_id", jobj [("type", JArr [JStr "integer"; JStr "null"]);
                                               ("format", JStr "int64");
                                               ("description", JStr "Group owner; null for direct conversations.")]);
                              ("participants", jobj [("type", JStr "array");
                                                   ("description", JStr "Full membership records, not bare ids.");
                                                   ("items", ref "schemas" "ConversationParticipant")]);
                              ("created_at", jobj [("type", JStr "string"); ("format", JStr "date-time")]);
                              ("updated_at", jobj [("type", JStr "string"); ("format", JStr "date-time")]);
                              ("last_message_at", jobj [("type", JArr [JStr "string"; JStr "null"]);
                                                      ("format", JStr "date-time")])])]);
   ("CreateConversationRequest",
     jobj [("type", JStr "object");
           ("description", JStr "`type` selects the shape and is always required. A direct conversation takes exactly one other participant and ignores `name`; a group takes `name` plus its initial members. The caller is always added implicitly and must not be listed in `participant_ids`. Creating a direct conversation is idempotent — an existing one between the same two users is returned rather than duplicated.");
           ("required", JArr [JStr "type"; JStr "participant_ids"]);
           ("properties", jobj [("type", jobj [("type", JStr "string");
                                           ("enum", JArr [JStr "direct"; JStr "group"])]);
                              ("participant_ids", jobj [("type", JStr "array");
                                                      ("description", JStr "Other participants, excluding the caller. Exactly one entry when type is `direct`.");
                                                      ("items", jobj [("type", JStr "integer");
                                                                    ("format", JStr "int64")])]);
                              ("name", jobj [("type", JStr "string"); ("maxLength", JInt 100);
                                           ("description", JStr "Group name. Ignored when type is `direct`.")])]);
           ("examples", JArr [jobj [("type", JStr "direct"); ("participant_ids", JArr [JInt 2])];
                            jobj [("type", JStr "group"); ("name", JStr "release-team");
                                  ("participant_ids", JArr [JInt 2; JInt 3; JInt 4])]])]);
   ("Message",
     jobj [("type", JStr "object");
           ("required", JArr [JStr "id";
                            JStr "conversation_id";
                            JStr "sender_id";
                            JStr "content";
                            JStr "type";
                            JStr "created_at";
                            JStr "updated_at";
                            JStr "deleted";
                            JStr "edited"]);
           ("properties", jobj [("id", jobj [("type", JStr "integer"); ("format", JStr "int64")]);
                              ("conversation_id", jobj [("type", JStr "integer"); ("format", JStr "int64")]);
                              ("sender_id", jobj [("type", JStr "integer"); ("format", JStr "int64")]);
                              ("type", jobj [("type", JStr "string");
                                           ("enum", JArr [JStr "text"; JStr "system"])]);
                              ("content", jobj [("type", JStr "string"); ("maxLength", JInt 4000);
                                              ("description", JStr "Emptied when the message is soft-deleted.")]);
                              ("attachment_ids", jobj [("type", JStr "array");
                                                     ("items", jobj [("type", JStr "integer");
                                                                   ("format", JStr "int64")])]);
                              ("created_at", jobj [("type", JStr "string"); ("format", JStr "date-time")]);
                              ("updated_at", jobj [("type", JStr "string"); ("format", JStr "date-time")]);
                              ("deleted", jobj [("type", JStr "boolean");
                                              ("description", JStr "Soft-delete flag. The row is retained so conversation history stays contiguous.")]);
                              ("edited", jobj [("type", JStr "boolean");
                                             ("description", JStr "True once the content has been changed.")]);
                              ("edited_at", jobj [("type", JArr [JStr "string"; JStr "null"]);
                                                ("format", JStr "date-time");
                                                ("description", JStr "Null until the first edit.")])])]);
   ("SendMessageRequest",
     jobj [("type", JStr "object"); ("required", JArr [JStr "conversation_id"; JStr "content"]);
           ("properties", jobj [("conversation_id", jobj [("type", JStr "integer"); ("format", JStr "int64")]);
                              ("content", jobj [("type", JStr "string"); ("minLength", JInt 1);
                                              ("maxLength", JInt 4000)]);
                              ("type", jobj [("type", JStr "string");
                                           ("enum", JArr [JStr "text"; JStr "system"]);
                                           ("default", JStr "text")]);
                              ("attachment_ids", jobj [("type", JStr "array");
                                                     ("items", jobj [("type", JStr "integer");
                                                                   ("format", JStr "int64")]);
                                                     ("description", JStr "Ids from POST /attachments, owned by the caller.")])]);
           ("examples", JArr [jobj [("conversation_id", JInt 7); ("content", JStr "Ship it.")]])]);
   ("UpdateMessageRequest",
     jobj [("type", JStr "object"); ("required", JArr [JStr "content"]);
           ("properties", jobj [("content", jobj [("type", JStr "string"); ("minLength", JInt 1);
                                              ("maxLength", JInt 4000)])])]);
   ("Reaction",
     jobj [("type", JStr "object"); ("required", JArr [JStr "message_id"; JStr "user_id"; JStr "emoji"]);
           ("properties", jobj [("message_id", jobj [("type", JStr "integer"); ("format", JStr "int64")]);
                              ("user_id", jobj [("type", JStr "integer"); ("format", JStr "int64")]);
                              ("emoji", jobj [("type", JStr "string");
                                            ("enum", JArr [JStr "👍";
                                                         JStr "❤️";
                                                         JStr "😂";
                                                         JStr "😮";
                                                         JStr "😢";
                                                         JStr "👏";
                                                         JStr "🔥"])]);
                              ("created_at", jobj [("type", JStr "string"); ("format", JStr "date-time")])])]);
   ("ReactionRequest",
     jobj [("type", JStr "object");
           ("description", JStr "Reactions are restricted to a fixed palette so every client can render them, and anything outside the enum is rejected with a validation error naming `emoji`. Send the literal emoji character, not a shortcode such as `:thumbsup:`.");
           ("required", JArr [JStr "emoji"]);
           ("properties", jobj [("emoji", jobj [("type", JStr "string");
                                            ("enum", JArr [JStr "👍";
                                                         JStr "❤️";
                                                         JStr "😂";
                                                         JStr "😮";
                                                         JStr "😢";
                                                         JStr "👏";
                                                         JStr "🔥"])])]);
           ("examples", JArr [jobj [("emoji", JStr "👍")]])])].

(** Attachments, notifications, sessions, search, administration and health. *)
(* src/docs/openapi_spec.cpp:291-410, kOpenApiJson (schemas) *)
Definition resource_schemas : list (string * json) :=
  [("Attachment",
     jobj [("type", JStr "object");
           ("properties", jobj [("id", jobj [("type", JStr "integer"); ("format", JStr "int64")]);
                              ("owner_id", jobj [("type", JStr "integer"); ("format", JStr "int64")]);
                              ("message_id", jobj [("type", JArr [JStr "integer"; JStr "null"]);
                                                 ("format", JStr "int64")]);
                              ("filename", jobj [("type", JStr "string")]);
                              ("content_type", jobj [("type", JStr "string")]);
                              ("size_bytes", jobj [("type", JStr "integer"); ("format", JStr "int64")]);
                              ("url", jobj [("type", JStr "string")]);
                              ("thumbnail_url", jobj [("type", JArr [JStr "string"; JStr "null"])]);
                              ("created_at", jobj [("type", JStr "string"); ("format", JStr "date-time")])])]);
   ("Notification",
     jobj [("type", JStr "object");
           ("properties", jobj [("id", jobj [("type", JStr "integer"); ("format", JStr "int64")]);
                              ("user_id", jobj [("type", JStr "integer"); ("format", JStr "int64")]);
                              ("type", jobj [("type", JStr "string")]);
                              ("payload", jobj [("type", JStr "object"); ("additionalProperties", JBool true)]);
                              ("read_at", jobj [("type", JArr [JStr "string"; JStr "null"]);
                                              ("format", JStr "date-time")]);
                              ("created_at", jobj [("type", JStr "string"); ("format", JStr "date-time")])])]);
   ("Session",
     jobj [("type", JStr "object");
           ("properties", jobj [("id", jobj [("type", JStr "string")]);
                              ("user_agent", jobj [("type", JArr [JStr "string"; JStr "null"])]);
                              ("ip", jobj [("type", JArr [JStr "string"; JStr "null"])]);
                              ("created_at", jobj [("type", JStr "string"); ("format", JStr "date-time")]);
                              ("last_used_at", jobj [("type", JStr "string"); ("format", JStr "date-time")]);
                              ("expires_at", jobj [("type", JStr "string"); ("format", JStr "date-time")])])]);
   ("SearchResult",
     jobj [("type", JStr "object");
           ("properties", jobj [("message_id", jobj [("type", JStr "integer"); ("format", JStr "int64")]);
                              ("conversation_id", jobj [("type", JStr "integer"); ("format", JStr "int64")]);
                              ("sender_id", jobj [("type", JStr "integer"); ("format", JStr "int64")]);
                              ("content", jobj [("type", JStr "string")]);
                              ("created_at", jobj [("type", JStr "string"); ("format", JStr "date-time")]);
                              ("rank", jobj [("type", JStr "number"); ("format", JStr "double");
                                           ("description", JStr "ts_rank_cd relevance score.")]);
                              ("highlight", jobj [("type", JStr "string");
                                                ("description", JStr "Snippet with <mark> around matches.")]);
                              ("fuzzy_match", jobj [("type", JStr "boolean");
                                                  ("description", JStr "True when returned by the trigram fallback.")])])]);
   ("SearchResponse",
     jobj [("type", JStr "object");
           ("properties", jobj [("query", jobj [("type", JStr "string")]);
                              ("total", jobj [("type", JStr "integer");
                                            ("description", JStr "Exact full-text matches.")]);
                              ("returned", jobj [("type", JStr "integer")]);
                              ("fuzzy_available", jobj [("type", JStr "boolean");
                                                      ("description", JStr "Whether pg_trgm is installed.")]);
                              ("limit", jobj [("type", JStr "integer")]);
                              ("offset", jobj [("type", JStr "integer")]);
                              ("results", jobj [("type", JStr "array"); ("items", ref "schemas" "SearchResult")])])]);
   ("AdminUser",
     jobj [("type", JStr "object");
           ("properties", jobj [("id", jobj [("type", JStr "integer"); ("format", JStr "int64")]);
                              ("username", jobj [("type", JStr "string")]);
                              ("email", jobj [("type", JStr "string"); ("format", JStr "email")]);
                              ("display_name", jobj [("type", JArr [JStr "string"; JStr "null"])]);
                              ("role", ref "schemas" "Role"); ("banned", jobj [("type", JStr "boolean")]);
                              ("banned_at", jobj [("type", JArr [JStr "string"; JStr "null"]);
                                                ("format", JStr "date-time")]);
                              ("ban_reason", jobj [("type", JArr [JStr "string"; JStr "null"])]);
                              ("banned_by", jobj [("type", JArr [JStr "integer"; JStr "null"]);
                                                ("format", JStr "int64")]);
                              ("created_at", jobj [("type", JStr "string"); ("format", JStr "date-time")]);
                              ("updated_at", jobj [("type", JStr "string"); ("format", JStr "date-time")])])]);
   ("Role",
     jobj [("type", JStr "string");
           ("enum", JArr [JStr "user"; JStr "moderator"; JStr "admin"; JStr "super_admin"]);
           ("description", JStr "Roles are hierarchical. Permissions are derived from the role, never from comparing role names.")]);
   ("AuditRecord",
     jobj [("type", JStr "object");
           ("properties", jobj [("id", jobj [("type", JStr "integer"); ("format", JStr "int64")]);
                              ("event_id", jobj [("type", JStr "string")]);
                              ("event_type", jobj [("type", JStr "string"); ("example", JStr "user.logged_in")]);
                              ("actor_id", jobj [("type", JArr [JStr "integer"; JStr "null"]);
                                               ("format", JStr "int64")]);
                              ("actor_username", jobj [("type", JArr [JStr "string"; JStr "null"])]);
                              ("target_type", jobj [("type", JArr [JStr "string"; JStr "null"])]);
                              ("target_id", jobj [("type", JArr [JStr "string"; JStr "null"])]);
                              ("ip", jobj [("type", JArr [JStr "string"; JStr "null"])]);
                              ("user_agent", jobj [("type", JArr [JStr "string"; JStr "null"])]);
                              ("correlation_id", jobj [("type", JArr [JStr "string"; JStr "null"])]);
                              ("trace_id", jobj [("type", JArr [JStr "string"; JStr "null"])]);
                              ("metadata", jobj [("type", JStr "object"); ("additionalProperties", JBool true)]);
                              ("occurred_at", jobj [("type", JStr "string"); ("format", JStr "date-time")]);
                              ("created_at", jobj [("type", JStr "string"); ("format", JStr "date-time")])])]);
   ("FeatureFlag",
     jobj [("type", JStr "object");
           ("properties", jobj [("name", jobj [("type", JStr "string")]);
                              ("enabled", jobj [("type", JStr "boolean")]);
                              ("env", jobj [("type", JStr "string");
                                          ("description", JStr "Environment variable seeding this flag.")]);
                              ("default", jobj [("type", JStr "boolean")]);
                              ("description", jobj [("type", JStr "string")])])]);
   ("HealthStatus",
     jobj [("type", JStr "object");
           ("properties", jobj [("status", jobj [("type", JStr "string")]);
                              ("checks", jobj [("type", JStr "object");
                                             ("additionalProperties", jobj [("type", JStr "string")])]);
                              ("cluster", jobj [("type", JStr "object"); ("additionalProperties", JBool true)]);
                              ("websocket_protocol", jobj [("type", JStr "object");
                                                         ("additionalProperties", JBool true)])])])].

(** ** Paths *)

(** Authentication. *)
(* src/docs/openapi_spec.cpp:425-497, kOpenApiJson (paths) *)
Definition auth_paths : list (string * json) :=
  [("/api/v1/auth/register",
     jobj [("post", jobj [("tags", JArr [JStr "Authentication"]); ("summary", JStr "Register a new account");
                        ("security", JArr []); ("operationId", JStr "register");
                        ("requestBody", jobj [("required", JBool true);
                                            ("content", jobj [("application/json", jobj [("schema", ref "schemas" "RegisterRequest")])])]);
                        ("responses", jobj [("201", jobj [("description", JStr "Account created");
                                                      ("content", jobj [("application/json", jobj [("schema", ref "schemas" "AuthResponse")])])]);
                                          ("400", ref "responses" "BadRequest");
                                          ("409", ref "responses" "Conflict");
                                          ("429", ref "responses" "RateLimited")])])]);
   ("/api/v1/auth/login",
     jobj [("post", jobj [("tags", JArr [JStr "Authentication"]);
                        ("summary", JStr "Exchange credentials for tokens"); ("security", JArr []);
                        ("operationId", JStr "login");
                        ("requestBody", jobj [("required", JBool true);
                                            ("content", jobj [("application/json", jobj [("schema", ref "schemas" "LoginRequest")])])]);
                        ("responses", jobj [("200", jobj [("description", JStr "Authenticated");
                                                      ("content", jobj [("application/json", jobj [("schema", ref "schemas" "AuthResponse")])])]);
                                          ("400", ref "responses" "BadRequest");
                                          ("401", ref "responses" "Unauthorized");
                                          ("429", ref "responses" "RateLimited")])])]);
   ("/api/v1/auth/refresh",
     jobj [("post", jobj [("tags", JArr [JStr "Authentication"]);
                        ("summary", JStr "Rotate an access/refresh pair");
                        ("description", JStr "The refresh token is single-use: rotation replaces the stored hash, so replaying an old token is rejected.");
                        ("security", JArr []); ("operationId", JStr "refresh");
                        ("requestBody", jobj [("required", JBool true);
                                            ("content", jobj [("application/json", jobj [("schema", ref "schemas" "RefreshRequest")])])]);
                        ("responses", jobj [("200", jobj [("description", JStr "Rotated");
                                                      ("content", jobj [("application/json", jobj [("schema", ref "schemas" "TokenPair")])])]);
                                          ("400", ref "responses" "BadRequest");
                                          ("401", ref "responses" "Unauthorized")])])]);
   ("/api/v1/auth/logout",
     jobj [("post", jobj [("tags", JArr [JStr "Authentication"]);
                        ("summary", JStr "Revoke the current session"); ("operationId", JStr "logout");
                        ("requestBody", jobj [("required", JBool true);
                                            ("content", jobj [("application/json", jobj [("schema", jobj [("type", JStr "object");
                                                                                                    ("required", JArr [JStr "session_id"]);
                                                                                                    ("properties", jobj [("session_id", jobj [("type", JStr "string")])])])])])]);
                        ("responses", jobj [("200", jobj [("description", JStr "Revoked");
                                                      ("content", jobj [("application/json", jobj [("schema", jobj [("type", JStr "object");
                                                                                                              ("properties", jobj [("revoked", jobj [("type", JStr "boolean")])])])])])]);
                                          ("401", ref "responses" "Unauthorized")])])]);
   ("/api/v1/auth/logout-all",
     jobj [("post", jobj [("tags", JArr [JStr "Authentication"]);
                        ("summary", JStr "Revoke every session for the caller");
                        ("operationId", JStr "logoutAll");
                        ("responses", jobj [("200", jobj [("description", JStr "Revoked");
                                                      ("content", jobj [("application/json", jobj [("schema", jobj [("type", JStr "object");
                                                                                                              ("properties", jobj [("revoked", jobj [("type", JStr "integer")])])])])])]);
                                          ("401", ref "responses" "Unauthorized")])])]);
   ("/api/v1/auth/me",
     jobj [("get", jobj [("tags", JArr [JStr "Authentication"]); ("summary", JStr "The authenticated user");
                       ("operationId", JStr "me");
                       ("responses", jobj [("200", jobj [("description", JStr "Current user");
                                                     ("content", jobj [("application/json", jobj [("schema", ref "schemas" "User")])])]);
                                         ("401", ref "responses" "Unauthorized")])])])].

(** Profiles. *)
(* src/docs/openapi_spec.cpp:498-526, kOpenApiJson (paths) *)
Definition user_paths : list (string * json) :=
  [("/api/v1/users/me",
     jobj [("get", jobj [("tags", JArr [JStr "Users"]); ("summary", JStr "Read own profile");
                       ("operationId", JStr "getOwnProfile");
                       ("responses", jobj [("200", jobj [("description", JStr "Profile");
                                                     ("content", jobj [("application/json", jobj [("schema", ref "schemas" "User")])])]);
                                         ("401", ref "responses" "Unauthorized")])]);
           ("put", jobj [("tags", JArr [JStr "Users"]); ("summary", JStr "Update own profile");
                       ("operationId", JStr "updateOwnProfile");
                       ("requestBody", jobj [("required", JBool true);
                                           ("content", jobj [("application/json", jobj [("schema", ref "schemas" "UpdateProfileRequest")])])]);
                       ("responses", jobj [("200", jobj [("description", JStr "Updated");
                                                     ("content", jobj [("application/json", jobj [("schema", ref "schemas" "User")])])]);
                                         ("400", ref "responses" "BadRequest");
                                         ("401", ref "responses" "Unauthorized")])])]);
   ("/api/v1/users/{id}",
     jobj [("get", jobj [("tags", JArr [JStr "Users"]); ("summary", JStr "Read a user's public profile");
                       ("operationId", JStr "getUser");
                       ("parameters", JArr [jobj [("name", JStr "id"); ("in", JStr "path");
                                                ("required", JBool true);
                                                ("schema", jobj [("type", JStr "integer");
                                                               ("format", JStr "int64")])]]);
                       ("responses", jobj [("200", jobj [("description", JStr "Profile");
                                                     ("content", jobj [("application/json", jobj [("schema", ref "schemas" "User")])])]);
                                         ("401", ref "responses" "Unauthorized");
                                         ("404", ref "responses" "NotFound")])])])].

(** Conversations. *)
(* src/docs/openapi_spec.cpp:527-627, kOpenApiJson (paths) *)
Definition conversation_paths : list (string * json) :=
  [("/api/v1/conversations",
     jobj [("get", jobj [("tags", JArr [JStr "Conversations"]);
                       ("summary", JStr "List the caller's conversations");
                       ("operationId", JStr "listConversations");
                       ("parameters", JArr [ref "parameters" "Limit"; ref "parameters" "Offset"]);
                       ("responses", jobj [("200", jobj [("description", JStr "Conversations");
                                                     ("content", jobj [("application/json", jobj [("schema", jobj [("type", JStr "object");
                                                                                                             ("properties", jobj [("conversations", jobj [("type", JStr "array");
                                                                                                                                                      ("items", ref "schemas" "Conversation")])])])])])]);
                                         ("401", ref "responses" "Unauthorized")])]);
           ("post", jobj [("tags", JArr [JStr "Conversations"]);
                        ("summary", JStr "Create a direct conversation or a group");
                        ("description", JStr "Creating a direct conversation is idempotent: the existing one is returned if it already exists.");
                        ("operationId", JStr "createConversation");
                        ("requestBody", jobj [("required", JBool true);
                                            ("content", jobj [("application/json", jobj [("schema", ref "schemas" "CreateConversationRequest")])])]);
                        ("responses", jobj [("201", jobj [("description", JStr "Created");
                                                      ("content", jobj [("application/json", jobj [("schema", ref "schemas" "Conversation")])])]);
                                          ("400", ref "responses" "BadRequest");
                                          ("401", ref "responses" "Unauthorized");
                                          ("404", ref "responses" "NotFound")])])]);
   ("/api/v1/conversations/{id}",
     jobj [("parameters", JArr [jobj [("name", JStr "id"); ("in", JStr "path"); ("required", JBool true);
                                    ("schema", jobj [("type", JStr "integer"); ("format", JStr "int64")])]]);
           ("get", jobj [("tags", JArr [JStr "Conversations"]); ("summary", JStr "Read a conversation");
                       ("operationId", JStr "getConversation");
                       ("responses", jobj [("200", jobj [("description", JStr "Conversation");
                                                     ("content", jobj [("application/json", jobj [("schema", ref "schemas" "Conversation")])])]);
                                         ("401", ref "responses" "Unauthorized");
                                         ("404", ref "responses" "NotFound")])]);
           ("delete", jobj [("tags", JArr [JStr "Conversations"]);
                          ("summary", JStr "Delete a group (owner only)");
                          ("operationId", JStr "deleteConversation");
                          ("responses", jobj [("200", jobj [("description", JStr "Deleted")]);
                                            ("401", ref "responses" "Unauthorized");
                                            ("403", ref "responses" "Forbidden");
                                            ("404", ref "responses" "NotFound")])])]);
   ("/api/v1/conversations/{id}/name",
     jobj [("parameters", JArr [jobj [("name", JStr "id"); ("in", JStr "path"); ("required", JBool true);
                                    ("schema", jobj [("type", JStr "integer"); ("format", JStr "int64")])]]);
           ("patch", jobj [("tags", JArr [JStr "Conversations"]);
                         ("summary", JStr "Rename a group (owner only)");
                         ("operationId", JStr "renameConversation");
                         ("requestBody", jobj [("required", JBool true);
                                             ("content", jobj [("application/json", jobj [("schema", jobj [("type", JStr "object");
                                                                                                     ("required", JArr [JStr "name"]);
                                                                                                     ("properties", jobj [("name", jobj [("type", JStr "string");
                                                                                                                                     ("maxLength", JInt 100)])])])])])]);
                         ("responses", jobj [("200", jobj [("description", JStr "Renamed");
                                                       ("content", jobj [("application/json", jobj [("schema", ref "schemas" "Conversation")])])]);
                                           ("400", ref "responses" "BadRequest");
                                           ("403", ref "responses" "Forbidden");
                                           ("404", ref "responses" "NotFound")])])]);
   ("/api/v1/conversations/{id}/members",
     jobj [("parameters", JArr [jobj [("name", JStr "id"); ("in", JStr "path"); ("required", JBool true);
                                    ("schema", jobj [("type", JStr "integer"); ("format", JStr "int64")])]]);
           ("post", jobj [("tags", JArr [JStr "Conversations"]);
                        ("summary", JStr "Add a member to a group (owner only)");
                        ("operationId", JStr "addMember");
                        ("requestBody", jobj [("required", JBool true);
                                            ("content", jobj [("application/json", jobj [("schema", jobj [("type", JStr "object");
                                                                                                    ("required", JArr [JStr "user_id"]);
                                                                                                    ("properties", jobj [("user_id", jobj [("type", JStr "integer");
                                                                                                                                       ("format", JStr "int64")])])])])])]);
                        ("responses", jobj [("200", jobj [("description", JStr "Added")]);
                                          ("400", ref "responses" "BadRequest");
                                          ("403", ref "responses" "Forbidden");
                                          ("404", ref "responses" "NotFound");
                                          ("409", ref "responses" "Conflict")])])]);
   ("/api/v1/conversations/{id}/members/{user_id}",
     jobj [("parameters", JArr [jobj [("name", JStr "id"); ("in", JStr "path"); ("required", JBool true);
                                    ("schema", jobj [("type", JStr "integer"); ("format", JStr "int64")])];
                              jobj [("name", JStr "user_id"); ("in", JStr "path"); ("required", JBool true);
                                    ("schema", jobj [("type", JStr "integer"); ("format", JStr "int64")])]]);
           ("delete", jobj [("tags", JArr [JStr "Conversations"]);
                          ("summary", JStr "Remove a member (owner only)");
                          ("operationId", JStr "removeMember");
                          ("responses", jobj [("200", jobj [("description", JStr "Removed")]);
                                            ("403", ref "responses" "Forbidden");
                                            ("404", ref "responses" "NotFound")])])]);
   ("/api/v1/conversations/{id}/leave",
     jobj [("parameters", JArr [jobj [("name", JStr "id"); ("in", JStr "path"); ("required", JBool true);
                                    ("schema", jobj [("type", JStr "integer"); ("format", JStr "int64")])]]);
           ("post", jobj [("tags", JArr [JStr "Conversations"]); ("summary", JStr "Leave a group");
                        ("operationId", JStr "leaveConversation");
                        ("responses", jobj [("200", jobj [("description", JStr "Left")]);
                                          ("401", ref "responses" "Unauthorized");
                                          ("404", ref "responses" "NotFound")])])])].

(** Messages and reactions. *)
(* src/docs/openapi_spec.cpp:628-717, kOpenApiJson (paths) *)
Definition message_paths : list (string * json) :=
  [("/api/v1/messages",
     jobj [("get", jobj [("tags", JArr [JStr "Messages"]); ("summary", JStr "List messages in a conversation");
                       ("operationId", JStr "listMessages");
                       ("parameters", JArr [jobj [("name", JStr "conversation_id"); ("in", JStr "query");
                                                ("required", JBool true);
                                                ("schema", jobj [("type", JStr "integer");
                                                               ("format", JStr "int64")])];
                                          jobj [("name", JStr "sender_id"); ("in", JStr "query");
                                                ("required", JBool false);
                                                ("schema", jobj [("type", JStr "integer");
                                                               ("format", JStr "int64")])];
                                          jobj [("name", JStr "q"); ("in", JStr "query");
                                                ("required", JBool false);
                                                ("schema", jobj [("type", JStr "string")]);
                                                ("description", JStr "Simple keyword filter. For ranked search with highlighting use /api/v1/search/messages.")];
                                          ref "parameters" "Limit";
                                          ref "parameters" "Offset";
                                          ref "parameters" "Before";
                                          ref "parameters" "After"]);
                       ("responses", jobj [("200", jobj [("description", JStr "Messages, newest first");
                                                     ("content", jobj [("application/json", jobj [("schema", jobj [("type", JStr "object");
                                                                                                             ("properties", jobj [("messages", jobj [("type", JStr "array");
                                                                                                                                                 ("items", ref "schemas" "Message")])])])])])]);
                                         ("401", ref "responses" "Unauthorized");
                                         ("404", ref "responses" "NotFound")])]);
           ("post", jobj [("tags", JArr [JStr "Messages"]); ("summary", JStr "Send a message");
                        ("description", JStr "Persists first, then broadcasts to every participant over WebSocket.");
                        ("operationId", JStr "sendMessage");
                        ("requestBody", jobj [("required", JBool true);
                                            ("content", jobj [("application/json", jobj [("schema", ref "schemas" "SendMessageRequest")])])]);
                        ("responses", jobj [("201", jobj [("description", JStr "Sent");
                                                      ("content", jobj [("application/json", jobj [("schema", ref "schemas" "Message")])])]);
                                          ("400", ref "responses" "BadRequest");
                                          ("401", ref "responses" "Unauthorized");
                                          ("404", ref "responses" "NotFound");
                                          ("429", ref "responses" "RateLimited")])])]);
   ("/api/v1/messages/{id}",
     jobj [("parameters", JArr [jobj [("name", JStr "id"); ("in", JStr "path"); ("required", JBool true);
                                    ("schema", jobj [("type", JStr "integer"); ("format", JStr "int64")])]]);
           ("patch", jobj [("tags", JArr [JStr "Messages"]); ("summary", JStr "Edit a message (author only)");
                         ("operationId", JStr "editMessage");
                         ("requestBody", jobj [("required", JBool true);
                                             ("content", jobj [("application/json", jobj [("schema", ref "schemas" "UpdateMessageRequest")])])]);
                         ("responses", jobj [("200", jobj [("description", JStr "Edited");
                                                       ("content", jobj [("application/json", jobj [("schema", ref "schemas" "Message")])])]);
                                           ("400", ref "responses" "BadRequest");
                                           ("403", ref "responses" "Forbidden");
                                           ("404", ref "responses" "NotFound")])]);
           ("delete", jobj [("tags", JArr [JStr "Messages"]); ("summary", JStr "Soft-delete a message");
                          ("description", JStr "Permitted for the author, the group owner, or a caller holding message.delete_any.");
                          ("operationId", JStr "deleteMessage");
                          ("responses", jobj [("200", jobj [("description", JStr "Deleted");
                                                        ("content", jobj [("application/json", jobj [("schema", ref "schemas" "Message")])])]);
                                            ("403", ref "responses" "Forbidden");
                                            ("404", ref "responses" "NotFound")])])]);
   ("/api/v1/messages/{id}/reactions",
     jobj [("parameters", JArr [jobj [("name", JStr "id"); ("in", JStr "path"); ("required", JBool true);
                                    ("schema", jobj [("type", JStr "integer"); ("format", JStr "int64")])]]);
           ("get", jobj [("tags", JArr [JStr "Reactions"]); ("summary", JStr "List reactions on a message");
                       ("operationId", JStr "listReactions");
                       ("responses", jobj [("200", jobj [("description", JStr "Reactions");
                                                     ("content", jobj [("application/json", jobj [("schema", jobj [("type", JStr "object");
                                                                                                             ("properties", jobj [("reactions", jobj [("type", JStr "array");
                                                                                                                                                  ("items", ref "schemas" "Reaction")])])])])])]);
                                         ("404", ref "responses" "NotFound")])]);
           ("post", jobj [("tags", JArr [JStr "Reactions"]); ("summary", JStr "Add a reaction");
                        ("operationId", JStr "addReaction");
                        ("requestBody", jobj [("required", JBool true);
                                            ("content", jobj [("application/json", jobj [("schema", ref "schemas" "ReactionRequest")])])]);
                        ("responses", jobj [("201", jobj [("description", JStr "Added");
                                                      ("content", jobj [("application/json", jobj [("schema", ref "schemas" "Reaction")])])]);
                                          ("400", ref "responses" "BadRequest");
                                          ("404", ref "responses" "NotFound");
                                          ("409", ref "responses" "Conflict")])]);
           ("delete", jobj [("tags", JArr [JStr "Reactions"]); ("summary", JStr "Remove the caller's reaction");
                          ("operationId", JStr "removeReaction");
                          ("requestBody", jobj [("required", JBool true);
                                              ("content", jobj [("application/json", jobj [("schema", ref "schemas" "ReactionRequest")])])]);
                          ("responses", jobj [("200", jobj [("description", JStr "Removed")]);
                                            ("404", ref "responses" "NotFound")])])])].

(** Attachments. *)
(* src/docs/openapi_spec.cpp:718-764, kOpenApiJson (paths) *)
Definition attachment_paths : list (string * json) :=
  [("/api/v1/attachments",
     jobj [("post", jobj [("tags", JArr [JStr "Attachments"]); ("summary", JStr "Upload a file");
                        ("description", JStr "multipart/form-data with a `file` part. The declared content type is verified against the file's magic bytes; a mismatch is rejected with 415.");
                        ("operationId", JStr "uploadAttachment");
                        ("requestBody", jobj [("required", JBool true);
                                            ("content", jobj [("multipart/form-data", jobj [("schema", jobj [("type", JStr "object");
                                                                                                       ("required", JArr [JStr "file"]);
                                                                                                       ("properties", jobj [("file", jobj [("type", JStr "string");
                                                                                                                                       ("format", JStr "binary")])])])])])]);
                        ("responses", jobj [("201", jobj [("description", JStr "Uploaded");
                                                      ("content", jobj [("application/json", jobj [("schema", ref "schemas" "Attachment")])])]);
                                          ("400", ref "responses" "BadRequest");
                                          ("413", ref "responses" "TooLarge");
                                          ("415", jobj [("description", JStr "Unsupported or mismatched media type");
                                                      ("content", jobj [("application/json", jobj [("schema", ref "schemas" "Error")])])]);
                                          ("429", ref "responses" "RateLimited")])])]);
   ("/api/v1/attachments/{id}",
     jobj [("parameters", JArr [jobj [("name", JStr "id"); ("in", JStr "path"); ("required", JBool true);
                                    ("schema", jobj [("type", JStr "integer"); ("format", JStr "int64")])]]);
           ("get", jobj [("tags", JArr [JStr "Attachments"]); ("summary", JStr "Download an attachment");
                       ("operationId", JStr "downloadAttachment");
                       ("responses", jobj [("200", jobj [("description", JStr "File bytes");
                                                     ("content", jobj [("application/octet-stream", jobj [("schema", jobj [("type", JStr "string");
                                                                                                                     ("format", JStr "binary")])])])]);
                                         ("403", ref "responses" "Forbidden");
                                         ("404", ref "responses" "NotFound")])]);
           ("delete", jobj [("tags", JArr [JStr "Attachments"]);
                          ("summary", JStr "Delete an attachment (owner only)");
                          ("operationId", JStr "deleteAttachment");
                          ("responses", jobj [("200", jobj [("description", JStr "Deleted")]);
                                            ("403", ref "responses" "Forbidden");
                                            ("404", ref "responses" "NotFound")])])]);
   ("/api/v1/attachments/{id}/thumbnail",
     jobj [("parameters", JArr [jobj [("name", JStr "id"); ("in", JStr "path"); ("required", JBool true);
                                    ("schema", jobj [("type", JStr "integer"); ("format", JStr "int64")])]]);
           ("get", jobj [("tags", JArr [JStr "Attachments"]); ("summary", JStr "Download an image thumbnail");
                       ("operationId", JStr "downloadThumbnail");
                       ("responses", jobj [("200", jobj [("description", JStr "Thumbnail bytes");
                                                     ("content", jobj [("image/*", jobj [("schema", jobj [("type", JStr "string");
                                                                                                    ("format", JStr "binary")])])])]);
                                         ("404", ref "responses" "NotFound")])])])].

(** Notifications, sessions and search. *)
(* src/docs/openapi_spec.cpp:765-858, kOpenApiJson (paths) *)
Definition inbox_paths : list (string * json) :=
  [("/api/v1/notifications",
     jobj [("get", jobj [("tags", JArr [JStr "Notifications"]);
                       ("summary", JStr "List the caller's notifications");
                       ("operationId", JStr "listNotifications");
                       ("parameters", JArr [jobj [("name", JStr "unread_only"); ("in", JStr "query");
                                                ("required", JBool false);
                                                ("schema", jobj [("type", JStr "boolean");
                                                               ("default", JBool false)])];
                                          ref "parameters" "Limit";
                                          ref "parameters" "Offset"]);
                       ("responses", jobj [("200", jobj [("description", JStr "Notifications");
                                                     ("content", jobj [("application/json", jobj [("schema", jobj [("type", JStr "object");
                                                                                                             ("properties", jobj [("notifications", jobj [("type", JStr "array");
                                                                                                                                                      ("items", ref "schemas" "Notification")]);
                                                                                                                                ("unread_count", jobj [("type", JStr "integer")])])])])])]);
                                         ("401", ref "responses" "Unauthorized")])])]);
   ("/api/v1/notifications/{id}",
     jobj [("parameters", JArr [jobj [("name", JStr "id"); ("in", JStr "path"); ("required", JBool true);
                                    ("schema", jobj [("type", JStr "integer"); ("format", JStr "int64")])]]);
           ("delete", jobj [("tags", JArr [JStr "Notifications"]); ("summary", JStr "Delete a notification");
                          ("operationId", JStr "deleteNotification");
                          ("responses", jobj [("200", jobj [("description", JStr "Deleted")]);
                                            ("404", ref "responses" "NotFound")])])]);
   ("/api/v1/notifications/{id}/read",
     jobj [("parameters", JArr [jobj [("name", JStr "id"); ("in", JStr "path"); ("required", JBool true);
                                    ("schema", jobj [("type", JStr "integer"); ("format", JStr "int64")])]]);
           ("post", jobj [("tags", JArr [JStr "Notifications"]); ("summary", JStr "Mark one notification read");
                        ("operationId", JStr "markNotificationRead");
                        ("responses", jobj [("200", jobj [("description", JStr "Marked read")]);
                                          ("404", ref "responses" "NotFound")])])]);
   ("/api/v1/notifications/read-all",
     jobj [("post", jobj [("tags", JArr [JStr "Notifications"]);
                        ("summary", JStr "Mark every notification read");
                        ("operationId", JStr "markAllNotificationsRead");
                        ("responses", jobj [("200", jobj [("description", JStr "Marked read");
                                                      ("content", jobj [("application/json", jobj [("schema", jobj [("type", JStr "object");
                                                                                                              ("properties", jobj [("updated", jobj [("type", JStr "integer")])])])])])]);
                                          ("401", ref "responses" "Unauthorized")])])]);
   ("/api/v1/sessions",
     jobj [("get", jobj [("tags", JArr [JStr "Sessions"]);
                       ("summary", JStr "List the caller's active sessions");
                       ("operationId", JStr "listOwnSessions");
                       ("responses", jobj [("200", jobj [("description", JStr "Sessions");
                                                     ("content", jobj [("application/json", jobj [("schema", jobj [("type", JStr "object");
                                                                                                             ("properties", jobj [("sessions", jobj [("type", JStr "array");
                                                                                                                                                 ("items", ref "schemas" "Session")])])])])])]);
                                         ("401", ref "responses" "Unauthorized")])])]);
   ("/api/v1/sessions/{session_id}",
     jobj [("parameters", JArr [jobj [("name", JStr "session_id"); ("in", JStr "path");
                                    ("required", JBool true); ("schema", jobj [("type", JStr "string")])]]);
           ("delete", jobj [("tags", JArr [JStr "Sessions"]);
                          ("summary", JStr "Revoke one of the caller's sessions");
                          ("operationId", JStr "revokeOwnSession");
                          ("responses", jobj [("200", jobj [("description", JStr "Revoked")]);
                                            ("401", ref "responses" "Unauthorized");
                                            ("404", ref "responses" "NotFound")])])]);
   ("/api/v1/search/messages",
     jobj [("get", jobj [("tags", JArr [JStr "Search"]); ("summary", JStr "Full-text search over messages");
                       ("description", JStr "Ranked (ts_rank_cd) with highlighted snippets. Scoped to conversations the caller participates in — enforced in SQL. Google-style syntax is supported (quoted phrases, OR, -exclusion). When an exact search returns nothing and pg_trgm is installed, a trigram fallback runs so typos still match; those hits are flagged `fuzzy_match: true`.");
                       ("operationId", JStr "searchMessages");
                       ("parameters", JArr [jobj [("name", JStr "q"); ("in", JStr "query");
                                                ("required", JBool true);
                                                ("schema", jobj [("type", JStr "string"); ("minLength", JInt 2);
                                                               ("maxLength", JInt 256)])];
                                          jobj [("name", JStr "conversation_id"); ("in", JStr "query");
                                                ("required", JBool false);
                                                ("schema", jobj [("type", JStr "integer");
                                                               ("format", JStr "int64")])];
                                          jobj [("name", JStr "sender_id"); ("in", JStr "query");
                                                ("required", JBool false);
                                                ("schema", jobj [("type", JStr "integer");
                                                               ("format", JStr "int64")])];
                                          jobj [("name", JStr "from"); ("in", JStr "query");
                                                ("required", JBool false);
                                                ("schema", jobj [("type", JStr "integer");
                                                               ("format", JStr "int64")]);
                                                ("description", JStr "Unix epoch seconds, inclusive lower bound.")];
                                          jobj [("name", JStr "to"); ("in", JStr "query");
                                                ("required", JBool false);
                                                ("schema", jobj [("type", JStr "integer");
                                                               ("format", JStr "int64")]);
                                                ("description", JStr "Unix epoch seconds, inclusive upper bound.")];
                                          jobj [("name", JStr "fuzzy"); ("in", JStr "query");
                                                ("required", JBool false);
                                                ("schema", jobj [("type", JStr "boolean");
                                                               ("default", JBool true)])];
                                          jobj [("name", JStr "highlight"); ("in", JStr "query");
                                                ("required", JBool false);
                                                ("schema", jobj [("type", JStr "boolean");
                                                               ("default", JBool true)])];
                                          ref "parameters" "Limit";
                                          ref "parameters" "Offset"]);
                       ("responses", jobj [("200", jobj [("description", JStr "Results");
                                                     ("content", jobj [("application/json", jobj [("schema", ref "schemas" "SearchResponse")])])]);
                                         ("400", ref "responses" "BadRequest");
                                         ("401", ref "responses" "Unauthorized");
                                         ("404", jobj [("description", JStr "Search feature disabled");
                                                     ("content", jobj [("application/json", jobj [("schema", ref "schemas" "Error")])])])])])])].

(** Administration of accounts. *)
(* src/docs/openapi_spec.cpp:859-969, kOpenApiJson (paths) *)
Definition admin_user_paths : list (string * json) :=
  [("/api/v1/admin/users",
     jobj [("get", jobj [("tags", JArr [JStr "Admin"]); ("summary", JStr "List users");
                       ("description", JStr "Requires user.manage."); ("operationId", JStr "adminListUsers");
                       ("parameters", JArr [jobj [("name", JStr "q"); ("in", JStr "query");
                                                ("required", JBool false);
                                                ("schema", jobj [("type", JStr "string")]);
                                                ("description", JStr "Substring across username, email and display name.")];
                                          jobj [("name", JStr "role"); ("in", JStr "query");
                                                ("required", JBool false); ("schema", ref "schemas" "Role")];
                                          jobj [("name", JStr "banned"); ("in", JStr "query");
                                                ("required", JBool false);
                                                ("schema", jobj [("type", JStr "boolean")])];
                                          ref "parameters" "Limit";
                                          ref "parameters" "Offset"]);
                       ("responses", jobj [("200", jobj [("description", JStr "Users");
                                                     ("content", jobj [("application/json", jobj [("schema", jobj [("type", JStr "object");
                                                                                                             ("properties", jobj [("total", jobj [("type", JStr "integer")]);
                                                                                                                                ("limit", jobj [("type", JStr "integer")]);
                                                                                                                                ("offset", jobj [("type", JStr "integer")]);
                                                                                                                                ("users", jobj [("type", JStr "array");
                                                                                                                                              ("items", ref "schemas" "AdminUser")])])])])])]);
                                         ("401", ref "responses" "Unauthorized");
                                         ("403", ref "responses" "Forbidden")])])]);
   ("/api/v1/admin/users/{id}",
     jobj [("parameters", JArr [jobj [("name", JStr "id"); ("in", JStr "path"); ("required", JBool true);
                                    ("schema", jobj [("type", JStr "integer"); ("format", JStr "int64")])]]);
           ("get", jobj [("tags", JArr [JStr "Admin"]); ("summary", JStr "Read a user");
                       ("description", JStr "Requires user.manage."); ("operationId", JStr "adminGetUser");
                       ("responses", jobj [("200", jobj [("description", JStr "User");
                                                     ("content", jobj [("application/json", jobj [("schema", ref "schemas" "AdminUser")])])]);
                                         ("403", ref "responses" "Forbidden");
                                         ("404", ref "responses" "NotFound")])])]);
   ("/api/v1/admin/users/{id}/role",
     jobj [("parameters", JArr [jobj [("name", JStr "id"); ("in", JStr "path"); ("required", JBool true);
                                    ("schema", jobj [("type", JStr "integer"); ("format", JStr "int64")])]]);
           ("put", jobj [("tags", JArr [JStr "Admin"]); ("summary", JStr "Assign a role");
                       ("description", JStr "Requires user.manage_roles (super admin). A caller may never grant a role at or above their own tier.");
                       ("operationId", JStr "adminSetRole");
                       ("requestBody", jobj [("required", JBool true);
                                           ("content", jobj [("application/json", jobj [("schema", jobj [("type", JStr "object");
                                                                                                   ("required", JArr [JStr "role"]);
                                                                                                   ("properties", jobj [("role", ref "schemas" "Role")])])])])]);
                       ("responses", jobj [("200", jobj [("description", JStr "Assigned");
                                                     ("content", jobj [("application/json", jobj [("schema", jobj [("type", JStr "object");
                                                                                                             ("properties", jobj [("user_id", jobj [("type", JStr "integer");
                                                                                                                                                ("format", JStr "int64")]);
                                                                                                                                ("previous_role", ref "schemas" "Role");
                                                                                                                                ("role", ref "schemas" "Role")])])])])]);
                                         ("400", ref "responses" "BadRequest");
                                         ("403", ref "responses" "Forbidden");
                                         ("404", ref "responses" "NotFound")])])]);
   ("/api/v1/admin/users/{id}/ban",
     jobj [("parameters", JArr [jobj [("name", JStr "id"); ("in", JStr "path"); ("required", JBool true);
                                    ("schema", jobj [("type", JStr "integer"); ("format", JStr "int64")])]]);
           ("post", jobj [("tags", JArr [JStr "Admin"]); ("summary", JStr "Suspend an account");
                        ("description", JStr "Requires user.ban. Also revokes every refresh session, so the account cannot mint new access tokens. Takes effect on the target's next request.");
                        ("operationId", JStr "adminBanUser");
                        ("requestBody", jobj [("required", JBool false);
                                            ("content", jobj [("application/json", jobj [("schema", jobj [("type", JStr "object");
                                                                                                    ("properties", jobj [("reason", jobj [("type", JStr "string");
                                                                                                                                      ("maxLength", JInt 255)])])])])])]);
                        ("responses", jobj [("200", jobj [("description", JStr "Suspended");
                                                      ("content", jobj [("application/json", jobj [("schema", jobj [("type", JStr "object");
                                                                                                              ("properties", jobj [("user_id", jobj [("type", JStr "integer");
                                                                                                                                                 ("format", JStr "int64")]);
                                                                                                                                 ("banned", jobj [("type", JStr "boolean")]);
                                                                                                                                 ("sessions_revoked", jobj [("type", JStr "integer")])])])])])]);
                                          ("400", ref "responses" "BadRequest");
                                          ("403", ref "responses" "Forbidden");
                                          ("404", ref "responses" "NotFound")])])]);
   ("/api/v1/admin/users/{id}/unban",
     jobj [("parameters", JArr [jobj [("name", JStr "id"); ("in", JStr "path"); ("required", JBool true);
                                    ("schema", jobj [("type", JStr "integer"); ("format", JStr "int64")])]]);
           ("post", jobj [("tags", JArr [JStr "Admin"]); ("summary", JStr "Reinstate an account");
                        ("description", JStr "Requires user.ban."); ("operationId", JStr "adminUnbanUser");
                        ("responses", jobj [("200", jobj [("description", JStr "Reinstated")]);
                                          ("403", ref "responses" "Forbidden");
                                          ("404", ref "responses" "NotFound")])])]);
   ("/api/v1/admin/users/{id}/sessions",
     jobj [("parameters", JArr [jobj [("name", JStr "id"); ("in", JStr "path"); ("required", JBool true);
                                    ("schema", jobj [("type", JStr "integer"); ("format", JStr "int64")])]]);
           ("get", jobj [("tags", JArr [JStr "Admin"]); ("summary", JStr "List a user's sessions");
                       ("description", JStr "Requires session.view.");
                       ("operationId", JStr "adminListUserSessions");
                       ("responses", jobj [("200", jobj [("description", JStr "Sessions");
                                                     ("content", jobj [("application/json", jobj [("schema", jobj [("type", JStr "object");
                                                                                                             ("properties", jobj [("user_id", jobj [("type", JStr "integer");
                                                                                                                                                ("format", JStr "int64")]);
                                                                                                                                ("sessions", jobj [("type", JStr "array");
                                                                                                                                                 ("items", ref "schemas" "Session")])])])])])]);
                                         ("403", ref "responses" "Forbidden")])]);
           ("delete", jobj [("tags", JArr [JStr "Admin"]); ("summary", JStr "Revoke all of a user's sessions");
                          ("description", JStr "Requires session.revoke.");
                          ("operationId", JStr "adminRevokeUserSessions");
                          ("responses", jobj [("200", jobj [("description", JStr "Revoked");
                                                        ("content", jobj [("application/json", jobj [("schema", jobj [("type", JStr "object");
                                                                                                                ("properties", jobj [("user_id", jobj [("type", JStr "integer");
                                                                                                                                                   ("format", JStr "int64")]);
                                                                                                                                   ("revoked", jobj [("type", JStr "integer")])])])])])]);
                                            ("403", ref "responses" "Forbidden")])])])].

(** The rest of administration. *)
(* src/docs/openapi_spec.cpp:970-1097, kOpenApiJson (paths) *)
Definition admin_paths : list (string * json) :=
  [("/api/v1/admin/conversations/{id}",
     jobj [("parameters", JArr [jobj [("name", JStr "id"); ("in", JStr "path"); ("required", JBool true);
                                    ("schema", jobj [("type", JStr "integer"); ("format", JStr "int64")])]]);
           ("get", jobj [("tags", JArr [JStr "Admin"]); ("summary", JStr "Read any conversation");
                       ("description", JStr "Requires conversation.view_any.");
                       ("operationId", JStr "adminGetConversation");
                       ("responses", jobj [("200", jobj [("description", JStr "Conversation with participants");
                                                     ("content", jobj [("application/json", jobj [("schema", jobj [("type", JStr "object");
                                                                                                             ("additionalProperties", JBool true)])])])]);
                                         ("403", ref "responses" "Forbidden");
                                         ("404", ref "responses" "NotFound")])]);
           ("delete", jobj [("tags", JArr [JStr "Admin"]); ("summary", JStr "Delete any conversation");
                          ("description", JStr "Requires group.manage.");
                          ("operationId", JStr "adminDeleteConversation");
                          ("responses", jobj [("200", jobj [("description", JStr "Deleted")]);
                                            ("403", ref "responses" "Forbidden");
                                            ("404", ref "responses" "NotFound")])])]);
   ("/api/v1/admin/websockets",
     jobj [("get", jobj [("tags", JArr [JStr "Admin"]);
                       ("summary", JStr "Connected WebSocket sessions on this instance");
                       ("description", JStr "Requires system.metrics. Counts are per-instance: a process only knows its own sockets, which is why `node_id` is reported.");
                       ("operationId", JStr "adminListWebsockets");
                       ("responses", jobj [("200", jobj [("description", JStr "Connections");
                                                     ("content", jobj [("application/json", jobj [("schema", jobj [("type", JStr "object");
                                                                                                             ("additionalProperties", JBool true)])])])]);
                                         ("403", ref "responses" "Forbidden")])])]);
   ("/api/v1/admin/cache",
     jobj [("get", jobj [("tags", JArr [JStr "Admin"]); ("summary", JStr "Cache backend and hit statistics");
                       ("description", JStr "Requires system.metrics.");
                       ("operationId", JStr "adminCacheStats");
                       ("responses", jobj [("200", jobj [("description", JStr "Cache statistics");
                                                     ("content", jobj [("application/json", jobj [("schema", jobj [("type", JStr "object");
                                                                                                             ("additionalProperties", JBool true)])])])]);
                                         ("403", ref "responses" "Forbidden")])])]);
   ("/api/v1/admin/jobs",
     jobj [("get", jobj [("tags", JArr [JStr "Admin"]);
                       ("summary", JStr "Worker pool and event bus statistics");
                       ("description", JStr "Requires system.metrics.");
                       ("operationId", JStr "adminJobStats");
                       ("responses", jobj [("200", jobj [("description", JStr "Job statistics");
                                                     ("content", jobj [("application/json", jobj [("schema", jobj [("type", JStr "object");
                                                                                                             ("additionalProperties", JBool true)])])])]);
                                         ("403", ref "responses" "Forbidden")])])]);
   ("/api/v1/admin/system",
     jobj [("get", jobj [("tags", JArr [JStr "Admin"]); ("summary", JStr "System metrics summary");
                       ("description", JStr "Requires system.metrics.");
                       ("operationId", JStr "adminSystemInfo");
                       ("responses", jobj [("200", jobj [("description", JStr "System summary");
                                                     ("content", jobj [("application/json", jobj [("schema", jobj [("type", JStr "object");
                                                                                                             ("additionalProperties", JBool true)])])])]);
                                         ("403", ref "responses" "Forbidden")])])]);
   ("/api/v1/admin/audit-logs",
     jobj [("get", jobj [("tags", JArr [JStr "Admin"]); ("summary", JStr "Search the audit log");
                       ("description", JStr "Requires audit.view.");
                       ("operationId", JStr "adminSearchAuditLogs");
                       ("parameters", JArr [jobj [("name", JStr "actor_id"); ("in", JStr "query");
                                                ("required", JBool false);
                                                ("schema", jobj [("type", JStr "integer");
                                                               ("format", JStr "int64")])];
                                          jobj [("name", JStr "event_type"); ("in", JStr "query");
                                                ("required", JBool false);
                                                ("schema", jobj [("type", JStr "string")]);
                                                ("example", JStr "user.logged_in")];
                                          jobj [("name", JStr "target_type"); ("in", JStr "query");
                                                ("required", JBool false);
                                                ("schema", jobj [("type", JStr "string")])];
                                          jobj [("name", JStr "target_id"); ("in", JStr "query");
                                                ("required", JBool false);
                                                ("schema", jobj [("type", JStr "string")])];
                                          jobj [("name", JStr "correlation_id"); ("in", JStr "query");
                                                ("required", JBool false);
                                                ("schema", jobj [("type", JStr "string")])];
                                          jobj [("name", JStr "from"); ("in", JStr "query");
                                                ("required", JBool false);
                                                ("schema", jobj [("type", JStr "integer");
                                                               ("format", JStr "int64")])];
                                          jobj [("name", JStr "to"); ("in", JStr "query");
                                                ("required", JBool false);
                                                ("schema", jobj [("type", JStr "integer");
                                                               ("format", JStr "int64")])];
                                          ref "parameters" "Limit";
                                          ref "parameters" "Offset"]);
                       ("responses", jobj [("200", jobj [("description", JStr "Audit records, newest first");
                                                     ("content", jobj [("application/json", jobj [("schema", jobj [("type", JStr "object");
                                                                                                             ("properties", jobj [("total", jobj [("type", JStr "integer")]);
                                                                                                                                ("limit", jobj [("type", JStr "integer")]);
                                                                                                                                ("offset", jobj [("type", JStr "integer")]);
                                                                                                                                ("records", jobj [("type", JStr "array");
                                                                                                                                                ("items", ref "schemas" "AuditRecord")])])])])])]);
                                         ("403", ref "responses" "Forbidden")])])]);
   ("/api/v1/admin/audit-logs/summary",
     jobj [("get", jobj [("tags", JArr [JStr "Admin"]); ("summary", JStr "Audit event histogram");
                       ("description", JStr "Requires audit.view.");
                       ("operationId", JStr "adminAuditSummary");
                       ("responses", jobj [("200", jobj [("description", JStr "Counts grouped by event type");
                                                     ("content", jobj [("application/json", jobj [("schema", jobj [("type", JStr "object");
                                                                                                             ("additionalProperties", JBool true)])])])]);
                                         ("403", ref "responses" "Forbidden")])])]);
   ("/api/v1/admin/features",
     jobj [("get", jobj [("tags", JArr [JStr "Admin"]); ("summary", JStr "Feature flag snapshot");
                       ("description", JStr "Requires system.metrics.");
                       ("operationId", JStr "adminListFeatures");
                       ("responses", jobj [("200", jobj [("description", JStr "Flags");
                                                     ("content", jobj [("application/json", jobj [("schema", jobj [("type", JStr "object");
                                                                                                             ("properties", jobj [("features", jobj [("type", JStr "array");
                                                                                                                                                 ("items", ref "schemas" "FeatureFlag")])])])])])]);
                                         ("403", ref "responses" "Forbidden")])])]);
   ("/api/v1/admin/features/{name}",
     jobj [("parameters", JArr [jobj [("name", JStr "name"); ("in", JStr "path"); ("required", JBool true);
                                    ("schema", jobj [("type", JStr "string")]); ("example", JStr "reactions")]]);
           ("put", jobj [("tags", JArr [JStr "Admin"]); ("summary", JStr "Toggle a feature flag at runtime");
                       ("description", JStr "Requires system.feature_flags (super admin). Applies immediately to this instance and is not persisted — set the corresponding environment variable to make it durable.");
                       ("operationId", JStr "adminToggleFeature");
                       ("requestBody", jobj [("required", JBool true);
                                           ("content", jobj [("application/json", jobj [("schema", jobj [("type", JStr "object");
                                                                                                   ("required", JArr [JStr "enabled"]);
                                                                                                   ("properties", jobj [("enabled", jobj [("type", JStr "boolean")])])])])])]);
                       ("responses", jobj [("200", jobj [("description", JStr "Toggled");
                                                     ("content", jobj [("application/json", jobj [("schema", jobj [("type", JStr "object");
                                                                                                             ("properties", jobj [("feature", jobj [("type", JStr "string")]);
                                                                                                                                ("previous", jobj [("type", JStr "boolean")]);
                                                                                                                                ("enabled", jobj [("type", JStr "boolean")])])])])])]);
                                         ("400", ref "responses" "BadRequest");
                                         ("403", ref "responses" "Forbidden");
                                         ("404", ref "responses" "NotFound")])])])].

(** Probes and metrics. *)
(* src/docs/openapi_spec.cpp:1098-1147, kOpenApiJson (paths) *)
Definition operations_paths : list (string * json) :=
  [("/health",
     jobj [("get", jobj [("tags", JArr [JStr "Operations"]); ("summary", JStr "Service summary");
                       ("security", JArr []); ("operationId", JStr "health");
                       ("responses", jobj [("200", jobj [("description", JStr "Always 200 while the process is up");
                                                     ("content", jobj [("application/json", jobj [("schema", jobj [("type", JStr "object");
                                                                                                             ("additionalProperties", JBool true)])])])])])])]);
   ("/health/live",
     jobj [("get", jobj [("tags", JArr [JStr "Operations"]); ("summary", JStr "Liveness probe");
                       ("description", JStr "Dependency-free by design: a liveness probe that consulted the database would turn a database outage into a restart loop.");
                       ("security", JArr []); ("operationId", JStr "healthLive");
                       ("responses", jobj [("200", jobj [("description", JStr "Process is responsive")])])])]);
   ("/health/ready",
     jobj [("get", jobj [("tags", JArr [JStr "Operations"]); ("summary", JStr "Readiness probe");
                       ("description", JStr "Checks PostgreSQL, the cache, the worker pool and the maintenance scheduler. 503 removes the instance from the load balancer without restarting it.");
                       ("security", JArr []); ("operationId", JStr "healthReady");
                       ("responses", jobj [("200", jobj [("description", JStr "Ready");
                                                     ("content", jobj [("application/json", jobj [("schema", ref "schemas" "HealthStatus")])])]);
                                         ("503", jobj [("description", JStr "Not ready");
                                                     ("content", jobj [("application/json", jobj [("schema", ref "schemas" "HealthStatus")])])])])])]);
   ("/health/startup",
     jobj [("get", jobj [("tags", JArr [JStr "Operations"]); ("summary", JStr "Startup probe");
                       ("description", JStr "503 until bootstrap (including migrations) completes. Point a Kubernetes startupProbe here so a slow start is not mistaken for a hung process.");
                       ("security", JArr []); ("operationId", JStr "healthStartup");
                       ("responses", jobj [("200", jobj [("description", JStr "Bootstrap complete")]);
                                         ("503", jobj [("description", JStr "Still starting")])])])]);
   ("/metrics",
     jobj [("get", jobj [("tags", JArr [JStr "Operations"]); ("summary", JStr "Prometheus metrics");
                       ("description", JStr "Text exposition format. Restrict access at the reverse proxy — see nginx/conf.d/realtime-chat.conf.");
                       ("security", JArr []); ("operationId", JStr "metrics");
                       ("responses", jobj [("200", jobj [("description", JStr "Metrics");
                                                     ("content", jobj [("text/plain", jobj [("schema", jobj [("type", JStr "string")])])])])])])])].

(** ** The document *)

Definition schemas : list (string * json) := (account_schemas ++ conversation_schemas ++ resource_schemas)%list.
Definition paths : list (string * json) :=
  (auth_paths ++ user_paths ++ conversation_paths ++ message_paths ++ attachment_paths ++ inbox_paths
     ++ admin_user_paths ++ admin_paths ++ operations_paths)%list.

(* src/docs/openapi_spec.cpp:17-18, kOpenApiJson *)
Definition document : json :=
  jobj [("openapi", JStr "3.1.0"); ("info", info); ("servers", servers); ("tags", tags);
    ("components", jobj [("securitySchemes", security_schemes); ("parameters", parameters);
       ("schemas", jobj schemas); ("responses", responses)]);
    ("security", JArr [jobj [("bearerAuth", JArr [])]]); ("paths", jobj paths);
    ("externalDocs", external_docs)].

(** The literal parses, so the parse failure branch is never taken. *)
(* src/docs/openapi_spec.cpp:1161-1175, openapi_json_for *)
Definition openapi_json_for (base_url : string) : json :=
  if String.eqb base_url "" then document
  else jset "servers" (JArr [jobj [("url", JStr base_url); ("description", JStr "This deployment")]]) document.

(** ** The viewer *)

(* src/docs/openapi_spec.cpp:1177-1189, swagger_ui_csp *)
Definition swagger_ui_csp : string :=
  "default-src 'none'; " +:+
  "script-src 'self' https://cdn.jsdelivr.net 'unsafe-inline'; " +:+
  "style-src 'self' https://cdn.jsdelivr.net 'unsafe-inline'; " +:+
  "img-src 'self' data: https://cdn.jsdelivr.net; " +:+
  "font-src 'self' data: https://cdn.jsdelivr.net; " +:+
  "connect-src 'self'; " +:+
  "frame-ancestors 'none'; " +:+
  "base-uri 'none'".

(* src/docs/openapi_spec.cpp:1194-1194, kSwaggerVersion *)
Definition kSwaggerVersion : string := "5.17.14".

(* src/docs/openapi_spec.cpp:1191-1231, swagger_ui_html *)
Definition swagger_ui_html (spec_url : string) : string :=
  "<!DOCTYPE html>" +:+ nl +:+
  "<html lang=" +:+ quote +:+ "en" +:+ quote +:+ ">" +:+ nl +:+
  "<head>" +:+ nl +:+
  "  <meta charset=" +:+ quote +:+ "utf-8" +:+ quote +:+ ">" +:+ nl +:+
  "  <meta name=" +:+ quote +:+ "viewport" +:+ quote +:+ " content=" +:+ quote +:+ "width=device-width, initial-scale=1" +:+ quote +:+ ">" +:+ nl +:+
  "  <title>Realtime Chat API</title>" +:+ nl +:+
  "  <link rel=" +:+ quote +:+ "stylesheet" +:+ quote +:+ " href=" +:+ quote +:+ "https://cdn.jsdelivr.net/npm/swagger-ui-dist@" +:+ kSwaggerVersion +:+
  "/swagger-ui.css" +:+ quote +:+ ">" +:+ nl +:+
  "  <style>" +:+ nl +:+
  "    body { margin: 0; background: #fafafa; }" +:+ nl +:+
  "    .topbar { display: none; }" +:+ nl +:+
  "  </style>" +:+ nl +:+
  "</head>" +:+ nl +:+
  "<body>" +:+ nl +:+
  "  <div id=" +:+ quote +:+ "swagger-ui" +:+ quote +:+ "></div>" +:+ nl +:+
  "  <script src=" +:+ quote +:+ "https://cdn.jsdelivr.net/npm/swagger-ui-dist@" +:+ kSwaggerVersion +:+
  "/swagger-ui-bundle.js" +:+ quote +:+ " crossorigin></script>" +:+ nl +:+
  "  <script>" +:+ nl +:+
  "    window.addEventListener('load', function () {" +:+ nl +:+
  "      window.ui = SwaggerUIBundle({" +:+ nl +:+
  "        url: '" +:+ spec_url +:+
  "'," +:+ nl +:+
  "        dom_id: '#swagger-ui'," +:+ nl +:+
  "        deepLinking: true," +:+ nl +:+
  "        displayRequestDuration: true," +:+ nl +:+
  "        docExpansion: 'none'," +:+ nl +:+
  "        filter: true," +:+ nl +:+
  "        tryItOutEnabled: true," +:+ nl +:+
  "        persistAuthorization: true" +:+ nl +:+
  "      });" +:+ nl +:+
  "    });" +:+ nl +:+
  "  </script>" +:+ nl +:+
  "</body>" +:+ nl +:+
  "</html>" +:+ nl.
