(* ===== verification/Http.v ===== *)
(** * Http: the REST controllers and their routes

    Models src/controllers/auth_controller.cpp, attachment_controller.cpp,
    conversation_controller.cpp, message_controller.cpp,
    notification_controller.cpp, reaction_controller.cpp, session_controller.cpp,
    user_controller.cpp and the reading endpoints of admin_controller.cpp, and
    composes them, with the handlers of Authorization and Search, into one
    function from a route and a request to a reply.  Routing by path, the
    multipart parser and connection handling belong to Crow: a request is what a
    handler reads of [crow::request], with the tokens it draws. *)

From Stdlib Require Import QArith.
From S2P Require Import Prelude Text Json Errors Validation TimeUtil Rbac Models Events Jobs Dto Database Users.
From S2P Require Import Conversations Repositories Attachments Messages Receipts Notifications Tokens.
From S2P Require Import Sessions UserProps Protocol Connections Dispatcher Cache Authorization AuthorizationProps.
From S2P Require Import SessionProps System Search AuditTrail Metrics Dashboards.
Open Scope string_scope.
Open Scope Z_scope.

(** What a handler sends: a JSON response, or a file with its headers. *)
Inductive reply :=
  | RJson (r : response)
  | RFile (status : Z) (headers : list (string * string)) (bytes : string).

(** The part named "file" of a multipart body, an empty one if there is none. *)
Record Part := mkPart { disposition_filename : option string; part_type : string; part_body : string }.

(** The random values a request draws: the salt of a password hash, the ids of
    two tokens, a session id and a storage token. *)
Record Draws := mkDraws {
  salt : string; jti_access : string; jti_refresh : string; session_token : string; storage_token : string }.

Record HttpRequest := mkReq {
  base : AdminController.Request; user_agent : string; remote_ip : string; file_part : Part; draws : Draws;
  readings : Readings }.

(** The parts of the configuration the handlers use. *)
Record HttpConfig := mkConfig {
  cache_ttl : Z; refresh_ttl : Z; upload_root : string; upload_options : AttachmentService.Options;
  upload_public_base_url : string; rate_limit_enabled : bool; rate_limit_upload_max : Z;
  rate_limit_window_seconds : Z }.

Abbreviation header req := (AdminController.authorization (base req)).
Abbreviation text_body req := (AdminController.req_body (base req)).
Abbreviation query req := (AdminController.params (base req)).

(** [for (x : l) items.push_back(f(x))] with effects. *)
Fixpoint collect {W A B} (f : A → M W exn B) (l : list A) : M W exn (list B) :=
  match l with
  | [] => mret []
  | x :: l => y ← f x; ys ← collect f l; mret (y :: ys)
  end.

Section Controllers.
Context {S : Type} `{CacheStore S, TokenService, PgText, JsonText, FullText, TextSearch, PasswordHasher}.
Context `{ViolationText, Sha256, ImageProcessor, DoubleDiv} (config : HttpConfig).

Abbreviation Server := (SearchHost S).

Definition service {A} (m : M World exn A) : M Server exn A := on_host (in_world m).
Definition publish (e : EventDraft) : M Server exn unit := service (emit (EPublish e)).
Definition json_reply (st : Z) (b : json) : M Server exn reply := mret (RJson (json_response st b)).

(** [auth_guard_.authenticate(req)] and [authenticate_token_only(req)]. *)
Definition authenticate (req : HttpRequest) : M Server exn TokenClaims.t :=
  on_host (AuthMiddleware.authenticate (cache_ttl config) (header req)).
Definition authenticate_token_only (req : HttpRequest) : M Server exn TokenClaims.t :=
  on_host (AuthMiddleware.authenticate_token_only (header req)).

(** [X::from_json(http::parse_json_body(req))]. *)
Definition parsed {A} (from_json : json → result exn A) (req : HttpRequest) : M Server exn A :=
  body ← lift (parse_json_body (text_body req));
  lift (from_json body).

(** ** Authentication *)

(* src/controllers/auth_controller.cpp:20-24, non_empty *)
Definition non_empty (value : string) : option string := if String.eqb value "" then None else Some value.

(* src/controllers/auth_controller.cpp:27-34, require_string *)
Definition auth_require_string (body : json) (field : string) : result exn string :=
  match find body field with
  | Some (JStr s) => Ok s
  | _ => Err (ValidationException ("Missing string field: " +:+ field) ("field=" +:+ field))
  end.

(* src/controllers/auth_controller.cpp:45-54, AuthController::register_routes (with_session) *)
Definition with_session (req : HttpRequest) (response : AuthResponse.t) : M Server exn json :=
  session_id ← service (SessionService.record (refresh_ttl config) (session_token (draws req))
    (UserResponse.id (AuthResponse.user response))
    (TokenPair.refresh_token (AuthResponse.tokens response))
    (non_empty (user_agent req)) (non_empty (remote_ip req)));
  mret (jset "session_id" (JStr session_id) (AuthResponse.to_json response)).

(* src/controllers/auth_controller.cpp:56-70, POST /auth/register *)
Definition auth_register (req : HttpRequest) : M Server exn reply :=
  request ← parsed RegisterRequest_from_json req;
  response ← service (AuthService.register_user (salt (draws req)) (jti_access (draws req))
                        (jti_refresh (draws req)) request);
  body ← with_session req response;
  let user := AuthResponse.user response in
  publish (UserRegistered (UserResponse.id user) (UserResponse.username user) (UserResponse.email user));;
  json_reply 201 body.

(* src/controllers/auth_controller.cpp:72-89, POST /auth/login *)
Definition auth_login (req : HttpRequest) : M Server exn reply :=
  request ← parsed LoginRequest_from_json req;
  response ← service (AuthService.login (jti_access (draws req)) (jti_refresh (draws req)) request);
  body ← with_session req response;
  let user := AuthResponse.user response in
  publish (UserLoggedIn (UserResponse.id user) (UserResponse.username user) (remote_ip req) (user_agent req));;
  json_reply 200 body.

(* src/controllers/auth_controller.cpp:93-108, POST /auth/refresh *)
Definition auth_refresh (req : HttpRequest) : M Server exn reply :=
  body ← lift (parse_json_body (text_body req));
  refresh_token ← lift (auth_require_string body "refresh_token");
  session_id ← lift (auth_require_string body "session_id");
  pair ← service (SessionService.rotate (jti_access (draws req)) (jti_refresh (draws req))
                    refresh_token session_id);
  json_reply 200 (jobj [("access_token", JStr (TokenPair.access_token pair));
    ("refresh_token", JStr (TokenPair.refresh_token pair)); ("token_type", JStr "Bearer");
    ("access_expires_in", JInt (TokenPair.access_expires_in_seconds pair));
    ("refresh_expires_in", JInt (TokenPair.refresh_expires_in_seconds pair))]).

(* src/controllers/auth_controller.cpp:111-132, POST /auth/logout *)
Definition auth_logout (req : HttpRequest) : M Server exn reply :=
  claims ← authenticate_token_only req;
  body ← lift (parse_json_body (text_body req));
  session_id ← lift (auth_require_string body "session_id");
  revoked ← service (SessionService.revoke (TokenClaims.user_id claims) session_id);
  (if (revoked : bool) then publish (UserLoggedOut (TokenClaims.user_id claims) session_id false) else mret ());;
  json_reply 200 (jobj [("revoked", JBool revoked)]).

(* src/controllers/auth_controller.cpp:135-151, POST /auth/logout-all *)
Definition auth_logout_all (req : HttpRequest) : M Server exn reply :=
  claims ← authenticate_token_only req;
  count ← service (SessionService.revoke_all (TokenClaims.user_id claims));
  publish (UserLoggedOut (TokenClaims.user_id claims) "" true);;
  json_reply 200 (jobj [("revoked", JInt count)]).

(* src/controllers/auth_controller.cpp:153-161, GET /auth/me *)
Definition auth_me (req : HttpRequest) : M Server exn reply :=
  claims ← authenticate_token_only req;
  user ← service (UserService.get_by_id (TokenClaims.user_id claims));
  json_reply 200 (UserResponse.to_json (UserResponse.from user)).

(** ** Attachments *)

(* src/controllers/attachment_controller.cpp:23-30, part_filename *)
Definition part_filename (part : Part) : string :=
  match disposition_filename part with
  | Some name => if String.eqb name "" then "upload.bin" else name
  | None => "upload.bin"
  end.

(** [rate_limiter_.enforce("upload", ...)]. *)
Definition enforce_upload (user_id : Z) : M Server exn RateLimiter.Result :=
  on_host (λ i,
    let '(r, s) := RateLimiter.enforce (rate_limit_enabled config) (i_clock i) "upload" (to_string user_id)
                     (rate_limit_upload_max config) (rate_limit_window_seconds config) (i_store i) in
    (r, set_store s i)).

(* src/controllers/attachment_controller.cpp:39-66, POST /attachments *)
Definition upload_attachment (req : HttpRequest) : M Server exn reply :=
  claims ← authenticate req;
  enforce_upload (TokenClaims.user_id claims);;
  let file := file_part req in
  if String.eqb (part_body file) ""
  then mthrow (ValidationException "Missing 'file' part in multipart upload" "")
  else
    attachment ← service (AttachmentService.upload (upload_root config) (upload_options config)
      (storage_token (draws req))
      (AttachmentService.Build_UploadInput (TokenClaims.user_id claims) (part_filename file) (part_type file)
         (part_body file)));
    json_reply 201 (AttachmentResponse.to_json (AttachmentResponse.from attachment (upload_public_base_url config))).

(* src/controllers/attachment_controller.cpp:68-81, AttachmentController::register_routes (download_handler) *)
Definition download_handler (req : HttpRequest) (id : Z) (thumbnail : bool) : M Server exn reply :=
  claims ← authenticate req;
  '(meta, bytes, content_type) ←
    service (AttachmentService.download (upload_root config) (TokenClaims.user_id claims) id thumbnail);
  mret (RFile 200 [("Content-Type", content_type);
    ("Content-Disposition",
      "inline; filename=" +:+ String "034" (Attachment.original_filename meta +:+ String "034" ""));
    ("Cache-Control", "private, max-age=86400")] bytes).

(* src/controllers/attachment_controller.cpp:95-102, DELETE /attachments/<int> *)
Definition delete_attachment (req : HttpRequest) (id : Z) : M Server exn reply :=
  claims ← authenticate req;
  service (AttachmentService.remove (upload_root config) (TokenClaims.user_id claims) id);;
  json_reply 200 (jobj [("deleted", JBool true)]).

(** ** Conversations *)

(* src/controllers/conversation_controller.cpp:17-21, to_body *)
Definition to_body (conversation : Conversation.t) : M Server exn json :=
  members ← service (ConversationService.participants (Conversation.id conversation));
  mret (ConversationResponse.to_json (ConversationResponse.from conversation members)).

(* src/controllers/conversation_controller.cpp:26-35, POST /conversations *)
Definition create_conversation (req : HttpRequest) : M Server exn reply :=
  claims ← authenticate req;
  request ← parsed CreateConversationRequest.from_json req;
  conversation ← service (ConversationService.create (TokenClaims.user_id claims) request);
  body ← to_body conversation;
  json_reply 201 body.

(* src/controllers/conversation_controller.cpp:37-49, GET /conversations *)
Definition list_conversations (req : HttpRequest) : M Server exn reply :=
  claims ← authenticate req;
  page ← lift (Pagination.from_request (query req));
  conversations ← service (ConversationService.list (TokenClaims.user_id claims) page);
  items ← collect to_body conversations;
  json_reply 200 (jobj [("conversations", JArr items)]).

(* src/controllers/conversation_controller.cpp:51-58, GET /conversations/<int> *)
Definition get_conversation (req : HttpRequest) (id : Z) : M Server exn reply :=
  claims ← authenticate req;
  conversation ← service (ConversationService.get (TokenClaims.user_id claims) id);
  body ← to_body conversation;
  json_reply 200 body.

(* src/controllers/conversation_controller.cpp:60-67, DELETE /conversations/<int> *)
Definition delete_conversation (req : HttpRequest) (id : Z) : M Server exn reply :=
  claims ← authenticate req;
  service (ConversationService.remove (TokenClaims.user_id claims) id);;
  json_reply 200 (jobj [("deleted", JBool true)]).

(* src/controllers/conversation_controller.cpp:69-77, PATCH /conversations/<int>/name *)
Definition rename_conversation (req : HttpRequest) (id : Z) : M Server exn reply :=
  claims ← authenticate req;
  request ← parsed RenameGroupRequest.from_json req;
  conversation ← service (ConversationService.rename_group (TokenClaims.user_id claims) id request);
  body ← to_body conversation;
  json_reply 200 body.

(* src/controllers/conversation_controller.cpp:79-89, POST /conversations/<int>/members *)
Definition add_member (req : HttpRequest) (id : Z) : M Server exn reply :=
  claims ← authenticate req;
  request ← parsed AddMemberRequest.from_json req;
  participant ← service (ConversationService.add_member (TokenClaims.user_id claims) id
                           (AddMemberRequest.user_id request));
  json_reply 201 (ParticipantResponse.to_json (ParticipantResponse.from participant)).

(* src/controllers/conversation_controller.cpp:91-99, DELETE /conversations/<int>/members/<int> *)
Definition remove_member (req : HttpRequest) (id user_id : Z) : M Server exn reply :=
  claims ← authenticate req;
  service (ConversationService.remove_member (TokenClaims.user_id claims) id user_id);;
  json_reply 200 (jobj [("removed", JBool true)]).

(* src/controllers/conversation_controller.cpp:101-108, POST /conversations/<int>/leave *)
Definition leave_conversation (req : HttpRequest) (id : Z) : M Server exn reply :=
  claims ← authenticate req;
  service (ConversationService.leave (TokenClaims.user_id claims) id);;
  json_reply 200 (jobj [("left", JBool true)]).

(** ** Messages *)

(** [messages_.to_response(message).to_json()]. *)
Definition message_json (message : Message.t) : M Server exn json :=
  response ← service (MessageService.to_response message);
  mret (MessageResponse.to_json response).

(* src/controllers/message_controller.cpp:16-24, POST /messages *)
Definition send_message (req : HttpRequest) : M Server exn reply :=
  claims ← authenticate req;
  request ← parsed SendMessageRequest.from_json req;
  message ← service (MessageService.send (TokenClaims.user_id claims) request);
  body ← message_json message;
  json_reply 201 body.

(* src/controllers/message_controller.cpp:26-39, GET /messages *)
Definition list_messages (req : HttpRequest) : M Server exn reply :=
  claims ← authenticate req;
  q ← lift (MessageQuery.from_request (query req));
  page ← lift (Pagination.from_request (query req));
  messages ← service (MessageService.list (TokenClaims.user_id claims) q page);
  items ← collect message_json messages;
  json_reply 200 (jobj [("messages", JArr items)]).

(* src/controllers/message_controller.cpp:41-50, PATCH /messages/<int> *)
Definition edit_message (req : HttpRequest) (id : Z) : M Server exn reply :=
  claims ← authenticate req;
  request ← parsed UpdateMessageRequest.from_json req;
  message ← service (MessageService.edit (TokenClaims.user_id claims) id request);
  body ← message_json message;
  json_reply 200 body.

(* src/controllers/message_controller.cpp:52-59, DELETE /messages/<int> *)
Definition delete_message (req : HttpRequest) (id : Z) : M Server exn reply :=
  claims ← authenticate req;
  message ← service (MessageService.remove (TokenClaims.user_id claims) id);
  body ← message_json message;
  json_reply 200 body.

(** ** Reactions *)

(* src/controllers/reaction_controller.cpp:15-23, POST /messages/<int>/reactions *)
Definition react (req : HttpRequest) (id : Z) : M Server exn reply :=
  claims ← authenticate req;
  request ← parsed ReactionRequest.from_json req;
  reaction ← service (ReactionService.react (TokenClaims.user_id claims) id (ReactionRequest.emoji request));
  json_reply 201 (ReactionResponse.to_json (ReactionResponse.from reaction)).

(* src/controllers/reaction_controller.cpp:25-32, DELETE /messages/<int>/reactions *)
Definition unreact (req : HttpRequest) (id : Z) : M Server exn reply :=
  claims ← authenticate req;
  service (ReactionService.unreact (TokenClaims.user_id claims) id);;
  json_reply 200 (jobj [("removed", JBool true)]).

(* src/controllers/reaction_controller.cpp:34-45, GET /messages/<int>/reactions *)
Definition list_reactions (req : HttpRequest) (id : Z) : M Server exn reply :=
  claims ← authenticate req;
  reactions ← service (ReactionService.list (TokenClaims.user_id claims) id);
  json_reply 200 (jobj [("reactions",
    JArr ((λ r, ReactionResponse.to_json (ReactionResponse.from r)) <$> reactions))]).

(** ** Notifications *)

(* src/controllers/notification_controller.cpp:16-34, GET /notifications *)
Definition list_notifications (req : HttpRequest) : M Server exn reply :=
  claims ← authenticate req;
  page ← lift (Pagination.from_request (query req));
  let unread_only := match query req "unread" with Some text => String.eqb text "true" | None => false end in
  notifications ← service (NotificationService.list (TokenClaims.user_id claims) page unread_only);
  unread ← service (NotificationService.unread_count (TokenClaims.user_id claims));
  json_reply 200 (jobj [("notifications",
      JArr ((λ n, NotificationResponse.to_json (NotificationResponse.from n)) <$> notifications));
    ("unread_count", JInt unread)]).

(* src/controllers/notification_controller.cpp:36-43, POST /notifications/<int>/read *)
Definition read_notification (req : HttpRequest) (id : Z) : M Server exn reply :=
  claims ← authenticate req;
  marked ← service (NotificationService.mark_read id (TokenClaims.user_id claims));
  json_reply 200 (jobj [("read", JBool marked)]).

(* src/controllers/notification_controller.cpp:45-52, POST /notifications/read-all *)
Definition read_all_notifications (req : HttpRequest) : M Server exn reply :=
  claims ← authenticate req;
  count ← service (NotificationService.mark_all_read (TokenClaims.user_id claims));
  json_reply 200 (jobj [("marked", JInt count)]).

(* src/controllers/notification_controller.cpp:54-61, DELETE /notifications/<int> *)
Definition delete_notification (req : HttpRequest) (id : Z) : M Server exn reply :=
  claims ← authenticate req;
  deleted ← service (NotificationService.remove id (TokenClaims.user_id claims));
  json_reply 200 (jobj [("deleted", JBool deleted)]).

(** ** Sessions and accounts *)

(* src/controllers/session_controller.cpp:14-28, GET /sessions *)
Definition list_sessions (req : HttpRequest) : M Server exn reply :=
  claims ← authenticate req;
  let current_id := default "" (query req "current") in
  sessions ← service (SessionService.list (TokenClaims.user_id claims));
  json_reply 200 (jobj [("sessions",
    JArr ((λ s, SessionResponse.to_json (SessionResponse.from s current_id)) <$> sessions))]).

(* src/controllers/session_controller.cpp:30-37, DELETE /sessions/<string> *)
Definition revoke_session (req : HttpRequest) (id : string) : M Server exn reply :=
  claims ← authenticate req;
  revoked ← service (SessionService.revoke (TokenClaims.user_id claims) id);
  json_reply 200 (jobj [("revoked", JBool revoked)]).

(* src/controllers/user_controller.cpp:16-23, GET /users/me *)
Definition get_me (req : HttpRequest) : M Server exn reply :=
  claims ← authenticate req;
  user ← service (UserService.get_by_id (TokenClaims.user_id claims));
  json_reply 200 (UserResponse.to_json (UserResponse.from user)).

(* src/controllers/user_controller.cpp:26-34, PUT /users/me *)
Definition update_me (req : HttpRequest) : M Server exn reply :=
  claims ← authenticate req;
  request ← parsed UpdateProfileRequest_from_json req;
  user ← service (UserService.update_profile (TokenClaims.user_id claims) request);
  json_reply 200 (UserResponse.to_json (UserResponse.from user)).

(* src/controllers/user_controller.cpp:37-44, GET /users/<int> *)
Definition get_user (req : HttpRequest) (id : Z) : M Server exn reply :=
  authenticate req;;
  user ← service (UserService.get_by_id id);
  json_reply 200 (UserResponse.to_public_json (UserResponse.from user)).

(** ** Administration: the endpoints that read *)

(** A handler of the administration controller. *)
Definition admin (m : M (Instance_ S) exn response) : M Server exn reply := r ← on_host m; mret (RJson r).

Definition authorize (req : HttpRequest) (permission : Permission.t) : M Server exn Z :=
  on_host (AdminController.authorize (cache_ttl config) (base req) permission).

(* src/controllers/admin_controller.cpp:97-107, audit_filter_from *)
Definition audit_filter_from (req : AdminController.Request) : result exn PgAuditLogRepository.AuditLogFilter :=
  actor_id ← AdminController.optional_int_param req "actor_id";
  from_epoch ← AdminController.optional_int_param req "from";
  to_epoch ← AdminController.optional_int_param req "to";
  Ok (PgAuditLogRepository.mkFilter actor_id (AdminController.optional_string_param req "event_type")
        (AdminController.optional_string_param req "target_type")
        (AdminController.optional_string_param req "target_id")
        (AdminController.optional_string_param req "correlation_id") from_epoch to_epoch).

(* src/controllers/admin_controller.cpp:276-294, GET /admin/users/<int>/sessions *)
Definition admin_sessions (req : HttpRequest) (user_id : Z) : M Server exn reply :=
  authorize req Permission.kViewSessions;;
  sessions ← service (SessionService.list user_id);
  json_reply 200 (jobj [("user_id", JInt user_id); ("sessions", JArr ((λ s : Session.t,
    jobj [("id", JStr (Session.id s)); ("created_at", JStr (to_iso8601 (Session.created_at s)));
          ("last_used_at", JStr (to_iso8601 (Session.last_used_at s)));
          ("expires_at", JStr (to_iso8601 (Session.expires_at s)));
          ("user_agent", JStr (default "" (Session.user_agent s)));
          ("ip", JStr (default "" (Session.ip s)))]) <$> sessions))]).

(* src/controllers/admin_controller.cpp:318-351, GET /admin/conversations/<int> *)
Definition admin_conversation (req : HttpRequest) (conversation_id : Z) : M Server exn reply :=
  authorize req Permission.kViewAnyConversation;;
  found ← service (PgConversationRepository.find_by_id conversation_id);
  match found with
  | None => mthrow (NotFoundException "Conversation not found"
                      ("conversation_id=" +:+ to_string conversation_id))
  | Some conversation =>
      participants ← service (PgConversationRepository.list_participants conversation_id);
      json_reply 200 (jobj [("id", JInt (Conversation.id conversation));
        ("is_group", JBool (Conversation.is_group conversation));
        ("name", JStr (default "" (Conversation.name conversation)));
        ("owner_id", jopt JInt (Conversation.owner_id conversation));
        ("created_at", JStr (to_iso8601 (Conversation.created_at conversation)));
        ("participants", JArr ((λ p : ConversationParticipant.t,
           jobj [("user_id", JInt (ConversationParticipant.user_id p));
                 ("role", JStr (ParticipantRole.to_string (ConversationParticipant.role p)));
                 ("joined_at", JStr (to_iso8601 (ConversationParticipant.joined_at p)))]) <$> participants))])
  end.

(* src/controllers/admin_controller.cpp:480-497, GET /admin/audit-logs *)
Definition admin_audit_logs (req : HttpRequest) : M Server exn reply :=
  authorize req Permission.kViewAuditLogs;;
  filter ← lift (audit_filter_from (base req));
  page ← lift (Pagination.from_request (query req));
  records ← service (AuditService.search filter page);
  total ← service (AuditService.count filter);
  json_reply 200 (jobj [("total", JInt total); ("limit", JInt (Pagination.limit page));
    ("offset", JInt (Pagination.offset page)); ("records", JArr (AuditService.to_json <$> records))]).

(* src/controllers/admin_controller.cpp:499-505, GET /admin/audit-logs/summary *)
Definition admin_audit_summary (req : HttpRequest) : M Server exn reply :=
  authorize req Permission.kViewAuditLogs;;
  filter ← lift (audit_filter_from (base req));
  body ← service (AuditService.summary filter);
  json_reply 200 body.

(* src/controllers/admin_controller.cpp:507-514, GET /admin/features *)
Definition admin_features (req : HttpRequest) : M Server exn reply :=
  authorize req Permission.kViewSystemMetrics;;
  flags ← gets (λ h : Server, i_flags (host h));
  json_reply 200 (jobj [("features", Features.to_json flags)]).

(** The endpoints over other components; see Dashboards. *)
(* src/controllers/admin_controller.cpp:390-420, GET /admin/websockets *)
Definition admin_websockets (req : HttpRequest) : M Server exn reply :=
  authorize req Permission.kViewSystemMetrics;;
  json_reply 200 (websockets_body (readings req)).

(* src/controllers/admin_controller.cpp:422-433, GET /admin/cache *)
Definition admin_cache (req : HttpRequest) : M Server exn reply :=
  authorize req Permission.kViewSystemMetrics;;
  json_reply 200 (cache_body json_double (readings req)).

(* src/controllers/admin_controller.cpp:435-455, GET /admin/jobs *)
Definition admin_jobs (req : HttpRequest) : M Server exn reply :=
  authorize req Permission.kViewSystemMetrics;;
  json_reply 200 (jobs_body (readings req)).

(* src/controllers/admin_controller.cpp:457-478, GET /admin/system *)
Definition admin_system (req : HttpRequest) : M Server exn reply :=
  authorize req Permission.kViewSystemMetrics;;
  roles ← service PgUserAdminRepository.counts_by_role;
  json_reply 200 (system_body json_double roles (readings req)).

(** ** Routes *)

Inductive Route :=
  | PostRegister | PostLogin | PostRefresh | PostLogout | PostLogoutAll | GetAuthMe
  | PostAttachment | GetAttachment (id : Z) | GetThumbnail (id : Z) | DeleteAttachment (id : Z)
  | PostConversation | GetConversations | GetConversation (id : Z) | DeleteConversation (id : Z)
  | PatchName (id : Z) | PostMember (id : Z) | DeleteMember (id user_id : Z) | PostLeave (id : Z)
  | PostMessage | GetMessages | PatchMessage (id : Z) | DeleteMessage (id : Z)
  | PostReaction (id : Z) | DeleteReaction (id : Z) | GetReactions (id : Z)
  | GetNotifications | PostRead (id : Z) | PostReadAll | DeleteNotification (id : Z)
  | GetSessions | DeleteSession (id : string) | GetMe | PutMe | GetUser (id : Z) | GetSearch
  | AdminUsers | AdminUser (id : Z) | AdminPutRole (id : Z) | AdminBan (id : Z) | AdminUnban (id : Z)
  | AdminSessions (id : Z) | AdminDeleteSessions (id : Z) | AdminConversation (id : Z)
  | AdminDeleteConversation (id : Z) | AdminAudit | AdminAuditSummary | AdminFeatures
  | AdminPutFeature (name : string) | AdminWebsockets | AdminCache | AdminJobs | AdminSystem.

Definition handle (route : Route) (req : HttpRequest) : M Server exn reply :=
  match route with
  | PostRegister => auth_register req | PostLogin => auth_login req | PostRefresh => auth_refresh req
  | PostLogout => auth_logout req | PostLogoutAll => auth_logout_all req | GetAuthMe => auth_me req
  | PostAttachment => upload_attachment req
  | GetAttachment id => download_handler req id false
  | GetThumbnail id => download_handler req id true
  | DeleteAttachment id => delete_attachment req id
  | PostConversation => create_conversation req | GetConversations => list_conversations req
  | GetConversation id => get_conversation req id | DeleteConversation id => delete_conversation req id
  | PatchName id => rename_conversation req id | PostMember id => add_member req id
  | DeleteMember id user_id => remove_member req id user_id | PostLeave id => leave_conversation req id
  | PostMessage => send_message req | GetMessages => list_messages req
  | PatchMessage id => edit_message req id | DeleteMessage id => delete_message req id
  | PostReaction id => react req id | DeleteReaction id => unreact req id
  | GetReactions id => list_reactions req id
  | GetNotifications => list_notifications req | PostRead id => read_notification req id
  | PostReadAll => read_all_notifications req | DeleteNotification id => delete_notification req id
  | GetSessions => list_sessions req | DeleteSession id => revoke_session req id
  | GetMe => get_me req | PutMe => update_me req | GetUser id => get_user req id
  | GetSearch =>
      r ← SearchController.get_messages (cache_ttl config) (header req) (query req); mret (RJson r)
  | AdminUsers => admin (AdminController.list_users (cache_ttl config) (base req))
  | AdminUser id => admin (AdminController.get_user (cache_ttl config) (base req) id)
  | AdminPutRole id => admin (AdminController.put_role (cache_ttl config) (base req) id)
  | AdminBan id => admin (AdminController.ban (cache_ttl config) (base req) id)
  | AdminUnban id => admin (AdminController.unban (cache_ttl config) (base req) id)
  | AdminSessions id => admin_sessions req id
  | AdminDeleteSessions id => admin (AdminController.delete_sessions (cache_ttl config) (base req) id)
  | AdminConversation id => admin_conversation req id
  | AdminDeleteConversation id => admin (AdminController.delete_conversation (cache_ttl config) (base req) id)
  | AdminAudit => admin_audit_logs req | AdminAuditSummary => admin_audit_summary req
  | AdminFeatures => admin_features req
  | AdminPutFeature name => admin (AdminController.put_feature (cache_ttl config) (base req) name)
  | AdminWebsockets => admin_websockets req | AdminCache => admin_cache req
  | AdminJobs => admin_jobs req | AdminSystem => admin_system req
  end.

(** [http::run_guarded] around every handler. *)
Definition serve (route : Route) (req : HttpRequest) (s : Server) : reply * Server :=
  match handle route req s with
  | (Ok r, s') => (r, s')
  | (Err ex, s') => (RJson (to_response ex), s')
  end.

(** ** Who may call what *)

Inductive Access := Public | TokenOnly | Active | Permitted (permission : Permission.t).

(** The policy: everyone may register, sign in and exchange a refresh token; a
    suspended account may sign out and look at itself; everything else needs an
    account in good standing, and administration a permission. *)
Definition access (route : Route) : Access :=
  match route with
  | PostRegister | PostLogin | PostRefresh => Public
  | PostLogout | PostLogoutAll | GetAuthMe => TokenOnly
  | AdminUsers | AdminUser _ => Permitted Permission.kManageUsers
  | AdminPutRole _ => Permitted Permission.kManageRoles
  | AdminBan _ | AdminUnban _ => Permitted Permission.kBanUsers
  | AdminSessions _ => Permitted Permission.kViewSessions
  | AdminDeleteSessions _ => Permitted Permission.kRevokeSessions
  | AdminConversation _ => Permitted Permission.kViewAnyConversation
  | AdminDeleteConversation _ => Permitted Permission.kManageGroups
  | AdminAudit | AdminAuditSummary => Permitted Permission.kViewAuditLogs
  | AdminFeatures | AdminWebsockets | AdminCache | AdminJobs | AdminSystem =>
      Permitted Permission.kViewSystemMetrics
  | AdminPutFeature _ => Permitted Permission.kManageFeatureFlags
  | _ => Active
  end.

(** What the policy demands of the caller of a request. *)
Definition admission (a : Access) (req : HttpRequest) : M Server exn unit :=
  match a with
  | Public => mret ()
  | TokenOnly => authenticate_token_only req;; mret ()
  | Active => authenticate req;; mret ()
  | Permitted permission => authorize req permission;; mret ()
  end.

(** A handler that starts by admitting its caller. *)
Definition admits {A} (a : Access) (req : HttpRequest) (m : M Server exn A) : Prop :=
  ∀ s e s', admission a req s = (Err e, s') → m s = (Err e, s').

Lemma admits_bind {A B} a req (m : M Server exn A) (f : A → M Server exn B) :
  admits a req m → admits a req (m ≫= f).
Proof. intros Hm s e s' Hg. unfold mbind, M_bind. by rewrite (Hm s e s' Hg). Qed.

Lemma admits_token req : admits TokenOnly req (authenticate_token_only req).
Proof.
  intros s e s'. simpl. unfold mbind, M_bind. destruct (authenticate_token_only req s) as [[]]; [done|].
  by intros [= <- <-].
Qed.
Lemma admits_active req : admits Active req (authenticate req).
Proof.
  intros s e s'. simpl. unfold mbind, M_bind. destruct (authenticate req s) as [[]]; [done|].
  by intros [= <- <-].
Qed.
Lemma admits_permitted req p : admits (Permitted p) req (authorize req p).
Proof.
  intros s e s'. simpl. unfold mbind, M_bind. destruct (authorize req p s) as [[]]; [done|].
  by intros [= <- <-].
Qed.

(** A handler of the administration controller that starts by authorizing. *)
Lemma admits_admin req p (k : Z → M (Instance_ S) exn response) (m : M (Instance_ S) exn response) :
  m = (AdminController.authorize (cache_ttl config) (base req) p ≫= k) → admits (Permitted p) req (admin m).
Proof.
  intros -> s e s'. simpl. unfold authorize, admin, on_host, mbind, M_bind.
  destruct (AdminController.authorize (cache_ttl config) (base req) p (host s)) as [[]]; [done|].
  by intros [= <- <-].
Qed.

Lemma routes_admit route req : access route ≠ Public → admits (access route) req (handle route req).
Proof.
  intros Hp. destruct route; try done; simpl;
    first [ by apply admits_bind, admits_active
          | by apply admits_bind, admits_token
          | by apply admits_bind, admits_permitted
          | by apply admits_bind, admits_bind, admits_active
          | by eapply admits_admin ].
Qed.
End Controllers.

(** ** Admission leaves everything but the cache alone *)

Create HintDb quiet.

Section Quiet.
Context {S : Type} `{CacheStore S, TokenService}.

(** The world but for the faults still to come, and the feature flags, are as
    before. *)
Definition quiet {A} (m : M (Instance_ S) exn A) : Prop :=
  ∀ i, same (i_world i) (i_world (m i).2) ∧ i_flags (m i).2 = i_flags i.

Lemma quiet_bind {A B} (m : M (Instance_ S) exn A) (f : A → M (Instance_ S) exn B) :
  quiet m → (∀ a, quiet (f a)) → quiet (m ≫= f).
Proof.
  intros Hm Hf i. unfold mbind, M_bind. specialize (Hm i). destruct (m i) as [[a|e] i1]; [|done].
  specialize (Hf a i1). simpl in Hm. destruct Hm as [Hs E], Hf as [Hs' E']. split; [by etrans|by rewrite E', E].
Qed.
Lemma quiet_ret {A} (a : A) : quiet (mret a).
Proof. done. Qed.
Lemma quiet_throw {A} (e : exn) : quiet (A:=A) (mthrow e).
Proof. done. Qed.
Lemma quiet_gets {A} (f : Instance_ S → A) : quiet (gets f).
Proof. done. Qed.
Lemma quiet_lift {A} (r : result exn A) : quiet (lift r).
Proof. intros i. unfold lift. by destruct r. Qed.
Lemma quiet_store {A} (f : Z → S → A * S) : quiet (in_store f).
Proof. intros i. unfold in_store. by destruct (f _ _). Qed.
Lemma quiet_count_hit : quiet (modify count_hit).
Proof. done. Qed.
Lemma quiet_count_miss : quiet (modify count_miss).
Proof. done. Qed.
Lemma quiet_query {A} (g : Database → A) : quiet (in_world (with_transaction (on_db g))).
Proof.
  intros i. unfold in_world, with_transaction. by destruct (mjoin (head (faults (i_world i)))) as [[]|].
Qed.

#[local] Hint Resolve quiet_ret quiet_throw quiet_gets quiet_lift quiet_store quiet_count_hit
  quiet_count_miss quiet_query : quiet.
#[local] Ltac solve_quiet :=
  repeat first [ apply quiet_bind; [|intros ?] | progress (eauto with quiet) | case_match | progress simpl ].

Lemma quiet_token_only h : quiet (AuthMiddleware.authenticate_token_only h).
Proof. unfold AuthMiddleware.authenticate_token_only. solve_quiet. Qed.

Lemma quiet_is_banned ttl u : quiet (AuthorizationService.is_banned ttl u).
Proof.
  unfold AuthorizationService.is_banned, AuthorizationService.query_ban, AuthorizationService.remember_ban,
    PgUserAdminRepository.is_banned. solve_quiet.
Qed.

Lemma quiet_role_of ttl u : quiet (AuthorizationService.role_of ttl u).
Proof.
  unfold AuthorizationService.role_of, AuthorizationService.load_role, PgUserAdminRepository.find_role. solve_quiet.
Qed.

Lemma quiet_authenticate ttl h : quiet (AuthMiddleware.authenticate ttl h).
Proof.
  unfold AuthMiddleware.authenticate, AuthorizationService.require_active. apply quiet_bind; [apply quiet_token_only|].
  intros c. apply quiet_bind; [|intros; apply quiet_ret]. apply quiet_bind; [apply quiet_is_banned|]. intros b. solve_quiet.
Qed.

Lemma quiet_authorize ttl req p : quiet (AdminController.authorize ttl req p).
Proof.
  unfold AdminController.authorize, AuthorizationService.require_permission.
  apply quiet_bind; [apply quiet_authenticate|]. intros c. apply quiet_bind; [|intros; apply quiet_ret].
  apply quiet_bind; [apply quiet_role_of|]. intros r. solve_quiet.
Qed.

Lemma admission_quiet (config : HttpConfig) a req (s s' : SearchHost S) r :
  admission config a req s = (r, s') →
  same (i_world (host s)) (i_world (host s')) ∧ i_flags (host s') = i_flags (host s) ∧ probe s' = probe s.
Proof.
  assert (Hhost : ∀ A (m : M (Instance_ S) exn A), quiet m → (on_host m;; mret ()) s = (r, s') →
    same (i_world (host s)) (i_world (host s')) ∧ i_flags (host s') = i_flags (host s) ∧ probe s' = probe s).
  { intros A m Hm. unfold on_host, mbind, M_bind. specialize (Hm (host s)).
    destruct (m (host s)) as [[x|e] i]; intros [= <- <-]; by destruct Hm. }
  destruct a; simpl; [by intros [= _ <-]|apply Hhost, quiet_token_only|apply Hhost, quiet_authenticate
                     |apply Hhost, quiet_authorize].
Qed.
End Quiet.

(** C7. Every route admits whom the policy admits.  For each of the routes but
    registration, sign-in and token refresh: a caller who is not admitted (no
    valid token; on most routes a suspended account; on administration a role
    without the permission) is answered with the error of the refusal, and no
    table, file, feature flag or outgoing event is touched. *)
Theorem routes_guarded {S : Type} `{CacheStore S, TokenService, PgText, JsonText, FullText, TextSearch}
    `{PasswordHasher, ViolationText, Sha256, ImageProcessor, DoubleDiv} (config : HttpConfig) (route : Route)
    (req : HttpRequest) (s s' : SearchHost S) (e : exn) :
  access route ≠ Public → admission config (access route) req s = (Err e, s') →
  serve config route req s = (RJson (to_response e), s') ∧
  same (i_world (host s)) (i_world (host s')) ∧ i_flags (host s') = i_flags (host s).
Proof.
  intros Hp Ha. pose proof (routes_admit config route req Hp s e s' Ha) as Hh. unfold serve. rewrite Hh.
  apply admission_quiet in Ha as (? & ? & _). done.
Qed.

(** A suspended account is not admitted to a route that needs good standing,
    while the cache agrees with the database and the database answers. *)
Lemma suspended_not_admitted {S : Type} `{L : CacheStoreLaws S} `{TokenService} (config : HttpConfig) a
    (req : HttpRequest) (s : SearchHost S) f tok c :
  a = Active ∨ (∃ p, a = Permitted p) →
  good f (host s) → faults (i_world (host s)) = [] →
  WebSocketController.extract_bearer_token (header req) = Some tok →
  token_verify (utils_now (now (i_world (host s)))) tok TokenType.kAccess = Ok c →
  (f (TokenClaims.user_id c)).2 = true →
  ∃ details s', admission config a req s
    = (Err (AuthenticationException "Account is suspended" details), s').
Proof.
  intros Ha Hgood Hf Htok Hv Hb.
  assert (Hauth : ∃ details i', AuthMiddleware.authenticate (cache_ttl config) (header req) (host s)
    = (Err (AuthenticationException "Account is suspended" details), i')).
  { unfold AuthMiddleware.authenticate, AuthMiddleware.authenticate_token_only. rewrite Htok.
    unfold mbind, M_bind, gets, lift. rewrite Hv. unfold AuthorizationService.require_active, mbind, M_bind.
    pose proof (is_banned_spec f (cache_ttl config) (TokenClaims.user_id c) (host s) Hgood) as Hs.
    pose proof (is_banned_answers (cache_ttl config) (TokenClaims.user_id c) (host s) Hf) as Hans.
    destruct (AuthorizationService.is_banned _ _ (host s)) as [[b|e] i']; [|done].
    destruct Hs as [_ ->]. rewrite Hb. by do 2 eexists. }
  destruct Hauth as (details & i' & Hauth). destruct Ha as [->|[p ->]]; simpl;
    unfold authenticate, authorize, AdminController.authorize, on_host, mbind, M_bind; rewrite Hauth; by do 2 eexists.
Qed.

(** ** Sign-in attempts *)

Section SignIn.
Context {S : Type} `{CacheStore S, TokenService, PgText, JsonText, FullText, TextSearch, PasswordHasher}.
Context `{ViolationText, Sha256, ImageProcessor, DoubleDiv} (config : HttpConfig).

(** The replies to a sequence of requests to one route. *)
Fixpoint replies (route : Route) (reqs : list HttpRequest) (s : SearchHost S)
    : list reply * SearchHost S :=
  match reqs with
  | [] => ([], s)
  | req :: reqs =>
      let '(r, s) := serve config route req s in
      let '(rs, s) := replies route reqs s in (r :: rs, s)
  end.

(** A sign-in request for the account of [row] with a password that is not its
    own. *)
Definition wrong_guess (row : UserRow.t) (req : HttpRequest) : Prop :=
  ∃ j ident pw,
    parse_json_body (text_body req) = Ok j ∧
    LoginRequest_from_json j = Ok {| login_identifier := ident; login_password := pw |} ∧
    (LOWER (trim ident) = LOWER (UserRow.username row) ∨ LOWER (trim ident) = LOWER (UserRow.email row)) ∧
    trim ident ≠ "" ∧ pw ≠ "" ∧ verify pw (UserRow.password_hash row) = false.

Lemma wrong_guess_refused id row req (s : SearchHost S) :
  faults (i_world (host s)) = [] → accounts_ok (db (i_world (host s))) (seqs (i_world (host s))) →
  users (db (i_world (host s))) !! id = Some row → wrong_guess row req →
  serve config PostLogin req s = (RJson (to_response (AuthenticationException "Invalid credentials" "")), s).
Proof.
  intros Hf Hok Hrow (j & ident & pw & Hj & Hr & Hid & Hne & Hpw & Hv).
  unfold serve, handle, auth_login, parsed, service, on_host, in_world, mbind, M_bind, lift. rewrite Hj, Hr.
  rewrite (login_run _ _ _ _ _ id row) by done. rewrite Hv. by destruct s as [[]].
Qed.
End SignIn.

(** Sign-in attempts are not limited.  Whatever the configuration, any number
    of consecutive guesses at the password of an account are each answered with
    "Invalid credentials", never with "too many requests", and leave no trace in
    the cache or anywhere else. *)
Theorem sign_in_unlimited {S : Type} `{CacheStore S, TokenService, PgText, JsonText, FullText, TextSearch}
    `{PasswordHasher, ViolationText, Sha256, ImageProcessor, DoubleDiv} (config : HttpConfig) (id : Z) (row : UserRow.t)
    (reqs : list HttpRequest) (s : SearchHost S) :
  faults (i_world (host s)) = [] → accounts_ok (db (i_world (host s))) (seqs (i_world (host s))) →
  users (db (i_world (host s))) !! id = Some row → Forall (wrong_guess row) reqs →
  replies config PostLogin reqs s
  = (replicate (length reqs) (RJson (to_response (AuthenticationException "Invalid credentials" ""))), s).
Proof.
  intros Hf Hok Hrow Hall. induction Hall as [|req reqs Hreq _ IH]; [done|].
  cbn [replies]. rewrite (wrong_guess_refused _ id row) by done. by rewrite IH.
Qed.

(** ** Samples *)

Module HttpSample.
(** The instance of AdminSample: ann is an administrator, bob is not. *)
Definition server : SearchHost InMemoryCacheStore.t := mkHost AdminSample.instance None.
Definition config : HttpConfig := mkConfig 30 60 "/data" SystemSample.options "/api/attachments" true 30 60.
(** A process that has served nobody yet. *)
Definition idle : Readings :=
  mkReadings SessionManager.empty None "memory" 0 0 (BackgroundExecutor.make 4)
    (InProcessEventBus.mk (EventDispatcher.mk [] 0 0) None 0 0) MetricsRegistry.empty 0%Q "0.1.0".
Definition division : DoubleDiv := Qdiv.
Definition request (name : string) : HttpRequest :=
  mkReq (AdminSample.request name) "" "" (mkPart None "" "") (mkDraws "" "" "" "" "") idle.
(** Every body reads as a guess at ann's password. *)
Definition guessing : JsonText :=
  {| json_parse := λ _, Some (jobj [("identifier", JStr "ann"); ("password", JStr "letmein")]);
     json_dump := λ _, "" |}.
Definition matching : TextSearch := String.eqb.
End HttpSample.

Lemma routes_guarded_witness :
  ∃ details s', serve (H0:=AdminSample.tokens) (H1:=AdminSample.text) (H2:=AdminSample.empty_object)
      (H3:=SearchSample.engine) (H4:=HttpSample.matching) (H5:=AccountSample.hasher)
      (H6:=AccountSample.violations) (H7:=SessionSample.sha) (H8:=SystemSample.images) (H9:=HttpSample.division)
      HttpSample.config (AdminBan 1) (HttpSample.request "bob") HttpSample.server
    = (RJson (to_response (AuthorizationException "Insufficient permissions" details)), s') ∧
  same (i_world (host HttpSample.server)) (i_world (host s')).
Proof.
  destruct (admission (H0:=AdminSample.tokens) HttpSample.config (access (AdminBan 1)) (HttpSample.request "bob")
    HttpSample.server) as [r s'] eqn:E.
  assert (Hr : ∃ details, r = Err (AuthorizationException "Insufficient permissions" details))
    by (apply (f_equal fst) in E; cbn [fst] in E; rewrite <- E; eexists; vm_compute; reflexivity).
  destruct Hr as [details ->]. exists details, s'.
  destruct (routes_guarded (H0:=AdminSample.tokens) (H1:=AdminSample.text) (H2:=AdminSample.empty_object)
    (H3:=SearchSample.engine) (H4:=HttpSample.matching) (H5:=AccountSample.hasher)
    (H6:=AccountSample.violations) (H7:=SessionSample.sha) (H8:=SystemSample.images) (H9:=HttpSample.division)
    HttpSample.config (AdminBan 1) (HttpSample.request "bob") HttpSample.server s' _ ltac:(discriminate) E)
    as (Hs & Hw & _).
  split; [exact Hs|exact Hw].
Defined.

Lemma sign_in_unlimited_witness :
  let reqs := replicate 100 (HttpSample.request "nobody") in
  replies (H0:=AdminSample.tokens) (H1:=AdminSample.text) (H2:=HttpSample.guessing)
      (H3:=SearchSample.engine) (H4:=HttpSample.matching) (H5:=AccountSample.hasher)
      (H6:=AccountSample.violations) (H7:=SessionSample.sha) (H8:=SystemSample.images) (H9:=HttpSample.division)
      HttpSample.config PostLogin reqs HttpSample.server
  = (replicate 100 (RJson (to_response (AuthenticationException "Invalid credentials" ""))), HttpSample.server).
Proof.
  intros reqs.
  apply (sign_in_unlimited (H0:=AdminSample.tokens) (H1:=AdminSample.text) (H2:=HttpSample.guessing)
    (H3:=SearchSample.engine) (H4:=HttpSample.matching) (H5:=AccountSample.hasher)
    (H6:=AccountSample.violations) (H7:=SessionSample.sha) (H8:=SystemSample.images) (H9:=HttpSample.division)
    HttpSample.config 1 (AdminSample.account "ann" "admin") reqs HttpSample.server);
    [reflexivity|exact sample_accounts_ok|reflexivity|].
  apply Forall_replicate. eexists _, "ann", "letmein". split_and!; try reflexivity; [left; reflexivity|discriminate..].
Defined.
