(* ===== verification/Routes.v ===== *)
(** * Routes: the table of rules the server registers, and its description

    Models include/rtc/http/route_registrar.hpp, the [register_routes] functions
    of src/controllers and [Application::register_routes]: what is registered
    with Crow, under which path, for which method and in which order.  A rule's
    handler is the route it serves as a function of the values of the path's
    placeholders; the handlers themselves are in Http, Operations and
    Dispatcher.  Matching a request against the table is Crow's.

    The table is compared with the published description of OpenApi. *)

From S2P Require Import Prelude Text Json Rbac OpenApi Http.
Open Scope string_scope.
Open Scope Z_scope.

Inductive Method := Get | Post | Put | Patch | Delete | Head | Options.

Global Instance Method_eq_dec : EqDecision Method.
Proof. solve_decision. Defined.

(** The value of a placeholder: [<int>], or [<string>] and [<path>]. *)
Inductive Param := PInt (n : Z) | PStr (s : string).

Inductive Endpoint :=
  | Api (route : list Param → option Route)
  | Health | Live | Startup | Ready | Exposition | Specification | Viewer | Socket | Fallback.

(** ** Rules *)

(** A rule under construction: [CROW_ROUTE] makes one for GET. *)
Record Rule := mkRule {
  rule_path : string; rule_methods : list Method; rule_name : string; rule_handler : option Endpoint }.

Definition CROW_ROUTE (path : string) : Rule := mkRule path [Get] "" None.
Definition methods (ms : list Method) (r : Rule) : Rule := mkRule (rule_path r) ms (rule_name r) (rule_handler r).
Definition name (value : string) (r : Rule) : Rule := mkRule (rule_path r) (rule_methods r) value (rule_handler r).
Definition handler (h : Endpoint) (r : Rule) : Rule :=
  mkRule (rule_path r) (rule_methods r) (rule_name r) (Some h).

Module VersionedRule.
(* include/rtc/http/route_registrar.hpp:98-100, VersionedRule *)
Record t := mk { canonical_ : Rule; versioned_ : Rule }.

(* include/rtc/http/route_registrar.hpp:70-78, VersionedRule::methods *)
Definition methods (ms : list Method) (r : t) : t :=
  mk (methods ms (canonical_ r)) (methods ms (versioned_ r)).

(* include/rtc/http/route_registrar.hpp:80-87, VersionedRule::name *)
Definition name (value : string) (r : t) : t :=
  mk (name value (canonical_ r)) (name (value +:+ " [versioned]") (versioned_ r)).

(* include/rtc/http/route_registrar.hpp:89-97, VersionedRule::operator() *)
Definition call (h : Endpoint) (r : t) : t := mk (handler h (canonical_ r)) (handler h (versioned_ r)).
End VersionedRule.

(* include/rtc/http/route_registrar.hpp:103-107, make_versioned_rule *)
Definition make_versioned_rule (canonical versioned : Rule) : VersionedRule.t :=
  VersionedRule.mk canonical versioned.

(* include/rtc/http/route_registrar.hpp:137-139, RTC_API_ROUTE *)
Definition RTC_API_ROUTE (path : string) : VersionedRule.t :=
  make_versioned_rule (CROW_ROUTE ("/api" +:+ path)) (CROW_ROUTE ("/api/v1" +:+ path)).

(** [RTC_API_ROUTE(app, path).methods(m)(h)]: the two rules it adds. *)
Definition endpoint (m : Method) (path : string) (h : Endpoint) : list Rule :=
  let r := VersionedRule.call h (VersionedRule.methods [m] (RTC_API_ROUTE path)) in
  [VersionedRule.canonical_ r; VersionedRule.versioned_ r].

(** Handlers by the placeholders they take. *)
Definition plain (r : Route) : Endpoint := Api (λ ps, match ps with [] => Some r | _ => None end).
Definition by_int (f : Z → Route) : Endpoint :=
  Api (λ ps, match ps with [PInt n] => Some (f n) | _ => None end).
Definition by_string (f : string → Route) : Endpoint :=
  Api (λ ps, match ps with [PStr s] => Some (f s) | _ => None end).
Definition by_ints (f : Z → Z → Route) : Endpoint :=
  Api (λ ps, match ps with [PInt n; PInt k] => Some (f n k) | _ => None end).

(** ** What each controller registers *)

(* src/controllers/health_controller.cpp:64-94, HealthController::register_routes *)
Definition health_routes : list Rule :=
  [handler Health (CROW_ROUTE "/health"); handler Live (CROW_ROUTE "/health/live");
   handler Startup (CROW_ROUTE "/health/startup"); handler Ready (CROW_ROUTE "/health/ready")].

(* src/controllers/auth_controller.cpp:42-153, AuthController::register_routes *)
Definition auth_routes : list Rule :=
  (endpoint Post "/auth/register" (plain PostRegister) ++ endpoint Post "/auth/login" (plain PostLogin)
   ++ endpoint Post "/auth/refresh" (plain PostRefresh) ++ endpoint Post "/auth/logout" (plain PostLogout)
   ++ endpoint Post "/auth/logout-all" (plain PostLogoutAll) ++ endpoint Get "/auth/me" (plain GetAuthMe))%list.

(* src/controllers/user_controller.cpp:14-38, UserController::register_routes *)
Definition user_routes : list Rule :=
  (endpoint Get "/users/me" (plain GetMe) ++ endpoint Put "/users/me" (plain PutMe)
   ++ endpoint Get "/users/<int>" (by_int GetUser))%list.

(* src/controllers/conversation_controller.cpp:25-102, ConversationController::register_routes *)
Definition conversation_routes : list Rule :=
  (endpoint Post "/conversations" (plain PostConversation) ++ endpoint Get "/conversations" (plain GetConversations)
   ++ endpoint Get "/conversations/<int>" (by_int GetConversation)
   ++ endpoint Delete "/conversations/<int>" (by_int DeleteConversation)
   ++ endpoint Patch "/conversations/<int>/name" (by_int PatchName)
   ++ endpoint Post "/conversations/<int>/members" (by_int PostMember)
   ++ endpoint Delete "/conversations/<int>/members/<int>" (by_ints DeleteMember)
   ++ endpoint Post "/conversations/<int>/leave" (by_int PostLeave))%list.

(* src/controllers/message_controller.cpp:15-53, MessageController::register_routes *)
Definition message_routes : list Rule :=
  (endpoint Post "/messages" (plain PostMessage) ++ endpoint Get "/messages" (plain GetMessages)
   ++ endpoint Patch "/messages/<int>" (by_int PatchMessage)
   ++ endpoint Delete "/messages/<int>" (by_int DeleteMessage))%list.

(* src/controllers/websocket_controller.cpp:64-76, WebSocketController::register_routes *)
Definition websocket_routes : list Rule :=
  [handler Socket (CROW_ROUTE "/ws"); handler Socket (CROW_ROUTE "/api/v1/ws")].

(* src/controllers/attachment_controller.cpp:38-96, AttachmentController::register_routes *)
Definition attachment_routes : list Rule :=
  (endpoint Post "/attachments" (plain PostAttachment) ++ endpoint Get "/attachments/<int>" (by_int GetAttachment)
   ++ endpoint Get "/attachments/<int>/thumbnail" (by_int GetThumbnail)
   ++ endpoint Delete "/attachments/<int>" (by_int DeleteAttachment))%list.

(* src/controllers/reaction_controller.cpp:14-35, ReactionController::register_routes *)
Definition reaction_routes : list Rule :=
  (endpoint Post "/messages/<int>/reactions" (by_int PostReaction)
   ++ endpoint Delete "/messages/<int>/reactions" (by_int DeleteReaction)
   ++ endpoint Get "/messages/<int>/reactions" (by_int GetReactions))%list.

(* src/controllers/notification_controller.cpp:15-55, NotificationController::register_routes *)
Definition notification_routes : list Rule :=
  (endpoint Get "/notifications" (plain GetNotifications) ++ endpoint Post "/notifications/<int>/read" (by_int PostRead)
   ++ endpoint Post "/notifications/read-all" (plain PostReadAll)
   ++ endpoint Delete "/notifications/<int>" (by_int DeleteNotification))%list.

(* src/controllers/session_controller.cpp:13-31, SessionController::register_routes *)
Definition session_routes : list Rule :=
  (endpoint Get "/sessions" (plain GetSessions)
   ++ endpoint Delete "/sessions/<string>" (by_string DeleteSession))%list.

(* src/controllers/metrics_controller.cpp:7-16, MetricsController::register_routes *)
Definition metrics_routes : list Rule := [handler Exposition (CROW_ROUTE "/metrics")].

(* src/controllers/search_controller.cpp:59-63, SearchController::register_routes *)
Definition search_routes : list Rule := endpoint Get "/search/messages" (plain GetSearch).

(* src/controllers/admin_controller.cpp:118-126, AdminController::register_routes *)
Definition admin_routes : list Rule :=
  (endpoint Get "/admin/users" (plain AdminUsers) ++ endpoint Get "/admin/users/<int>" (by_int AdminUser)
   ++ endpoint Put "/admin/users/<int>/role" (by_int AdminPutRole)
   ++ endpoint Post "/admin/users/<int>/ban" (by_int AdminBan)
   ++ endpoint Post "/admin/users/<int>/unban" (by_int AdminUnban)
   ++ endpoint Get "/admin/users/<int>/sessions" (by_int AdminSessions)
   ++ endpoint Delete "/admin/users/<int>/sessions" (by_int AdminDeleteSessions)
   ++ endpoint Get "/admin/conversations/<int>" (by_int AdminConversation)
   ++ endpoint Delete "/admin/conversations/<int>" (by_int AdminDeleteConversation)
   ++ endpoint Get "/admin/websockets" (plain AdminWebsockets) ++ endpoint Get "/admin/cache" (plain AdminCache)
   ++ endpoint Get "/admin/jobs" (plain AdminJobs) ++ endpoint Get "/admin/system" (plain AdminSystem)
   ++ endpoint Get "/admin/audit-logs" (plain AdminAudit)
   ++ endpoint Get "/admin/audit-logs/summary" (plain AdminAuditSummary)
   ++ endpoint Get "/admin/features" (plain AdminFeatures)
   ++ endpoint Put "/admin/features/<string>" (by_string AdminPutFeature))%list.

(* src/controllers/docs_controller.cpp:71-80, DocsController::register_routes *)
Definition docs_routes : list Rule :=
  (handler Specification (methods [Get] (CROW_ROUTE "/openapi.json"))
   :: endpoint Get "/openapi.json" Specification ++ [handler Viewer (methods [Get] (CROW_ROUTE "/docs"))])%list.

(* src/controllers/api_fallback_controller.cpp:34-55, ApiFallbackController::register_routes *)
Definition fallback_routes : list Rule :=
  let every := [Get; Post; Put; Patch; Delete; Head; Options] in
  [handler Fallback (methods every (CROW_ROUTE "/api/v<int>/<path>"));
   handler Fallback (methods every (CROW_ROUTE "/api/v<int>"))].

(** The whole table, in the order of registration. *)
(* src/application.cpp:561-581, Application::register_routes *)
Definition register_routes : list Rule :=
  (health_routes ++ auth_routes ++ user_routes ++ conversation_routes ++ message_routes ++ websocket_routes
   ++ attachment_routes ++ reaction_routes ++ notification_routes ++ session_routes ++ metrics_routes
   ++ search_routes ++ admin_routes ++ docs_routes ++ fallback_routes)%list.

(** ** The table against the description *)

Definition method_name (m : Method) : string :=
  match m with
  | Get => "get" | Post => "post" | Put => "put" | Patch => "patch" | Delete => "delete" | Head => "head"
  | Options => "options"
  end.

(** A path with its placeholders, between [open] and [close], left blank. *)
Fixpoint blank (open close : ascii) (inside : bool) (s : string) : string :=
  match s with
  | "" => ""
  | String c s =>
      if inside then (if Ascii.eqb c close then blank open close false s else blank open close true s)
      else if Ascii.eqb c open then String "*" (blank open close true s)
      else String c (blank open close false s)
  end.
Definition crow_path : string → string := blank "<" ">" false.
Definition openapi_path : string → string := blank "{" "}" false.

(** The operations of the description: method, path and operation object. *)
Definition operations : list (string * string * json) :=
  path ← paths;
  m ← [Get; Post; Put; Patch; Delete; Head; Options];
  match find path.2 (method_name m) with
  | Some op => [(method_name m, openapi_path path.1, op)]
  | None => []
  end.

Definition operation (m path : string) : option json :=
  snd <$> List.find (λ o, String.eqb o.1.1 m && String.eqb o.1.2 path) operations.

(** Method, path and placeholder values of a route. *)
Definition method_of (r : Route) : Method :=
  match r with
  | PostRegister | PostLogin | PostRefresh | PostLogout | PostLogoutAll | PostAttachment | PostConversation
  | PostMember _ | PostLeave _ | PostMessage | PostReaction _ | PostRead _ | PostReadAll | AdminBan _
  | AdminUnban _ => Post
  | DeleteAttachment _ | DeleteConversation _ | DeleteMember _ _ | DeleteMessage _ | DeleteReaction _
  | DeleteNotification _ | DeleteSession _ | AdminDeleteSessions _ | AdminDeleteConversation _ => Delete
  | PatchName _ | PatchMessage _ => Patch
  | PutMe | AdminPutRole _ | AdminPutFeature _ => Put
  | _ => Get
  end.

Definition arguments (r : Route) : list Param :=
  match r with
  | GetAttachment n | GetThumbnail n | DeleteAttachment n | GetConversation n | DeleteConversation n | PatchName n
  | PostMember n | PostLeave n | PatchMessage n | DeleteMessage n | PostReaction n | DeleteReaction n
  | GetReactions n | PostRead n | DeleteNotification n | GetUser n | AdminUser n | AdminPutRole n | AdminBan n
  | AdminUnban n | AdminSessions n | AdminDeleteSessions n | AdminConversation n | AdminDeleteConversation n => [PInt n]
  | DeleteMember n k => [PInt n; PInt k]
  | DeleteSession s | AdminPutFeature s => [PStr s]
  | _ => []
  end.

Definition serves (r : Rule) (m : Method) (ps : list Param) : option Route :=
  match rule_handler r with
  | Some (Api f) => if bool_decide (m ∈ rule_methods r) then f ps else None
  | _ => None
  end.

Definition path_of (r : Route) : string :=
  match r with
  | PostRegister => "/auth/register" | PostLogin => "/auth/login" | PostRefresh => "/auth/refresh"
  | PostLogout => "/auth/logout" | PostLogoutAll => "/auth/logout-all" | GetAuthMe => "/auth/me"
  | PostAttachment => "/attachments" | GetAttachment _ | DeleteAttachment _ => "/attachments/<int>"
  | GetThumbnail _ => "/attachments/<int>/thumbnail"
  | PostConversation | GetConversations => "/conversations"
  | GetConversation _ | DeleteConversation _ => "/conversations/<int>"
  | PatchName _ => "/conversations/<int>/name" | PostMember _ => "/conversations/<int>/members"
  | DeleteMember _ _ => "/conversations/<int>/members/<int>" | PostLeave _ => "/conversations/<int>/leave"
  | PostMessage | GetMessages => "/messages" | PatchMessage _ | DeleteMessage _ => "/messages/<int>"
  | PostReaction _ | DeleteReaction _ | GetReactions _ => "/messages/<int>/reactions"
  | GetNotifications => "/notifications" | PostRead _ => "/notifications/<int>/read"
  | PostReadAll => "/notifications/read-all" | DeleteNotification _ => "/notifications/<int>"
  | GetSessions => "/sessions" | DeleteSession _ => "/sessions/<string>"
  | GetMe | PutMe => "/users/me" | GetUser _ => "/users/<int>" | GetSearch => "/search/messages"
  | AdminUsers => "/admin/users" | AdminUser _ => "/admin/users/<int>" | AdminPutRole _ => "/admin/users/<int>/role"
  | AdminBan _ => "/admin/users/<int>/ban" | AdminUnban _ => "/admin/users/<int>/unban"
  | AdminSessions _ | AdminDeleteSessions _ => "/admin/users/<int>/sessions"
  | AdminConversation _ | AdminDeleteConversation _ => "/admin/conversations/<int>"
  | AdminAudit => "/admin/audit-logs" | AdminAuditSummary => "/admin/audit-logs/summary"
  | AdminFeatures => "/admin/features" | AdminPutFeature _ => "/admin/features/<string>"
  | AdminWebsockets => "/admin/websockets" | AdminCache => "/admin/cache" | AdminJobs => "/admin/jobs"
  | AdminSystem => "/admin/system"
  end.

(** The operation that describes a route. *)
Definition operation_of (r : Route) : option json :=
  operation (method_name (method_of r)) (crow_path ("/api/v1" +:+ path_of r)).

(** The operation's text opens with the permission it takes: "Requires
    user.manage.", or "Requires user.manage_roles (super admin)." where only a
    super admin holds it. *)
Definition only_super_admin (p : Permission.t) : bool :=
  forallb (λ role, negb (has_permission role p)) [Role.kUser; Role.kModerator; Role.kAdmin].
Definition requires (p : Permission.t) (op : json) : bool :=
  match find op "description" with
  | Some (JStr text) =>
      String.prefix ("Requires " +:+ Permission.to_string p
                       +:+ (if only_super_admin p then " (super admin)." else ".")) text
  | _ => false
  end.

(** The operation is described as open to everyone. *)
Definition no_security (op : json) : bool :=
  match find op "security" with Some (JArr []) => true | _ => false end.

(** A rule described by an operation. *)
Definition describes (o : string * string * json) (r : Rule) : bool :=
  String.eqb o.1.2 (crow_path (rule_path r)) && existsb (λ m, String.eqb o.1.1 (method_name m)) (rule_methods r).

(** Method and path of each rule; Crow refuses a table with a pair twice. *)
Definition slots (rules : list Rule) : list (string * Method) :=
  r ← rules; m ← rule_methods r; [(rule_path r, m)].

(** Shadowed by no other rule: the catch-alls come after every other rule. *)
Definition is_fallback (r : Rule) : bool := match rule_handler r with Some Fallback => true | _ => false end.

(** The rules of a route under the two prefixes. *)
Definition rule_at (prefix : string) (r : Route) : option Rule :=
  List.find (λ rule, String.eqb (rule_path rule) (prefix +:+ path_of r)
                     && bool_decide (method_of r ∈ rule_methods rule)) register_routes.

Lemma route_registered prefix r :
  prefix = "/api" ∨ prefix = "/api/v1" →
  ∃ rule, rule_at prefix r = Some rule ∧ serves rule (method_of r) (arguments r) = Some r.
Proof. intros [-> | ->]; destruct r; eexists; split; vm_compute; reflexivity. Qed.

Lemma route_described r :
  ∃ op, operation_of r = Some op ∧ (no_security op = true ↔ access r = Public) ∧
    ∀ p, access r = Permitted p → requires p op = true.
Proof.
  assert (H : ∃ op, operation_of r = Some op ∧ no_security op = match access r with Public => true | _ => false end ∧
            match access r with Permitted p => requires p op | _ => true end = true)
    by (destruct r; eexists; repeat split; vm_compute; reflexivity).
  destruct H as (op & Hop & Hs & Hr). exists op. rewrite Hs. split; [done|].
  split; [by destruct (access r)|]. intros p Hp. by rewrite Hp in Hr.
Qed.

