(* ===== verification/Schema.v ===== *)
(** * Schema: JSON Schema as the description uses it

    A reading of the JSON Schema keywords the document of OpenApi uses
    ([type], [enum], [const], [required], [properties],
    [additionalProperties], [items], references), as a function from a schema and
    a value to a verdict, and the objects of Dto and the controllers judged by
    the schemas of src/docs/openapi_spec.cpp. *)

From Stdlib Require Import QArith.
From S2P Require Import Prelude Text Json Errors Validation TimeUtil Rbac Models Events Jobs Dto Database Users.
From S2P Require Import Conversations Repositories Attachments Messages Receipts Notifications Tokens.
From S2P Require Import Sessions UserProps Protocol Connections Dispatcher Cache Authorization AuthorizationProps.
From S2P Require Import SessionProps System Search AuditTrail Metrics Dashboards OpenApi Http Routes.
Open Scope string_scope.
Open Scope Z_scope.

(** ** Schemas *)

Definition is_number (v : json) : bool := match v with JInt _ | JFloat _ _ => true | _ => false end.

Definition has_type (v : json) (t : string) : bool :=
  match v with
  | JNull => String.eqb t "null"
  | JBool _ => String.eqb t "boolean"
  | JInt _ => String.eqb t "integer" || String.eqb t "number"
  | JFloat _ _ => String.eqb t "number"
  | JStr _ => String.eqb t "string"
  | JArr _ => String.eqb t "array"
  | JObj _ => String.eqb t "object"
  end.

(** [type] names one type, or lists several. *)
Definition type_ok (schema v : json) : bool :=
  match find schema "type" with
  | None => true
  | Some (JStr t) => has_type v t
  | Some (JArr ts) => existsb (λ t, match t with JStr t => has_type v t | _ => false end) ts
  | Some _ => false
  end.

Definition is_text (v t : json) : bool := match v, t with JStr v, JStr t => String.eqb v t | _, _ => false end.

Definition enum_ok (schema v : json) : bool :=
  match find schema "enum" with
  | None => true | Some (JArr choices) => existsb (is_text v) choices | Some _ => false
  end.
Definition const_ok (schema v : json) : bool :=
  match find schema "const" with None => true | Some c => is_text v c end.

Definition required (schema : json) : list string :=
  match find schema "required" with
  | Some (JArr names) => omap (λ n, match n with JStr n => Some n | _ => None end) names
  | _ => []
  end.
Definition property (schema : json) (k : string) : option json :=
  props ← find schema "properties"; find props k.

(** Whether members without a schema of their own are accepted.  The
    specification accepts them by default; [closed] does not, for a schema that
    lists properties. *)
Definition open_to_more (closed : bool) (schema : json) : bool :=
  match find schema "additionalProperties" with
  | Some (JBool b) => b
  | Some _ => true
  | None => negb closed || match find schema "properties" with None => true | Some _ => false end
  end.

(** The names of an object's members, as far as the schema constrains them. *)
Definition names_ok (closed : bool) (schema : json) (names : list string) : bool :=
  forallb (λ k, existsb (String.eqb k) names) (required schema)
  && (open_to_more closed schema
      || forallb (λ k, match property schema k with Some _ => true | None => false end) names).

(** The schema a reference such as "#/components/schemas/User" names. *)
Definition components : string := "#/components/schemas/".
Definition target (reference : string) : option json :=
  if String.prefix components reference then
    all ← find document "components"; schemas ← find all "schemas";
    find schemas (String.substring (String.length components) (String.length reference) reference)
  else None.

(** The member schema of an object: its property's, or the one for all others. *)
Definition member_schema (schema : json) (k : string) : option json :=
  match property schema k with
  | Some s => Some s
  | None => match find schema "additionalProperties" with Some (JObj m) => Some (JObj m) | _ => None end
  end.

(** The formats and the bounds on lengths and values are not read. *)
Fixpoint conforms (closed : bool) (fuel : nat) (schema v : json) : bool :=
  match fuel with
  | O => false
  | S fuel =>
      match find schema "$ref" with
      | Some (JStr r) => match target r with Some s => conforms closed fuel s v | None => false end
      | Some _ => false
      | None =>
          type_ok schema v && enum_ok schema v && const_ok schema v &&
          match v with
          | JObj m =>
              names_ok closed schema (map_to_list m).*1 &&
              forallb (λ kv, match member_schema schema kv.1 with
                             | Some s => conforms closed fuel s kv.2
                             | None => true
                             end) (map_to_list m)
          | JArr l =>
              match find schema "items" with
              | Some s => forallb (conforms closed fuel s) l
              | None => true
              end
          | _ => true
          end
      end
  end.

(** ** Judging objects member by member *)

(** The part of the judgement that depends on the names of the members only. *)
Definition object_head (closed : bool) (schema : json) (names : list string) : bool :=
  match find schema "$ref" with None => true | Some _ => false end
  && type_ok schema (JObj ∅) && enum_ok schema (JObj ∅) && const_ok schema (JObj ∅)
  && names_ok closed schema names && bool_decide (NoDup names).

Definition member_ok (closed : bool) (n : nat) (schema : json) (kv : string * json) : bool :=
  match member_schema schema kv.1 with Some s => conforms closed n s kv.2 | None => true end.

Lemma forallb_perm {A} (f : A → bool) l l' : l ≡ₚ l' → forallb f l = forallb f l'.
Proof. induction 1; simpl; [done|by f_equal| |by etrans]. by destruct (f x), (f y). Qed.
Lemma existsb_perm {A} (f : A → bool) l l' : l ≡ₚ l' → existsb f l = existsb f l'.
Proof. induction 1; simpl; [done|by f_equal| |by etrans]. by destruct (f x), (f y). Qed.
Lemma forallb_all {A} (f : A → bool) l : Forall (λ x, f x = true) l → forallb f l = true.
Proof. induction 1; simpl; [done|by apply andb_true_intro]. Qed.
Lemma forallb_congr {A} (f g : A → bool) l : (∀ x, f x = g x) → forallb f l = forallb g l.
Proof. intros H. induction l; simpl; [done|by rewrite H, IHl]. Qed.

Lemma names_ok_perm closed schema l l' : l ≡ₚ l' → names_ok closed schema l = names_ok closed schema l'.
Proof.
  intros Hl. unfold names_ok. f_equal; [|by rewrite (forallb_perm _ l l')].
  apply forallb_congr. intros x. by apply existsb_perm.
Qed.

Lemma conforms_object closed n schema fs :
  object_head closed schema fs.*1 = true → Forall (λ kv, member_ok closed n schema kv = true) fs →
  conforms closed (S n) schema (jobj fs) = true.
Proof.
  unfold object_head. rewrite !andb_true_iff, bool_decide_eq_true. intros [[[[[Hr Ht] He] Hc] Hn] Hd] Hall.
  assert (Hp : map_to_list (list_to_map fs : gmap string json) ≡ₚ fs) by by apply map_to_list_to_map.
  cbn [conforms]. destruct (find schema "$ref"); [done|]. unfold jobj.
  assert (Heq : ∀ m : gmap string json, type_ok schema (JObj m) && enum_ok schema (JObj m) && const_ok schema (JObj m) =
                  type_ok schema (JObj ∅) && enum_ok schema (JObj ∅) && const_ok schema (JObj ∅)) by done.
  rewrite Heq, Ht, He, Hc. simpl. apply andb_true_intro. split.
  - rewrite <- Hn. apply names_ok_perm. by rewrite Hp.
  - rewrite (forallb_perm _ _ fs Hp). by apply forallb_all.
Qed.

(** A member that is an array. *)
Lemma member_array closed n schema k s item l :
  member_schema schema k = Some s → find s "items" = Some item →
  conforms closed (S n) s (JArr []) = true → find s "$ref" = None →
  Forall (λ v, conforms closed n item v = true) l → member_ok closed (S n) schema (k, JArr l) = true.
Proof.
  intros Hk Hi Hs Hr Hl. unfold member_ok. simpl fst; simpl snd. rewrite Hk. revert Hs. cbn [conforms]. rewrite Hr, Hi.
  intros Hs. apply andb_true_iff in Hs as [Hs _].
  change (type_ok s (JArr l) && enum_ok s (JArr l) && const_ok s (JArr l) = true) in Hs. rewrite Hs.
  by apply forallb_all.
Qed.

(** A member described by a schema of its own. *)
Lemma member_by closed n schema k s v :
  member_schema schema k = Some s → conforms closed n s v = true → member_ok closed n schema (k, v) = true.
Proof. intros Hk Hv. unfold member_ok. simpl fst. by rewrite Hk. Qed.

(** Any object. *)
Definition any_object : json := jobj [("type", JStr "object"); ("additionalProperties", JBool true)].

Lemma any_object_conforms closed n v : is_object v = true → conforms closed (S n) any_object v = true.
Proof.
  destruct v as [| | | | | |m]; try done. intros _.
  change (forallb (λ kv : string * json, true) (map_to_list m) = true). apply forallb_all, Forall_true. done.
Qed.

Lemma member_object closed n schema k v :
  member_schema schema k = Some any_object → is_object v = true → member_ok closed (S n) schema (k, v) = true.
Proof. intros Hk Hv. unfold member_ok. simpl fst. rewrite Hk. by apply any_object_conforms. Qed.

(** A schema by its name. *)
Definition component (name : string) : json := default JNull (find (jobj schemas) name).

Lemma prefix_append p s : String.prefix p (p +:+ s) = true.
Proof. induction p as [|c p IH]; [by destruct s|]. simpl. by destruct (ascii_dec c c). Qed.
Lemma substring_all n s : (String.length s <= n)%nat → String.substring 0 n s = s.
Proof. revert n. induction s as [|c s IH]; intros [|n] Hn; simpl in *; [done..|lia|]. by rewrite IH by lia. Qed.
Lemma substring_append p n s :
  (String.length s <= n)%nat → String.substring (String.length p) n (p +:+ s) = s.
Proof. induction p as [|c p IH]; intros Hn; [by apply substring_all|]. simpl. by apply IH. Qed.
Lemma target_component name : target (components +:+ name) = find (jobj schemas) name.
Proof.
  unfold target. rewrite prefix_append, substring_append by (rewrite length_append; lia). reflexivity.
Qed.

Lemma conforms_ref closed n name v :
  is_object (component name) = true → conforms closed n (component name) v = true →
  conforms closed (S n) (ref "schemas" name) v = true.
Proof.
  intros Ho Hv.
  change (match target (components +:+ name) with Some s => conforms closed n s v | None => false end = true).
  rewrite target_component. revert Ho Hv. unfold component. by destruct (find (jobj schemas) name).
Qed.

(** ** The objects the controllers send *)

(** Judges the members of an object one by one, by evaluation once its optional
    values are known. *)
Ltac judge_option :=
  match goal with
  | |- context [opt_to_json ?o] => destruct o
  | |- context [jopt _ ?o] => destruct o
  | |- context [AdminController.opt_json _ ?o] => destruct o
  end.
Ltac judge_member := try judge_option; vm_compute; reflexivity.
Ltac judge_object :=
  apply conforms_object; [vm_compute; reflexivity|]; repeat (apply List.Forall_cons || apply List.Forall_nil).
Ltac judge_reference := apply conforms_ref; [vm_compute; reflexivity|].
Ltac judge_array item :=
  eapply (member_array _ _ _ _ _ item);
  [vm_compute; reflexivity|vm_compute; reflexivity|vm_compute; reflexivity|vm_compute; reflexivity|].

Ltac judge_by H := eapply member_by; [|apply H]; vm_compute; reflexivity.
Ltac judge_open H := apply member_object; [vm_compute; reflexivity|exact H].

Section Objects.
Context (closed : bool) (n : nat).

Lemma user_conforms r : conforms closed (S (S (S n))) (ref "schemas" "User") (UserResponse.to_json r) = true.
Proof.
  judge_reference.
  change (UserResponse.to_json r) with
    (jobj (("email", JStr (UserResponse.email r)) :: [("id", JInt (UserResponse.id r));
       ("username", JStr (UserResponse.username r));
       ("display_name", opt_to_json (UserResponse.display_name r)); ("bio", opt_to_json (UserResponse.bio r));
       ("avatar_url", opt_to_json (UserResponse.avatar_url r)); ("created_at", JStr (UserResponse.created_at r));
       ("updated_at", JStr (UserResponse.updated_at r))])).
  destruct closed; judge_object; judge_member.
Qed.

Lemma participant_conforms p :
  conforms closed (S (S (S n))) (ref "schemas" "ConversationParticipant")
    (ParticipantResponse.to_json (ParticipantResponse.from p)) = true.
Proof.
  judge_reference. unfold ParticipantResponse.to_json. destruct closed, p as [? ? ? []]; judge_object; judge_member.
Qed.

Lemma conversation_conforms c ps :
  conforms closed (S (S (S (S (S (S n)))))) (ref "schemas" "Conversation")
    (ConversationResponse.to_json (ConversationResponse.from c ps)) = true.
Proof.
  judge_reference. unfold ConversationResponse.to_json.
  assert (Hps : Forall (λ v, conforms closed (S (S (S n))) (ref "schemas" "ConversationParticipant") v = true)
                  (ParticipantResponse.to_json <$> (ParticipantResponse.from <$> ps))).
  { rewrite !Forall_fmap. apply Forall_true. intros p. apply participant_conforms. }
  change (ConversationResponse.participants (ConversationResponse.from c ps)) with (ParticipantResponse.from <$> ps).
  revert Hps. generalize (ParticipantResponse.to_json <$> (ParticipantResponse.from <$> ps)) as l. intros l Hl.
  destruct closed, c as [? []]; judge_object;
    first [judge_array (ref "schemas" "ConversationParticipant"); exact Hl | judge_member].
Qed.

Lemma message_conforms m r :
  MessageResponse.type r = MessageType.to_string (Message.type m) →
  conforms closed (S (S (S (S n)))) (ref "schemas" "Message") (MessageResponse.to_json r) = true.
Proof.
  intros Ht. judge_reference. unfold MessageResponse.to_json. rewrite Ht.
  assert (Hids : Forall (λ v, conforms closed (S n) (jobj [("type", JStr "integer"); ("format", JStr "int64")]) v = true)
                   (JInt <$> MessageResponse.attachment_ids r)).
  { rewrite Forall_fmap. apply Forall_true. intros z. destruct closed; vm_compute; reflexivity. }
  revert Hids. generalize (JInt <$> MessageResponse.attachment_ids r) as l. intros l Hl.
  destruct closed, m as [? ? ? []]; judge_object;
    first [judge_array (jobj [("type", JStr "integer"); ("format", JStr "int64")]); exact Hl | judge_member].
Qed.

Lemma tokens_conform p :
  conforms closed (S (S (S n))) (ref "schemas" "TokenPair")
    (jobj [("access_token", JStr (TokenPair.access_token p)); ("refresh_token", JStr (TokenPair.refresh_token p));
           ("token_type", JStr "Bearer"); ("access_expires_in", JInt (TokenPair.access_expires_in_seconds p));
           ("refresh_expires_in", JInt (TokenPair.refresh_expires_in_seconds p))]) = true.
Proof. judge_reference. destruct closed; judge_object; judge_member. Qed.

Lemma auth_conforms (r : AuthResponse.t) session :
  conforms closed (S (S (S (S (S n))))) (ref "schemas" "AuthResponse")
    (jset "session_id" (JStr session) (AuthResponse.to_json r)) = true.
Proof.
  judge_reference. pose proof (user_conforms (AuthResponse.user r)) as Hu.
  pose proof (tokens_conform (AuthResponse.tokens r)) as Ht.
  unfold AuthResponse.to_json. revert Hu Ht.
  generalize (UserResponse.to_json (AuthResponse.user r)) as u. intros u.
  set (t := jobj _). generalize t. clear t. intros t Hu Ht.
  change (conforms closed (S (S (S (S n)))) (component "AuthResponse")
    (jobj [("session_id", JStr session); ("user", u); ("tokens", t)]) = true).
  destruct closed; judge_object; first [judge_by Hu | judge_by Ht | judge_member].
Qed.

Lemma reaction_conforms r :
  Reaction.is_allowed_reaction (Reaction.emoji r) = true →
  conforms closed (S (S (S n))) (ref "schemas" "Reaction") (ReactionResponse.to_json (ReactionResponse.from r)) = true.
Proof.
  intros Ha. apply existsb_exists in Ha as (e & Hin & He%String.eqb_eq). judge_reference.
  unfold ReactionResponse.to_json. change (ReactionResponse.emoji (ReactionResponse.from r)) with (Reaction.emoji r).
  rewrite <- He. destruct closed; simpl in Hin; destruct_or! Hin; try done; subst e; judge_object; judge_member.
Qed.

(** Attachments, notifications and sessions have members the description does
    not name, so they conform to open schemas only. *)
Lemma attachment_conforms a base :
  conforms false (S (S (S n))) (ref "schemas" "Attachment")
    (AttachmentResponse.to_json (AttachmentResponse.from a base)) = true.
Proof. judge_reference. unfold AttachmentResponse.to_json. judge_object; judge_member. Qed.

Lemma notification_conforms x :
  is_object (Notification.payload x) = true →
  conforms false (S (S (S n))) (ref "schemas" "Notification")
    (NotificationResponse.to_json (NotificationResponse.from x)) = true.
Proof.
  intros Hp. judge_reference. unfold NotificationResponse.to_json.
  change (NotificationResponse.payload (NotificationResponse.from x)) with (Notification.payload x).
  judge_object; first [judge_open Hp | judge_member].
Qed.

Lemma session_conforms s current :
  conforms false (S (S (S n))) (ref "schemas" "Session")
    (SessionResponse.to_json (SessionResponse.from s current)) = true.
Proof. judge_reference. unfold SessionResponse.to_json. judge_object; judge_member. Qed.

Lemma admin_session_conforms (s : Session.t) :
  conforms closed (S (S (S n))) (ref "schemas" "Session")
    (jobj [("id", JStr (Session.id s)); ("created_at", JStr (to_iso8601 (Session.created_at s)));
           ("last_used_at", JStr (to_iso8601 (Session.last_used_at s)));
           ("expires_at", JStr (to_iso8601 (Session.expires_at s)));
           ("user_agent", JStr (default "" (Session.user_agent s))); ("ip", JStr (default "" (Session.ip s)))]) = true.
Proof. judge_reference. destruct closed; judge_object; judge_member. Qed.

Lemma role_conforms r : conforms closed (S (S n)) (ref "schemas" "Role") (JStr (Role.to_string r)) = true.
Proof. judge_reference. destruct closed, r; vm_compute; reflexivity. Qed.

Lemma admin_user_conforms r :
  conforms closed (S (S (S (S n)))) (ref "schemas" "AdminUser") (AdminController.user_to_json r) = true.
Proof.
  judge_reference. unfold AdminController.user_to_json. cbv zeta.
  destruct closed, (PgUserAdminRepository.rec_role r); judge_object; judge_member.
Qed.

Lemma audit_conforms l :
  is_object (AuditLog.metadata l) = true →
  conforms closed (S (S (S n))) (ref "schemas" "AuditRecord") (AuditService.to_json l) = true.
Proof.
  intros Hm. judge_reference. unfold AuditService.to_json.
  destruct closed; judge_object; first [judge_open Hm | judge_member].
Qed.

Lemma hit_conforms `{FullText} hit :
  (∀ q, is_number (json_double q) = true) →
  conforms closed (S (S (S n))) (ref "schemas" "SearchResult") (SearchService.hit_to_json hit) = true.
Proof.
  intros Hd. judge_reference. unfold SearchService.hit_to_json. cbv zeta.
  specialize (Hd (PgMessageSearchRepository.rank hit)). destruct (json_double _); try done;
    destruct closed; judge_object; judge_member.
Qed.

Lemma feature_conforms (fl : Features.flags) e :
  conforms closed (S (S (S n))) (ref "schemas" "FeatureFlag")
    (jobj [("name", JStr (Features.name e)); ("enabled", JBool (fl (Features.feature e)));
           ("env", JStr (Features.env_var e)); ("default", JBool (Features.default_enabled e));
           ("description", JStr (Features.description e))]) = true.
Proof. judge_reference. destruct closed; judge_object; judge_member. Qed.

(** The described error object. *)
Lemma error_conforms ex :
  conforms closed (S (S (S (S n)))) (ref "schemas" "Error") (body (to_response ex)) = true.
Proof.
  judge_reference. destruct ex as [[type message details]|what].
  - change (body (to_response (App (Build_AppException type message details)))) with
      (jobj [("error", if String.eqb details "" then jobj [("code", JStr (code_for type)); ("message", JStr message)]
                       else jset "details" (JStr details) (jobj [("code", JStr (code_for type)); ("message", JStr message)]))]).
    destruct closed, type, (String.eqb details ""); judge_object; judge_member.
  - destruct closed; vm_compute; reflexivity.
Qed.
End Objects.
