(* ===== verification/Contract.v ===== *)
(** * Contract: the replies against the published description

    Every reply of the controllers of Http judged by the operation that describes
    its route in src/docs/openapi_spec.cpp: what a handler sends on success is
    what the operation describes, and what it sends for an error is the described
    error object. *)

From Stdlib Require Import QArith.
From S2P Require Import Prelude Text Json Errors Validation TimeUtil Rbac Models Events Jobs Dto Database Users.
From S2P Require Import Conversations Repositories Attachments Messages Receipts Notifications Tokens.
From S2P Require Import Sessions UserProps Protocol Connections Dispatcher Cache Authorization AuthorizationProps.
From S2P Require Import SessionProps System Search AuditTrail Metrics Dashboards OpenApi Http Routes Schema.
Open Scope string_scope.
Open Scope Z_scope.

(** ** What a successful call returns *)

(** From a state with [P], a call that returns does so with [Q], in a state with
    [P] again. *)
Definition ensures {W A} (P : W → Prop) (m : M W exn A) (Q : A → Prop) : Prop :=
  ∀ w a w', P w → m w = (Ok a, w') → Q a ∧ P w'.
Definition returns {W A} (m : M W exn A) (Q : A → Prop) : Prop := ensures (λ _, True) m Q.

Lemma ensures_bind {W A B} (P : W → Prop) (m : M W exn A) (f : A → M W exn B) Q R :
  ensures P m Q → (∀ a, Q a → ensures P (f a) R) → ensures P (m ≫= f) R.
Proof.
  intros Hm Hf w b w' Hw. unfold mbind, M_bind. destruct (m w) as [[a|e] w1] eqn:E; [|done].
  apply Hm in E as [Ha Hw1]; [|done]. by apply Hf.
Qed.
Lemma ensures_ret {W A} (P : W → Prop) (a : A) (Q : A → Prop) : Q a → ensures P (mret a) Q.
Proof. intros Ha w b w' Hw [= <- <-]. done. Qed.
Lemma ensures_throw {W A} (P : W → Prop) (e : exn) (Q : A → Prop) : ensures P (mthrow e) Q.
Proof. by intros w a w' _ ?. Qed.
Lemma returns_any {W A} (m : M W exn A) : returns m (λ _, True).
Proof. done. Qed.
Lemma returns_then {W A B} (m : M W exn A) (f : A → M W exn B) R :
  (∀ a, returns (f a) R) → returns (m ≫= f) R.
Proof. intros Hf. eapply ensures_bind; [apply returns_any|]. intros a _. apply Hf. Qed.

Lemma returns_collect {W A B} (f : A → M W exn B) (Q : B → Prop) l :
  (∀ a, returns (f a) Q) → returns (collect f l) (Forall Q).
Proof.
  intros Hf. induction l as [|x l IH]; simpl; [by apply ensures_ret|].
  eapply ensures_bind; [apply Hf|]. intros y Hy. eapply ensures_bind; [apply IH|]. intros ys Hys.
  apply ensures_ret. by constructor.
Qed.

Lemma returns_on_host {S A} (m : M (Instance_ S) exn A) Q : returns m Q → returns (on_host m) Q.
Proof.
  intros Hm h a h' _. unfold on_host. destruct (m (host h)) as [r i] eqn:E. intros [= -> _]. split; [|done].
  by apply Hm in E as [].
Qed.

Lemma ensures_service {S A} (P : Database → Prop) (m : M World exn A) Q :
  ensures (λ w, P (db w)) m Q → ensures (λ h : SearchHost S, P (db (i_world (host h)))) (service m) Q.
Proof.
  intros Hm h a h' Hp. unfold service, on_host, in_world. destruct (m (i_world (host h))) as [r w] eqn:E.
  intros [= -> <-]. simpl. by apply Hm in E.
Qed.
Lemma returns_service {S A} (m : M World exn A) Q : returns m Q → returns (service (S:=S) m) Q.
Proof. intros Hm. by apply (ensures_service (λ _, True)). Qed.
Lemma returns_transaction {A} (m : M World exn A) Q : returns m Q → returns (with_transaction m) Q.
Proof. intros Hm w a w' _ E. apply with_transaction_ok in E as (w1 & _ & E). by apply Hm in E. Qed.

Lemma ensures_transaction {A} (P : Database → Prop) (m : M World exn A) Q :
  ensures (λ w, P (db w)) m Q → ensures (λ w, P (db w)) (with_transaction m) Q.
Proof.
  intros Hm w a w' Hw E. apply with_transaction_ok in E as (w1 & (Hd & _) & E). rewrite <- Hd in Hw. by apply Hm in E.
Qed.

Lemma ensures_quiet {S A} (P : Database → Prop) (m : M (Instance_ S) exn A) :
  quiet m → ensures (λ h : SearchHost S, P (db (i_world (host h)))) (on_host m) (λ _, True).
Proof.
  intros Hm h a h' Hp. unfold on_host. specialize (Hm (host h)). destruct (m (host h)) as [r i].
  intros [= _ <-]. split; [done|]. destruct Hm as [(Hd & _) _]. simpl in *. by rewrite Hd.
Qed.
Lemma ensures_lift {W A} (P : W → Prop) (r : result exn A) : ensures P (lift r) (λ _, True).
Proof. intros w a w' Hw. unfold lift. by intros [= _ <-]. Qed.
Lemma ensures_reader {A} (P : Database → Prop) (m : M World exn A) :
  reader m → ensures (λ w, P (db w)) m (λ _, True).
Proof.
  intros Hm w a w' Hp E. specialize (Hm w). rewrite E in Hm. split; [done|]. destruct Hm as (Hd & _).
  simpl in Hd. by rewrite Hd.
Qed.
Lemma ensures_query {A} (P : Database → Prop) (f : Database → A) (Q : A → Prop) :
  (∀ d, P d → Q (f d)) → ensures (λ w, P (db w)) (with_transaction (on_db f)) Q.
Proof.
  intros HQ w a w' Hp E. apply query_ok in E as [-> (Hd & _)]. rewrite Hd. split; [by apply HQ|done].
Qed.

Lemma ensures_on_db {A} (P : Database → Prop) (f : Database → A) (Q : A → Prop) :
  (∀ d, P d → Q (f d)) → ensures (λ w, P (db w)) (on_db f) Q.
Proof. intros HQ w a w' Hp [= <- <-]. split; [by apply HQ|done]. Qed.

(** ** Replies *)

Definition response_of (route : Route) (status : Z) : option json :=
  op ← operation_of route; responses ← find op "responses"; find responses (to_string status).

(** Deep enough for every schema of the description, which is not recursive: a
    page of conversations nests eight. *)
Definition depth : nat := 10.

(** The reply is one the route's operation describes: the status is listed, and
    the body conforms to the schema given for it, if one is given. *)
Definition documented (closed : bool) (route : Route) (r : reply) : bool :=
  match r with
  | RJson r =>
      String.eqb (content_type r) "application/json" &&
      match response_of route (status r) with
      | None => false
      | Some response =>
          match find response "content" with
          | None => true
          | Some content =>
              match find content "application/json" ≫= λ media, find media "schema" with
              | Some schema => conforms closed depth schema (body r)
              | None => false
              end
          end
      end
  | RFile status headers bytes =>
      match response_of route status ≫= λ response, find response "content" with
      | Some content => match find content "application/json" with None => true | Some _ => false end
      | None => false
      end
  end.

(** The routes whose success is not what is described: the description promises
    status 200 for a new member, and an email address for any account. *)
Definition diverges (route : Route) : bool := match route with PostMember _ | GetUser _ => true | _ => false end.

(** The routes whose replies have no member the description does not name. *)
Definition exact (route : Route) : bool :=
  match route with PostAttachment | GetNotifications | GetSessions | PostReadAll => false | _ => true end.

Definition response_schema (route : Route) (status : Z) : option json :=
  response ← response_of route status; content ← find response "content";
  media ← find content "application/json"; find media "schema".

Lemma documented_json closed route st schema b :
  response_schema route st = Some schema → conforms closed depth schema b = true →
  documented closed route (RJson (json_response st b)) = true.
Proof.
  unfold response_schema, documented, json_response. cbn [content_type status body mbind option_bind].
  destruct (response_of route st) as [r|]; [|done]. cbn [mbind option_bind].
  destruct (find r "content") as [c|]; [|done]. cbn [mbind option_bind].
  destruct (find c "application/json") as [m|]; [|done]. cbn [mbind option_bind]. by intros ->.
Qed.

(** The schema an operation gives in place. *)
Definition inline (route : Route) (status : Z) : json := default JNull (response_schema route status).

Lemma documented_inline closed route st b :
  is_object (inline route st) = true → conforms closed depth (inline route st) b = true →
  documented closed route (RJson (json_response st b)) = true.
Proof.
  intros Ho. apply documented_json. revert Ho. unfold inline. by destruct (response_schema route st).
Qed.

Lemma fmap_conforms {A} closed n schema (f : A → json) l :
  (∀ a, conforms closed n schema (f a) = true) → Forall (λ v, conforms closed n schema v = true) (f <$> l).
Proof. intros Hf. rewrite Forall_fmap. apply Forall_true. exact Hf. Qed.

(** The schema of the operation is a reference to a named one, or an object
    written in place. *)
Ltac by_reference name := apply (documented_json _ _ _ (ref "schemas" name)); [vm_compute; reflexivity|].
Ltac in_place := apply documented_inline; [vm_compute; reflexivity|].

Section Replies.
Context {S : Type} `{CacheStore S, TokenService, PgText, JsonText, FullText, TextSearch, PasswordHasher}.
Context `{ViolationText, Sha256, ImageProcessor, DoubleDiv} (config : HttpConfig).

Definition sends (route : Route) (m : M (SearchHost S) exn reply) : Prop :=
  returns m (λ r, documented (exact route) route r = true).

Lemma to_body_returns c :
  returns (to_body (S:=S) c) (λ b, ∀ closed n, conforms closed (6 + n) (ref "schemas" "Conversation") b = true).
Proof. unfold to_body. apply returns_then. intros ms. apply ensures_ret. intros. apply conversation_conforms. Qed.

Lemma message_json_returns m :
  returns (message_json (S:=S) m) (λ b, ∀ closed n, conforms closed (4 + n) (ref "schemas" "Message") b = true).
Proof.
  unfold message_json. eapply ensures_bind; [apply returns_service; unfold MessageService.to_response; apply returns_then; intros ids;
    apply ensures_ret with (Q := λ r, MessageResponse.type r = MessageType.to_string (Message.type m)); done|].
  intros r Hr. apply ensures_ret. intros. by apply (message_conforms _ _ m).
Qed.

Lemma with_session_returns req response :
  returns (with_session (S:=S) config req response)
    (λ b, ∀ closed, conforms closed depth (ref "schemas" "AuthResponse") b = true).
Proof. unfold with_session. apply returns_then. intros id. apply ensures_ret. intros closed. apply auth_conforms. Qed.

(** Follows a handler to its reply. *)
Ltac step :=
  match goal with
  | |- ensures _ (to_body _ ≫= _) _ => eapply ensures_bind; [apply to_body_returns|intros ? ?; cbv beta in *]
  | |- ensures _ (message_json _ ≫= _) _ => eapply ensures_bind; [apply message_json_returns|intros ? ?; cbv beta in *]
  | |- ensures _ (with_session _ _ _ ≫= _) _ => eapply ensures_bind; [apply with_session_returns|intros ? ?; cbv beta in *]
  | |- ensures _ (collect to_body _ ≫= _) _ =>
      eapply ensures_bind; [apply returns_collect, to_body_returns|intros ? ?; cbv beta in *]
  | |- ensures _ (collect message_json _ ≫= _) _ =>
      eapply ensures_bind; [apply returns_collect, message_json_returns|intros ? ?; cbv beta in *]
  | |- ensures _ (mthrow _) _ => apply ensures_throw
  | |- ensures _ (match ?x with _ => _ end) _ => destruct x
  | |- ensures _ (_ ≫= _) _ => apply returns_then; intros ?; unfold returns
  end.
Ltac walk := unfold sends, returns; repeat step; apply ensures_ret.
Ltac apply_at n := match goal with H : ∀ (closed : bool) (n : nat), _ |- _ => apply (H _ n) end.

Lemma account_sends route req :
  match route with
  | PostRegister | PostLogin | PostRefresh | PostLogout | PostLogoutAll | GetAuthMe | GetMe | PutMe | GetSessions
  | DeleteSession _ => True
  | _ => False
  end → sends route (handle config route req).
Proof.
  destruct route; try done; intros _; cbn [handle].
  - unfold auth_register. walk. by_reference "AuthResponse". done.
  - unfold auth_login. walk. by_reference "AuthResponse". done.
  - unfold auth_refresh. walk. by_reference "TokenPair". apply tokens_conform.
  - unfold auth_logout. walk. in_place. judge_object; judge_member.
  - unfold auth_logout_all. walk. in_place. judge_object; judge_member.
  - unfold auth_me. walk. by_reference "User". apply user_conforms.
  - unfold list_sessions. walk. in_place. judge_object.
    judge_array (ref "schemas" "Session"). apply fmap_conforms. intros s. apply session_conforms.
  - unfold revoke_session. walk. vm_compute; reflexivity.
  - unfold get_me. walk. by_reference "User". apply user_conforms.
  - unfold update_me. walk. by_reference "User". apply user_conforms.
Qed.

Lemma attachment_sends route req :
  match route with
  | PostAttachment | GetAttachment _ | GetThumbnail _ | DeleteAttachment _ => True
  | _ => False
  end → sends route (handle config route req).
Proof.
  destruct route; try done; intros _; cbn [handle].
  - unfold upload_attachment. walk. by_reference "Attachment". apply attachment_conforms.
  - unfold download_handler. walk. vm_compute; reflexivity.
  - unfold download_handler. walk. vm_compute; reflexivity.
  - unfold delete_attachment. walk. vm_compute; reflexivity.
Qed.

Lemma chat_sends route req :
  match route with
  | PostConversation | GetConversations | GetConversation _ | DeleteConversation _ | PatchName _ | DeleteMember _ _
  | PostLeave _ | PostMessage | GetMessages | PatchMessage _ | DeleteMessage _ | DeleteReaction _ | PostRead _
  | PostReadAll | DeleteNotification _ => True
  | _ => False
  end → sends route (handle config route req).
Proof.
  destruct route; try done; intros _; cbn [handle].
  - unfold create_conversation. walk. by_reference "Conversation". apply_at 4%nat.
  - unfold list_conversations. walk. in_place. judge_object. judge_array (ref "schemas" "Conversation").
    eapply Forall_impl; [eassumption|]. intros b Hb. apply (Hb _ 2%nat).
  - unfold get_conversation. walk. by_reference "Conversation". apply_at 4%nat.
  - unfold delete_conversation. walk. vm_compute; reflexivity.
  - unfold rename_conversation. walk. by_reference "Conversation". apply_at 4%nat.
  - unfold remove_member. walk. vm_compute; reflexivity.
  - unfold leave_conversation. walk. vm_compute; reflexivity.
  - unfold send_message. walk. by_reference "Message". apply_at 6%nat.
  - unfold list_messages. walk. in_place. judge_object. judge_array (ref "schemas" "Message").
    eapply Forall_impl; [eassumption|]. intros b Hb. apply (Hb _ 4%nat).
  - unfold edit_message. walk. by_reference "Message". apply_at 6%nat.
  - unfold delete_message. walk. by_reference "Message". apply_at 6%nat.
  - unfold unreact. walk. vm_compute; reflexivity.
  - unfold read_notification. walk. vm_compute; reflexivity.
  - unfold read_all_notifications. walk. in_place. judge_object; judge_member.
  - unfold delete_notification. walk. vm_compute; reflexivity.
Qed.

Lemma admin_reply route (m : M (Instance_ S) exn response) :
  returns m (λ r, documented (exact route) route (RJson r) = true) → sends route (admin m).
Proof.
  intros Hm. unfold sends, admin. eapply ensures_bind; [by apply returns_on_host|]. intros r Hr. by apply ensures_ret.
Qed.

Ltac any_body := apply (documented_json _ _ _ any_object); [vm_compute; reflexivity|by apply any_object_conforms].

Lemma summary_object filter : returns (AuditService.summary filter) (λ b, is_object b = true).
Proof. unfold AuditService.summary. by walk. Qed.

Lemma admin_sends route req :
  match route with
  | AdminUsers | AdminUser _ | AdminPutRole _ | AdminBan _ | AdminUnban _ | AdminSessions _ | AdminDeleteSessions _
  | AdminConversation _ | AdminDeleteConversation _ | AdminAuditSummary | AdminFeatures | AdminPutFeature _
  | AdminWebsockets | AdminCache | AdminJobs | AdminSystem => True
  | _ => False
  end → sends route (handle config route req).
Proof.
  destruct route; try done; intros _; cbn [handle].
  - apply admin_reply. unfold AdminController.list_users. walk. in_place. judge_object; [judge_member..|].
    judge_array (ref "schemas" "AdminUser"). apply fmap_conforms. intros u. apply admin_user_conforms.
  - apply admin_reply. unfold AdminController.get_user. walk. by_reference "AdminUser". apply admin_user_conforms.
  - apply admin_reply. unfold AdminController.put_role. walk. in_place.
    judge_object; [judge_member|judge_by role_conforms..].
  - apply admin_reply. unfold AdminController.ban. walk. in_place. judge_object; judge_member.
  - apply admin_reply. unfold AdminController.unban. walk. vm_compute; reflexivity.
  - unfold admin_sessions. walk. in_place. judge_object; [judge_member|].
    judge_array (ref "schemas" "Session"). apply fmap_conforms. intros u. apply admin_session_conforms.
  - apply admin_reply. unfold AdminController.delete_sessions. walk. in_place. judge_object; judge_member.
  - unfold admin_conversation. walk. any_body.
  - apply admin_reply. unfold AdminController.delete_conversation. walk. vm_compute; reflexivity.
  - unfold admin_audit_summary. do 2 (apply returns_then; intros ?).
    eapply ensures_bind; [apply returns_service, summary_object|]. intros b Hb. apply ensures_ret. any_body.
  - unfold admin_features. walk. in_place. judge_object.
    judge_array (ref "schemas" "FeatureFlag"). apply fmap_conforms. intros e. apply feature_conforms.
  - apply admin_reply. unfold AdminController.put_feature. walk. in_place. judge_object; judge_member.
  - unfold admin_websockets. walk. any_body.
  - unfold admin_cache. walk. any_body.
  - unfold admin_jobs. walk. any_body.
  - unfold admin_system. walk. any_body.
Qed.

(** Searching; the library prints a double as a number. *)
Lemma search_returns flags actor q page :
  (∀ x, is_number (json_double x) = true) →
  returns (SearchService.search_messages flags actor q page)
    (λ b, conforms true depth (ref "schemas" "SearchResponse") b = true).
Proof.
  intros Hd. unfold SearchService.search_messages. walk. judge_reference. judge_object; [judge_member..|].
  judge_array (ref "schemas" "SearchResult"). apply fmap_conforms. intros hit. by apply hit_conforms.
Qed.

Lemma returns_on_searcher {A} (m : M Searcher exn A) Q : returns m Q → returns (on_searcher (S:=S) m) Q.
Proof.
  intros Hm h a h' _. unfold on_searcher. destruct (m _) as [r s] eqn:E. intros [= -> _]. split; [|done].
  by apply Hm in E as [].
Qed.

Lemma search_sends req :
  (∀ x, is_number (json_double x) = true) → sends GetSearch (handle config GetSearch req).
Proof.
  intros Hd. cbn [handle]. unfold SearchController.get_messages.
  eapply ensures_bind with (Q := λ r, documented true GetSearch (RJson r) = true).
  - do 8 (apply returns_then; intros ?). eapply ensures_bind; [by apply returns_on_searcher, search_returns|].
    intros b Hb. apply ensures_ret. by_reference "SearchResponse". exact Hb.
  - intros r Hr. by apply ensures_ret.
Qed.

(** Reactions carry an emoji of the palette. *)
Lemma upsert_returns m u e : returns (PgReactionRepository.upsert m u e) (λ r, Reaction.emoji r = e).
Proof.
  unfold PgReactionRepository.upsert. apply returns_transaction. do 3 (apply returns_then; intros ?).
  case_match; [case_match|]; (repeat (apply returns_then; intros ?)); by apply ensures_ret.
Qed.

Lemma react_returns u m e :
  returns (ReactionService.react u m e) (λ r, Reaction.is_allowed_reaction (Reaction.emoji r) = true).
Proof.
  unfold ReactionService.react. destruct (Reaction.is_allowed_reaction e) eqn:He; [|apply ensures_throw]. simpl.
  apply returns_then. intros msg. eapply ensures_bind; [apply upsert_returns|]. intros r Hr.
  repeat (apply returns_then; intros ?). apply ensures_ret. by rewrite Hr.
Qed.

Lemma react_sends req id : sends (PostReaction id) (handle config (PostReaction id) req).
Proof.
  cbn [handle]. unfold react. do 2 (apply returns_then; intros ?).
  eapply ensures_bind; [apply returns_service, react_returns|]. intros r Hr. apply ensures_ret.
  by_reference "Reaction". by apply reaction_conforms.
Qed.

(** Stored rows: a reaction is one of the palette, and the payload of a
    notification and the metadata of an audit record are objects, as the services
    write them. *)
Definition stored (d : Database) : Prop :=
  (∀ k r, reactions d !! k = Some r → Reaction.is_allowed_reaction (ReactionRow.emoji r) = true) ∧
  (∀ k r, notifications d !! k = Some r → is_object (NotificationRow.payload r) = true) ∧
  (∀ k r, audit_logs d !! k = Some r → is_object (AuditRow.metadata r) = true).

Abbreviation Stored := (λ h : SearchHost S, stored (db (i_world (host h)))).

Lemma authenticate_stored req : ensures Stored (authenticate config req) (λ _, True).
Proof. apply ensures_quiet, quiet_authenticate. Qed.

Lemma in_page {A} page (l : list A) x : x ∈ PgConversationRepository.limit_offset page l → x ∈ l.
Proof.
  unfold PgConversationRepository.limit_offset. rewrite !list_elem_of_lookup. intros [i Hi].
  apply lookup_take_Some in Hi as [Hi _]. rewrite lookup_drop in Hi. eauto.
Qed.

Lemma list_reactions_stored u m :
  ensures (λ w, stored (db w)) (ReactionService.list u m)
    (Forall (λ r, Reaction.is_allowed_reaction (Reaction.emoji r) = true)).
Proof.
  unfold ReactionService.list. eapply ensures_bind; [apply ensures_reader; unfold ReactionService.authorize|].
  { apply reader_bind; [apply reader_query|]. intros [msg|]; [|apply reader_throw].
    apply reader_bind; [apply reader_query|]. intros []; simpl; auto with reader. }
  intros msg _. apply ensures_query. intros d (Hr & _). apply Forall_fmap, Forall_forall. intros [k r] Hin.
  rewrite merge_sort_Permutation in Hin. apply elem_of_rows in Hin as [Hk _]. by apply (Hr k).
Qed.

Lemma list_notifications_stored u page unread :
  ensures (λ w, stored (db w)) (NotificationService.list u page unread)
    (Forall (λ x, is_object (Notification.payload x) = true)).
Proof.
  apply ensures_query. intros d (_ & Hn & _). apply Forall_fmap, Forall_forall. intros [k r] Hin%in_page.
  rewrite merge_sort_Permutation in Hin. apply elem_of_rows in Hin as [Hk _]. by apply (Hn k).
Qed.

Lemma audit_stored filter page :
  ensures (λ w, stored (db w)) (AuditService.search filter page)
    (Forall (λ x, is_object (AuditLog.metadata x) = true)).
Proof.
  apply ensures_transaction. eapply ensures_bind; [apply ensures_lift|]. intros [from to] _.
  apply ensures_on_db. intros d (_ & _ & Ha). apply Forall_fmap, Forall_forall. intros [k x] Hin%in_page.
  rewrite merge_sort_Permutation in Hin. apply list_elem_of_filter in Hin as [_ Hin].
  apply elem_of_map_to_list in Hin. by apply (Ha k).
Qed.

Lemma audit_count_stored filter : ensures (λ w, stored (db w)) (AuditService.count filter) (λ _, True).
Proof.
  apply ensures_transaction. eapply ensures_bind; [apply ensures_lift|]. intros [from to] _. by apply ensures_on_db.
Qed.

Lemma stored_sends route req :
  match route with GetReactions _ | GetNotifications | AdminAudit => True | _ => False end →
  ensures Stored (handle config route req) (λ r, documented (exact route) route r = true).
Proof.
  destruct route; try done; intros _; cbn [handle].
  - unfold list_reactions. eapply ensures_bind; [apply authenticate_stored|]. intros c _.
    eapply ensures_bind; [apply (ensures_service stored), list_reactions_stored|]. intros l Hl. apply ensures_ret.
    in_place. judge_object. judge_array (ref "schemas" "Reaction"). rewrite Forall_fmap.
    eapply Forall_impl; [exact Hl|]. intros r Hr. by apply reaction_conforms.
  - unfold list_notifications. eapply ensures_bind; [apply authenticate_stored|]. intros c _.
    eapply ensures_bind; [apply ensures_lift|]. intros page _.
    eapply ensures_bind; [apply (ensures_service stored), list_notifications_stored|]. intros l Hl.
    eapply ensures_bind; [apply (ensures_service stored), ensures_reader, reader_query|]. intros k _. apply ensures_ret.
    in_place. judge_object; [|judge_member]. judge_array (ref "schemas" "Notification"). rewrite Forall_fmap.
    eapply Forall_impl; [exact Hl|]. intros r Hr. by apply notification_conforms.
  - unfold admin_audit_logs. eapply ensures_bind; [apply ensures_quiet, quiet_authorize|]. intros c _.
    eapply ensures_bind; [apply ensures_lift|]. intros filter _. eapply ensures_bind; [apply ensures_lift|]. intros page _.
    eapply ensures_bind; [apply (ensures_service stored), audit_stored|]. intros l Hl.
    eapply ensures_bind; [apply (ensures_service stored), audit_count_stored|]. intros k _. apply ensures_ret.
    in_place. judge_object; [judge_member..|]. judge_array (ref "schemas" "AuditRecord"). rewrite Forall_fmap.
    eapply Forall_impl; [exact Hl|]. intros r Hr. by apply audit_conforms.
Qed.
End Replies.

(** Two routes answer with what is not described. *)
Lemma member_diverges {S : Type} `{CacheStore S, TokenService, JsonText} config req id :
  returns (add_member (S:=S) config req id) (λ r, documented true (PostMember id) r = false).
Proof.
  unfold add_member. repeat (apply returns_then; intros ?). apply ensures_ret. vm_compute. reflexivity.
Qed.
Lemma user_diverges {S : Type} `{CacheStore S, TokenService} config req id :
  returns (get_user (S:=S) config req id) (λ r, documented true (GetUser id) r = false).
Proof.
  unfold get_user. apply returns_then. intros c. apply returns_then. intros [i name mail pw dn bio av ca ua]. apply ensures_ret.
  unfold UserResponse.to_public_json. cbn [UserResponse.from UserResponse.id UserResponse.username UserResponse.display_name
    UserResponse.bio UserResponse.avatar_url UserResponse.created_at UserResponse.updated_at User.id User.username
    User.display_name User.bio User.avatar_url User.created_at User.updated_at].
  generalize (to_iso8601 ca) as created. generalize (to_iso8601 ua) as updated. intros updated created.
  destruct dn, bio, av; vm_compute; reflexivity.
Qed.


(** ** Errors *)

(** A response of an operation: given in place, or by reference to a shared one. *)
Definition dereferenced (response : json) : option json :=
  match find response "$ref" with
  | Some (JStr r) => all ← find document "components"; shared ← find all "responses";
      find shared (String.substring 23 (String.length r) r)
  | _ => Some response
  end.

Definition names_error (response : json) : bool :=
  match content ← dereferenced response ≫= λ r, find r "content"; media ← find content "application/json";
        schema ← find media "schema"; find schema "$ref" with
  | Some (JStr r) => String.eqb r "#/components/schemas/Error"
  | _ => false
  end.

(** Every response of an operation with a status of 400 or more is the error
    object. *)
Definition errors_described (op : json) : bool :=
  match find op "responses" with
  | Some (JObj responses) =>
      forallb (λ kv : string * json, negb (String.prefix "4" kv.1 || String.prefix "5" kv.1) || names_error kv.2)
        (map_to_list responses)
  | _ => false
  end.

Lemma errors_described_all route op : operation_of route = Some op → errors_described op = true.
Proof.
  assert (Ha : match operation_of route with Some op => errors_described op | None => true end = true)
    by (destruct route; vm_compute; reflexivity).
  intros E. by rewrite E in Ha.
Qed.

(** C10. Every error is answered with the described error object.  When a handler
    throws, the client gets the status of the exception's type, between 400 and
    599, and a JSON body that is exactly the description's Error: a code of its
    list, a message, and details if there are any.  What an exception of another
    kind says never reaches the client: all of them give the same body.  And
    every error the description lists for a route is this object. *)
Theorem error_replies {S : Type} `{CacheStore S, TokenService, PgText, JsonText, FullText, TextSearch}
    `{PasswordHasher, ViolationText, Sha256, ImageProcessor, DoubleDiv} (config : HttpConfig) (route : Route)
    (req : HttpRequest) (s s' : SearchHost S) (e : exn) :
  handle config route req s = (Err e, s') →
  (∃ r, serve config route req s = (RJson r, s') ∧
    status r = (match e with App ex => http_status_for (ex_type ex) | Std _ => 500 end) ∧ 400 <= status r <= 599 ∧
    content_type r = "application/json" ∧ conforms true depth (ref "schemas" "Error") (body r) = true ∧
    error_field "code" r = Some (JStr (match e with App ex => code_for (ex_type ex) | Std _ => "internal_error" end)) ∧
    ∀ what, e = Std what → r = internal_error_response) ∧
  ∃ op, operation_of route = Some op ∧ errors_described op = true.
Proof.
  intros E. split.
  - exists (to_response e). split; [unfold serve; by rewrite E|]. split; [by destruct e|].
    split; [destruct e as [[[]]|]; cbv; intuition discriminate|]. split; [by destruct e|].
    split; [apply error_conforms|]. split; [|by intros what ->].
    destruct e as [ex|what]; [by rewrite error_field_app|reflexivity].
  - destruct (route_described route) as (op & Hop & _). eauto using errors_described_all.
Qed.

(** ** Samples *)


Lemma error_replies_witness :
  ∃ r s', serve (H0:=AdminSample.tokens) (H1:=AdminSample.text) (H2:=AdminSample.empty_object)
      (H3:=SearchSample.engine) (H4:=HttpSample.matching) (H5:=AccountSample.hasher)
      (H6:=AccountSample.violations) (H7:=SessionSample.sha) (H8:=SystemSample.images) (H9:=HttpSample.division)
      HttpSample.config (GetUser 99) (HttpSample.request "bob") HttpSample.server = (RJson r, s') ∧
    status r = 404 ∧ conforms true depth (ref "schemas" "Error") (body r) = true.
Proof.
  destruct (handle (H0:=AdminSample.tokens) (H1:=AdminSample.text) (H2:=AdminSample.empty_object)
      (H3:=SearchSample.engine) (H4:=HttpSample.matching) (H5:=AccountSample.hasher)
      (H6:=AccountSample.violations) (H7:=SessionSample.sha) (H8:=SystemSample.images) (H9:=HttpSample.division)
      HttpSample.config (GetUser 99) (HttpSample.request "bob") HttpSample.server) as [r s'] eqn:E.
  assert (Hr : ∃ ex, r = Err (App ex) ∧ ex_type ex = kNotFound)
    by (apply (f_equal fst) in E; cbn [fst] in E; rewrite <- E; eexists; vm_compute; repeat split).
  destruct Hr as (ex & -> & Hty).
  destruct (error_replies (H0:=AdminSample.tokens) (H1:=AdminSample.text) (H2:=AdminSample.empty_object)
    (H3:=SearchSample.engine) (H4:=HttpSample.matching) (H5:=AccountSample.hasher)
    (H6:=AccountSample.violations) (H7:=SessionSample.sha) (H8:=SystemSample.images) (H9:=HttpSample.division)
    HttpSample.config (GetUser 99) (HttpSample.request "bob") HttpSample.server s' (App ex) E)
    as ((x & Hs & Hst & _ & _ & Hc & _) & _).
  exists x, s'. repeat split; [exact Hs|by rewrite Hst, Hty|exact Hc].
Defined.
