(* ===== verification/Edge.v ===== *)
(** * Edge: API versions and the middleware stack

    Models include/rtc/http/api_version.hpp, src/middlewares/versioning_middleware.cpp,
    include/rtc/middlewares/security_middleware.hpp, logging_middleware.hpp, the
    stack of include/rtc/http/app.hpp and src/controllers/api_fallback_controller.cpp,
    with the log context of Jobs and the middlewares of Tracing and Metrics.
    Crow matches the route and runs the stack: [before_handle] from the outside in
    until one of them ends the response, [after_handle] of those that ran from the
    inside out.  The lines the access log writes are not modelled. *)

From Stdlib Require Import QArith.
From S2P Require Import Prelude Text Json Errors Tracing Jobs Metrics.
Open Scope string_scope.
Open Scope Z_scope.

(** ** Versions *)

(* include/rtc/http/api_version.hpp:32-32, kSupportedApiVersions *)
Definition kSupportedApiVersions : list Z := [1].
(* include/rtc/http/api_version.hpp:36-36, kDefaultApiVersion *)
Definition kDefaultApiVersion : Z := 1.
(* include/rtc/http/api_version.hpp:39-39, kCurrentApiVersion *)
Definition kCurrentApiVersion : Z := 1.
(* include/rtc/http/api_version.hpp:42-42, kApiPrefix *)
Definition kApiPrefix : string := "/api".
(* include/rtc/http/api_version.hpp:46-46, kApiVersionHeader *)
Definition kApiVersionHeader : string := "X-API-Version".

(* include/rtc/http/api_version.hpp:48-55, is_supported_api_version *)
Definition is_supported_api_version (version : Z) : bool := existsb (λ supported, supported =? version) kSupportedApiVersions.

(* include/rtc/http/api_version.hpp:58-60, api_version_label *)
Definition api_version_label (version : Z) : string := "v" +:+ to_string version.

(* include/rtc/http/api_version.hpp:64-73, supported_api_versions_label *)
Definition supported_api_versions_label : string :=
  foldl (λ out version, (if String.eqb out "" then out else out +:+ ", ") +:+ api_version_label version) ""
    kSupportedApiVersions.

(* include/rtc/middlewares/versioning_middleware.hpp:18-22, ApiVersionRewrite *)
Record ApiVersionRewrite := mkRewrite { has_prefix : bool; version : Z; normalised : string }.

(* src/middlewares/versioning_middleware.cpp:15-15, kVersionedPrefix *)
Definition kVersionedPrefix : string := "/api/v".

(** [path.substr(n)] for [n <= path.size()]. *)
Fixpoint drop_prefix (n : nat) (s : string) : string :=
  match n, s with S n, String _ s => drop_prefix n s | _, _ => s end.

Definition int_min : Z := - 2 ^ 31.
Definition int_max : Z := 2 ^ 31 - 1.

(* src/middlewares/versioning_middleware.cpp:19-58, parse_versioned_path *)
Definition parse_versioned_path (path : string) : ApiVersionRewrite :=
  let out := mkRewrite false 0 path in
  if (ssize path <=? ssize kVersionedPrefix) || negb (starts_with kVersionedPrefix path) then out
  else
    let '(digits, rest) := span isdigit (drop_prefix (String.length kVersionedPrefix) path) in
    if String.eqb digits "" then out
    else if match rest with "" => false | String c _ => negb (code c =? 47) && negb (code c =? 63) end then out
    else match parse_whole true int_min int_max digits with
         | None => out
         | Some version => mkRewrite true version (kApiPrefix +:+ rest)
         end.

(** ** Responses *)

(** Header names compare without case. *)
Definition header_key (name : string) : string := transform tolower name.

(** A [crow::response]. *)
Record Resp := mkResp { r_code : Z; r_headers : gmap string string; r_body : string }.
Definition no_response : Resp := mkResp 200 ∅ "".
Definition set_code (c : Z) (r : Resp) : Resp := mkResp c (r_headers r) (r_body r).
Definition set_body (b : string) (r : Resp) : Resp := mkResp (r_code r) (r_headers r) b.
Definition set_header (name value : string) (r : Resp) : Resp :=
  mkResp (r_code r) (<[header_key name := value]> (r_headers r)) (r_body r).
Definition erase_header (name : string) (r : Resp) : Resp :=
  mkResp (r_code r) (delete (header_key name) (r_headers r)) (r_body r).
Definition header_of (r : Resp) (name : string) : option string := r_headers r !! header_key name.

(** ** The middlewares *)

Module SecurityMiddleware.
(* include/rtc/middlewares/security_middleware.hpp:40-40, kCspOverrideHeader *)
Definition kCspOverrideHeader : string := "X-RTC-CSP-Override".

(* include/rtc/middlewares/security_middleware.hpp:59-64, SecurityMiddleware::apply_cors *)
Definition apply_cors (allowed_origins : string) (res : Resp) : Resp :=
  let res := set_header "Access-Control-Allow-Origin" allowed_origins res in
  let res := set_header "Access-Control-Allow-Methods" "GET, POST, PUT, PATCH, DELETE, OPTIONS" res in
  let res := set_header "Access-Control-Allow-Headers" "Authorization, Content-Type" res in
  set_header "Access-Control-Max-Age" "600" res.

(** [Some] for a response it has ended. *)
(* include/rtc/middlewares/security_middleware.hpp:20-27, SecurityMiddleware::before_handle *)
Definition before_handle (allowed_origins : string) (req : Request) (res : Resp) : option Resp :=
  if String.eqb (method_name req) "OPTIONS" then Some (set_code 204 (apply_cors allowed_origins res)) else None.

Definition default_csp : string := "default-src 'none'; frame-ancestors 'none'".

(* include/rtc/middlewares/security_middleware.hpp:42-57, SecurityMiddleware::after_handle *)
Definition after_handle (allowed_origins : string) (res : Resp) : Resp :=
  let res := apply_cors allowed_origins res in
  let res := set_header "X-Content-Type-Options" "nosniff" res in
  let res := set_header "X-Frame-Options" "DENY" res in
  let res := set_header "Referrer-Policy" "no-referrer" res in
  let res := set_header "X-XSS-Protection" "0" res in
  let requested := default "" (header_of res kCspOverrideHeader) in
  if String.eqb requested "" then set_header "Content-Security-Policy" default_csp res
  else erase_header kCspOverrideHeader (set_header "Content-Security-Policy" requested res).
End SecurityMiddleware.

Module ApiVersionMiddleware.
(* include/rtc/middlewares/versioning_middleware.hpp:63-66, context *)
Record context := mk { version : Z; explicit_prefix : bool }.

(* src/middlewares/versioning_middleware.cpp:60-107, ApiVersionMiddleware::before_handle *)
Definition before_handle `{JsonText} (req : Request) (res : Resp) : context * option Resp :=
  let parsed := parse_versioned_path (url req) in
  if negb (has_prefix parsed) then (mk kDefaultApiVersion false, None)
  else if negb (is_supported_api_version (Edge.version parsed))
  then
    let res := set_code (http_status_for kNotFound) res in
    let res := set_header "Content-Type" "application/json" res in
    let res := set_header kApiVersionHeader (api_version_label kCurrentApiVersion) res in
    let res := set_body (json_dump (make_error_body "unsupported_api_version"
                 ("Unsupported API version: " +:+ api_version_label (Edge.version parsed))
                 ("supported=" +:+ supported_api_versions_label))) res in
    (mk kCurrentApiVersion true, Some res)
  else (mk (Edge.version parsed) true, None).

(* src/middlewares/versioning_middleware.cpp:109-113, ApiVersionMiddleware::after_handle *)
Definition after_handle (ctx : context) (res : Resp) : Resp :=
  set_header kApiVersionHeader (api_version_label (version ctx)) res.
End ApiVersionMiddleware.

(** ** The stack *)

Section Stack.
Context `{DoubleAdd, JsonText} {E A : Type}.

(** What a worker thread carries from request to request: the tracing subsystem,
    the slot of the log context, the registry and the application. *)
Record Thread := mkThread {
  tw : TW; slot : string; registry : option (MetricsRegistry.t E); app : A }.
Definition set_tw (w : TW) (t : Thread) : Thread := mkThread w (slot t) (registry t) (app t).
Definition set_slot (i : string) (t : Thread) : Thread := mkThread (tw t) i (registry t) (app t).

(** Applies an operation of the log context to the thread. *)
Definition on_log (f : ThreadCtx → ThreadCtx) (t : Thread) : Thread :=
  set_slot (request_id_slot (f (mkCtx (t_current (tw t)) (slot t)))) t.

(** The request once [headers.emplace] has run; an empty header counts as absent. *)
Definition with_header (added : option (string * string)) (req : Request) : Request :=
  match added with
  | None => req
  | Some (name, value) =>
      mkRequest (method_name req) (url req) (remote_ip_address req)
        (λ k, if String.eqb (header_key k) (header_key name) && String.eqb (get_header_value req k) ""
              then value else get_header_value req k)
  end.

(** The id of the request. *)
(* include/rtc/middlewares/logging_middleware.hpp:33-46, LoggingMiddleware::before_handle *)
Definition logging_before (req : Request) (t : Thread) : string * Thread :=
  let inbound := get_header_value req "X-Request-Id" in
  let '(request_id, w) :=
    if String.eqb inbound ""
    then let '(id, r) := Random.generate_hex_token 8 (engine (tw t)) in (id, set_engine r (tw t))
    else (inbound, tw t) in
  (request_id, on_log (LogContext.set_request_id request_id) (set_tw w t)).

(* include/rtc/middlewares/logging_middleware.hpp:48-63, LoggingMiddleware::after_handle *)
Definition logging_after (request_id : string) (res : Resp) (t : Thread) : Resp * Thread :=
  (set_header "X-Request-Id" request_id res, on_log LogContext.clear_request_id t).

(** A handler works on the application, opens and closes spans and answers with
    a fresh response. *)
Definition Handler : Type := Request → A → Resp * Code * A.

Definition run_handler (h : Handler) (req : Request) (t : Thread) : Resp * Thread :=
  let '(res, c, a) := h req (app t) in (res, mkThread (exec c (tw t)) (slot t) (registry t) a).

(** [seconds] converts a difference of the steady clock to a double. *)
Context (allowed_origins : string) (seconds : Z → Q).

(** From [ApiVersionMiddleware] inwards. *)
Definition versioned (h : Handler) (req : Request) (t : Thread) : Resp * Thread :=
  let '(ctx, ended) := ApiVersionMiddleware.before_handle req no_response in
  let '(res, t) := match ended with Some res => (res, t) | None => run_handler h req t end in
  (ApiVersionMiddleware.after_handle ctx res, t).

(** From [TracingMiddleware] inwards. *)
Definition traced (h : Handler) (req : Request) (t : Thread) : Resp * Thread :=
  let '(ctx, added, w) := TracingMiddleware.before_handle req TracingMiddleware.empty_context (tw t) in
  let req := with_header added req in
  let '(request_id, t) := logging_before req (set_tw w t) in
  let '(res, t) := versioned h req t in
  let '(res, t) := logging_after request_id res t in
  let '(headers, w) := TracingMiddleware.after_handle (r_code res) ctx (tw t) in
  (foldl (λ res nv, set_header nv.1 nv.2 res) res headers, set_tw w t).

(* include/rtc/http/app.hpp:19-42, App *)
Definition serve_request (h : Handler) (req : Request) (t : Thread) : Resp * Thread :=
  match SecurityMiddleware.before_handle allowed_origins req no_response with
  | Some res => (SecurityMiddleware.after_handle allowed_origins res, t)
  | None =>
      let start := steady (tw t) in
      let '(res, t) := traced h req t in
      let t := mkThread (tw t) (slot t)
                 (MetricsMiddleware.after_handle (registry t) (seconds (steady (tw t) - start)) (r_code res))
                 (app t) in
      (SecurityMiddleware.after_handle allowed_origins res, t)
  end.

(* src/controllers/api_fallback_controller.cpp:12-20, not_found_for *)
Definition not_found_for (path : string) : Resp :=
  set_body (json_dump (make_error_body "not_found" ("No such endpoint: " +:+ path)
              ("supported=" +:+ supported_api_versions_label)))
    (set_header "Content-Type" "application/json" (set_code (http_status_for kNotFound) no_response)).

(** The handler of both version catch-alls. *)
(* src/controllers/api_fallback_controller.cpp:24-56, ApiFallbackController::register_routes *)
Definition api_fallback : Handler := λ req a, (not_found_for (url req), Idle 0 0, a).
End Stack.
Arguments Thread E A : clear implicits.
Arguments Handler A : clear implicits.

(** ** Version segments *)

Lemma drop_prefix_append p s : drop_prefix (String.length p) (p +:+ s) = s.
Proof. induction p as [|c p IH]; [by destruct s|]. exact IH. Qed.

(** A version segment is read back whatever follows it. *)
Lemma versioned_path n rest :
  0 <= n <= int_max →
  match rest with "" => True | String c _ => code c = 47 ∨ code c = 63 end →
  parse_versioned_path ("/api/v" +:+ (to_string n +:+ rest)) = mkRewrite true n ("/api" +:+ rest).
Proof.
  intros Hn Hr. unfold parse_versioned_path.
  destruct (to_string_cases n) as [[_ Hs]|[? _]]; [|lia].
  assert (Hd : all_of isdigit (to_string n) = true) by (rewrite Hs; apply dec_N_digits).
  assert (Hne : to_string n ≠ "") by (rewrite Hs; apply dec_N_nonempty).
  assert (Hw : parse_whole true int_min int_max (to_string n) = Some n).
  { unfold parse_whole. rewrite <- (append_nil_r (to_string n)).
    rewrite from_chars_to_string; [done| |done]. unfold int_min, int_max in *. lia. }
  rewrite (proj2 (starts_with_spec _ _)) by (by eexists).
  change (String.length kVersionedPrefix) with (String.length "/api/v"). rewrite drop_prefix_append.
  rewrite span_all; [|done|destruct rest as [|c r]; [done|]].
  2: { unfold isdigit. apply not_true_iff_false. rewrite in_range_spec. lia. }
  replace (ssize _ <=? ssize kVersionedPrefix) with false.
  2: { symmetry. apply Z.leb_gt. unfold ssize. rewrite !length_append.
       apply ssize_pos in Hne. unfold ssize in Hne. change kVersionedPrefix with "/api/v". lia. }
  rewrite (proj2 (String.eqb_neq _ _) Hne), Hw. cbn [orb negb].
  destruct rest as [|c r]; [done|].
  by destruct Hr as [-> | ->].
Qed.

(** ** What every response carries *)

Lemma header_set n v r m :
  header_of (set_header n v r) m = if String.eqb (header_key n) (header_key m) then Some v else header_of r m.
Proof.
  unfold header_of, set_header. cbn [r_headers]. destruct (String.eqb_spec (header_key n) (header_key m)) as [->|].
  - apply lookup_insert_eq.
  - by apply lookup_insert_ne.
Qed.

Lemma header_erase n r m :
  header_of (erase_header n r) m = if String.eqb (header_key n) (header_key m) then None else header_of r m.
Proof.
  unfold header_of, erase_header. cbn [r_headers]. destruct (String.eqb_spec (header_key n) (header_key m)) as [->|].
  - apply lookup_delete_eq.
  - by apply lookup_delete_ne.
Qed.

(** Reads a header through a sequence of assignments to concrete headers. *)
Ltac read_header :=
  unfold SecurityMiddleware.apply_cors; repeat first [rewrite header_set | rewrite header_erase]; reflexivity.

(** The headers of the policy, and nothing left of the override marker. *)
Definition hardened (allowed_origins : string) (before after : Resp) : Prop :=
  r_code after = r_code before ∧ r_body after = r_body before ∧
  header_of after "Access-Control-Allow-Origin" = Some allowed_origins ∧
  header_of after "X-Content-Type-Options" = Some "nosniff" ∧
  header_of after "X-Frame-Options" = Some "DENY" ∧
  header_of after "Referrer-Policy" = Some "no-referrer" ∧
  default "" (header_of after SecurityMiddleware.kCspOverrideHeader) = "" ∧
  header_of after "Content-Security-Policy" =
    Some (let asked := default "" (header_of before SecurityMiddleware.kCspOverrideHeader) in
          if String.eqb asked "" then SecurityMiddleware.default_csp else asked) ∧
  header_of after kApiVersionHeader = header_of before kApiVersionHeader ∧
  header_of after "X-Request-Id" = header_of before "X-Request-Id".

Lemma security_hardens origins res : hardened origins res (SecurityMiddleware.after_handle origins res).
Proof.
  unfold SecurityMiddleware.after_handle. cbv zeta.
  assert (Hm : ∀ a b c d, header_of (set_header "X-XSS-Protection" a (set_header "Referrer-Policy" b
      (set_header "X-Frame-Options" c (set_header "X-Content-Type-Options" d
        (SecurityMiddleware.apply_cors origins res))))) SecurityMiddleware.kCspOverrideHeader
    = header_of res SecurityMiddleware.kCspOverrideHeader) by (intros; read_header).
  rewrite !Hm. destruct (String.eqb _ "") eqn:Ha; unfold hardened; cbv zeta; rewrite Ha; split_and!;
    try read_header; try reflexivity.
  rewrite header_set. cbn -[header_of]. rewrite Hm. by apply String.eqb_eq.
Qed.

Section Policy.
Context `{DoubleAdd, JsonText} {E A : Type} (allowed_origins : string) (seconds : Z → Q).

(** Whether the build refuses the version named by the path. *)
Definition refused (path : string) : bool :=
  has_prefix (parse_versioned_path path) && negb (is_supported_api_version (version (parse_versioned_path path))).

(** The request id of the thread's log lines and of the response. *)
Definition id_given (req : Request) (res : Resp) : Prop :=
  ∃ id, header_of res "X-Request-Id" = Some id ∧
    (get_header_value req "X-Request-Id" ≠ "" → id = get_header_value req "X-Request-Id").

Lemma supported_one v : is_supported_api_version v = true → v = 1.
Proof.
  unfold is_supported_api_version, kSupportedApiVersions, existsb. rewrite orb_false_r. intros Hv.
  by apply Z.eqb_eq in Hv.
Qed.

Lemma versioned_spec (h : Handler A) req (t : Thread E A) :
  let '(res, t') := versioned h req t in
  header_of res kApiVersionHeader = Some "v1" ∧ slot t' = slot t ∧ registry t' = registry t ∧
  if refused (url req)
  then r_code res = 404 ∧ t' = t ∧ header_of res SecurityMiddleware.kCspOverrideHeader = None
  else r_code res = r_code (h req (app t)).1.1 ∧ app t' = (h req (app t)).2 ∧
       header_of res SecurityMiddleware.kCspOverrideHeader
       = header_of (h req (app t)).1.1 SecurityMiddleware.kCspOverrideHeader.
Proof.
  unfold versioned, ApiVersionMiddleware.before_handle, ApiVersionMiddleware.after_handle, refused, run_handler.
  destruct (parse_versioned_path (url req)) as [p v n]. cbn [has_prefix version].
  destruct p; cbn [negb andb]; [destruct (is_supported_api_version v) eqn:Hv; cbn [negb]|].
  2: split_and!; try reflexivity; read_header.
  all: destruct (h req (app t)) as [[res c] a]; cbn [fst snd]; split_and!; try reflexivity; try read_header.
  rewrite header_set. by apply supported_one in Hv as ->.
Qed.

Lemma tracing_before_id req ctx w :
  get_header_value req "X-Request-Id" ≠ "" →
  TracingMiddleware.request_id (TracingMiddleware.before_handle req ctx w).1.1 = get_header_value req "X-Request-Id".
Proof.
  intros Hne. unfold TracingMiddleware.before_handle, TracingMiddleware.kRequestIdHeader.
  rewrite (proj2 (String.eqb_neq _ _) Hne). destruct (negb _); [done|].
  destruct (start_span _ _ _ _) as [s w1]. cbv zeta.
  by destruct (ScopedSpan.make _ _) as [sc w2], (ScopedSpan.assign _ _ _) as [sc' w3].
Qed.

Lemma tracing_after_headers code ctx w :
  ∃ more, (TracingMiddleware.after_handle code ctx w).1 = ("X-Request-Id", TracingMiddleware.request_id ctx) :: more ∧
    (more = [] ∨ ∃ v, more = [("traceparent", v)]).
Proof.
  unfold TracingMiddleware.after_handle. cbn [fst]. eexists. split; [reflexivity|].
  destruct (String.eqb _ ""); eauto.
Qed.

Lemma with_header_url added req : url (with_header added req) = url req.
Proof. by destruct added as [[n v]|]. Qed.

(** Through logging and tracing: the request id is on the response and the slot
    of the log context is empty again. *)
Lemma traced_spec (h : Handler A) req (t : Thread E A) :
  let '(res, t') := traced h req t in
  header_of res kApiVersionHeader = Some "v1" ∧ slot t' = "" ∧ registry t' = registry t ∧ id_given req res ∧
  ∃ added, let r := h (with_header added req) (app t) in
    if refused (url req)
    then r_code res = 404 ∧ app t' = app t ∧ header_of res SecurityMiddleware.kCspOverrideHeader = None
    else r_code res = r_code r.1.1 ∧ app t' = r.2 ∧
         header_of res SecurityMiddleware.kCspOverrideHeader = header_of r.1.1 SecurityMiddleware.kCspOverrideHeader.
Proof.
  unfold traced.
  pose proof (tracing_before_id req TracingMiddleware.empty_context (tw t)) as Hid.
  destruct (TracingMiddleware.before_handle _ _ _) as [[ctx added] w]. cbn [fst] in Hid.
  set (req' := with_header added req). unfold logging_before.
  set (idw := if String.eqb (get_header_value req' "X-Request-Id") "" then _ else _).
  destruct idw as [id w1].
  set (t1 := on_log _ _). pose proof (versioned_spec h req' t1) as Hv.
  destruct (versioned h req' t1) as [res t2]. unfold logging_after.
  set (res2 := set_header "X-Request-Id" id res). set (t3 := on_log _ t2).
  pose proof (tracing_after_headers (r_code res2) ctx (tw t3)) as (more & Hh & Hmore).
  destruct (TracingMiddleware.after_handle (r_code res2) ctx (tw t3)) as [headers w2]. cbn [fst] in Hh.
  destruct Hv as (Hver & _ & Hreg & Hbody). unfold req' in Hbody. rewrite with_header_url in Hbody.
  assert (Hrest : ∀ m, header_key m ≠ header_key "X-Request-Id" → header_key m ≠ "traceparent" →
            header_of (foldl (λ res nv, set_header nv.1 nv.2 res) res2 headers) m = header_of res m).
  { intros m H1 H2. rewrite Hh. unfold res2. destruct Hmore as [-> | [v ->]]; cbn [foldl fst snd];
      repeat (rewrite header_set, (proj2 (String.eqb_neq _ _)) by (by apply not_eq_sym)); done. }
  assert (Hcode : r_code (foldl (λ res nv, set_header nv.1 nv.2 res) res2 headers) = r_code res).
  { rewrite Hh. by destruct Hmore as [-> | [v ->]]. }
  rewrite !Hrest, Hcode by done. split_and!; [done|done|done| |].
  - exists (TracingMiddleware.request_id ctx). split; [|exact Hid].
    rewrite Hh. destruct Hmore as [-> | [v ->]]; cbn [foldl fst snd]; read_header.
  - exists added. cbn zeta. destruct (refused (url req)); [|exact Hbody].
    destruct Hbody as (Hc & -> & Hm). by split_and!.
Qed.

(** C33. Every request that reaches a route gets a hardened response: the CORS
    and security headers, a content policy that only the handler can replace, and
    no trace of the marker it uses for that.  A preflight is answered 204 and
    touches nothing.  Any other response names the version that served it and
    carries a request id, the caller's own if there was one; the thread's log
    context is empty again afterwards and the request is counted once.  The
    handler runs, and decides the status, exactly when the path does not name a
    version this build refuses; otherwise the answer is 404 and the application
    has not been touched. *)
Theorem edge_policy (h : Handler A) req (t : Thread E A) :
  let '(res, t') := serve_request allowed_origins seconds h req t in
  (∃ before, hardened allowed_origins before res ∧
     (refused (url req) = false → String.eqb (method_name req) "OPTIONS" = false →
      ∃ added, let r := h (with_header added req) (app t) in
        r_code res = r_code r.1.1 ∧ app t' = r.2 ∧
        header_of before SecurityMiddleware.kCspOverrideHeader
        = header_of r.1.1 SecurityMiddleware.kCspOverrideHeader)) ∧
  if String.eqb (method_name req) "OPTIONS"
  then r_code res = 204 ∧ t' = t ∧ header_of res "Content-Security-Policy" = Some SecurityMiddleware.default_csp
  else
    header_of res kApiVersionHeader = Some "v1" ∧ id_given req res ∧ slot t' = "" ∧
    (∀ r, registry t = Some r → ∃ r', registry t' = Some r' ∧
       MetricsRegistry.counter "rtc_http_requests_total" r'
       = dadd (MetricsRegistry.counter "rtc_http_requests_total" r) 1%Q) ∧
    (refused (url req) = true → r_code res = 404 ∧ app t' = app t ∧
       header_of res "Content-Security-Policy" = Some SecurityMiddleware.default_csp).
Proof.
  unfold serve_request, SecurityMiddleware.before_handle.
  destruct (String.eqb (method_name req) "OPTIONS").
  { split; [eexists; split; [apply security_hardens|done]|].
    split_and!; [by rewrite (proj1 (security_hardens _ _))|done|by vm_compute]. }
  pose proof (traced_spec h req t) as Ht. destruct (traced h req t) as [res t1].
  destruct Ht as (Hver & Hslot & Hreg & [id [Hid Hin]] & added & Happ).
  pose proof (security_hardens allowed_origins res) as Hs.
  destruct Hs as (Hc & Hb & H1 & H2 & H3 & H4 & H5 & H6 & H7 & H8).
  split_and!.
  - exists res. split; [by split_and!|]. intros Hr _. exists added. rewrite Hr in Happ. by rewrite Hc.
  - by rewrite H7.
  - exists id. by rewrite H8.
  - done.
  - intros r Hr. cbn [registry]. rewrite Hreg, Hr. eexists. split; [reflexivity|].
    unfold MetricsRegistry.counter.
    destruct (500 <=? _); [|destruct (400 <=? _)]; cbn -[dadd];
      rewrite ?(lookup_insert_ne (M:=gmap string)) by done; by rewrite lookup_insert_eq.
  - intros Hr. rewrite Hr in Happ. destruct Happ as (Hcode & Happ & Hm). rewrite Hc, H6, Hm. by split_and!.
Qed.
End Policy.

(** Which paths are refused. *)
Lemma refused_paths :
  refused "/api/v2/messages" = true ∧ refused "/api/v1/messages" = false ∧ refused "/api/messages" = false ∧
  refused "/api/v1x/foo" = false ∧ refused "/api/v4294967297/users" = false ∧ refused "/health" = false.
Proof. by vm_compute. Qed.
