(* ===== verification/Export.v ===== *)
(** * Export: spans on their way to a collector

    Models src/tracing/span_exporter.cpp, src/tracing/otlp_http_exporter.cpp and
    the export thread of src/tracing/tracer.cpp: the two encodings of a batch,
    the endpoint parser, the exchange with the collector, the accounting of
    failed exports and the life of the thread.  The socket library is a parameter: each of its operations
    completes, with or without an error, or not in the time it is given.  The
    version of the build is an argument. *)

From Stdlib Require Import QArith.
From S2P Require Import Prelude Text Json Errors TimeUtil Config Tracing.
Open Scope string_scope.
Open Scope Z_scope.

(* include/rtc/tracing/span_exporter.hpp:13-18, Resource *)
Record Resource := mkResource {
  service_name : string; service_version : string; deployment_environment : string;
  service_instance_id : string }.

(** ** Encodings *)

(* src/tracing/span_exporter.cpp:14-28, otlp_kind *)
Definition otlp_kind (kind : SpanKind) : Z :=
  match kind with kInternal => 1 | kServer => 2 | kClient => 3 | kProducer => 4 | kConsumer => 5 end.

(* src/tracing/span_exporter.cpp:30-40, otlp_status *)
Definition otlp_status (status : SpanStatus) : Z := match status with kUnset => 0 | kOk => 1 | kError => 2 end.

(* src/tracing/span_exporter.cpp:44-58, zipkin_kind *)
Definition zipkin_kind (kind : SpanKind) : option string :=
  match kind with
  | kServer => Some "SERVER" | kClient => Some "CLIENT" | kProducer => Some "PRODUCER"
  | kConsumer => Some "CONSUMER" | kInternal => None
  end.

(** [static_cast<std::uint64_t>]. *)
Definition u64 (z : Z) : Z := z mod 2 ^ 64.

(** The clock counts nanoseconds. *)
(* src/tracing/span_exporter.cpp:60-64, unix_nanos *)
Definition unix_nanos (tp : Z) : Z := u64 tp.
(* src/tracing/span_exporter.cpp:66-70, unix_micros *)
Definition unix_micros (tp : Z) : Z := u64 (Z.quot tp 1000).

(* src/tracing/span_exporter.cpp:75-77, otlp_attribute *)
Definition otlp_attribute (key value : string) : json :=
  jobj [("key", JStr key); ("value", jobj [("stringValue", JStr value)])].

Definition unless_empty (value : string) (j : json) : list json := if String.eqb value "" then [] else [j].

(* src/tracing/span_exporter.cpp:79-93, otlp_resource_attributes *)
Definition otlp_resource_attributes (r : Resource) : json :=
  JArr ([otlp_attribute "service.name" (service_name r)]
        ++ unless_empty (service_version r) (otlp_attribute "service.version" (service_version r))
        ++ unless_empty (deployment_environment r)
             (otlp_attribute "deployment.environment" (deployment_environment r))
        ++ unless_empty (service_instance_id r)
             (otlp_attribute "service.instance.id" (service_instance_id r)))%list.

(** [entry[key] = value] when the value is not empty. *)
Definition set_unless_empty (key value : string) (entry : json) : json :=
  if String.eqb value "" then entry else jset key (JStr value) entry.

(* src/tracing/span_exporter.cpp:99-127, to_otlp_json (span) *)
Definition otlp_span (s : SpanData.t) : json :=
  let start := unix_nanos (SpanData.start_time s) in
  let status := set_unless_empty "message" (SpanData.status_message s)
                  (jobj [("code", JInt (otlp_status (SpanData.status s)))]) in
  let entry := jobj [
    ("traceId", JStr (SpanData.trace_id s)); ("spanId", JStr (SpanData.span_id s));
    ("name", JStr (SpanData.name s)); ("kind", JInt (otlp_kind (SpanData.kind s)));
    ("startTimeUnixNano", JStr (to_string start));
    ("endTimeUnixNano", JStr (to_string (u64 (start + u64 (SpanData.duration s)))));
    ("attributes", JArr ((λ kv, otlp_attribute kv.1 kv.2) <$> SpanData.attributes s));
    ("status", status)] in
  set_unless_empty "traceState" (SpanData.trace_state s)
    (set_unless_empty "parentSpanId" (SpanData.parent_span_id s) entry).

(* src/tracing/span_exporter.cpp:97-138, to_otlp_json *)
Definition to_otlp_json (version : string) (resource : Resource) (spans : list SpanData.t) : json :=
  jobj [("resourceSpans", JArr [jobj [
    ("resource", jobj [("attributes", otlp_resource_attributes resource)]);
    ("scopeSpans", JArr [jobj [
      ("scope", jobj [("name", JStr "rtc"); ("version", JStr version)]);
      ("spans", JArr (otlp_span <$> spans))]])]])].

(** A later attribute of the same name replaces an earlier one. *)
(* src/tracing/span_exporter.cpp:143-171, to_zipkin_json (span) *)
Definition zipkin_span (resource : Resource) (s : SpanData.t) : json :=
  let tags := foldl (λ tags kv, jset kv.1 (JStr kv.2) tags) (jobj []) (SpanData.attributes s) in
  let tags :=
    match SpanData.status s with
    | kError => jset "error" (JStr (if String.eqb (SpanData.status_message s) "" then "true"
                                    else SpanData.status_message s)) tags
    | _ => tags
    end in
  let tags := set_unless_empty "deployment.environment" (deployment_environment resource) tags in
  let entry := jobj [
    ("traceId", JStr (SpanData.trace_id s)); ("id", JStr (SpanData.span_id s));
    ("name", JStr (SpanData.name s)); ("timestamp", JInt (unix_micros (SpanData.start_time s)));
    ("duration", JInt (u64 (SpanData.duration s) / 1000));
    ("localEndpoint", jobj [("serviceName", JStr (service_name resource))]); ("tags", tags)] in
  let entry := set_unless_empty "parentId" (SpanData.parent_span_id s) entry in
  match zipkin_kind (SpanData.kind s) with Some kind => jset "kind" (JStr kind) entry | None => entry end.

(* src/tracing/span_exporter.cpp:140-174, to_zipkin_json *)
Definition to_zipkin_json (resource : Resource) (spans : list SpanData.t) : json :=
  JArr (zipkin_span resource <$> spans).

(** ** The endpoint *)

(* include/rtc/tracing/otlp_http_exporter.hpp:14-17, TraceWireFormat *)
Inductive TraceWireFormat := kOtlpHttpJson | kZipkinJson.

(* src/tracing/otlp_http_exporter.cpp:34-39, defaults_for *)
Definition defaults_for (format : TraceWireFormat) : string * string :=
  match format with kZipkinJson => ("9411", "/api/v2/spans") | kOtlpHttpJson => ("4318", "/v1/traces") end.

(* src/tracing/otlp_http_exporter.cpp:65-70, parse_wire_format *)
Definition parse_wire_format (value : string) : TraceWireFormat :=
  if String.eqb value "zipkin" || String.eqb value "zipkin_json" then kZipkinJson else kOtlpHttpJson.

(* include/rtc/tracing/otlp_http_exporter.hpp:71-76, ParsedEndpoint *)
Record ParsedEndpoint := mkEndpoint { host : string; port : string; target : string; valid : bool }.

Definition kHttpScheme : string := "http://".

Definition not_slash (c : ascii) : bool := negb (code c =? 47).

(** [rfind(':')]: the text before and after the last colon. *)
Fixpoint split_last_colon (s : string) : option (string * string) :=
  match s with
  | "" => None
  | String c r =>
      match split_last_colon r with
      | Some (before, after) => Some (String c before, after)
      | None => if code c =? 58 then Some ("", r) else None
      end
  end.

(* src/tracing/otlp_http_exporter.cpp:72-108, parse_endpoint *)
Definition parse_endpoint (endpoint : string) (format : TraceWireFormat) : ParsedEndpoint :=
  let '(port, target) := defaults_for format in
  let rest := if starts_with kHttpScheme endpoint
              then Tracer.string_drop (String.length kHttpScheme) endpoint else endpoint in
  if String.eqb rest "" then mkEndpoint "" port target false
  else
    let '(authority, path) := span not_slash rest in
    let target := if String.eqb path "" then target else path in
    let '(name, port) :=
      match split_last_colon authority with
      | Some (name, p) => (name, if String.eqb p "" then port else p)
      | None => (authority, port)
      end in
    if String.eqb name "" then mkEndpoint "" port target false else mkEndpoint name port target true.

(** ** The exporter *)

Module OtlpHttpSpanExporter.
(* src/tracing/otlp_http_exporter.cpp:190-196, OtlpHttpSpanExporter::Impl *)
Record t := mk { format : TraceWireFormat; endpoint : ParsedEndpoint; consecutive_failures : Z }.

(* src/tracing/otlp_http_exporter.cpp:202-214, OtlpHttpSpanExporter::OtlpHttpSpanExporter *)
Definition make (url : string) (f : TraceWireFormat) : t := mk f (parse_endpoint url f) 0.

Definition crlf : string := String "013" (String "010" "").

(** The text of one request. *)
(* src/tracing/otlp_http_exporter.cpp:140-154, OtlpHttpSpanExporter::Impl::post *)
Definition request (e : t) (body : string) : string :=
  "POST " +:+ target (endpoint e) +:+ " HTTP/1.1" +:+ crlf
  +:+ "Host: " +:+ host (endpoint e) +:+ ":" +:+ port (endpoint e) +:+ crlf
  +:+ "Content-Type: application/json" +:+ crlf
  +:+ "Content-Length: " +:+ to_string (ssize body) +:+ crlf
  +:+ "Connection: close" +:+ crlf
  +:+ crlf +:+ body.

(** What an operation of the socket library came to: it completed, with an error
    code or its result, or was still pending when the time was up. *)
Inductive AsioError := Eof | OtherError.
Inductive Completion (A : Type) := Completed (r : result AsioError A) | Pending.
Arguments Completed {A}. Arguments Pending {A}.

(** The library and the collector behind it; the bytes read depend on the
    request that was written, and are kept when the reading ends in an error. *)
Class Asio := {
  Endpoints : Type;
  async_resolve : string → string → Completion Endpoints;
  async_connect : Endpoints → Completion unit;
  async_write : Endpoints → string → Completion unit;
  async_read_until : Endpoints → string → string → string * Completion unit
}.

(** The operation's result, if it finished in time. *)
(* src/tracing/otlp_http_exporter.cpp:45-57, run_bounded *)
Definition run_bounded {A} (op : Completion A) : option (result AsioError A) :=
  match op with Completed r => Some r | Pending => None end.

(** [stream >> http_version >> status]: the number after the first word; zero
    when there is none, the nearest [int] when it does not fit. *)
Definition status_of (text : string) : Z :=
  let '(http_version, rest) := span (λ c, negb (isspace c)) (drop_while isspace text) in
  if String.eqb http_version "" then 0
  else
    let rest := drop_while isspace rest in
    let '(negative, body) :=
      match rest with
      | String c r => if code c =? 45 then (true, r) else if code c =? 43 then (false, r) else (false, rest)
      | "" => (false, rest)
      end in
    let v := digits_value 0 (span isdigit body).1 in
    Z.max int32_min (Z.min int32_max (if (negative : bool) then - v else v)).

(* src/tracing/otlp_http_exporter.cpp:117-192, OtlpHttpSpanExporter::Impl::post *)
Definition post `{Asio} (e : t) (body : string) : bool :=
  match run_bounded (async_resolve (host (endpoint e)) (port (endpoint e))) with
  | Some (Ok endpoints) =>
      match run_bounded (async_connect endpoints) with
      | Some (Ok _) =>
          let text := request e body in
          match run_bounded (async_write endpoints text) with
          | Some (Ok _) =>
              let '(response, read) := async_read_until endpoints text crlf in
              match run_bounded read with
              | Some (Ok _) | Some (Err Eof) =>
                  let status := status_of response in negb ((status <? 200) || (300 <=? status))
              | _ => false
              end
          | _ => false
          end
      | _ => false
      end
  | _ => false
  end.

Section Exporting.
Context `{JsonText} (version : string).
(** The attempt to hand over a body, which may throw. *)
Context (attempt : t → string → result exn bool).

(** The result says whether a warning was logged; it never throws. *)
(* src/tracing/otlp_http_exporter.cpp:222-252, OtlpHttpSpanExporter::export_spans *)
Definition export_spans (resource : Resource) (spans : list SpanData.t) (e : t) : bool * t :=
  match spans with
  | [] => (false, e)
  | _ =>
      if negb (valid (endpoint e)) then (false, e)
      else
        let body := json_dump (match format e with
                               | kZipkinJson => to_zipkin_json resource spans
                               | kOtlpHttpJson => to_otlp_json version resource spans
                               end) in
        match attempt e body with
        | Ok true => (false, mk (format e) (endpoint e) 0)
        | _ =>
            let failures := u64 (consecutive_failures e + 1) in
            ((failures =? 1) || (failures mod 100 =? 0), mk (format e) (endpoint e) failures)
        end
  end.

(** A drain of the tracer into the exporter. *)
Definition drain (resource : Resource) (tr : Tracer.t) (e : t) : Tracer.t * t :=
  let '(batch, tr') := Tracer.drain_once true tr in (tr', (export_spans resource batch e).2).
End Exporting.
End OtlpHttpSpanExporter.

(** ** What is known of them *)

Lemma split_last_colon_none s : all_of (λ c, negb (code c =? 58)) s = true → split_last_colon s = None.
Proof.
  induction s as [|c s IH]; [done|]. cbn. rewrite andb_true_iff. intros [Hc Hs]. rewrite (IH Hs).
  by destruct (code c =? 58).
Qed.

Lemma split_last_colon_app s p :
  all_of (λ c, negb (code c =? 58)) p = true → split_last_colon (s +:+ String ":" p) = Some (s, p).
Proof.
  intros Hp. induction s as [|c s IH].
  - change ("" +:+ String ":" p) with (String ":" p). cbn. by rewrite split_last_colon_none.
  - change (String c s +:+ String ":" p) with (String c (s +:+ String ":" p)). cbn. by rewrite IH.
Qed.

(** An endpoint written as scheme, host, port and path is read as such. *)
Lemma parse_endpoint_parts h p path format :
  h ≠ "" → p ≠ "" → all_of not_slash h = true →
  all_of not_slash p = true → all_of (λ c, negb (code c =? 58)) p = true →
  parse_endpoint ("http://" +:+ (h +:+ String ":" p) +:+ String "/" path) format
  = mkEndpoint h p (String "/" path) true.
Proof.
  intros Hh Hp Hsh Hsp Hcp. unfold parse_endpoint. destruct (defaults_for format) as [dp dt].
  rewrite (proj2 (starts_with_spec _ _)) by (by eexists).
  change (Tracer.string_drop (String.length kHttpScheme)
            ("http://" +:+ (h +:+ String ":" p) +:+ String "/" path))
    with (Tracer.string_drop 0 ((h +:+ String ":" p) +:+ String "/" path)).
  assert (Hspan : span not_slash ((h +:+ String ":" p) +:+ String "/" path)
                  = (h +:+ String ":" p, String "/" path)).
  { apply span_all; [|done]. rewrite all_of_app, Hsh. exact Hsp. }
  assert (Hdrop : ∀ s, Tracer.string_drop 0 s = s) by (by intros []). rewrite Hdrop.
  destruct (String.eqb_spec ((h +:+ String ":" p) +:+ String "/" path) "") as [He|_].
  { by destruct h. }
  rewrite Hspan, split_last_colon_app by done. cbn [String.eqb].
  by rewrite (proj2 (String.eqb_neq _ _) Hp), (proj2 (String.eqb_neq _ _) Hh).
Qed.

(** The times a collector reads bracket the span, for spans within the range of
    64 bits. *)
Lemma otlp_times (s : SpanData.t) :
  0 <= SpanData.start_time s → 0 <= SpanData.duration s →
  SpanData.start_time s + SpanData.duration s < 2 ^ 64 →
  find (otlp_span s) "startTimeUnixNano" = Some (JStr (to_string (SpanData.start_time s))) ∧
  find (otlp_span s) "endTimeUnixNano"
  = Some (JStr (to_string (SpanData.start_time s + SpanData.duration s))).
Proof.
  intros H0 H1 H2. unfold otlp_span, unix_nanos, u64, set_unless_empty.
  rewrite !(Z.mod_small (SpanData.start_time s)), !(Z.mod_small (SpanData.duration s)) by lia.
  rewrite (Z.mod_small (_ + _)) by lia.
  destruct (String.eqb (SpanData.parent_span_id s) ""), (String.eqb (SpanData.trace_state s) "");
    cbn; rewrite ?lookup_insert_ne by done; done.
Qed.

(** A batch the collector never took is counted as exported: the exporter
    contains its failures, and the tracer counts what did not throw. *)
Lemma lost_batches_counted_exported `{JsonText} version attempt resource tr e :
  (∀ body, attempt e body ≠ Ok true) → Tracer.buffer tr ≠ [] → valid (OtlpHttpSpanExporter.endpoint e) = true →
  let '(tr', e') := OtlpHttpSpanExporter.drain version attempt resource tr e in
  Tracer.exported tr' = Tracer.u64 (Tracer.exported tr + Z.of_nat (length (Tracer.buffer tr))) ∧
  Tracer.dropped tr' = Tracer.dropped tr ∧ Tracer.buffer tr' = [] ∧
  OtlpHttpSpanExporter.consecutive_failures e' = u64 (OtlpHttpSpanExporter.consecutive_failures e + 1).
Proof.
  intros Hsend Hb Hv. unfold OtlpHttpSpanExporter.drain, Tracer.drain_once.
  destruct (Tracer.buffer tr) as [|s batch] eqn:Hbuf; [done|].
  unfold OtlpHttpSpanExporter.export_spans. rewrite Hv. cbn [negb].
  match goal with |- context [attempt e ?body] => specialize (Hsend body); destruct (attempt e body) as [[]|] end; done.
Qed.

(** An export counts as taken exactly if the collector was reached and answered
    with a status of the 200s; every other outcome is one more failure. *)
Lemma export_taken `{JsonText} `{OtlpHttpSpanExporter.Asio} version resource s spans e :
  valid (OtlpHttpSpanExporter.endpoint e) = true →
  let body := json_dump (match OtlpHttpSpanExporter.format e with
                         | kZipkinJson => to_zipkin_json resource (s :: spans)
                         | kOtlpHttpJson => to_otlp_json version resource (s :: spans)
                         end) in
  OtlpHttpSpanExporter.consecutive_failures
    (OtlpHttpSpanExporter.export_spans version (λ e body, Ok (OtlpHttpSpanExporter.post e body)) resource (s :: spans) e).2
  = if OtlpHttpSpanExporter.post e body then 0 else u64 (OtlpHttpSpanExporter.consecutive_failures e + 1).
Proof. intros Hv. unfold OtlpHttpSpanExporter.export_spans. rewrite Hv. cbn [negb]. by case_match. Qed.

Lemma post_accepted `{OtlpHttpSpanExporter.Asio} e body :
  OtlpHttpSpanExporter.post e body = true →
  ∃ endpoints, OtlpHttpSpanExporter.async_resolve (host (OtlpHttpSpanExporter.endpoint e)) (port (OtlpHttpSpanExporter.endpoint e))
               = OtlpHttpSpanExporter.Completed (Ok endpoints) ∧
    let text := OtlpHttpSpanExporter.request e body in
    OtlpHttpSpanExporter.async_write endpoints text = OtlpHttpSpanExporter.Completed (Ok ()) ∧
    200 <= OtlpHttpSpanExporter.status_of
             (OtlpHttpSpanExporter.async_read_until endpoints text OtlpHttpSpanExporter.crlf).1 < 300.
Proof.
  unfold OtlpHttpSpanExporter.post, OtlpHttpSpanExporter.run_bounded.
  destruct (OtlpHttpSpanExporter.async_resolve _ _) as [[eps|]|] eqn:H1; try done.
  destruct (OtlpHttpSpanExporter.async_connect eps) as [[]|]; try done.
  destruct (OtlpHttpSpanExporter.async_write eps _) as [[[]|]|] eqn:H3; try done.
  destruct (OtlpHttpSpanExporter.async_read_until eps _ _) as [text read] eqn:H4. intros Hok.
  assert (Hs : negb ((OtlpHttpSpanExporter.status_of text <? 200) || (300 <=? OtlpHttpSpanExporter.status_of text)) = true)
    by (destruct read as [[|[]]|]; done).
  exists eps. rewrite H4. cbn. split_and!; [done|done|lia..].
Qed.

(** What a collector's status line is read as. *)
Lemma status_lines :
  OtlpHttpSpanExporter.status_of ("HTTP/1.1 202 Accepted" +:+ OtlpHttpSpanExporter.crlf) = 202 ∧
  OtlpHttpSpanExporter.status_of "HTTP/1.1 503" = 503 ∧ OtlpHttpSpanExporter.status_of "" = 0.
Proof. by vm_compute. Qed.

(** ** The export thread

    The tracer with its worker and a caller of [stop], at the grain of the
    tracer's mutex: a batch is taken under the lock and exported outside it, so
    spans are submitted in between.  The exporter takes a batch or throws.
    [batches] and [accepted] record what went to it and what the queue took. *)

Module ExportThread.
(** Where the worker is: at the test of its loop, waiting, exporting, or out of the
    loop. *)
Inductive Phase := Testing | Waiting | Exporting (batch : list SpanData.t) | Ended.
(** How far [stop] is: joining, about to drain, or exporting what it drained. *)
Inductive Stage := Joining | Draining | Flushing (batch : list SpanData.t).

(* include/rtc/tracing/tracer.hpp:85-98, Tracer *)
Record t := mk {
  queue : Tracer.t; running : bool; worker : option Phase; stopping : option Stage;
  batches : list (list SpanData.t * bool); accepted : list SpanData.t }.

Definition make (options : Tracer.Options) : t := mk (Tracer.make options) false None None [] [].

(** The two halves of [drain_once]: the swap under the lock, and the export. *)
Definition emptied (q : Tracer.t) : Tracer.t :=
  Tracer.mk (Tracer.options q) [] (Tracer.started q) (Tracer.exported q) (Tracer.dropped q).
Definition account (batch : list SpanData.t) (ok : bool) (q : Tracer.t) : Tracer.t :=
  let n := Z.of_nat (length batch) in
  if ok then Tracer.mk (Tracer.options q) (Tracer.buffer q) (Tracer.started q) (Tracer.u64 (Tracer.exported q + n)) (Tracer.dropped q)
  else Tracer.mk (Tracer.options q) (Tracer.buffer q) (Tracer.started q) (Tracer.exported q) (Tracer.u64 (Tracer.dropped q + n)).

Inductive Event :=
  | Submit (span : SpanData.t) | Start | Test | Wake | Exported (ok : bool)
  | Stop | Join | Drain | Flushed (ok : bool).

(** The test of the worker's loop. *)
Definition again (running : bool) : option Phase := Some (if running then Waiting else Ended).

(** [None] for an event that cannot come now; [stop] is called by one thread at
    a time. *)
(* src/tracing/tracer.cpp:71-103, Tracer::start, Tracer::stop *)
Definition lifecycle (e : Event) (s : t) : option t :=
  match e, stopping s, worker s with
  | Start, None, _ =>
      Some (if negb (Tracer.enabled (Tracer.options (queue s))) || running s then s
            else mk (queue s) true (Some Testing) None (batches s) (accepted s))
  | Stop, None, _ =>
      Some (if running s then mk (queue s) false (worker s) (Some Joining) (batches s) (accepted s)
            else mk (queue s) false (worker s) (Some Draining) (batches s) (accepted s))
  | Join, Some Joining, Some Ended => Some (mk (queue s) (running s) None (Some Draining) (batches s) (accepted s))
  | Drain, Some Draining, _ =>
      Some (match Tracer.buffer (queue s) with
            | [] => mk (queue s) (running s) (worker s) None (batches s) (accepted s)
            | batch => mk (emptied (queue s)) (running s) (worker s) (Some (Flushing batch)) (batches s) (accepted s)
            end)
  | Flushed ok, Some (Flushing batch), _ =>
      Some (mk (account batch ok (queue s)) (running s) (worker s) None (batches s ++ [(batch, ok)]) (accepted s))
  | _, _, _ => None
  end.

(* src/tracing/tracer.cpp:190-202, Tracer::exporter_loop *)
Definition exporter_loop (e : Event) (s : t) : option t :=
  match e, worker s with
  | Test, Some Testing => Some (mk (queue s) (running s) (again (running s)) (stopping s) (batches s) (accepted s))
  | Wake, Some Waiting =>
      Some (match Tracer.buffer (queue s) with
            | [] => mk (queue s) (running s) (Some Testing) (stopping s) (batches s) (accepted s)
            | batch => mk (emptied (queue s)) (running s) (Some (Exporting batch)) (stopping s) (batches s) (accepted s)
            end)
  | Exported ok, Some (Exporting batch) =>
      Some (mk (account batch ok (queue s)) (running s) (Some Testing) (stopping s) (batches s ++ [(batch, ok)]) (accepted s))
  | _, _ => None
  end.

(** [Tracer::submit], with the spans the queue took on record. *)
Definition submit (span : SpanData.t) (s : t) : t :=
  let q := Tracer.submit span (queue s) in
  let took := (length (Tracer.buffer (queue s)) <? length (Tracer.buffer q))%nat in
  mk q (running s) (worker s) (stopping s) (batches s) (if took then accepted s ++ [span] else accepted s)%list.

Definition step (e : Event) (s : t) : option t :=
  match e with
  | Submit span => Some (submit span s)
  | Test | Wake | Exported _ => exporter_loop e s
  | _ => lifecycle e s
  end.

Inductive reachable (options : Tracer.Options) : t → Prop :=
  | reachable_make : reachable options (make options)
  | reachable_step e s s' : reachable options s → step e s = Some s' → reachable options s'.

(** What has left the queue and not come back from the exporter. *)
Definition in_flight (s : t) : list SpanData.t :=
  (match worker s with Some (Exporting batch) => batch | _ => [] end
   ++ match stopping s with Some (Flushing batch) => batch | _ => [] end)%list.
End ExportThread.

(** Draining is its two halves. *)
Lemma drain_once_halves ok q :
  (Tracer.drain_once ok q).2 =
    match Tracer.buffer q with [] => q | batch => ExportThread.account batch ok (ExportThread.emptied q) end.
Proof. unfold Tracer.drain_once. destruct (Tracer.buffer q), ok; done. Qed.

Module ExportFacts.
Import ExportThread.
Section Conservation.
Context (o : Tracer.Options).

(** The spans of the batches that did not throw. *)
Definition taken (s : t) : nat := sum_list ((λ b : list SpanData.t * bool, if b.2 then length b.1 else 0%nat) <$> batches s).

(** The worker runs only while the flag is set or [stop] is waiting for it. *)
Definition disciplined (s : t) : Prop :=
  match stopping s with
  | None => running s = true ↔ is_Some (worker s)
  | Some Joining => running s = false ∧ is_Some (worker s)
  | Some _ => running s = false ∧ worker s = None
  end.

Record conserved (s : t) : Prop := {
  co_options : Tracer.options (queue s) = Tracer.options (Tracer.make o);
  co_spans : accepted s = (concat (batches s).*1 ++ in_flight s ++ Tracer.buffer (queue s))%list;
  co_bound : Z.of_nat (length (Tracer.buffer (queue s))) <= Tracer.max_queue_size (Tracer.options (Tracer.make o));
  co_exported : Tracer.exported (queue s) = Tracer.u64 (Z.of_nat (taken s));
  co_disciplined : disciplined s
}.

Lemma batches_app batch ok s :
  concat (batches s ++ [(batch, ok)])%list.*1 = (concat (batches s).*1 ++ batch)%list.
Proof. rewrite fmap_app, concat_app. cbn. by rewrite app_nil_r. Qed.

Lemma account_exported batch ok q n :
  Tracer.exported q = Tracer.u64 (Z.of_nat n) →
  Tracer.exported (account batch ok q) = Tracer.u64 (Z.of_nat (if ok then n + length batch else n)).
Proof.
  intros Hq. unfold account. destruct ok; cbn; [|done]. rewrite Hq. unfold Tracer.u64.
  rewrite Zplus_mod_idemp_l. f_equal. lia.
Qed.

Lemma taken_app batch ok s q r w st a :
  taken (mk q r w st (batches s ++ [(batch, ok)])%list a) =
    (if ok then taken s + length batch else taken s)%nat.
Proof.
  unfold taken. cbn. rewrite fmap_app, sum_list_with_app. destruct ok; cbn; lia.
Qed.

Lemma submit_conserved span s : conserved s → conserved (submit span s).
Proof.
  intros [Ho Hs Hb He Hd]. unfold submit, Tracer.submit.
  destruct (Z.leb_spec (Tracer.max_queue_size (Tracer.options (queue s))) (Z.of_nat (length (Tracer.buffer (queue s))))) as [Hf|Hf].
  - cbn -[Nat.ltb]. rewrite Nat.ltb_irrefl. by split.
  - cbn -[Nat.ltb]. rewrite length_app. cbn -[Nat.ltb]. rewrite (proj2 (Nat.ltb_lt _ _)) by lia.
    split; cbn; try done; [rewrite Hs|rewrite length_app; rewrite Ho in Hf; cbn in *; lia].
    unfold in_flight. cbn. by rewrite !app_assoc.
Qed.

Lemma exporter_conserved e s s' : conserved s → exporter_loop e s = Some s' → conserved s'.
Proof.
  intros [Ho Hs Hb He Hd]. unfold exporter_loop. destruct e as [| | | |ok| | | |]; try done;
    destruct (worker s) as [[| |batch|]|] eqn:Hw; try done.
  - intros [= <-]. unfold in_flight in Hs. rewrite Hw in Hs. split; try done.
    + unfold in_flight. cbn. rewrite Hs. by destruct (running s).
    + unfold disciplined in *. cbn. rewrite Hw in Hd. destruct (stopping s) as [[]|]; destruct (running s); naive_solver.
  - unfold in_flight in Hs. rewrite Hw in Hs.
    destruct (Tracer.buffer (queue s)) as [|x l] eqn:Hq; intros [= <-]; (split; cbn; try done); try (rewrite Hq; done).
    + unfold disciplined in *. cbn. rewrite Hw in Hd. destruct (stopping s) as [[]|]; destruct (running s); naive_solver.
    + unfold in_flight. cbn. rewrite Hs. destruct (stopping s) as [[]|] eqn:Hst; cbn; rewrite ?app_nil_r; try done.
      unfold disciplined in Hd. rewrite Hst, Hw in Hd. by destruct Hd.
    + lia.
    + unfold disciplined in *. cbn. rewrite Hw in Hd. destruct (stopping s) as [[]|]; naive_solver.
  - intros [= <-]. unfold in_flight in Hs. rewrite Hw in Hs. split.
    + by destruct ok.
    + unfold in_flight. cbn. rewrite batches_app, Hs. destruct ok; cbn; rewrite <- !app_assoc; by destruct (running s).
    + by destruct ok.
    + rewrite taken_app. by apply account_exported.
    + unfold disciplined in *. cbn. rewrite Hw in Hd. destruct (stopping s) as [[]|]; destruct (running s); naive_solver.
Qed.

Lemma idle s : running s = false → (running s = true ↔ is_Some (worker s)) → worker s = None.
Proof. intros Hr [_ H2]. destruct (worker s); [|done]. rewrite Hr in H2. by specialize (H2 (ex_intro _ _ eq_refl)). Qed.

Lemma lifecycle_conserved e s s' : conserved s → lifecycle e s = Some s' → conserved s'.
Proof.
  intros [Ho Hs Hb He Hd]. unfold lifecycle.
  destruct e as [| | | |ok| | | |ok]; try done; destruct (stopping s) as [[| |batch]|] eqn:Hst; try done;
    unfold in_flight in Hs; rewrite Hst in Hs; unfold disciplined in Hd; rewrite Hst in Hd.
  - intros [= <-]. destruct (negb _ || running s) eqn:Hr.
    + split; try done; [unfold in_flight; by rewrite Hst|unfold disciplined; by rewrite Hst].
    + apply orb_false_iff in Hr as [_ Hr]. rewrite (idle s Hr Hd) in Hs. by split.
  - intros [= <-]. destruct (running s) eqn:Hr; split; try done; unfold disciplined; cbn.
    + split; [done|]. by apply Hd.
    + split; [done|]. apply idle; [done|by rewrite Hr].
  - destruct (worker s) as [[]|] eqn:Hw; try done. intros [= <-]. split; try done. unfold disciplined. cbn. naive_solver.
  - destruct Hd as [Hr Hw]. rewrite Hw in Hs. destruct (Tracer.buffer (queue s)) as [|x l] eqn:Hq; intros [= <-];
      (split; cbn; try done); unfold in_flight, disciplined; cbn; rewrite ?Hw, ?Hq; try done; cbn in *.
    + rewrite Hr. by split; [|intros []].
    + by rewrite Hs, app_nil_r.
    + lia.
  - destruct Hd as [Hr Hw]. rewrite Hw in Hs. intros [= <-]. split.
    + by destruct ok.
    + unfold in_flight. cbn. rewrite Hw, batches_app, Hs. destruct ok; cbn; by rewrite <- ?app_assoc.
    + by destruct ok.
    + rewrite taken_app. by apply account_exported.
    + unfold disciplined. cbn. rewrite Hr, Hw. by split; [|intros []].
Qed.

Lemma make_conserved : conserved (make o).
Proof.
  split; try done; [cbn; lia|]. unfold disciplined. cbn. by split; [|intros []].
Qed.

Lemma reachable_conserved s : reachable o s → conserved s.
Proof.
  induction 1 as [|e s s' _ IH Hstep]; [apply make_conserved|].
  destruct e; cbn [step] in Hstep; eauto using exporter_conserved, lifecycle_conserved.
  apply (inj Some) in Hstep as <-. by apply submit_conserved.
Qed.

Fixpoint steps (es : list Event) (s : t) : option t :=
  match es with [] => Some s | e :: es => s' ← step e s; steps es s' end.


Lemma steps_reachable es s s' : reachable o s → steps es s = Some s' → reachable o s'.
Proof.
  revert s. induction es as [|e es IH]; intros s Hs; cbn; [by intros [= <-]|].
  destruct (step e s) as [s1|] eqn:He; [|done]. cbn. apply IH. by econstructor.
Qed.

(** A run of at most [n] steps to the end of [stop], with nothing left behind of
    what was accepted before it. *)
Definition returns (n : nat) (s : t) : Prop :=
  ∃ es s', (length es <= n)%nat ∧ steps es s = Some s' ∧ stopping s' = None ∧
    concat (batches s').*1 = accepted s ∧ Tracer.buffer (queue s') = [].

Lemma returns_after e s s' n :
  step e s = Some s' → accepted s' = accepted s → returns n s' → returns (S n) s.
Proof.
  intros He Ha (es & s2 & Hn & Hes & Hst & Hb & Hq). exists (e :: es), s2. rewrite <- Ha.
  split_and!; try done; [cbn; lia|]. cbn. by rewrite He.
Qed.

Lemma drain_returns s : stopping s = Some Draining → conserved s → returns 2 s.
Proof.
  intros Hst [_ Hs _ _ Hd]. unfold disciplined in Hd. rewrite Hst in Hd. destruct Hd as [_ Hw].
  unfold in_flight in Hs. rewrite Hst, Hw in Hs. cbn in Hs.
  destruct (Tracer.buffer (queue s)) as [|x l] eqn:Hq.
  - exists [Drain]. cbn. unfold lifecycle. rewrite Hst, Hq. cbn. eexists. split_and!; try done; [lia|].
    cbn. by rewrite Hs, app_nil_r.
  - exists [Drain; Flushed true]. cbn. unfold lifecycle. rewrite Hst, Hq. cbn. eexists. split_and!; try done.
    cbn. by rewrite batches_app.
Qed.

Lemma join_returns s : stopping s = Some Joining → worker s = Some Ended → conserved s → returns 3 s.
Proof.
  intros Hst Hw Hco.
  assert (Hj : lifecycle Join s = Some (mk (queue s) (running s) None (Some Draining) (batches s) (accepted s)))
    by (unfold lifecycle; by rewrite Hst, Hw).
  apply (returns_after Join _ _ _ Hj); [done|]. apply drain_returns; [done|]. by eapply lifecycle_conserved.
Qed.

Lemma test_returns s :
  stopping s = Some Joining → worker s = Some Testing → running s = false → conserved s → returns 4 s.
Proof.
  intros Hst Hw Hr Hco.
  assert (He : exporter_loop Test s = Some (mk (queue s) false (Some Ended) (Some Joining) (batches s) (accepted s)))
    by (unfold exporter_loop; by rewrite Hw, Hr, Hst).
  apply (returns_after Test _ _ _ He); [done|]. apply join_returns; [done..|]. by eapply exporter_conserved.
Qed.

Lemma export_returns batch s :
  stopping s = Some Joining → worker s = Some (Exporting batch) → running s = false → conserved s → returns 5 s.
Proof.
  intros Hst Hw Hr Hco.
  assert (He : ∃ s', exporter_loop (Exported true) s = Some s' ∧ stopping s' = Some Joining ∧ worker s' = Some Testing ∧
                     running s' = false ∧ accepted s' = accepted s) by (unfold exporter_loop; rewrite Hw, Hr, Hst; eauto 10).
  destruct He as (s' & He & Hst' & Hw' & Hr' & Ha). apply (returns_after (Exported true) _ _ _ He); [done|].
  apply test_returns; [done..|]. by eapply exporter_conserved.
Qed.

(** [stop] returns: whatever the worker is doing, at most six steps of the
    worker and of [stop] itself bring it to its end. *)
Lemma stop_returns s : conserved s → stopping s = Some Joining → returns 6 s.
Proof.
  intros Hco Hst. pose proof (co_disciplined s Hco) as Hd. unfold disciplined in Hd. rewrite Hst in Hd.
  destruct Hd as [Hr [ph Hw]].
  assert (Hmono : ∀ n, (n <= 6)%nat → returns n s → returns 6 s).
  { intros n Hn (es & s' & Hl & Hrest). exists es, s'. split; [lia|exact Hrest]. }
  destruct ph as [| |batch|].
  - apply (Hmono 4%nat); [lia|by apply test_returns].
  - assert (He : ∃ s', exporter_loop Wake s = Some s' ∧ stopping s' = Some Joining ∧ running s' = false ∧
                       accepted s' = accepted s ∧ (worker s' = Some Testing ∨ ∃ batch, worker s' = Some (Exporting batch)))
      by (unfold exporter_loop; rewrite Hw; destruct (Tracer.buffer (queue s)); rewrite ?Hr; eexists; split_and!; eauto).
    destruct He as (s' & He & Hst' & Hr' & Ha & Hph). pose proof (exporter_conserved _ _ _ Hco He) as Hco'.
    destruct Hph as [Hw'|[batch Hw']].
    + apply (Hmono 5%nat); [lia|]. apply (returns_after Wake _ _ _ He); [done|by apply test_returns].
    + apply (returns_after Wake _ _ _ He); [done|by eapply export_returns].
  - apply (Hmono 5%nat); [lia|by eapply export_returns].
  - apply (Hmono 3%nat); [lia|by apply join_returns].
Qed.
End Conservation.
End ExportFacts.


(** A worker that is exporting its first span when [stop] is called, with a
    second one queued. *)
Module ExportSample.
Definition options : Tracer.Options := Tracer.mk_options true 1%Q 1 8.
Definition events : list ExportThread.Event :=
  [ExportThread.Start; ExportThread.Submit Span.no_data; ExportThread.Test; ExportThread.Wake; ExportThread.Submit Span.no_data;
   ExportThread.Stop].
Definition stopped : ExportThread.t :=
  default (ExportThread.make options) (ExportFacts.steps events (ExportThread.make options)).

Lemma stopped_reachable : ExportThread.reachable options stopped.
Proof.
  apply (ExportFacts.steps_reachable _ events (ExportThread.make options)); [apply ExportThread.reachable_make|].
  vm_compute. reflexivity.
Qed.
End ExportSample.

