(* ===== verification/Operations.v ===== *)
(** * Operations: the probes and the pages for operators

    Models src/controllers/health_controller.cpp,
    src/controllers/docs_controller.cpp and the latency probe of
    src/application.cpp.  What the cache answers to a probe is given, as its
    client may throw; the database is the one of the services' world. *)

From Stdlib Require Import QArith.
From S2P Require Import Prelude Text Json Errors Config Tracing Jobs Database Protocol Metrics OpenApi Edge.
Open Scope string_scope.
Open Scope Z_scope.

(** [pqxx::work] with [SELECT 1] on a leased connection. *)
Definition select_one : M World exn unit := with_transaction (mret ()).

Module HealthController.
(* include/rtc/controllers/health_controller.hpp:72-75, CheckResult *)
Record CheckResult := mk { healthy : bool; detail : string }.

(* src/controllers/health_controller.cpp:13-26, HealthController::database_check *)
Definition database_check (pool : bool) (w : World) : CheckResult * World :=
  if negb pool then (mk true "not_configured", w)
  else match select_one w with
       | (Ok _, w) => (mk true "up", w)
       | (Err _, w) => (mk false "down", w)
       end.

(** What the store's [set] and, after it, its [get] do. *)
(* src/controllers/health_controller.cpp:28-42, HealthController::cache_check *)
Definition cache_check (cache : option (result exn unit * result exn (option string))) : CheckResult :=
  match cache with
  | None => mk true "not_configured"
  | Some (Err _, _) => mk false "down"
  | Some (Ok _, Err _) => mk false "down"
  | Some (Ok _, Ok (Some _)) => mk true "up"
  | Some (Ok _, Ok None) => mk false "read_failed"
  end.

(* src/controllers/health_controller.cpp:44-55, HealthController::worker_check *)
Definition worker_check {T} (executor : option (BackgroundExecutor.State T)) : CheckResult :=
  match executor with
  | None => mk true "not_configured"
  | Some e =>
      if negb (BackgroundExecutor.running e) then mk false "stopped"
      else if (BackgroundExecutor.worker_count e =? 0)%nat then mk false "no_workers"
      else mk true "up"
  end.

(* src/controllers/health_controller.cpp:57-62, HealthController::scheduler_check *)
Definition scheduler_check (scheduler : option bool) : CheckResult :=
  match scheduler with
  | None => mk true "not_configured"
  | Some running => if running then mk true "up" else mk false "stopped"
  end.

(** The collaborators of the controller; the cluster bus as its node id and
    whether it is distributed. *)
Record Wiring (T : Type) := mkWiring {
  pool : bool; cache : option (result exn unit * result exn (option string));
  executor : option (BackgroundExecutor.State T); scheduler : option bool;
  cluster : option (string * bool); started : bool }.
Arguments pool {T} _. Arguments cache {T} _. Arguments executor {T} _. Arguments scheduler {T} _.
Arguments cluster {T} _. Arguments started {T} _.

(* src/controllers/health_controller.cpp:65-74, GET /health *)
Definition health (version app_env : string) : response :=
  json_response 200 (jobj [("status", JStr "ok"); ("service", JStr "realtime-chat");
    ("version", JStr version); ("environment", JStr app_env)]).

(* src/controllers/health_controller.cpp:79-80, GET /health/live *)
Definition live : response := json_response 200 (jobj [("status", JStr "alive")]).

(* src/controllers/health_controller.cpp:85-90, GET /health/startup *)
Definition startup {T} (c : Wiring T) : response :=
  json_response (if started c then 200 else 503)
    (jobj [("status", JStr (if started c then "started" else "starting"))]).

(* src/controllers/health_controller.cpp:94-129, GET /health/ready *)
Definition ready {T} (c : Wiring T) (w : World) : response * World :=
  let '(database, w) := database_check (pool c) w in
  let cache := cache_check (cache c) in
  let workers := worker_check (executor c) in
  let scheduler := scheduler_check (scheduler c) in
  let ok := started c && healthy database && healthy cache && healthy workers && healthy scheduler in
  let checks := jobj [("database", JStr (detail database)); ("cache", JStr (detail cache));
    ("workers", JStr (detail workers)); ("scheduler", JStr (detail scheduler));
    ("bootstrap", JStr (if started c then "complete" else "pending"))] in
  let body := jobj [("status", JStr (if ok then "ready" else "not_ready")); ("checks", checks)] in
  let body := match cluster c with
              | None => body
              | Some (node, distributed) =>
                  jset "cluster" (jobj [("node_id", JStr node); ("distributed", JBool distributed)]) body
              end in
  let body := jset "websocket_protocol" (jobj [("default", JInt (Protocol.to_number Protocol.kDefaultVersion));
                ("current", JInt (Protocol.to_number Protocol.kCurrentVersion))]) body in
  (json_response (if ok then 200 else 503) body, w).
End HealthController.

Module DocsController.
(* src/controllers/docs_controller.cpp:20-23, docs_enabled *)
Definition docs_enabled (env : Env) : bool :=
  let raw := get_env_or env "RTC_DOCS_ENABLED" "true" in
  negb (String.eqb raw "0" || String.eqb raw "false" || String.eqb raw "no" || String.eqb raw "off").

(* src/controllers/docs_controller.cpp:34-50, DocsController::origin_of *)
Definition origin_of (req : Request) : string :=
  let scheme := get_header_value req "X-Forwarded-Proto" in
  let scheme := if String.eqb scheme "" then "http" else scheme in
  let host := get_header_value req "X-Forwarded-Host" in
  let host := if String.eqb host "" then get_header_value req "Host" else host in
  if String.eqb host "" then "" else scheme +:+ "://" +:+ host.

(* src/controllers/docs_controller.cpp:25-30, not_found *)
Definition not_found `{JsonText} : Resp :=
  set_header "Content-Type" "application/json"
    (set_body (json_dump (make_error_body "not_found" "Documentation endpoints are disabled" ""))
       (set_code 404 no_response)).

(** [literal] is the text of [kOpenApiJson], sent as it stands to a request that
    names no host; the printer is total, so the guard has nothing to catch. *)
(* src/controllers/docs_controller.cpp:55-69, serve_spec *)
Definition serve_spec `{JsonText} (literal : string) (enabled : bool) (req : Request) : Resp :=
  if negb enabled then not_found
  else
    let origin := origin_of req in
    let response := set_body (if String.eqb origin "" then literal else json_dump (openapi_json_for origin))
                      (set_code 200 no_response) in
    let response := set_header "Content-Type" "application/json" response in
    let response := set_header "Cache-Control" "public, max-age=300" response in
    set_header kApiVersionHeader (api_version_label kCurrentApiVersion) response.

(* src/controllers/docs_controller.cpp:80-92, GET /docs *)
Definition docs `{JsonText} (enabled : bool) : Resp :=
  if negb enabled then not_found
  else
    let response := set_body (swagger_ui_html "/openapi.json") (set_code 200 no_response) in
    let response := set_header "Content-Type" "text/html; charset=utf-8" response in
    set_header "X-RTC-CSP-Override" swagger_ui_csp response.
End DocsController.

(** The gauges of the maintenance job; the times taken are given as doubles. *)
(* src/application.cpp:468-492, latency_probe *)
Definition latency_probe {E} (db_seconds cache_seconds : Q)
    (cache : result exn unit * result exn (option string)) (w : World) (r : MetricsRegistry.t E)
    : World * MetricsRegistry.t E :=
  let '(database, w) := select_one w in
  let r := MetricsRegistry.set_gauge "rtc_db_query_seconds"
             (match database with Ok _ => db_seconds | Err _ => (-1)%Q end) r in
  let r := MetricsRegistry.set_gauge "rtc_cache_op_seconds"
             (match cache with (Ok _, Ok _) => cache_seconds | _ => (-1)%Q end) r in
  (w, r).

(** ** What the probes say *)

Lemma select_one_ok (w : World) : faults w = [] → (select_one w).1 = Ok ().
Proof. intros Hf. unfold select_one, with_transaction. by rewrite Hf. Qed.

Lemma cache_healthy c :
  HealthController.healthy (HealthController.cache_check c) = true ↔
  ∀ s g, c = Some (s, g) → is_ok s = true ∧ ∃ v, g = Ok (Some v).
Proof. destruct c as [[[] [[]|]]|]; cbn; naive_solver. Qed.

Lemma workers_healthy {T} (c : option (BackgroundExecutor.State T)) :
  HealthController.healthy (HealthController.worker_check c) = true ↔
  ∀ e, c = Some e → BackgroundExecutor.running e = true ∧ BackgroundExecutor.worker_count e ≠ 0%nat.
Proof.
  destruct c as [e|]; cbn; [|naive_solver].
  destruct (BackgroundExecutor.running e) eqn:Hr; cbn; [|naive_solver].
  destruct (Nat.eqb_spec (BackgroundExecutor.worker_count e) 0); naive_solver.
Qed.

Lemma scheduler_healthy c :
  HealthController.healthy (HealthController.scheduler_check c) = true ↔ c ≠ Some false.
Proof. destruct c as [[]|]; naive_solver. Qed.

(** The instance is ready exactly when bootstrap is complete, the database, if
    wired, answers, the cache keeps what is written to it, and the executor and
    the scheduler run. *)
Lemma ready_iff {T} (c : HealthController.Wiring T) (w : World) :
  status (HealthController.ready c w).1 = 200 ↔
  HealthController.started c = true ∧
  (HealthController.pool c = true → is_ok (select_one w).1 = true) ∧
  (∀ s g, HealthController.cache c = Some (s, g) → is_ok s = true ∧ ∃ v, g = Ok (Some v)) ∧
  (∀ e, HealthController.executor c = Some e →
     BackgroundExecutor.running e = true ∧ BackgroundExecutor.worker_count e ≠ 0%nat) ∧
  HealthController.scheduler c ≠ Some false.
Proof.
  rewrite <- cache_healthy, <- workers_healthy, <- scheduler_healthy.
  assert (Hdb : HealthController.healthy (HealthController.database_check (HealthController.pool c) w).1 = true
                ↔ (HealthController.pool c = true → is_ok (select_one w).1 = true)).
  { unfold HealthController.database_check. destruct (HealthController.pool c); cbn [negb]; [|naive_solver].
    destruct (select_one w) as [[] ?]; cbn; naive_solver. }
  rewrite <- Hdb. unfold HealthController.ready.
  destruct (HealthController.database_check _ w) as [d w']. cbn [fst status json_response].
  rewrite <- !andb_true_iff, !andb_assoc.
  by destruct (HealthController.started c && _ && _ && _ && _).
Qed.

Lemma step_worker_count {T} (throws : T → bool) a (s s' : BackgroundExecutor.State T) :
  BackgroundExecutor.step throws a s = Some s' →
  BackgroundExecutor.worker_count s' = BackgroundExecutor.worker_count s.
Proof.
  destruct a; cbn;
    unfold BackgroundExecutor.start, BackgroundExecutor.submit, BackgroundExecutor.notify_one,
      BackgroundExecutor.stop_flag, BackgroundExecutor.stop_notify, BackgroundExecutor.stop_joined,
      BackgroundExecutor.lock, BackgroundExecutor.test, BackgroundExecutor.park,
      BackgroundExecutor.spurious_wake, BackgroundExecutor.take_, BackgroundExecutor.finish;
    intros Hs; repeat (simplify_option_eq; case_match); by simplify_option_eq.
Qed.

(** The configured number of workers is at least one and never changes, so the
    probe cannot report that there are none. *)
Lemma no_workers_unreachable {T} (throws : T → bool) n acts (s : BackgroundExecutor.State T) :
  BackgroundExecutor.run throws acts (BackgroundExecutor.make n) = Some s →
  HealthController.detail (HealthController.worker_check (Some s)) ≠ "no_workers".
Proof.
  intros Hrun.
  assert (Hcount : BackgroundExecutor.worker_count s ≠ 0%nat).
  { assert (H0 : BackgroundExecutor.worker_count (BackgroundExecutor.make (T:=T) n) ≠ 0%nat) by (by destruct n).
    revert H0 Hrun. generalize (BackgroundExecutor.make (T:=T) n).
    induction acts as [|a acts IH]; intros s0 H0 Hrun; cbn in Hrun; [by simplify_eq|].
    destruct (BackgroundExecutor.step throws a s0) as [s1|] eqn:Hs; [|done].
    apply (IH s1); [|done]. by rewrite (step_worker_count _ _ _ _ Hs). }
  cbn. destruct (negb _); [done|]. by destruct (Nat.eqb_spec (BackgroundExecutor.worker_count s) 0).
Qed.

(** ** The documentation pages *)

Section Documentation.
Context `{JsonText}.

(** The viewer leaves with its own content policy and without the header that
    asked for it; every other header of the hardening stays. *)
Lemma docs_policy origins :
  let sent := SecurityMiddleware.after_handle origins (DocsController.docs true) in
  header_of sent "Content-Security-Policy" = Some swagger_ui_csp ∧
  header_of sent SecurityMiddleware.kCspOverrideHeader = None ∧ header_of sent "X-Frame-Options" = Some "DENY".
Proof. split_and!; vm_compute; reflexivity. Qed.

(** The cached specification depends on the request: whoever names a host in
    [X-Forwarded-Host] is answered with a document whose only server is that
    host, marked as one any shared cache may serve to the others. *)
Lemma spec_names_the_sender literal req host :
  get_header_value req "X-Forwarded-Host" = host → host ≠ "" →
  let sent := DocsController.serve_spec literal true req in
  ∃ document scheme, r_body sent = json_dump document ∧
    find document "servers" =
      Some (JArr [jobj [("url", JStr (scheme +:+ "://" +:+ host)); ("description", JStr "This deployment")]]) ∧
    header_of sent "Cache-Control" = Some "public, max-age=300" ∧ header_of sent "Vary" = None.
Proof.
  intros Hh Hne sent.
  set (scheme := if String.eqb (get_header_value req "X-Forwarded-Proto") "" then "http"
                 else get_header_value req "X-Forwarded-Proto").
  assert (Ho : DocsController.origin_of req = scheme +:+ "://" +:+ host).
  { unfold DocsController.origin_of. rewrite Hh. destruct (String.eqb_spec host ""); [done|].
    by destruct (String.eqb_spec host ""). }
  assert (Hs : String.eqb (scheme +:+ "://" +:+ host) "" = false) by by destruct scheme.
  exists (openapi_json_for (scheme +:+ "://" +:+ host)), scheme. split_and!.
  - subst sent. unfold DocsController.serve_spec. rewrite Ho. cbn [negb]. by rewrite Hs.
  - unfold openapi_json_for. rewrite Hs. rewrite find_jset by done. by case_decide.
  - done.
  - done.
Qed.
End Documentation.
