(* ===== verification/Lifecycle.v ===== *)
(** * Lifecycle: the composition root

    Models src/application.cpp, include/rtc/application.hpp and src/main.cpp: the
    objects of the process, the order in which they are built and linked, what
    runs in threads of its own, start-up, shutdown, destruction and the exit
    code.  A member is an object the application owns; a function of the
    application is the list of steps it takes, and a step that follows a pointer
    to a member that is not built yet is a crash.  Any constructor, any thread
    start, the migrations and the server may throw. *)

From stdpp Require Import sorting.
From S2P Require Import Prelude Text Json Errors Validation Config Tracing Jobs Logger Export.
Open Scope string_scope.
Open Scope Z_scope.

Module Application.
(** ** Members *)

(* include/rtc/application.hpp:142-226, Application *)
Inductive Member :=
  | features_ | tracer_ | pool_ | password_hasher_ | token_service_
  | metrics_ | cache_store_ | cache_service_ | presence_cache_ | rate_limiter_ | executor_ | scheduler_
  | file_storage_ | image_processor_ | push_provider_
  | user_repository_ | conversation_repository_ | message_repository_ | read_receipt_repository_
  | attachment_repository_ | reaction_repository_ | notification_repository_ | session_repository_
  | audit_log_repository_ | user_admin_repository_ | message_search_repository_
  | cluster_bus_ | invalidation_publisher_ | presence_publisher_
  | connection_manager_ | presence_service_
  | notification_service_ | notification_dispatcher_ | user_service_ | auth_service_ | attachment_service_
  | conversation_service_ | message_service_ | read_receipt_service_ | reaction_service_ | session_service_
  | authorization_service_ | audit_service_ | search_service_
  | domain_event_dispatcher_ | event_bus_ | audit_subscriber_ | metrics_subscriber_
  | auth_guard_ | event_dispatcher_ | heartbeat_monitor_
  | health_controller_ | auth_controller_ | user_controller_ | conversation_controller_ | message_controller_
  | websocket_controller_ | attachment_controller_ | reaction_controller_ | notification_controller_
  | session_controller_ | metrics_controller_ | search_controller_ | admin_controller_ | docs_controller_
  | app_.

(** In the order of declaration; destruction runs the other way. *)
Definition declared : list Member :=
  [features_; tracer_; pool_; password_hasher_; token_service_;
   metrics_; cache_store_; cache_service_; presence_cache_; rate_limiter_; executor_; scheduler_;
   file_storage_; image_processor_; push_provider_;
   user_repository_; conversation_repository_; message_repository_; read_receipt_repository_;
   attachment_repository_; reaction_repository_; notification_repository_; session_repository_;
   audit_log_repository_; user_admin_repository_; message_search_repository_;
   cluster_bus_; invalidation_publisher_; presence_publisher_;
   connection_manager_; presence_service_;
   notification_service_; notification_dispatcher_; user_service_; auth_service_; attachment_service_;
   conversation_service_; message_service_; read_receipt_service_; reaction_service_; session_service_;
   authorization_service_; audit_service_; search_service_;
   domain_event_dispatcher_; event_bus_; audit_subscriber_; metrics_subscriber_;
   auth_guard_; event_dispatcher_; heartbeat_monitor_;
   health_controller_; auth_controller_; user_controller_; conversation_controller_; message_controller_;
   websocket_controller_; attachment_controller_; reaction_controller_; notification_controller_;
   session_controller_; metrics_controller_; search_controller_; admin_controller_; docs_controller_;
   app_].

Global Instance Member_eq_dec : EqDecision Member.
Proof. solve_decision. Defined.

(** ** Steps *)

Inductive Step :=
  | Make (m : Member) (refs : list Member)      (** [m = std::make_unique<T>(refs...)] *)
  | Call (m : Member) (refs : list Member)      (** [m->f(refs...)], which keeps the references *)
  | Register (m : Member) (later : list Member) (** [m] keeps a callback that uses [later] when it is called *)
  | Require (ms : list Member) (what : string)  (** throws [std::logic_error] if one is missing *)
  | Start (m : Member) | Stop (m : Member)
  | SetTracer (on : bool)                       (** [tracing::set_tracer] *)
  | InitLogging (level format : string) | ShutdownLogging | Log
  | Migrate | Listen | MarkBootstrapped | MarkStarted.

(** What may go wrong outside the program. *)
Record Environment := mkEnv {
  redis_compiled : bool;
  cache_fault : option string; exporter_fault : option string; bus_fault : option string;
  construction : Member → option exn; starting : Member → option exn;
  migration : option exn; serving : option exn }.

(** A step fails by an exception, or by following a null pointer. *)
Inductive Failure := Threw (e : exn) | Crashed.

Record State (R : Type) := mkState {
  made : list Member; links : list (Member * Member); running : list Member;
  tracer_installed : bool; registry : R; bootstrapped : bool; started : bool }.
Arguments mkState {R}. Arguments made {R}. Arguments links {R}. Arguments running {R}.
Arguments tracer_installed {R}. Arguments registry {R}. Arguments bootstrapped {R}. Arguments started {R}.

Section Steps.
Context {R : Type} `{Spdlog R} (env : Environment).

Definition has (m : Member) (a : State R) : bool := bool_decide (m ∈ made a).
Definition has_all (ms : list Member) (a : State R) : bool := forallb (λ m, has m a) ms.
Definition add_links (m : Member) (refs : list Member) (a : State R) : State R :=
  mkState (made a) ((pair m <$> refs) ++ links a) (running a) (tracer_installed a) (registry a) (bootstrapped a) (started a).
Definition add_member (m : Member) (a : State R) : State R :=
  mkState (m :: made a) (links a) (running a) (tracer_installed a) (registry a) (bootstrapped a) (started a).
Definition set_running (ms : list Member) (a : State R) : State R :=
  mkState (made a) (links a) ms (tracer_installed a) (registry a) (bootstrapped a) (started a).
Definition set_installed (b : bool) (a : State R) : State R :=
  mkState (made a) (links a) (running a) b (registry a) (bootstrapped a) (started a).
Definition set_registry (r : R) (a : State R) : State R :=
  mkState (made a) (links a) (running a) (tracer_installed a) r (bootstrapped a) (started a).

Definition throwing (e : option exn) (a a' : State R) : option Failure * State R :=
  match e with Some e => (Some (Threw e), a) | None => (None, a') end.

(** [RTC_LOG_...]: calls a member function of the logger found. *)
Definition log (a : State R) : option Failure * State R :=
  match Logger.get (registry a) with Some _ => (None, a) | None => (Some Crashed, a) end.

Definition exec_step (s : Step) (a : State R) : option Failure * State R :=
  match s with
  | Make m refs =>
      if has_all refs a then throwing (construction env m) a (add_links m refs (add_member m a)) else (Some Crashed, a)
  | Call m refs => if has_all (m :: refs) a then (None, add_links m refs a) else (Some Crashed, a)
  | Register m later => if has m a then (None, add_links m later a) else (Some Crashed, a)
  | Require ms what => if has_all ms a then (None, a) else (Some (Threw (Std what)), a)
  | Start m =>
      if has m a then throwing (starting env m) a (set_running (m :: running a) a) else (Some Crashed, a)
  | Stop m =>
      if has m a then
        if bool_decide (m ∈ running a) then
          let a := set_running (base.filter (λ x, x ≠ m) (running a)) a in
          if bool_decide (m = executor_) then log a else (None, a)
        else (None, a)
      else (Some Crashed, a)
  | SetTracer on => (None, set_installed (on && has tracer_ a) a)
  | InitLogging level format => (None, set_registry (Logger.init level format (registry a)) a)
  | ShutdownLogging => (None, set_registry (Logger.shutdown (registry a)) a)
  | Log => log a
  | Migrate => if has pool_ a then throwing (migration env) a a else (Some Crashed, a)
  | Listen => if has app_ a then throwing (serving env) a a else (Some Crashed, a)
  | MarkBootstrapped =>
      (None, mkState (made a) (links a) (running a) (tracer_installed a) (registry a) true (started a))
  | MarkStarted =>
      if has health_controller_ a
      then (None, mkState (made a) (links a) (running a) (tracer_installed a) (registry a) (bootstrapped a) true)
      else (Some Crashed, a)
  end.

(** Steps up to the first that fails. *)
Fixpoint exec (l : list Step) (a : State R) : option Failure * State R :=
  match l with
  | [] => (None, a)
  | s :: l => match exec_step s a with (None, a) => exec l a | failed => failed end
  end.
End Steps.

(** ** Choosing implementations *)

Inductive CacheBackend := RedisBackend | InMemoryBackend.
Inductive Exporter := LoggingExporter | OtlpExporter (format : TraceWireFormat).
Inductive Bus := RedisBus | NullBus.

(* src/application.cpp:55-66, make_cache_store *)
Definition make_cache_store (env : Environment) (config : Config.t) : CacheBackend :=
  if Config.redis_enabled config && redis_compiled env
  then match cache_fault env with None => RedisBackend | Some what => InMemoryBackend end
  else InMemoryBackend.

(* src/application.cpp:71-89, make_span_exporter *)
Definition make_span_exporter (env : Environment) (config : Config.t) : Exporter :=
  if String.eqb (Config.tracing_exporter config) "logging" then LoggingExporter
  else match exporter_fault env with
       | None => OtlpExporter (parse_wire_format (Config.tracing_exporter config))
       | Some what => LoggingExporter
       end.

(* src/application.cpp:94-113, make_cluster_bus *)
Definition make_cluster_bus (env : Environment) (config : Config.t) : Bus :=
  if Config.cluster_enabled config && redis_compiled env
  then match bus_fault env with None => RedisBus | Some what => NullBus end
  else NullBus.

Section Functions.
Context (env : Environment) (config : Config.t).

(** [cluster_bus_->is_distributed()]. *)
Definition distributed : bool := match make_cluster_bus env config with RedisBus => true | NullBus => false end.

(** ** Wiring *)

(** [tracer_->start()] starts a thread if tracing is enabled. *)
(* src/application.cpp:149-173, Application::wire_observability *)
Definition wire_observability : list Step :=
  [Make features_ []; Call features_ []; Log; Make tracer_ []; SetTracer true]
  ++ (if Config.tracing_enabled config then [Start tracer_; Log] else [Call tracer_ []]).

(* src/application.cpp:196-200, Application::wire_cluster_presence *)
Definition wire_cluster_presence : list Step :=
  [Make presence_publisher_ [cluster_bus_]; Call presence_service_ [presence_publisher_];
   Call cluster_bus_ [presence_service_]].

(** [set_cluster_bus] keeps the bus and subscribes the manager's handler to it. *)
(* src/application.cpp:175-194, Application::wire_cluster_bus *)
Definition wire_cluster_bus : list Step :=
  [Make cluster_bus_ []]
  ++ (if negb distributed then []
      else [Call connection_manager_ [cluster_bus_]; Register cluster_bus_ [connection_manager_]]
           ++ wire_cluster_presence).

(* src/application.cpp:202-253, Application::wire_cluster_invalidation *)
Definition wire_cluster_invalidation : list Step :=
  [Require [authorization_service_; cache_service_]
     ("wire_cluster_invalidation() called before AuthorizationService/CacheService were "
        +:+ "constructed; it must run after the service graph is complete");
   Make invalidation_publisher_ [cluster_bus_]; Call authorization_service_ [invalidation_publisher_];
   Call cache_service_ [invalidation_publisher_]; Register cluster_bus_ [authorization_service_; cache_service_]].

(** The bus hands its subscribers to the dispatcher. *)
(* src/application.cpp:255-274, Application::wire_event_subscribers *)
Definition wire_event_subscribers : list Step :=
  [Make audit_subscriber_ [audit_service_; features_]; Call event_bus_ [];
   Call domain_event_dispatcher_ [audit_subscriber_];
   Make metrics_subscriber_ []; Register metrics_subscriber_ [metrics_]; Call event_bus_ [];
   Call domain_event_dispatcher_ [metrics_subscriber_]; Log].

(* src/application.cpp:276-281, Application::run_migrations *)
Definition run_migrations : list Step := [Log; Migrate].

(* src/application.cpp:284-318, Application::wire_object_graph (infrastructure, repositories) *)
Definition wire_infrastructure : list Step :=
  [Make password_hasher_ []; Make token_service_ []; Make metrics_ []; Log; Make cache_store_ [];
   Make cache_service_ [cache_store_]; Make presence_cache_ [cache_store_]; Make rate_limiter_ [cache_store_];
   Make executor_ []; Make scheduler_ []; Make file_storage_ []; Make image_processor_ []; Make push_provider_ [];
   Make user_repository_ [pool_]; Make conversation_repository_ [pool_]; Make message_repository_ [pool_];
   Make read_receipt_repository_ [pool_]; Make attachment_repository_ [pool_]; Make reaction_repository_ [pool_];
   Make notification_repository_ [pool_]; Make session_repository_ [pool_]; Make audit_log_repository_ [pool_];
   Make user_admin_repository_ [pool_]; Make message_search_repository_ [pool_]].

(* src/application.cpp:320-408, Application::wire_object_graph (realtime, services) *)
Definition wire_services : list Step :=
  [Make connection_manager_ []; Make presence_service_ []] ++ wire_cluster_bus ++
  [Make domain_event_dispatcher_ []; Make event_bus_ [domain_event_dispatcher_; executor_];
   Make notification_service_ [notification_repository_; connection_manager_; push_provider_; executor_; metrics_];
   Make notification_dispatcher_ [notification_service_];
   Make user_service_ [user_repository_; password_hasher_]; Make auth_service_ [user_service_; token_service_];
   Make attachment_service_ [attachment_repository_; message_repository_; conversation_repository_; file_storage_;
                             image_processor_; executor_; metrics_];
   Make conversation_service_ [conversation_repository_; user_repository_; connection_manager_;
                               notification_dispatcher_];
   Make message_service_ [message_repository_; conversation_repository_; connection_manager_;
                          notification_dispatcher_; attachment_service_];
   Call conversation_service_ [event_bus_]; Call message_service_ [event_bus_];
   Make read_receipt_service_ [read_receipt_repository_; conversation_repository_; message_repository_;
                               connection_manager_];
   Make reaction_service_ [reaction_repository_; message_repository_; conversation_repository_;
                           connection_manager_; notification_dispatcher_];
   Make session_service_ [session_repository_; token_service_];
   Make authorization_service_ [user_admin_repository_; cache_store_];
   Make audit_service_ [audit_log_repository_; user_repository_];
   Make search_service_ [message_search_repository_; features_]]
  ++ (if distributed then wire_cluster_invalidation else []) ++
  [Make auth_guard_ [token_service_]; Call auth_guard_ [authorization_service_];
   Make event_dispatcher_ [connection_manager_; presence_service_; conversation_service_; message_service_;
                           read_receipt_service_];
   Call event_dispatcher_ [features_]; Call event_dispatcher_ [event_bus_];
   Make heartbeat_monitor_ [connection_manager_]].

(* src/application.cpp:410-492, Application::wire_object_graph (controllers, maintenance) *)
Definition wire_controllers : list Step :=
  [Make health_controller_ []; Call health_controller_ [pool_; cache_store_];
   Call health_controller_ [executor_; scheduler_]; Call health_controller_ [cluster_bus_];
   Make auth_controller_ [auth_service_; user_service_; session_service_; auth_guard_];
   Call auth_controller_ [event_bus_]; Make user_controller_ [user_service_; auth_guard_];
   Make conversation_controller_ [conversation_service_; auth_guard_];
   Make message_controller_ [message_service_; auth_guard_];
   Make websocket_controller_ [token_service_; event_dispatcher_];
   Make attachment_controller_ [attachment_service_; auth_guard_; rate_limiter_];
   Make reaction_controller_ [reaction_service_; auth_guard_];
   Make notification_controller_ [notification_service_; auth_guard_];
   Make session_controller_ [session_service_; auth_guard_]; Make metrics_controller_ [metrics_];
   Make search_controller_ [search_service_; auth_guard_]; Make docs_controller_ [];
   Make admin_controller_ [auth_guard_; authorization_service_; audit_service_; session_service_;
                           user_admin_repository_; conversation_repository_; connection_manager_; cache_service_;
                           executor_; metrics_; features_; event_bus_];
   Make app_ []; Call app_ []; Call app_ [metrics_];
   Register scheduler_ [cache_store_]; Register scheduler_ [session_service_];
   Register scheduler_ [pool_; metrics_; cache_store_]].

(* src/application.cpp:283-493, Application::wire_object_graph *)
Definition wire_object_graph : list Step := wire_infrastructure ++ wire_services ++ wire_controllers.

(* src/application.cpp:495-559, Application::register_metrics *)
Definition register_metrics : list Step :=
  Call metrics_ [] ::
  ((λ later, Register metrics_ later) <$>
    [[connection_manager_]; [presence_service_]; [cache_service_]; [metrics_]; []; [executor_]; [event_bus_];
     [event_bus_]; [domain_event_dispatcher_]; [authorization_service_]; [authorization_service_]; [tracer_];
     [tracer_]; [tracer_]; [cluster_bus_]; [cluster_bus_]]).

(** Each controller gives the server handlers that use it. *)
Definition routes_of (controller : Member) : list Step := [Call controller []; Register app_ [controller]].

(* src/application.cpp:561-581, Application::register_routes *)
Definition register_routes : list Step :=
  c ← [health_controller_; auth_controller_; user_controller_; conversation_controller_; message_controller_;
       websocket_controller_; attachment_controller_; reaction_controller_; notification_controller_;
       session_controller_; metrics_controller_; search_controller_; admin_controller_; docs_controller_];
  routes_of c.

(* src/application.cpp:126-147, Application::bootstrap *)
Definition bootstrap : list Step :=
  [InitLogging (Config.log_level config) (Config.log_format config); Log; Log] ++ wire_observability
  ++ [Make pool_ []] ++ run_migrations ++ wire_object_graph ++ wire_event_subscribers ++ register_routes
  ++ register_metrics ++ [MarkBootstrapped; Log].

(** ** Start-up, shutdown and destruction *)

(** [NullClusterBus::start] and [stop] do nothing. *)
Definition start_bus : Step := if distributed then Start cluster_bus_ else Call cluster_bus_ [].

(** The server blocks in [Listen] until it is told to stop. *)
(* src/application.cpp:587-599, Application::run (start-up) *)
Definition start_up : list Step :=
  [Start executor_; Start scheduler_; Start heartbeat_monitor_; start_bus; MarkStarted; Log; Log; Call app_ []; Listen].

(* src/application.cpp:600-609, Application::run (shutdown) *)
Definition shut_down : list Step :=
  [Log; Stop cluster_bus_; Stop heartbeat_monitor_; Stop scheduler_; Stop executor_; SetTracer false; Stop tracer_].

(* src/application.cpp:583-612, Application::run *)
Definition run {R} (a : State R) : list Step :=
  (if negb (bootstrapped a) then bootstrap else []) ++ start_up ++ shut_down ++ [ShutdownLogging].

(* src/application.cpp:614-623, Application::migrate *)
Definition migrate : list Step :=
  [InitLogging (Config.log_level config) (Config.log_format config); Log; Make pool_ []] ++ run_migrations
  ++ [Log; ShutdownLogging].

(** [if (m) { ... }]. *)
Definition when {R} (a : State R) (m : Member) (l : list Step) : list Step := if has m a then l else [].

(* src/application.cpp:625-653, Application::stop *)
Definition stop {R} (a : State R) : list Step :=
  when a cluster_bus_ [Stop cluster_bus_] ++ when a heartbeat_monitor_ [Stop heartbeat_monitor_]
  ++ when a scheduler_ [Stop scheduler_] ++ when a executor_ [Stop executor_]
  ++ when a tracer_ [SetTracer false; Stop tracer_] ++ when a app_ [Log; Call app_ []].
End Functions.

(** The members in the order their destructors run. *)
Definition destruction {R} (a : State R) : list Member := base.filter (λ m, m ∈ made a) (reverse declared).

(* src/application.cpp:117-120, Application::Application *)
Definition fresh {R} (r : R) : State R := mkState [] [] [] false r false false.

(* src/application.cpp:122-124, Application::~Application *)
Definition destructor {R} `{Spdlog R} (env : Environment) (a : State R) : option Failure * State R :=
  exec env (stop a) a.
End Application.

(** ** The process *)

Module Process.
Import Application.

Inductive Outcome := Exited (code : Z) | Died.

Definition is_config_exception (e : exn) : bool :=
  match e with App ex => bool_decide (ex_type ex = kConfiguration) | Std _ => false end.

Section Main.
Context {R : Type} `{Spdlog R} (env : Environment).

(** The handlers of [main]: they log, then return the code. *)
(* src/main.cpp:31-42, main (catch) *)
Definition handler (e : exn) (r : R) : Outcome :=
  match Logger.get r with
  | Some _ => Exited (if is_config_exception e then 78 else 1)
  | None => Died
  end.

(* src/main.cpp:24-25, main (migrate_only) *)
Definition migrate_only (vars : Env) (argument : option string) : bool :=
  match argument with Some text => String.eqb text "--migrate" | None => false end
  || String.eqb (get_env_or vars "RTC_MIGRATE_ONLY" "0") "1".

(** The process from its environment variables, first argument and logger
    registry to its end and the state in which the members are destroyed.  An
    exception leaves [run] through the destructor of the application; an
    exception out of a destructor ends the process. *)
(* src/main.cpp:16-43, main *)
Definition main `{Strtod} (vars : Env) (argument : option string) (r : R) : Outcome * State R :=
  let r := Logger.init (get_env_or vars "LOG_LEVEL" "info") (get_env_or vars "LOG_FORMAT" "text") r in
  match Config.load_from_env vars with
  | Err e => (handler e r, fresh r)
  | Ok config =>
      let a := fresh r in
      match exec env (if migrate_only vars argument then migrate config else run env config a) a with
      | (Some Crashed, a) => (Died, a)
      | (failed, a) =>
          match destructor env a with
          | (Some _, a) => (Died, a)
          | (None, a) =>
              (match failed with Some (Threw e) => handler e (registry a) | _ => Exited 0 end, a)
          end
      end
  end.
End Main.
End Process.

(** ** No null pointer is followed *)

Module LifecycleFacts.
Import Application Process.

(** A check of a list of steps against the members built so far: every pointer
    it follows is to a member built before, and no guard is tripped.  It answers
    with the members built after. *)
Fixpoint checked (built : list Member) (l : list Step) : option (list Member) :=
  match l with
  | [] => Some built
  | s :: l =>
      let known := forallb (λ m, bool_decide (m ∈ built)) in
      match s with
      | Make m refs => if known refs then checked (m :: built) l else None
      | Call m refs => if known (m :: refs) then checked built l else None
      | Register m _ | Start m | Stop m => if known [m] then checked built l else None
      | Require ms _ => if known ms then checked built l else None
      | Migrate => if known [pool_] then checked built l else None
      | Listen => if known [app_] then checked built l else None
      | MarkStarted => if known [health_controller_] then checked built l else None
      | SetTracer _ | InitLogging _ _ | Log | MarkBootstrapped => checked built l
      | ShutdownLogging => None
      end
  end.

(** What runs in threads of its own. *)
Definition threads : list Member := [cluster_bus_; heartbeat_monitor_; scheduler_; executor_; tracer_].
Definition threads_only (l : list Step) : bool :=
  forallb (λ s, match s with Start m => bool_decide (m ∈ threads) | _ => true end) l.

Section Facts.
Context {R : Type} `{L : SpdlogLaws R} (env : Environment).

(** Logging works; what runs is built and is one of [threads]; the tracer in use
    is built. *)
Record Sound (a : State R) : Prop := {
  sound_log : Logger.get (registry a) ≠ None;
  sound_threads : running a ⊆ threads;
  sound_made : running a ⊆ made a;
  sound_tracer : tracer_installed a = true → tracer_ ∈ made a
}.

(** The exceptions the environment may cause. *)
Definition origin (e : exn) : Prop :=
  (∃ m, construction env m = Some e ∨ starting env m = Some e) ∨ migration env = Some e ∨ serving env = Some e.

Definition verdict (P : State R → Prop) (r : option Failure * State R) : Prop :=
  match r with
  | (None, a) => P a
  | (Some (Threw e), a) => Sound a ∧ origin e
  | (Some Crashed, a) => False
  end.

Lemma sound_log_step a : Sound a → log a = (None, a).
Proof. intros [Hl _ _ _]. unfold log. by destruct (Logger.get (registry a)). Qed.

Lemma sound_links a m refs : Sound a → Sound (add_links m refs a).
Proof. by intros []. Qed.
Lemma sound_member a m : Sound a → Sound (add_member m a).
Proof. intros []. split; simpl; [done|done|set_solver|set_solver]. Qed.
Lemma sound_init a level format : Sound a → Sound (set_registry (Logger.init level format (registry a)) a).
Proof. intros []. split; simpl; [by rewrite init_get|done..]. Qed.
Lemma sound_installed a b : Sound a → Sound (set_installed (b && has tracer_ a) a).
Proof. intros []. split; simpl; try done. intros [_ Ht]%andb_prop. by apply bool_decide_eq_true in Ht. Qed.
Lemma sound_start a m : Sound a → m ∈ threads → m ∈ made a → Sound (set_running (m :: running a) a).
Proof. intros [] ? ?. split; simpl; [done|set_solver..|done]. Qed.
Lemma sound_stop a m : Sound a → Sound (set_running (base.filter (λ x, x ≠ m) (running a)) a).
Proof.
  intros []. split; simpl; [done|..|done]; intros x Hx%list_elem_of_filter; set_solver.
Qed.

Lemma step_checked s l a b :
  checked (made a) (s :: l) = Some b → threads_only [s] = true → Sound a →
  verdict (λ a', Sound a' ∧ checked (made a') l = Some b) (exec_step env s a).
Proof.
  intros Hc Ht Ha. pose proof (sound_log_step a Ha) as Hlog.
  destruct s as [m refs|m refs|m later|ms what|m|m|on|level format| | | | | |]; cbn [checked exec_step] in *;
    unfold has_all, has in *.
  - destruct (forallb _ refs); [|done]. unfold throwing. destruct (construction env m) as [e|] eqn:E; simpl.
    + split; [done|]. left. eauto.
    + split; [by apply sound_links, sound_member|done].
  - destruct (forallb _ (m :: refs)); [|done]. split; [by apply sound_links|done].
  - simpl in Hc. rewrite andb_true_r in Hc. destruct (bool_decide _); [|done]. split; [by apply sound_links|done].
  - destruct (forallb _ ms); done.
  - simpl in Hc, Ht. rewrite andb_true_r in Hc, Ht. destruct (bool_decide_reflect (m ∈ made a)) as [Hm|]; [|done].
    unfold throwing. destruct (starting env m) as [e|] eqn:E; simpl.
    + split; [done|]. left. eauto.
    + split; [|done]. apply sound_start; [done| |done]. by apply bool_decide_eq_true in Ht.
  - simpl in Hc. rewrite andb_true_r in Hc. destruct (bool_decide (m ∈ made a)); [|done].
    destruct (bool_decide (m ∈ running a)); [|done]. pose proof (sound_stop a m Ha) as Hs.
    destruct (bool_decide (m = executor_)); [|done]. by rewrite (sound_log_step _ Hs).
  - split; [by apply sound_installed|done].
  - split; [by apply sound_init|done].
  - done.
  - by rewrite Hlog.
  - simpl in Hc. rewrite andb_true_r in Hc. destruct (bool_decide _); [|done]. unfold throwing.
    destruct (migration env) as [e|] eqn:E; simpl; [|done]. split; [done|]. right. by left.
  - simpl in Hc. rewrite andb_true_r in Hc. destruct (bool_decide _); [|done]. unfold throwing.
    destruct (serving env) as [e|] eqn:E; simpl; [|done]. split; [done|]. right. by right.
  - split; [by destruct Ha|done].
  - simpl in Hc. rewrite andb_true_r in Hc. destruct (bool_decide _); [|done]. split; [by destruct Ha|done].
Qed.

Lemma exec_checked l a b :
  checked (made a) l = Some b → threads_only l = true → Sound a →
  verdict (λ a', Sound a' ∧ made a' = b) (exec env l a).
Proof.
  revert a. induction l as [|s l IH]; intros a Hc Ht Ha; [by injection Hc|].
  simpl in Ht. apply andb_prop in Ht as [Hs Hl].
  pose proof (step_checked s l a b Hc) as Hstep. simpl. destruct (exec_step env s a) as [[[e|]|] a'].
  - apply Hstep; [by simpl; rewrite andb_true_r|done].
  - apply Hstep; [by simpl; rewrite andb_true_r|done].
  - apply IH; [..|done|]; apply Hstep; try done; by simpl; rewrite andb_true_r.
Qed.

Lemma exec_app l k a :
  exec env (l ++ k) a = match exec env l a with (None, a') => exec env k a' | failed => failed end.
Proof. revert a. induction l as [|x l IH]; intros a; simpl; [done|]. by destruct (exec_step env x a) as [[]]. Qed.

(** Members as they are when destruction begins: nothing runs and no tracer is
    in use. *)
Definition at_rest (a : State R) : Prop := running a = [] ∧ tracer_installed a = false.

Lemma filter_not_in (m : Member) (l : list Member) : m ∉ l → base.filter (λ x, x ≠ m) l = l.
Proof. intros Hm. induction l as [|x l IH]; [done|]. rewrite filter_cons_True by set_solver. by rewrite IH by set_solver. Qed.

Lemma stop_step m a :
  m ∈ made a → Logger.get (registry a) ≠ None ∨ m ∉ running a →
  exec_step env (Stop m) a = (None, set_running (base.filter (λ x, x ≠ m) (running a)) a).
Proof.
  intros Hm Hl. simpl. unfold has. rewrite bool_decide_true by done. case_bool_decide as Hr.
  - destruct Hl as [Hl|]; [|done]. case_bool_decide; [|done]. unfold log. simpl. by destruct (Logger.get _).
  - rewrite filter_not_in by done. by destruct a.
Qed.

Lemma when_stop m (a0 a : State R) :
  made a0 = made a → running a ⊆ made a → Logger.get (registry a) ≠ None ∨ m ∉ running a →
  exec env (when a0 m [Stop m]) a = (None, set_running (base.filter (λ x, x ≠ m) (running a)) a).
Proof.
  intros He Hr Hl. unfold when, has. rewrite He. case_bool_decide as Hm.
  - cbn [exec]. by rewrite stop_step.
  - rewrite filter_not_in by set_solver. by destruct a.
Qed.

(** The last two guards of [stop]: the tracer, and the server with its message. *)
Lemma when_tracer (a0 a : State R) :
  made a0 = made a → running a ⊆ [tracer_] → running a ⊆ made a → (tracer_installed a = true → tracer_ ∈ made a) →
  ∃ a', exec env (when a0 tracer_ [SetTracer false; Stop tracer_]) a = (None, a') ∧
    at_rest a' ∧ made a' = made a ∧ registry a' = registry a.
Proof.
  intros He Ht Hr Hi. unfold when, has. rewrite He. case_bool_decide as Hm.
  - cbn [exec exec_step]. simpl. unfold has. rewrite bool_decide_true by done.
    case_bool_decide as Hin; [|]; (eexists; split; [reflexivity|]; split; [|done]; split; [|done]); simpl in *.
    + clear -Ht. induction (running a) as [|x l IH]; [done|].
      assert (x = tracer_) as -> by set_solver. rewrite filter_cons_False by tauto. apply IH. set_solver.
    + destruct (running a) as [|x l]; [done|]. assert (x = tracer_) as -> by set_solver. set_solver.
  - exists a. split; [done|]. split; [|done]. split; [|destruct (tracer_installed a); [exfalso; by apply Hm, Hi|done]].
    destruct (running a) as [|x l]; [done|]. assert (x = tracer_) as -> by set_solver. set_solver.
Qed.

Lemma stop_run a :
  running a ⊆ threads → running a ⊆ made a → (tracer_installed a = true → tracer_ ∈ made a) →
  Logger.get (registry a) ≠ None ∨ running a = [] →
  ∃ a', exec env (stop a) a = exec env (when a app_ [Log; Call app_ []]) a' ∧
    at_rest a' ∧ made a' = made a ∧ registry a' = registry a.
Proof.
  intros Ht Hm Hi Hl. unfold stop.
  assert (Hl' : ∀ m, Logger.get (registry a) ≠ None ∨ m ∉ running a)
    by (intros m; destruct Hl as [|E]; [by left|right; rewrite E; set_solver]).
  pose (drop m (x : State R) := set_running (base.filter (λ y, y ≠ m) (running x)) x).
  assert (Hstop : ∀ m k x, made x = made a → registry x = registry a → running x ⊆ running a →
    exec env (when a m [Stop m] ++ k) x = exec env k (drop m x)).
  { intros m k x Hx Hg Hr. rewrite exec_app, when_stop; [done|done|rewrite Hx; set_solver|].
    rewrite Hg. destruct (Hl' m) as [|Hn]; [by left|right; set_solver]. }
  assert (Hdrop : ∀ m x, running (drop m x) ⊆ running x).
  { intros m x y Hy. simpl in Hy. by apply list_elem_of_filter in Hy as []. }
  rewrite !Hstop; try done; try (repeat (etrans; [apply Hdrop|]); done).
  set (a4 := drop executor_ _).
  destruct (when_tracer a a4) as (a' & E & Hrest & Hmade & Hreg); [done| | |done|].
  { intros y Hy. unfold a4, drop in Hy. simpl in Hy. rewrite !list_elem_of_filter in Hy. set_solver. }
  { etrans; [repeat (etrans; [apply Hdrop|]); reflexivity|done]. }
  rewrite exec_app, E. eauto.
Qed.

(** Stopping a sound application leaves it at rest. *)
Lemma destructor_sound a :
  Sound a → ∃ a', destructor env a = (None, a') ∧ at_rest a' ∧ Logger.get (registry a') ≠ None.
Proof.
  intros [Hl Ht Hm Hi]. destruct (stop_run a) as (a' & E & [Hr1 Hr2] & Hmade & Hreg); try done; [by left|].
  unfold destructor. rewrite E. unfold when, has. case_bool_decide as Ha.
  - cbn [exec exec_step]. unfold log. rewrite Hreg. destruct (Logger.get (registry a)) eqn:Eg; [|done].
    simpl. unfold has. rewrite Hmade, bool_decide_true by done. simpl.
    eexists. split; [reflexivity|]. split; [done|]. simpl. by rewrite Hreg, Eg.
  - exists a'. split; [done|]. split; [done|]. by rewrite Hreg.
Qed.

(** After the logger is gone, the message of [stop] follows a null pointer. *)
Lemma destructor_unlogged a :
  at_rest a → Logger.get (registry a) = None → app_ ∈ made a →
  ∃ a', destructor env a = (Some Crashed, a') ∧ at_rest a'.
Proof.
  intros [Hr Hi] Hg Ha. destruct (stop_run a) as (a' & E & Hrest & Hmade & Hreg);
    [rewrite Hr; set_solver|rewrite Hr; set_solver|by rewrite Hi|by right|].
  unfold destructor. rewrite E. unfold when, has. rewrite bool_decide_true by done.
  cbn [exec exec_step]. unfold log. rewrite Hreg, Hg. eauto.
Qed.

(** Ending [run]: everything that was started is stopped. *)
Lemma shut_down_run a :
  Sound a → threads ⊆ made a →
  ∃ a', exec env shut_down a = (None, a') ∧ at_rest a' ∧ made a' = made a ∧ registry a' = registry a.
Proof.
  intros Ha Hm. assert (Hl := sound_log a Ha).
  pose (drop m (x : State R) := set_running (base.filter (λ y, y ≠ m) (running x)) x).
  assert (Hstop : ∀ m l x, bool_decide (m ∈ threads) = true → made x = made a → registry x = registry a →
    exec env (Stop m :: l) x = exec env l (drop m x)).
  { intros m l x Hin%bool_decide_eq_true Hx Hg. cbn [exec]. rewrite stop_step; [done|rewrite Hx; by apply Hm|].
    left. by rewrite Hg. }
  assert (Hlog : ∀ l, exec env (Log :: l) a = exec env l a).
  { intros l. cbn [exec]. change (exec_step env Log a) with (log a). by rewrite (sound_log_step a Ha). }
  unfold shut_down. rewrite Hlog, !Hstop by done.
  match goal with |- context [exec env (SetTracer false :: ?l) ?x] =>
    change (exec env (SetTracer false :: l) x) with (exec env l (set_installed false x)) end.
  rewrite Hstop by done. eexists. split; [reflexivity|]. split; [split; [|done]|done]. simpl.
  destruct (base.filter _ _) as [|y l] eqn:E; [done|]. exfalso.
  assert (Hy : y ∈ y :: l) by set_solver. rewrite <- E, !list_elem_of_filter in Hy.
  destruct Hy as (? & ? & ? & ? & ? & Hy%(sound_threads a Ha)). unfold threads in Hy. set_solver.
Qed.

(** Links kept by a list of steps. *)
Definition keeps (s : Step) : list (Member * Member) :=
  match s with Make m ms | Call m ms | Register m ms => pair m <$> ms | _ => [] end.

Lemma exec_links l a a' : exec env l a = (None, a') → ∀ x, x ∈ links a' → x ∈ links a ∨ x ∈ l ≫= keeps.
Proof.
  revert a. induction l as [|s l IH]; intros a E x Hx; simpl in *; [injection E as <-; by left|].
  destruct (exec_step env s a) as [[]a1] eqn:E1; [done|]. apply (IH _ E) in Hx as [Hx|Hx]; [|rewrite elem_of_app; tauto].
  assert (Hk : x ∈ links a ∨ x ∈ keeps s); [|rewrite elem_of_app; tauto]. clear E IH.
  destruct s; simpl in E1; unfold throwing, log in E1; repeat case_match; simplify_eq/=; try tauto;
    rewrite ?elem_of_app in Hx; tauto.
Qed.
End Facts.

(** ** The graph *)

(** Position in the order of declaration. *)
Definition position (m : Member) : nat := default 0%nat (fst <$> list_find (λ x, x = m) declared).
Definition declared_above (target holder : Member) : bool := (position target <? position holder)%nat.

(** The references against that order: the target is destroyed before the member
    that holds it. *)
Definition late : list (Member * Member) :=
  [(conversation_service_, event_bus_); (message_service_, event_bus_); (cache_service_, invalidation_publisher_);
   (domain_event_dispatcher_, audit_subscriber_); (domain_event_dispatcher_, metrics_subscriber_);
   (cluster_bus_, connection_manager_); (cluster_bus_, presence_service_); (cluster_bus_, authorization_service_);
   (scheduler_, session_service_);
   (metrics_, connection_manager_); (metrics_, presence_service_); (metrics_, cache_service_); (metrics_, metrics_);
   (metrics_, executor_); (metrics_, event_bus_); (metrics_, domain_event_dispatcher_);
   (metrics_, authorization_service_); (metrics_, cluster_bus_)].

(** The publishers of a cluster exist if there is one. *)
Definition expected (distributed : bool) : list Member :=
  base.filter (λ m, distributed = true ∨ m ≠ invalidation_publisher_ ∧ m ≠ presence_publisher_) declared.

Ltac cases env config :=
  unfold bootstrap, start_up, start_bus, wire_object_graph, wire_services, wire_cluster_bus, wire_observability;
  destruct (distributed env config), (Config.tracing_enabled config).

Lemma bootstrap_checked env config :
  ∃ b, checked [] (bootstrap env config ++ start_up env config) = Some b ∧ checked [] (bootstrap env config) = Some b ∧
    b ≡ₚ expected (distributed env config) ∧ threads ⊆ b.
Proof.
  cases env config; (eexists; split; [vm_compute; reflexivity|]; split; [vm_compute; reflexivity|];
    split; [apply (bool_decide_unpack _); vm_compute; exact I|]).
  all: intros m Hm; apply (list_elem_of_In); unfold threads in Hm; rewrite list_elem_of_In in Hm; simpl in Hm |- *; tauto.
Qed.
Lemma bootstrap_threads env config : threads_only (bootstrap env config ++ start_up env config) = true.
Proof. cases env config; vm_compute; reflexivity. Qed.

Lemma bootstrap_links env config :
  Forall (λ ht, declared_above ht.2 ht.1 = true ∨ ht ∈ late) (bootstrap env config ≫= keeps).
Proof.
  cases env config; apply (bool_decide_unpack _); vm_compute; exact I.
Qed.
End LifecycleFacts.

Section Theorems.
Context {R : Type} `{L : SpdlogLaws R}.
Import Application Process LifecycleFacts.

Lemma sound_fresh level format (r : R) : Sound (fresh (Logger.init level format r)).
Proof. split; simpl; [by rewrite init_get|set_solver..|done]. Qed.

Lemma handler_logged e (r : R) : Logger.get r ≠ None → handler e r = Exited (if is_config_exception e then 78 else 1).
Proof. unfold handler. by destruct (Logger.get r). Qed.

(** Up to the point where [run] gives the logger up. *)
Lemma served_run env config (a : State R) :
  Sound a → made a = [] →
  verdict env (λ a', at_rest a' ∧ Logger.get (registry a') ≠ None ∧ made a' ≡ₚ expected (distributed env config))
    (exec env (bootstrap env config ++ start_up env config ++ shut_down) a).
Proof.
  intros Ha Hm. destruct (bootstrap_checked env config) as (b & Hc & _ & Hp & Ht). rewrite <- Hm in Hc.
  pose proof (exec_checked env _ a b Hc (bootstrap_threads env config) Ha) as Hv.
  rewrite app_assoc, exec_app. destruct (exec env (bootstrap env config ++ start_up env config) a) as [[[]|] a1]; try done.
  destruct Hv as [Ha1 <-]. destruct (shut_down_run env a1 Ha1 Ht) as (a2 & -> & Hr & Hm2 & Hg2).
  split; [done|]. rewrite Hm2, Hg2. split; [by apply sound_log|done].
Qed.

(** A migration run, up to that point. *)
Definition migrating (config : Config.t) : list Step :=
  ([InitLogging (Config.log_level config) (Config.log_format config); Log; Make pool_ []] ++ run_migrations ++ [Log])%list.

Lemma migrated_run env config (a : State R) :
  Sound a → made a = [] →
  verdict env (λ a', Sound a' ∧ made a' = [pool_])
    (exec env (migrating config) a).
Proof. intros Ha Hm. apply exec_checked; [rewrite Hm; vm_compute; reflexivity|done|done]. Qed.

(** After a migration run only the pool is there, and nothing to stop. *)
Lemma pool_at_rest (a : State R) :
  Sound a → made a = [pool_] →
  at_rest a ∧ ∀ a' : State R, made a' = made a → stop a' = [].
Proof.
  intros [_ Ht Hm Hi] Hmade. rewrite Hmade in Hm, Hi. split; [split|].
  - destruct (running a) as [|x l]; [done|]. assert (x = pool_) as -> by set_solver.
    assert (pool_ ∈ threads) as Hin by set_solver. by apply (bool_decide_eq_true_2 _) in Hin.
  - destruct (tracer_installed a); [|done]. assert (tracer_ ∈ [pool_]) as Hin by by apply Hi. set_solver.
  - intros a' Ha'. unfold stop, when, has. by rewrite Ha', Hmade.
Qed.

(** C34. The objects are built in an order that works.  Whatever fails during
    bootstrap, it fails by the exception of a constructor, of a thread start or
    of the migrations, never by following a pointer to an object that is not
    built yet, and the ordering guard is not tripped.  A bootstrap that succeeds
    has built every member once, the cluster's publishers exactly when the bus is
    distributed; and every reference one member keeps to another is to a member
    declared above it, so destroyed after it, except those of [late]. *)
Theorem wiring_order (env : Environment) (config : Config.t) (level format : string) (r : R) f a :
  exec env (bootstrap env config) (fresh (Logger.init level format r)) = (f, a) →
  match f with
  | None => made a ≡ₚ expected (distributed env config) ∧
      ∀ holder target, (holder, target) ∈ links a →
        declared_above target holder = true ∨ (holder, target) ∈ late
  | Some (Threw e) => origin env e
  | Some Crashed => False
  end.
Proof.
  intros E. pose proof (sound_fresh level format r) as Hs.
  destruct (bootstrap_checked env config) as (b & _ & Hc & Hp & _).
  assert (Ht : threads_only (bootstrap env config) = true).
  { pose proof (bootstrap_threads env config) as H'. unfold threads_only in H'. rewrite forallb_app in H'.
    by apply andb_prop in H' as []. }
  pose proof (exec_checked env _ (fresh (Logger.init level format r)) b Hc Ht Hs) as Hv. rewrite E in Hv. destruct f as [[e|]|]; [by destruct Hv|done|].
  destruct Hv as [_ <-]. split; [done|]. intros h t Hl. apply (exec_links env _ _ _ E) in Hl as [Hl|Hl]; [set_solver|].
  pose proof (bootstrap_links env config) as Hall. rewrite Forall_forall in Hall. exact (Hall _ Hl).
Qed.

End Theorems.

(** ** Samples *)

Module LifecycleSample.
Import Application.
(** Nothing fails; Redis is compiled in. *)
Definition calm : Environment := mkEnv true None None None (λ _, None) (λ _, None) None None.
(** The port is taken. *)
Definition busy : Environment :=
  mkEnv true None None None (λ _, None) (λ _, None) None (Some (Std "bind: address already in use")).
End LifecycleSample.

Lemma wiring_order_witness :
  ∃ config a, Config.load_from_env (H:=ConfigSample.reader) ConfigSample.production = Ok config ∧
    Application.exec LifecycleSample.calm (Application.bootstrap LifecycleSample.calm config)
      (Application.fresh (Logger.init "info" "json" LoggerSample.fresh)) = (None, a) ∧
    Application.made a ≡ₚ LifecycleFacts.expected (Application.distributed LifecycleSample.calm config).
Proof.
  destruct (Config.load_from_env (H:=ConfigSample.reader) ConfigSample.production) as [config|] eqn:Ec; [|by vm_compute in Ec].
  destruct (Application.exec LifecycleSample.calm (Application.bootstrap LifecycleSample.calm config)
    (Application.fresh (Logger.init "info" "json" LoggerSample.fresh))) as [f a] eqn:E.
  exists config, a. split; [done|].
  pose proof (wiring_order LifecycleSample.calm config "info" "json" LoggerSample.fresh f a E) as Hw.
  destruct f as [[e|]|]; [|done|].
  - exfalso. destruct Hw as [[m [Hm|Hm]]|[Hm|Hm]]; discriminate Hm.
  - split; [done|]. exact (proj1 Hw).
Defined.

